(* ===== verification/_CoqProject ===== *)
-Q . S2P
Prelude.v
Json.v
Codec.v
Token.v
License.v
Issuer.v
Manager.v
AuditEvent.v
Notify.v
Tx.v
Plans.v
OrgBilling.v
Hierarchy.v
TagOwnership.v
Duration.v
PolicyTypes.v
Selector.v
Simulate.v
Validate.v
TestRunner.v
Merge.v
Diff.v
Hash.v
ApiKeys.v
Access.v
PostureEval.v
Ip.v
Settings.v
Devices.v
Networks.v
Credentials.v
DocumentFromRows.v
PolicyIr.v
PolicyRules.v
PolicyApi.v
PolicyEntities.v
RustStd.v
NetPolicy.v
Packet.v
Routing.v
Conntrack.v
Acl.v
Firewall.v
DataPlane.v
RustEngine.v
