(* ===== verification/Prelude.v ===== *)
(** * Tunnet verification library

    Tunnet is a mesh VPN: agents on devices, a control plane, and a management
    server with a dashboard.  This library models the parts of the program that
    decide who may do what, translated from the sources under [src/], and
    proves what they promise.

    ** The parts and how they interact

    - The agent ([crates/tunnet-agent], [tunnet-core], [tunnet-common]) moves
      packets between the device and its peers.  Every packet passes routing,
      the anti-spoofing check, the policy engine and the local firewall; the
      policy engine enforces a bundle of rules that the control plane signs.
    - The policy engine of the dashboard ([packages/policy-engine]) reads a
      policy document, validates it, simulates traffic against it, runs the
      tests written in it, merges, compares and hashes documents.  The command
      line has an engine of its own ([crates/tunnet-policy-engine]) that asks
      the evaluator of the agent.
    - The management server ([apps/management]) stores a document in its
      tables and reads it back ([lib/policy-ir.ts]), serves the routes around
      it, and the routes for rules, tag definitions, devices, networks, routes,
      settings and credentials; it resolves sessions and API keys, guards
      roles and tags, evaluates device posture and checks plan limits.  A
      change bumps the version that agents compare with.
    - The license package ([packages/license]) issues, verifies, revokes and
      keeps licenses; the management server asks it for features and limits.

    ** Files

    Shared:
    - [Prelude]: results of fallible code, JavaScript strings, integers in
      text, stable sorting, maps in insertion order, tactics and hints.
    - [Json]: JSON values, [JSON.parse] and [JSON.stringify].
    - [Tx]: transactions of the management server with the audit events they
      send, and the rules to reason about them.
    - [Duration], [Ip]: [management/duration.ts] and [packages/ip].

    Licenses ([packages/license/src]):
    - [Codec], [Token]: UTF-8, base64url and the token of [token.ts].
    - [License]: [verify.ts], [features.ts] and [keyring.ts].
    - [Issuer]: [issuer.ts] and [revocation.ts].
    - [Manager]: [manager.ts], its refreshes as a transition system.

    Policy documents ([packages/policy-engine/src]), one file per source file:
    - [PolicyTypes], [Selector], [Simulate], [Validate], [TestRunner],
      [Merge], [Diff], [Hash], [DocumentFromRows].

    Management server ([apps/management/src], [packages/api/src]):
    - [AuditEvent], [Notify]: [lib/audit.ts] and [lib/notify.ts].
    - [Plans], [OrgBilling]: the plan table, effective plans, capacity checks,
      usage, retention, soft deletion and the organization hooks of [auth.ts].
    - [Hierarchy]: static and custom roles and the hooks of
      [auth/hierarchy-hooks.ts], with the requests as a step relation.
    - [TagOwnership]: who may assign a tag ([lib/tag-ownership.ts]), and the
      tag routes of [api/v1/devices.ts].
    - [ApiKeys], [Access]: how secrets are made and verified, and how a
      request is given a session or a key and is checked
      ([api/v1/middleware]).
    - [PostureEval]: [lib/posture-eval.ts].
    - [Settings], [Devices], [Networks], [Credentials], [PolicyRules],
      [PolicyEntities]: the routes of [api/v1] for settings, for devices, for
      networks with their routes, profiles and node groups, for API keys,
      access tokens and enrollment tokens, for access and SSH rules, and for
      the entities rules refer to.  [Networks] also has the route of the
      control plane with which agents advertise subnets.
    - [PolicyIr], [PolicyApi]: storing and loading documents, and the policy
      routes.

    Agent and command line ([crates]):
    - [RustStd]: texts and numbers as the Rust programs read them.
    - [NetPolicy]: bundles, their evaluation, merge and signature
      ([tunnet-common/src/policy.rs]).
    - [Packet]: packets and the fragment cache ([tunnet-common/src/packet]).
    - [Routing], [Conntrack], [Acl], [Firewall]: [routing.rs], the flow tables,
      [acl.rs] and [direct/firewall.rs] of [tunnet-core].
    - [DataPlane]: the packet loops of [tunnet-agent/src/tun_io.rs] with
      [direct/antispoof.rs] and [direct/auth.rs].
    - [RustEngine]: [tunnet-policy-engine].

    ** How code is modelled

    Code that throws or returns a [Result] returns [result E A].  Tables are
    lists of rows, a transaction maps tables to a result, and constraints of
    the schema are checks at insertion.  A load may read rows in any order and
    [jsonb] keys in any order ([PolicyIr.reads]).  Strings of the policy and
    management code are [string], one character per UTF-16 unit up to 255;
    text that is encoded byte by byte (tokens, JSON, API keys) is a list of
    UTF-16 units.  Numbers are integers; where a double could be inexact or
    fractional the model computes with doubles and rounds.  Times are
    arguments, and so are random bytes and new keys.

    Shared state of the agent is a record, and one packet or one change is one
    step; the packet loops are the composition of such steps, and the
    invariants hold over every sequence of them.  The evaluation of a packet
    by the policy engine is one step, although other threads could run between
    its lookups in the flow table.  Requests to the management server form
    histories, one request after the other.  Where a route checks on an earlier
    read than the database it writes to, the model has both: [seen] and [db] in
    [PolicyApi.applyHandler], [PolicyApi.rollbackHandler] and
    [Networks.createSubnetRoute].  [applyPolicyDocument] also reads the
    networks just before its transaction; the model reads them in it.

    Code outside the repository is a parameter of the definitions, with its
    documented behaviour as named hypotheses and a concrete instance for the
    witnesses: Ed25519, SHA-256, argon2, the id generator, better-auth
    ([Access.AuthLaws], [Hierarchy.PluginLaws]), the ip-address package
    ([Ip.IpLaws]), parse-duration, the text parser of documents, and the crates
    for address blocks, prefix tries and packet building.

    ** What the theorems show

    - Packets: a packet is delivered or sent exactly when all checks let it
      through; what the policy engine or the firewall admits is justified by
      the policy in force or by a flow it opened, and an open flow stays open;
      routing tables follow the slices they are built from and routing chooses
      a proper target; later fragments get the ports of a first one.
    - Bundles and documents: the evaluators decide as specified; the merge of
      bundles enforces the organization's deny rules; decisions are monotone in
      the rules; validation accepts exactly the well-formed documents and
      protects the simulator; the two engines agree; equal hashes are equal
      documents.
    - Storage: what is loaded is what was applied, other organizations are
      untouched, every apply is a revision, a rollback restores it, and the
      routes write only under their guards.
    - Licenses: verification accepts exactly the acceptable tokens, issued
      tokens are among them, and the manager grants only what a token backs
      that verified under all of its options, also when the clock is turned
      back.
    - Access: the owner search terminates and is exact; tags, entities and
      policies change only by requests that may change them; deleted
      organizations are closed; accepted credentials were handed out, and a
      key works from its creation to its expiry or revocation; owners are
      neither gained nor lost by guarded requests.
    - Tables: requests of other organizations change nothing, keys and
      references stay sound, versions identify the rules they cover, removal
      in bulk is removal one by one, settings read back, subnet routes are
      accepted only as checked, and posture results are those of the
      assertions.

    ** Fuel

    The JSON parser runs with the length of the text plus one, which its cost
    function shows to be enough; the owner search runs with one more than the
    number of tag definitions, since every nested call visits a new one.
    Loops over a text (durations, lists in posture assertions, short endpoint
    ids) run with the length of the text or one more, since every iteration
    takes at least one character; the digits of a number are printed with its
    length in binary, plus one.

    ** Not modelled

    User interfaces; the HTTP layer and its schemas beyond what the routes
    read; timers, sockets and network fetching; the bytes of packets, which
    crates slice and build; the text formats of documents; the permission hooks
    in front of the routes of [Settings], [Devices], [Networks], [Credentials]
    and [PolicyRules], of which the models take the requests that were let
    through ([Access] models the hooks); and the rest of the
    Rust programs: the other routes of the control plane, the edge and the
    relay, the desktop shell and the commands of the command line. *)

From Stdlib Require Import DecimalString DecimalN DecimalZ DecimalFacts.
From Stdlib Require Export Ascii ZArith Lia Sorted.
From stdpp Require Export base list strings gmap numbers.

(** ** The result of fallible code

    TypeScript code that may throw returns a value of [result E A]: [Err e]
    stands for the thrown error [e]. *)
Inductive result (E A : Type) : Type :=
| Ok (a : A)
| Err (e : E).
Arguments Ok {E A} a.
Arguments Err {E A} e.

#[export] Instance result_ret {E} : MRet (result E) := fun A a => Ok a.
#[export] Instance result_bind {E} : MBind (result E) :=
  fun A B f m => match m with Ok a => f a | Err e => Err e end.

Definition is_ok {E A} (r : result E A) : bool :=
  match r with Ok _ => true | Err _ => false end.

Lemma result_bind_Ok {E A B} (m : result E A) (f : A -> result E B) (b : B) :
  (m ≫= f) = Ok b <-> exists a, m = Ok a /\ f a = Ok b.
Proof. destruct m; cbn; naive_solver. Qed.

Lemma is_ok_true {E A} (r : result E A) : is_ok r = true <-> exists a, r = Ok a.
Proof. destruct r; cbn; naive_solver. Qed.

(** Takes apart a hypothesis saying that a sequence of fallible calls
    returned. *)
Ltac inv_ok :=
  repeat match goal with
  | H : (_ ≫= _) = Ok _ |- _ => apply result_bind_Ok in H as (? & ? & ?)
  | H : mret _ = Ok _ |- _ => injection H as H; try subst
  | H : Ok _ = Ok _ |- _ => injection H as H; try subst
  | H : Err _ = Ok _ |- _ => discriminate H
  end.

(** The same for code that returns an [option]. *)
Ltac inv_some :=
  repeat match goal with
  | H : (_ ≫= _) = Some _ |- _ => apply bind_Some in H as (? & ? & ?)
  | p : (_ * _)%type |- _ => destruct p
  | H : Some _ = Some _ |- _ => injection H as H; try subst
  | H : None = Some _ |- _ => discriminate H
  end.

(** Identifies the values of two calls of the same function. *)
Ltac ok_eq :=
  repeat match goal with
  | H1 : ?x = Ok _, H2 : ?x = Ok _ |- _ => rewrite H1 in H2; injection H2 as H2; try subst
  end.

(** The sequential [for] loop that collects one value per element and stops
    at the first error. *)
Fixpoint mapR {E A B} (f : A -> result E B) (l : list A) : result E (list B) :=
  match l with
  | [] => Ok []
  | x :: r => y ← f x; ys ← mapR f r; Ok (y :: ys)
  end.

Lemma mapR_Ok_iff {E A B} (f : A -> result E B) l :
  (exists ys, mapR f l = Ok ys) <-> Forall (fun x => exists y, f x = Ok y) l.
Proof.
  induction l as [|x l IH]; cbn; [naive_solver|].
  rewrite Forall_cons_iff, <- IH. split.
  - intros [ys H]. inv_ok. eauto.
  - intros [[y Hy] [ys Hys]]. rewrite Hy; cbn. rewrite Hys; cbn. eauto.
Qed.

Lemma mapR_Forall2 {E A B} (f : A -> result E B) l ys :
  mapR f l = Ok ys <-> Forall2 (fun x y => f x = Ok y) l ys.
Proof.
  revert ys; induction l as [|x l IH]; intros ys; cbn.
  - split; [intros [= <-]; constructor | by inversion 1].
  - split.
    + intros H. inv_ok. constructor; [done | by apply IH].
    + inversion 1 as [|? y ? ys' Hy Hys]; subst.
      rewrite Hy; cbn. apply IH in Hys. by rewrite Hys.
Qed.

(** ** JavaScript strings

    A string is a Rocq [string]: each character is the UTF-16 code unit of the
    same number, so the strings of the model are those whose code units are
    below 256.  On them the functions below are the ECMAScript ones. *)
#[global] Arguments Ascii.eqb : simpl never.
#[global] Arguments String.eqb : simpl never.

Definition code (c : ascii) : N := N_of_ascii c.

Definition between (lo hi : N) (c : ascii) : bool :=
  (lo <=? code c)%N && (code c <=? hi)%N.

Definition is_digit (c : ascii) : bool := between 48 57 c.

(** [WhiteSpace] and [LineTerminator] below 256, what [trim] and [\s] use. *)
Definition is_space (c : ascii) : bool :=
  between 9 13 c || (code c =? 32)%N || (code c =? 160)%N.

Definition lower_unit (c : ascii) : ascii :=
  if between 65 90 c || (between 192 222 c && negb (code c =? 215)%N)
  then ascii_of_N (code c + 32) else c.

Fixpoint toLowerCase (s : string) : string :=
  match s with
  | EmptyString => EmptyString
  | String c r => String (lower_unit c) (toLowerCase r)
  end.

Fixpoint all_units (p : ascii -> bool) (s : string) : bool :=
  match s with
  | EmptyString => true
  | String c r => p c && all_units p r
  end.

Fixpoint trimStart (s : string) : string :=
  match s with
  | EmptyString => EmptyString
  | String c r => if is_space c then trimStart r else s
  end.

Fixpoint trimEnd (s : string) : string :=
  match s with
  | EmptyString => EmptyString
  | String c r =>
      match trimEnd r with
      | EmptyString => if is_space c then EmptyString else String c EmptyString
      | r' => String c r'
      end
  end.

Definition trim (s : string) : string := trimEnd (trimStart s).

(** [s.slice(n)] for [n >= 0]. *)
Fixpoint slice (n : nat) (s : string) : string :=
  match n, s with
  | O, _ => s
  | S _, EmptyString => EmptyString
  | S n', String _ r => slice n' r
  end.

Fixpoint startsWith (s p : string) {struct p} : bool :=
  match p, s with
  | EmptyString, _ => true
  | String _ _, EmptyString => false
  | String c p', String d s' => Ascii.eqb c d && startsWith s' p'
  end.

Fixpoint endsWith (s p : string) : bool :=
  (s =? p)%string ||
  match s with EmptyString => false | String _ r => endsWith r p end.

(** [s.includes(p)]. *)
Fixpoint includes (s p : string) : bool :=
  startsWith s p ||
  match s with EmptyString => false | String _ r => includes r p end.

(** [s.split(sep)] for a separator of one code unit. *)
Fixpoint split_unit (sep : ascii) (s : string) : list string :=
  match s with
  | EmptyString => [EmptyString]
  | String c r =>
      if Ascii.eqb c sep then EmptyString :: split_unit sep r
      else match split_unit sep r with
           | [] => [String c EmptyString]
           | w :: ws => String c w :: ws
           end
  end.

(** [l.join(sep)]. *)
Fixpoint join (sep : string) (l : list string) : string :=
  match l with
  | [] => ""
  | [x] => x
  | x :: r => x +:+ sep +:+ join sep r
  end.

(** A double quote. *)
Definition dquote : string := String "034"%char "".

(** *** Numbers in strings *)
Fixpoint digits_prefix (s : string) : string :=
  match s with
  | EmptyString => EmptyString
  | String c r => if is_digit c then String c (digits_prefix r) else EmptyString
  end.

Definition digits_value (ds : string) : Z :=
  match NilEmpty.uint_of_string ds with
  | Some u => Z.of_N (N.of_uint u)
  | None => 0
  end.

(** The sign [parseInt] accepts: whether it is a minus, and what follows. *)
Definition split_sign (s : string) : bool * string :=
  match s with
  | String c r =>
      if Ascii.eqb c "-"%char then (true, r)
      else if Ascii.eqb c "+"%char then (false, r) else (false, s)
  | EmptyString => (false, s)
  end.

(** [Number.parseInt(s, 10)]; [None] is [NaN]. *)
Definition parseInt (s : string) : option Z :=
  let '(neg, t) := split_sign (trimStart s) in
  match digits_prefix t with
  | EmptyString => None
  | ds => Some (if neg then - digits_value ds else digits_value ds)%Z
  end.

(** [String(n)] of an integer. *)
Definition string_of_Z (n : Z) : string := NilZero.string_of_int (Z.to_int n).

(** *** Lemmas on strings *)
Create HintDb jsstring.
Create Rewrite HintDb jsstring.

Lemma app_String c s t : String c s +:+ t = String c (s +:+ t).
Proof. reflexivity. Qed.
Lemma app_Empty_l s : "" +:+ s = s.
Proof. reflexivity. Qed.
Lemma app_Empty_r s : s +:+ "" = s.
Proof. induction s; [done | by rewrite app_String, IHs]. Qed.
Lemma app_assoc_str s t u : (s +:+ t) +:+ u = s +:+ t +:+ u.
Proof. induction s; [done | by rewrite !app_String, IHs]. Qed.
#[export] Hint Rewrite app_String app_Empty_l app_Empty_r app_assoc_str : jsstring.

Lemma startsWith_iff s p : startsWith s p = true <-> exists r, s = p +:+ r.
Proof.
  revert s; induction p as [|c p IH]; intros s.
  - destruct s; cbn; split; eauto; intros _; eexists; by rewrite app_Empty_l.
  - destruct s as [|d s]; cbn.
    + split; [done|]. intros [r Hr]. by rewrite app_String in Hr.
    + rewrite andb_true_iff, Ascii.eqb_eq, IH. setoid_rewrite app_String.
      naive_solver.
Qed.

Lemma startsWith_app p r : startsWith (p +:+ r) p = true.
Proof. apply startsWith_iff; eauto. Qed.

Lemma slice_app p s : slice (String.length p) (p +:+ s) = s.
Proof. induction p; [by destruct s | done]. Qed.
#[export] Hint Rewrite startsWith_app slice_app : jsstring.

Lemma app_inj_l p s t : p +:+ s = p +:+ t -> s = t.
Proof. induction p; [done|]. rewrite !app_String. intros ?; simplify_eq; auto. Qed.

(** A string that starts with a non-space unit and ends with one. *)
Definition trimmed (s : string) : Prop := trim s = s.
#[export] Instance trimmed_dec s : Decision (trimmed s).
Proof. unfold trimmed; apply _. Defined.

Lemma trimEnd_app p v : trimEnd p = p -> trimEnd (p +:+ v) = p +:+ trimEnd v.
Proof.
  induction p as [|c p IH]; [done|]. intros H. rewrite app_String. cbn in *.
  destruct (trimEnd p) as [|d q] eqn:E.
  - destruct (is_space c) eqn:Ec; simplify_eq.
    rewrite app_Empty_l. destruct (trimEnd v); rewrite ?Ec; done.
  - simplify_eq. rewrite IH by done. by rewrite !app_String.
Qed.

Lemma trimEnd_idemp s : trimEnd (trimEnd s) = trimEnd s.
Proof.
  induction s as [|c s IH]; [done|]. cbn.
  destruct (trimEnd s) eqn:E.
  - destruct (is_space c) eqn:Ec; cbn; [done | by rewrite Ec].
  - cbn in *. by rewrite IH.
Qed.

Lemma trimStart_trimEnd s : trimStart (trimEnd (trimStart s)) = trimEnd (trimStart s).
Proof.
  induction s as [|c s IH]; [done|]. cbn.
  destruct (is_space c) eqn:Ec; [done|]. cbn. rewrite ?Ec.
  destruct (trimEnd s); cbn; by rewrite Ec.
Qed.

Lemma trim_trimmed s : trimmed (trim s).
Proof. unfold trimmed, trim. by rewrite trimStart_trimEnd, trimEnd_idemp. Qed.

Lemma trimmed_app c p v :
  is_space c = false -> trimEnd (String c p) = String c p -> trimEnd v = v ->
  trimmed (String c p +:+ v).
Proof.
  intros Hc Hp Hv. unfold trimmed, trim. rewrite app_String; cbn [trimStart].
  rewrite Hc, <- app_String. by rewrite trimEnd_app, Hv.
Qed.
#[export] Hint Resolve trim_trimmed : jsstring.

Lemma all_units_impl (p q : ascii -> bool) s :
  (forall c, p c = true -> q c = true) -> all_units p s = true -> all_units q s = true.
Proof.
  intros Hpq. induction s as [|c s IH]; [done|]. cbn.
  intros [?%Hpq ?]%andb_prop. apply andb_true_intro; auto.
Qed.

Lemma toLowerCase_app s t : toLowerCase (s +:+ t) = toLowerCase s +:+ toLowerCase t.
Proof. induction s; [done | rewrite app_String; cbn; by rewrite IHs]. Qed.

Lemma lower_unit_idemp c : lower_unit (lower_unit c) = lower_unit c.
Proof. by destruct c as [[] [] [] [] [] [] [] []]. Qed.

Lemma toLowerCase_idemp s : toLowerCase (toLowerCase s) = toLowerCase s.
Proof. induction s; cbn; [done | by rewrite lower_unit_idemp, IHs]. Qed.
#[export] Hint Rewrite toLowerCase_idemp : jsstring.

(** *** Decimal numbers *)
Lemma digits_prefix_app ds c r :
  all_units is_digit ds = true -> is_digit c = false ->
  digits_prefix (ds +:+ String c r) = ds.
Proof.
  induction ds as [|d ds IH]; rewrite ?app_Empty_l, ?app_String; cbn.
  - by intros _ ->.
  - intros [-> ?]%andb_prop ?. by rewrite IH.
Qed.

Lemma digits_prefix_all ds : all_units is_digit ds = true -> digits_prefix ds = ds.
Proof. induction ds; cbn; [done|]. intros [-> ?]%andb_prop. by rewrite IHds. Qed.

Lemma string_of_uint_digits u : all_units is_digit (NilEmpty.string_of_uint u) = true.
Proof. induction u; cbn; auto. Qed.

Lemma digits_value_uint u : digits_value (NilEmpty.string_of_uint u) = Z.of_N (N.of_uint u).
Proof. unfold digits_value. by rewrite NilEmpty.usu. Qed.

Lemma string_of_N_spec n :
  exists c ds, NilZero.string_of_uint (N.to_uint n) = String c ds
    /\ all_units is_digit (String c ds) = true
    /\ digits_value (String c ds) = Z.of_N n.
Proof.
  pose proof (string_of_uint_digits (N.to_uint n)) as Hd.
  pose proof (digits_value_uint (N.to_uint n)) as Hv.
  rewrite DecimalN.Unsigned.of_to in Hv.
  destruct (NilEmpty.string_of_uint (N.to_uint n)) as [|c ds] eqn:E.
  - destruct (N.to_uint n) eqn:En; try discriminate E.
    assert (n = 0%N) as -> by (rewrite <- (DecimalN.Unsigned.of_to n), En; done).
    discriminate En.
  - exists c, ds. split_and!; [|done..].
    destruct (N.to_uint n); try discriminate; exact E.
Qed.

Lemma is_digit_not_sign c :
  is_digit c = true ->
  is_space c = false /\ Ascii.eqb c "-"%char = false /\ Ascii.eqb c "+"%char = false.
Proof. by destruct c as [[] [] [] [] [] [] [] []]. Qed.

Lemma parseInt_digits c ds rest :
  all_units is_digit (String c ds) = true ->
  digits_prefix (String c ds +:+ rest) = String c ds ->
  parseInt (String c ds +:+ rest) = Some (digits_value (String c ds)).
Proof.
  intros Hd Hp. assert (is_digit c = true) as Hc by (by apply andb_prop in Hd as [??]).
  apply is_digit_not_sign in Hc as (Hs & Hm & Hpl).
  unfold parseInt. rewrite app_String in *. cbn [trimStart]. rewrite Hs.
  cbn [split_sign]. by rewrite Hm, Hpl, Hp.
Qed.

Lemma parseInt_minus c ds rest :
  all_units is_digit (String c ds) = true ->
  digits_prefix (String c ds +:+ rest) = String c ds ->
  parseInt (String "-" (String c ds) +:+ rest) = Some (- digits_value (String c ds))%Z.
Proof.
  intros Hd Hp. unfold parseInt. rewrite app_String. cbn [trimStart].
  change (is_space "-"%char) with false. cbn [split_sign].
  rewrite Ascii.eqb_refl, Hp. done.
Qed.

(** What follows a number does not continue it. *)
Definition no_digit_next (rest : string) : bool :=
  match rest with EmptyString => true | String c _ => negb (is_digit c) end.

Lemma digits_prefix_next ds rest :
  all_units is_digit ds = true -> no_digit_next rest = true ->
  digits_prefix (ds +:+ rest) = ds.
Proof.
  intros Hd Hn. destruct rest as [|c r].
  - rewrite app_Empty_r. by apply digits_prefix_all.
  - apply digits_prefix_app; [done|]. by apply negb_true_iff.
Qed.

Lemma string_of_Z_nonneg n :
  (0 <= n)%Z -> string_of_Z n = NilZero.string_of_uint (N.to_uint (Z.to_N n)).
Proof. intros ?. by destruct n. Qed.

Lemma parseInt_string_of_Z_app n rest :
  no_digit_next rest = true -> parseInt (string_of_Z n +:+ rest) = Some n.
Proof.
  intros Hn. destruct (decide (0 <= n)%Z) as [Hp|Hneg].
  - rewrite string_of_Z_nonneg by done.
    destruct (string_of_N_spec (Z.to_N n)) as (c & ds & -> & Hd & Hv).
    rewrite parseInt_digits by auto using digits_prefix_next.
    rewrite Hv. f_equal. lia.
  - destruct n as [|p|p]; [lia..|].
    destruct (string_of_N_spec (N.pos p)) as (c & ds & Hs & Hd & Hv).
    change (string_of_Z (Z.neg p))
      with (String "-" (NilZero.string_of_uint (N.to_uint (N.pos p)))).
    rewrite Hs, parseInt_minus by auto using digits_prefix_next.
    by rewrite Hv.
Qed.

Lemma parseInt_string_of_Z n : parseInt (string_of_Z n) = Some n.
Proof. rewrite <- (app_Empty_r (string_of_Z n)). by apply parseInt_string_of_Z_app. Qed.
#[export] Hint Rewrite parseInt_string_of_Z : jsstring.

Lemma string_of_Z_inj n m : string_of_Z n = string_of_Z m -> n = m.
Proof.
  intros H. apply (f_equal parseInt) in H. rewrite !parseInt_string_of_Z in H. congruence.
Qed.

(** *** Splitting and joining *)
Lemma split_unit_cons sep s : exists w ws, split_unit sep s = w :: ws.
Proof.
  destruct s as [|c s]; cbn; [eauto|]. case_match; [eauto|]. case_match; eauto.
Qed.

Lemma join_cons2 sep x y l : join sep (x :: y :: l) = x +:+ sep +:+ join sep (y :: l).
Proof. reflexivity. Qed.

Lemma join_split sep s : join (String sep "") (split_unit sep s) = s.
Proof.
  induction s as [|c s IH]; [done|]. cbn [split_unit].
  destruct (split_unit_cons sep s) as (w & ws & E). rewrite E in *.
  destruct (Ascii.eqb_spec c sep) as [->|Hne].
  - rewrite join_cons2, IH. done.
  - destruct ws as [|w' ws].
    + cbn in *. by rewrite IH.
    + rewrite join_cons2 in *. by rewrite app_String, IH.
Qed.

Definition lacks (sep : ascii) (s : string) : bool :=
  all_units (fun c => negb (Ascii.eqb c sep)) s.

Lemma split_unit_lacks sep s : lacks sep s = true -> split_unit sep s = [s].
Proof.
  unfold lacks. induction s as [|c s IH]; [done|]. cbn.
  intros [Hc%negb_true_iff Hs]%andb_prop. by rewrite Hc, IH.
Qed.

Lemma split_unit_app sep s t :
  lacks sep s = true -> split_unit sep (s +:+ String sep t) = s :: split_unit sep t.
Proof.
  unfold lacks. induction s as [|c s IH]; rewrite ?app_Empty_l, ?app_String; cbn.
  - by rewrite Ascii.eqb_refl.
  - intros [Hc%negb_true_iff Hs]%andb_prop. by rewrite Hc, IH.
Qed.

Lemma split_unit_snoc sep s t :
  lacks sep t = true -> split_unit sep (s +:+ String sep t) = split_unit sep s ++ [t].
Proof.
  intros Ht. induction s as [|c s IH]; rewrite ?app_Empty_l, ?app_String; cbn.
  - by rewrite Ascii.eqb_refl, split_unit_lacks.
  - rewrite IH. destruct (split_unit_cons sep s) as (w & ws & ->).
    by destruct (Ascii.eqb c sep).
Qed.

Lemma lacks_app sep s t : lacks sep (s +:+ t) = lacks sep s && lacks sep t.
Proof.
  unfold lacks. induction s as [|c s IH]; [done|]. rewrite app_String; cbn.
  by rewrite IH, andb_assoc.
Qed.

Lemma lacks_digits sep ds :
  is_digit sep = false -> all_units is_digit ds = true -> lacks sep ds = true.
Proof.
  intros Hs. unfold lacks. induction ds as [|d ds IH]; [done|]. cbn.
  intros [Hd ?]%andb_prop. rewrite IH by done.
  destruct (Ascii.eqb_spec d sep); [congruence | done].
Qed.

Lemma lacks_string_of_Z sep n :
  is_digit sep = false -> (0 <= n)%Z -> lacks sep (string_of_Z n) = true.
Proof.
  intros Hs Hn. rewrite string_of_Z_nonneg by done.
  destruct (string_of_N_spec (Z.to_N n)) as (c & ds & -> & Hd & _).
  by apply lacks_digits.
Qed.

Lemma split_join sep l :
  l <> [] -> Forall (fun s => lacks sep s = true) l ->
  split_unit sep (join (String sep "") l) = l.
Proof.
  induction l as [|x l IH]; [done|]. intros _ [Hx Hl]%Forall_cons_1.
  destruct l as [|y l]; [by apply split_unit_lacks|].
  rewrite join_cons2, app_String, app_Empty_l, split_unit_app by done.
  by rewrite IH.
Qed.
#[export] Hint Rewrite join_split : jsstring.

(** ** [Array.prototype.sort]

    ECMAScript's sort is stable, which with the comparison determines the
    result; insertion sort computes it. *)
Section StableSort.
Context {A : Type} (le : A -> A -> bool).

Fixpoint insert_sorted (x : A) (l : list A) : list A :=
  match l with
  | [] => [x]
  | y :: r => if le x y then x :: y :: r else y :: insert_sorted x r
  end.

Definition sort_by (l : list A) : list A := foldr insert_sorted [] l.

Lemma insert_sorted_perm x l : insert_sorted x l ≡ₚ x :: l.
Proof.
  induction l as [|y l IH]; cbn; [done|]. case_match; [done|].
  rewrite IH. apply Permutation_swap.
Qed.

Lemma sort_by_perm l : sort_by l ≡ₚ l.
Proof. induction l as [|x l IH]; cbn; [done|]. by rewrite insert_sorted_perm, IH. Qed.

Lemma elem_of_sort_by x l : x ∈ sort_by l <-> x ∈ l.
Proof. by rewrite sort_by_perm. Qed.

Context (le_total : forall x y, le x y = true \/ le y x = true).
Context (le_trans : forall x y z, le x y = true -> le y z = true -> le x z = true).

Lemma insert_sorted_sorted x l :
  StronglySorted (fun a b => le a b = true) l ->
  StronglySorted (fun a b => le a b = true) (insert_sorted x l).
Proof.
  induction 1 as [|y l Hl IH Hy]; cbn; [repeat constructor|].
  destruct (le x y) eqn:E.
  - constructor; [by constructor|]. constructor; [done|].
    eapply List.Forall_impl; [|exact Hy]. cbn; eauto.
  - constructor; [done|]. rewrite insert_sorted_perm. constructor; [|done].
    destruct (le_total x y); congruence.
Qed.

Lemma sort_by_sorted l : StronglySorted (fun a b => le a b = true) (sort_by l).
Proof. induction l; cbn; [constructor | by apply insert_sorted_sorted]. Qed.

(** Two elements the comparison does not separate. *)
Definition tied (x y : A) : bool := le x y && le y x.

Lemma insert_sorted_stable x y l :
  List.filter (tied x) (insert_sorted y l) = List.filter (tied x) (y :: l).
Proof.
  induction l as [|z l IH]; [done|]. cbn [insert_sorted].
  destruct (le y z) eqn:E; [done|]. cbn in *.
  destruct (tied x y) eqn:Exy, (tied x z) eqn:Exz; rewrite IH; try done.
  exfalso. apply andb_prop in Exy as [_ ?]. apply andb_prop in Exz as [? _].
  enough (le y z = true) by congruence. eauto.
Qed.

(** Stability: tied elements keep the order they had. *)
Lemma sort_by_stable x l :
  List.filter (tied x) (sort_by l) = List.filter (tied x) l.
Proof.
  induction l as [|y l IH]; [done|]. cbn [sort_by foldr].
  rewrite insert_sorted_stable. cbn. by rewrite <- IH.
Qed.

Lemma find_app_sorted (p : A -> bool) l x :
  StronglySorted (fun a b => le a b = true) l -> List.find p l = Some x ->
  forall y, y ∈ l -> p y = true -> le x y = true.
Proof.
  induction 1 as [|z l Hl IH Hz]; [done|]. cbn.
  destruct (p z) eqn:Ez; intros Hf y Hy Hp.
  - simplify_eq. apply elem_of_cons in Hy as [->|Hy].
    + destruct (le_total x x); done.
    + rewrite Forall_forall in Hz. apply Hz. by apply list_elem_of_In.
  - apply elem_of_cons in Hy as [->|Hy]; [congruence | eauto].
Qed.

Lemma find_filter (p q : A -> bool) l x :
  List.find p l = Some x -> q x = true -> List.find p (List.filter q l) = Some x.
Proof.
  induction l as [|z l IH]; cbn; [done|]. intros Hf Hq.
  destruct (p z) eqn:Ez.
  - simplify_eq. rewrite Hq. cbn. by rewrite Ez.
  - destruct (q z); cbn; rewrite ?Ez; auto.
Qed.

(** The first element of the sorted list that satisfies [p]: it comes before
    every other one that does, and among those tied with it it is the one
    that was first in the original list. *)
Lemma find_sort_by (p : A -> bool) l x :
  List.find p (sort_by l) = Some x ->
  x ∈ l /\ p x = true
  /\ (forall y, y ∈ l -> p y = true -> le x y = true)
  /\ List.find p (List.filter (tied x) l) = Some x.
Proof.
  intros Hf. destruct (List.find_some _ _ Hf) as [Hin Hp].
  apply list_elem_of_In in Hin. rewrite elem_of_sort_by in Hin.
  split; [done|]. split; [done|]. split.
  - intros y Hy. rewrite <- elem_of_sort_by in Hy.
    revert y Hy. eapply find_app_sorted; [apply sort_by_sorted | done].
  - rewrite <- sort_by_stable. apply find_filter; [done|].
    unfold tied. destruct (le_total x x) as [->| ->]; done.
Qed.
End StableSort.

(** Sorting commutes with a map that keeps the comparison. *)
Lemma sort_by_map {A B} (leA : A -> A -> bool) (leB : B -> B -> bool) (f : A -> B) l :
  (forall x y, leB (f x) (f y) = leA x y) ->
  sort_by leB (map f l) = map f (sort_by leA l).
Proof.
  intros Hle. assert (forall x l, insert_sorted leB (f x) (map f l) = map f (insert_sorted leA x l)) as Hi.
  { intros x l'. induction l' as [|y l' IH]; [done|]. cbn. rewrite Hle, IH. by case_match. }
  induction l as [|x l IH]; [done|]. cbn [map sort_by foldr] in *.
  unfold sort_by in IH. by rewrite IH, Hi.
Qed.

Lemma find_is_Some {A} (p : A -> bool) l :
  is_Some (List.find p l) <-> exists x, x ∈ l /\ p x = true.
Proof.
  split.
  - intros [x Hx]. apply List.find_some in Hx as [??]. exists x.
    by rewrite list_elem_of_In.
  - intros (x & Hin & Hp). destruct (List.find p l) eqn:E; [eauto|].
    apply list_elem_of_In in Hin. by rewrite (List.find_none _ _ E x Hin) in Hp.
Qed.

(** ** Membership *)
Lemma elem_of_concat_map {A B} (f : A -> list B) l y :
  y ∈ concat (map f l) <-> exists x, x ∈ l /\ y ∈ f x.
Proof.
  induction l as [|a l IH]; cbn; [split; [by inversion 1 | by intros (? & ?%elem_of_nil & _)]|].
  rewrite elem_of_app, IH. setoid_rewrite elem_of_cons. naive_solver.
Qed.

Lemma mapR_elem {E A B} (f : A -> result E B) l ys y :
  mapR f l = Ok ys -> y ∈ ys <-> exists x, x ∈ l /\ f x = Ok y.
Proof.
  intros H%mapR_Forall2. induction H as [|x z l ys Hx H IH].
  - split; [by inversion 1 | by intros (? & ?%elem_of_nil & _)].
  - rewrite elem_of_cons, IH. setoid_rewrite elem_of_cons. split.
    + intros [->|(x' & ? & ?)]; eauto.
    + intros (x' & [->|Hin] & Hy); [left; congruence | right; eauto].
Qed.

Lemma mapR_elem_Ok {E A B} (f : A -> result E B) l ys x :
  mapR f l = Ok ys -> x ∈ l -> exists y, f x = Ok y.
Proof.
  intros H Hx. assert (exists ys, mapR f l = Ok ys) as Hall by eauto.
  rewrite mapR_Ok_iff, List.Forall_forall in Hall. apply Hall. by apply list_elem_of_In.
Qed.

Lemma elem_of_filter_bool {A} (p : A -> bool) l x :
  x ∈ List.filter p l <-> x ∈ l /\ p x = true.
Proof. by rewrite list_elem_of_In, List.filter_In, <- list_elem_of_In. Qed.

Lemma filter_filter_same {A} (p q : A -> bool) l :
  (forall x, x ∈ l -> q x = true -> p x = true) -> List.filter q (List.filter p l) = List.filter q l.
Proof.
  induction l as [|x l IH]; cbn; intros H; [done|].
  specialize (H x) as Hx. rewrite elem_of_cons in Hx.
  assert (forall y, y ∈ l -> q y = true -> p y = true) as Hl by (intros y Hy; apply H; by right).
  destruct (p x) eqn:Ep; cbn.
  - by rewrite IH.
  - destruct (q x); [by discriminate Hx; auto|]. by apply IH.
Qed.

Lemma filter_ext_elem {A} (p q : A -> bool) l :
  (forall x, x ∈ l -> p x = q x) -> List.filter p l = List.filter q l.
Proof.
  intros H. apply List.filter_ext_in. intros x Hx. apply H. by apply list_elem_of_In.
Qed.

Lemma NoDup_map_filter {A B} (f : A -> B) (p : A -> bool) l : NoDup (map f l) -> NoDup (map f (List.filter p l)).
Proof.
  induction l as [|x l IH]; cbn; [done|]. intros [Hx Hl]%list.NoDup_cons.
  destruct (p x); cbn; [|by apply IH]. apply list.NoDup_cons. split; [|by apply IH].
  intros (y & Hy & [? _]%elem_of_filter_bool)%list_elem_of_fmap. apply Hx.
  apply list_elem_of_fmap. eauto.
Qed.

Lemma filter_true {A} (l : list A) : List.filter (fun _ => true) l = l.
Proof. induction l as [|x l IH]; cbn; [done|]. by rewrite IH. Qed.

Lemma filter_filter {A} (p q : A -> bool) (l : list A) :
  List.filter q (List.filter p l) = List.filter (fun x => p x && q x) l.
Proof.
  induction l as [|x l IH]; cbn; [done|]. destruct (p x); cbn; [|done].
  by destruct (q x); rewrite IH.
Qed.

(** ** [undefined] and [null] *)
Inductive nullish (A : Type) : Type :=
| Undefined
| Null
| Value (a : A).
Arguments Undefined {A}.
Arguments Null {A}.
Arguments Value {A} a.

#[export] Instance nullish_eq_dec `{EqDecision A} : EqDecision (nullish A).
Proof. solve_decision. Defined.

(** [x ?? d]. *)
Definition coalesce {A} (x : nullish A) (d : A) : A :=
  match x with Value a => a | _ => d end.

(** Rows with a unique key are determined by it. *)
Lemma NoDup_map_inj {A B} (f : A -> B) (l : list A) x y :
  NoDup (map f l) -> x ∈ l -> y ∈ l -> f x = f y -> x = y.
Proof.
  induction l as [|z l IH]; [by intros _ ?%elem_of_nil|]. cbn.
  intros [Hz Hn]%list.NoDup_cons. rewrite !elem_of_cons.
  intros [->|Hx] [->|Hy] E; [done| | |by apply IH].
  - exfalso. apply Hz. rewrite E. by apply list_elem_of_fmap_2.
  - exfalso. apply Hz. rewrite <- E. by apply list_elem_of_fmap_2.
Qed.

(** ** Maps and objects

    A [Map], or an object used as one, is the list of its entries in insertion
    order: writing an existing key keeps its place. *)
Section JsMap.
Context {K V : Type} `{EqDecision K}.
Implicit Types (m l : list (K * V)) (k : K) (v : V).

Fixpoint map_get m k : option V :=
  match m with
  | [] => None
  | (k', v) :: r => if decide (k' = k) then Some v else map_get r k
  end.

Fixpoint map_set m k v : list (K * V) :=
  match m with
  | [] => [(k, v)]
  | (k', v') :: r => if decide (k' = k) then (k, v) :: r else (k', v') :: map_set r k v
  end.

(** [new Map(entries)]. *)
Definition map_of l : list (K * V) := foldl (fun m kv => map_set m kv.1 kv.2) [] l.

Lemma map_get_set m k v k' :
  map_get (map_set m k v) k' = if decide (k = k') then Some v else map_get m k'.
Proof.
  induction m as [|[a b] m IH]; cbn; [done|].
  destruct (decide (a = k)) as [->|]; cbn; [by destruct (decide (k = k'))|].
  rewrite IH. destruct (decide (a = k')), (decide (k = k')); congruence.
Qed.

Lemma map_get_None m k : map_get m k = None <-> k ∉ m.*1.
Proof.
  induction m as [|[a b] m IH]; cbn; [split; [intros _; apply not_elem_of_nil|done]|].
  rewrite not_elem_of_cons, <- IH. destruct (decide (a = k)) as [->|].
  - split; [done|]. by intros [[] _].
  - split; [auto|]. by intros [_ ?].
Qed.

Lemma map_get_elem m k v : map_get m k = Some v -> (k, v) ∈ m.
Proof.
  induction m as [|[a b] m IH]; cbn; [done|]. rewrite elem_of_cons.
  destruct (decide (a = k)) as [->|]; [intros [= ->]|]; auto.
Qed.

Lemma map_get_Some m k v : NoDup m.*1 -> map_get m k = Some v <-> (k, v) ∈ m.
Proof.
  intros Hn. split; [apply map_get_elem|].
  induction m as [|[a b] m IH]; cbn; [by rewrite elem_of_nil|].
  cbn in Hn. apply list.NoDup_cons in Hn as [Ha Hn]. rewrite elem_of_cons. intros [[= -> ->]|Hin].
  - by rewrite decide_True.
  - rewrite decide_False; [by apply IH|]. intros ->. apply Ha.
    apply list_elem_of_fmap. by exists (k, v).
Qed.

Lemma map_set_new m k v : k ∉ m.*1 -> map_set m k v = m ++ [(k, v)].
Proof.
  induction m as [|[a b] m IH]; cbn; [done|].
  intros [Hne Hk]%not_elem_of_cons. rewrite decide_False by done. by rewrite IH.
Qed.

Lemma map_set_keys m k v : (map_set m k v).*1 = if decide (k ∈ m.*1) then m.*1 else m.*1 ++ [k].
Proof.
  induction m as [|[a b] m IH]; [done|]. cbn [map_set].
  destruct (decide (a = k)) as [->|Hne]; cbn.
  - by rewrite decide_True by left.
  - rewrite IH. destruct (decide (k ∈ m.*1)); [rewrite decide_True by (by right); done|].
    rewrite decide_False; [done|]. apply not_elem_of_cons. auto.
Qed.

Lemma elem_of_map_set_keys m k v k' : k' ∈ (map_set m k v).*1 <-> k' = k \/ k' ∈ m.*1.
Proof.
  rewrite map_set_keys. destruct (decide (k ∈ m.*1)); [|rewrite elem_of_app, list_elem_of_singleton; tauto].
  split; [auto|]. by intros [->|].
Qed.

Lemma NoDup_map_set m k v : NoDup m.*1 -> NoDup (map_set m k v).*1.
Proof.
  intros Hn. rewrite map_set_keys. destruct (decide (k ∈ m.*1)); [done|].
  apply list.NoDup_app. split_and!; [done| |apply NoDup_singleton].
  intros x Hx ->%list_elem_of_singleton. done.
Qed.

Lemma map_of_snoc l kv : map_of (l ++ [kv]) = map_set (map_of l) kv.1 kv.2.
Proof. unfold map_of. by rewrite foldl_app. Qed.

Lemma NoDup_map_of l : NoDup (map_of l).*1.
Proof.
  induction l as [|kv l IH] using rev_ind; [constructor|].
  rewrite map_of_snoc. by apply NoDup_map_set.
Qed.

Lemma map_of_keys l k : k ∈ (map_of l).*1 <-> k ∈ l.*1.
Proof.
  induction l as [|kv l IH] using rev_ind; [done|].
  rewrite map_of_snoc, elem_of_map_set_keys, fmap_app, elem_of_app, IH. cbn.
  rewrite list_elem_of_singleton. tauto.
Qed.

Lemma map_of_NoDup l : NoDup l.*1 -> map_of l = l.
Proof.
  induction l as [|kv l IH] using rev_ind; [done|]. rewrite fmap_app.
  intros (Hn & Hd & _)%list.NoDup_app. rewrite map_of_snoc, IH by done.
  rewrite map_set_new by (intros Hin; apply (Hd _ Hin); left). by destruct kv.
Qed.
End JsMap.
