(* ===== verification/Json.v ===== *)
(** * JSON values, [JSON.parse] and [JSON.stringify]

    JavaScript strings with their full range of UTF-16 code units, the values
    of JSON, the text [JSON.stringify] writes without indentation and the
    parser of [JSON.parse] (ECMA-262, 25.5).  Used by the license tokens, the
    diff and the content hash of policy documents.

    Numbers: a literal denotes the IEEE 754 double nearest to it.  When that
    double is an integer the value is [JInt], exactly; any other number is a
    [JFrac], of which the code only observes that it is a number and not an
    integer.  [stringify] is exact for safe integers, all the code prints. *)
From S2P Require Import Prelude.
Local Open Scope N_scope.

(** A string, as its UTF-16 code units. *)
Abbreviation jstr := (list N).

Definition units (s : string) : jstr := N_of_ascii <$> String.list_ascii_of_string s.
Arguments units : simpl never.

Inductive json :=
| JNull
| JBool (b : bool)
| JInt (z : Z)
| JFrac (literal : jstr)
| JStr (s : jstr)
| JArr (l : list json)
| JObj (l : list (jstr * json)).

Section JsonInd.
Context (P : json -> Prop)
  (Hnull : P JNull) (Hbool : forall b, P (JBool b)) (Hint : forall z, P (JInt z))
  (Hfrac : forall s, P (JFrac s)) (Hstr : forall s, P (JStr s))
  (Harr : forall l, Forall P l -> P (JArr l))
  (Hobj : forall l, Forall (fun kv => P kv.2) l -> P (JObj l)).

Fixpoint json_nested_ind (j : json) : P j :=
  match j with
  | JNull => Hnull
  | JBool b => Hbool b
  | JInt z => Hint z
  | JFrac s => Hfrac s
  | JStr s => Hstr s
  | JArr l =>
      Harr l ((fix go l : Forall P l :=
                 match l with
                 | [] => Forall_nil_2 P
                 | x :: r => Forall_cons_2 P x r (json_nested_ind x) (go r)
                 end) l)
  | JObj l =>
      Hobj l ((fix go l : Forall (fun kv => P kv.2) l :=
                 match l with
                 | [] => Forall_nil_2 _
                 | x :: r => Forall_cons_2 _ x r (json_nested_ind x.2) (go r)
                 end) l)
  end.
End JsonInd.

(** ** Property access *)
(** [o[k]], with [None] for [undefined]. *)
Definition prop (l : list (jstr * json)) (k : jstr) : option json := map_get l k.

(** ** Printing *)
Fixpoint dec_digits (fuel : nat) (n : N) : jstr :=
  match fuel with
  | O => []
  | S f => if n <? 10 then [48 + n] else dec_digits f (n / 10) ++ [48 + n mod 10]
  end.

Definition decimal (n : N) : jstr := dec_digits (S (N.size_nat n)) n.

Definition decimal_Z (z : Z) : jstr :=
  match z with
  | Zneg p => 45 :: decimal (Npos p)
  | _ => decimal (Z.to_N z)
  end.

Definition hex_digit (d : N) : N := if d <? 10 then 48 + d else 87 + d.

Definition escape_u (c : N) : jstr :=
  [92; 117; hex_digit (c / 4096 mod 16); hex_digit (c / 256 mod 16);
   hex_digit (c / 16 mod 16); hex_digit (c mod 16)].

Definition high_surrogate (c : N) : bool := (55296 <=? c) && (c <=? 56319).
Definition low_surrogate (c : N) : bool := (56320 <=? c) && (c <=? 57343).

(** One code unit that is not part of a surrogate pair. *)
Definition quote_unit (c : N) : jstr :=
  if c =? 8 then [92; 98]
  else if c =? 9 then [92; 116]
  else if c =? 10 then [92; 110]
  else if c =? 12 then [92; 102]
  else if c =? 13 then [92; 114]
  else if c =? 34 then [92; 34]
  else if c =? 92 then [92; 92]
  else if (c <? 32) || high_surrogate c || low_surrogate c then escape_u c
  else [c].

(** [QuoteJSONString] without its quotes: surrogate pairs are kept, a
    surrogate without its partner is escaped. *)
Fixpoint quote_units (s : jstr) : jstr :=
  match s with
  | [] => []
  | c :: r =>
      match r with
      | d :: r' =>
          if high_surrogate c && low_surrogate d then c :: d :: quote_units r'
          else quote_unit c ++ quote_units r
      | [] => quote_unit c
      end
  end.

Definition quoted (s : jstr) : jstr := [34] ++ quote_units s ++ [34].

Fixpoint sep_concat (sep : jstr) (l : list jstr) : jstr :=
  match l with
  | [] => []
  | [x] => x
  | x :: r => x ++ sep ++ sep_concat sep r
  end.

Fixpoint stringify (j : json) : jstr :=
  match j with
  | JNull => units "null"
  | JBool true => units "true"
  | JBool false => units "false"
  | JInt z => decimal_Z z
  | JFrac s => s
  | JStr s => quoted s
  | JArr l => [91] ++ sep_concat [44] (map stringify l) ++ [93]
  | JObj l =>
      [123] ++ sep_concat [44] (map (fun kv => quoted kv.1 ++ [58] ++ stringify kv.2) l) ++ [125]
  end.

(** ** Parsing *)
Definition is_ws (c : N) : bool := (c =? 32) || (c =? 9) || (c =? 10) || (c =? 13).

Fixpoint skip_ws (l : jstr) : jstr :=
  match l with
  | c :: r => if is_ws c then skip_ws r else l
  | [] => []
  end.

Definition is_dec (c : N) : bool := (48 <=? c) && (c <=? 57).

Fixpoint span_dec (l : jstr) : jstr * jstr :=
  match l with
  | c :: r => if is_dec c then let '(ds, t) := span_dec r in (c :: ds, t) else ([], l)
  | [] => ([], [])
  end.

Definition dec_value (ds : jstr) : N := foldl (fun acc d => 10 * acc + (d - 48)) 0 ds.

(** The double nearest to [num / den], both positive, as mantissa and
    exponent: round half to even at 53 bits, with gradual underflow. *)
Definition nearest_double (num den : Z) : Z * Z :=
  (let a := Z.log2 num - Z.log2 den in
   let e := if den * 2 ^ Z.max 0 a <=? num * 2 ^ Z.max 0 (- a) then a else a - 1 in
   let k := Z.max (-1074) (e - 52) in
   let n := num * 2 ^ Z.max 0 (- k) in
   let d := den * 2 ^ Z.max 0 k in
   let q := n / d in
   let r := n mod d in
   let m := if 2 * r <? d then q
            else if d <? 2 * r then q + 1
            else if Z.even q then q else q + 1 in
   (m, k))%Z.

(** The number of a literal with digits [m] and decimal exponent [e]. *)
Definition to_number (literal : jstr) (neg : bool) (m : N) (e : Z) : json :=
  (if Z.of_N m =? 0 then JInt 0
   else
     let '(mant, k) := nearest_double (Z.of_N m * 10 ^ Z.max 0 e) (10 ^ Z.max 0 (- e)) in
     let sign := if neg then -1 else 1 in
     if 971 <? k + (Z.log2 mant - 52) then JFrac literal
     else if 0 <=? k then JInt (sign * (mant * 2 ^ k))
     else if mant mod 2 ^ (- k) =? 0 then JInt (sign * (mant / 2 ^ (- k)))
     else JFrac literal)%Z.

(** The exponent part of a number, if there is one. *)
Definition parse_exponent (l : jstr) : option (Z * jstr) :=
  match l with
  | c :: r =>
      if (c =? 101) || (c =? 69) then
        let '(neg, r1) :=
          match r with
          | s :: r' => if s =? 45 then (true, r') else if s =? 43 then (false, r') else (false, r)
          | [] => (false, r)
          end in
        match span_dec r1 with
        | ([], _) => None
        | (ds, t) => Some (if neg then - Z.of_N (dec_value ds) else Z.of_N (dec_value ds), t)%Z
        end
      else Some (0%Z, l)
  | [] => Some (0%Z, l)
  end.

Definition parse_fraction (l : jstr) : option (jstr * jstr) :=
  match l with
  | c :: r =>
      if c =? 46 then
        match span_dec r with
        | ([], _) => None
        | (ds, t) => Some (ds, t)
        end
      else Some ([], l)
  | [] => Some ([], l)
  end.

(** A leading zero followed by a digit is an error in every context. *)
Definition leading_zero (ds : jstr) : bool :=
  match ds with
  | d :: _ :: _ => d =? 48
  | _ => false
  end.

Definition parse_number (l : jstr) : option (json * jstr) :=
  let '(neg, l1) := match l with c :: r => if c =? 45 then (true, r) else (false, l) | [] => (false, l) end in
  let '(ip, l2) := span_dec l1 in
  if bool_decide (ip = []) || leading_zero ip then None
  else
    '(fp, l3) ← parse_fraction l2;
    '(e, l4) ← parse_exponent l3;
    Some (to_number (take (length l - length l4) l) neg (dec_value (ip ++ fp))
                    (e - Z.of_nat (length fp)), l4).

Definition hex_value (c : N) : option N :=
  if is_dec c then Some (c - 48)
  else if (97 <=? c) && (c <=? 102) then Some (c - 87)
  else if (65 <=? c) && (c <=? 70) then Some (c - 55)
  else None.

(** The single-letter escapes. *)
Definition unescape (c : N) : option N :=
  if c =? 34 then Some 34 else if c =? 92 then Some 92 else if c =? 47 then Some 47
  else if c =? 98 then Some 8 else if c =? 102 then Some 12 else if c =? 110 then Some 10
  else if c =? 114 then Some 13 else if c =? 116 then Some 9 else None.

Definition hex4 (a b c d : N) : option N :=
  x ← hex_value a; y ← hex_value b; z ← hex_value c; w ← hex_value d;
  Some (4096 * x + 256 * y + 16 * z + w).

(** What follows the opening quote of a string. *)
Fixpoint parse_string (l : jstr) : option (jstr * jstr) :=
  match l with
  | [] => None
  | c :: r =>
      if c =? 34 then Some ([], r)
      else if c =? 92 then
        match r with
        | [] => None
        | e :: r1 =>
            if e =? 117 then
              match r1 with
              | a :: b :: c' :: d :: r2 =>
                  u ← hex4 a b c' d; '(s, t) ← parse_string r2; Some (u :: s, t)
              | _ => None
              end
            else u ← unescape e; '(s, t) ← parse_string r1; Some (u :: s, t)
        end
      else if c <? 32 then None
      else '(s, t) ← parse_string r; Some (c :: s, t)
  end.

(** Reads the keyword [w]. *)
Fixpoint expect (w l : jstr) : option jstr :=
  match w with
  | [] => Some l
  | c :: w' =>
      match l with
      | d :: l' => if c =? d then expect w' l' else None
      | [] => None
      end
  end.

Fixpoint parse_value (fuel : nat) (l : jstr) : option (json * jstr) :=
  match fuel with
  | O => None
  | S f =>
      match skip_ws l with
      | [] => None
      | c :: r =>
          if c =? 123 then
            match skip_ws r with
            | d :: r' => if d =? 125 then Some (JObj [], r') else parse_members f [] (d :: r')
            | [] => None
            end
          else if c =? 91 then
            match skip_ws r with
            | d :: r' => if d =? 93 then Some (JArr [], r') else parse_elements f [] (d :: r')
            | [] => None
            end
          else if c =? 34 then '(s, t) ← parse_string r; Some (JStr s, t)
          else if c =? 110 then t ← expect (units "ull") r; Some (JNull, t)
          else if c =? 116 then t ← expect (units "rue") r; Some (JBool true, t)
          else if c =? 102 then t ← expect (units "alse") r; Some (JBool false, t)
          else parse_number (c :: r)
      end
  end
with parse_elements (fuel : nat) (acc : list json) (l : jstr) : option (json * jstr) :=
  match fuel with
  | O => None
  | S f =>
      '(v, t) ← parse_value f l;
      match skip_ws t with
      | c :: r =>
          if c =? 44 then parse_elements f (acc ++ [v]) r
          else if c =? 93 then Some (JArr (acc ++ [v]), r) else None
      | [] => None
      end
  end
with parse_members (fuel : nat) (acc : list (jstr * json)) (l : jstr) : option (json * jstr) :=
  match fuel with
  | O => None
  | S f =>
      match skip_ws l with
      | [] => None
      | q :: r =>
          if q =? 34 then
            '(k, t) ← parse_string r;
            match skip_ws t with
            | [] => None
            | c :: r1 =>
                if c =? 58 then
                  '(v, t1) ← parse_value f r1;
                  match skip_ws t1 with
                  | d :: r2 =>
                      if d =? 44 then parse_members f (map_set acc k v) r2
                      else if d =? 125 then Some (JObj (map_set acc k v), r2) else None
                  | [] => None
                  end
                else None
            end
          else None
      end
  end.

(** [JSON.parse]; [None] is the [SyntaxError].  Twice the length of the text is
    more fuel than the recursion can use: every second call consumes a unit. *)
Definition parse (l : jstr) : option json :=
  match parse_value (2 * length l + 2) l with
  | Some (j, t) => match skip_ws t with [] => Some j | _ => None end
  | None => None
  end.

(** ** Decimal literals *)
Definition no_dec_next (l : jstr) : bool :=
  match l with c :: _ => negb (is_dec c) | [] => true end.

Lemma is_dec_iff c : is_dec c = true <-> 48 <= c <= 57.
Proof. unfold is_dec. rewrite andb_true_iff, !N.leb_le. done. Qed.

Lemma span_dec_app ds rest :
  forallb is_dec ds = true -> no_dec_next rest = true -> span_dec (ds ++ rest) = (ds, rest).
Proof.
  intros Hd Hr. induction ds as [|d ds IH]; cbn in *.
  - destruct rest as [|c r]; [done|]. cbn in *. by apply negb_true_iff in Hr as ->.
  - apply andb_prop in Hd as [-> Hd]. by rewrite IH.
Qed.

Lemma dec_value_snoc ds d : dec_value (ds ++ [d]) = 10 * dec_value ds + (d - 48).
Proof. unfold dec_value. by rewrite foldl_app. Qed.

Lemma dec_digits_spec f n :
  n < 2 ^ N.of_nat f ->
  forallb is_dec (dec_digits (S f) n) = true
  /\ dec_value (dec_digits (S f) n) = n
  /\ exists d r, dec_digits (S f) n = d :: r /\ (n <> 0 -> d <> 48).
Proof.
  revert n. induction f as [|f IH]; intros n Hn.
  { cbn in Hn. assert (n = 0) as -> by lia. split_and!; [done..|]. by exists 48, []. }
  change (dec_digits (S (S f)) n)
    with (if n <? 10 then [48 + n] else dec_digits (S f) (n / 10) ++ [48 + n mod 10]).
  destruct (N.ltb_spec n 10) as [Hlt|Hge].
  - split_and!; cbn.
    + rewrite andb_true_r. apply is_dec_iff. lia.
    + unfold dec_value. cbn. lia.
    + eexists _, _. split; [done|lia].
  - assert (n mod 10 < 10) by (apply N.mod_lt; lia).
    assert (n = 10 * (n / 10) + n mod 10) by (apply N.div_mod; lia).
    destruct (IH (n / 10)) as (Hd & Hv & d & r & E & Hne).
    { rewrite Nat2N.inj_succ, N.pow_succ_r' in Hn. apply N.Div0.div_lt_upper_bound. lia. }
    clear IH Hn. set (q := n / 10) in *. set (m := n mod 10) in *. clearbody q m.
    split_and!.
    + rewrite forallb_app, Hd. cbn [forallb andb]. rewrite andb_true_r. apply is_dec_iff. lia.
    + rewrite dec_value_snoc, Hv. lia.
    + exists d, (r ++ [48 + m]). rewrite E. split; [done|]. intros _. apply Hne. lia.
Qed.

Lemma decimal_spec n :
  forallb is_dec (decimal n) = true /\ dec_value (decimal n) = n
  /\ exists d r, decimal n = d :: r /\ (n <> 0 -> d <> 48).
Proof.
  apply dec_digits_spec. destruct n as [|p]; [cbn; lia|].
  change (N.size_nat (N.pos p)) with (Pos.size_nat p).
  pose proof (Pos.size_gt p). 
  assert (N.of_nat (Pos.size_nat p) = N.pos (Pos.size p)) as ->; [|].
  { clear. induction p; cbn [Pos.size_nat Pos.size]; lia. }
  change (2 ^ N.pos (Pos.size p)) with (N.pos (2 ^ Pos.size p)). lia.
Qed.

Lemma decimal_no_leading_zero n : leading_zero (decimal n) = false.
Proof.
  destruct (decide (n = 0)) as [->|Hn]; [done|].
  destruct (decimal_spec n) as (_ & _ & d & r & -> & Hd). cbn.
  destruct r; [done|]. apply N.eqb_neq. auto.
Qed.

(** A number that fits the mantissa is read exactly. *)
Lemma nearest_double_int m :
  (0 < m < 2 ^ 53 -> nearest_double m 1 = (m * 2 ^ (52 - Z.log2 m), Z.log2 m - 52))%Z.
Proof.
  intros Hm. unfold nearest_double.
  pose proof (Z.log2_nonneg m). pose proof (Z.log2_spec m).
  assert (Z.log2 m < 53)%Z by (apply Z.log2_lt_pow2; lia).
  change (Z.log2 1) with 0%Z. rewrite Z.sub_0_r, (Z.max_r 0 (Z.log2 m)) by lia.
  rewrite (Z.max_l 0 (- Z.log2 m)) by lia. rewrite (proj2 (Z.leb_le _ _)) by lia.
  rewrite (Z.max_r (-1074)), (Z.max_l 0 (Z.log2 m - 52)) by lia.
  rewrite (Z.max_r 0) by lia. change (1 * 2 ^ 0)%Z with 1%Z.
  rewrite Z.div_1_r, Z.mod_1_r. cbn [Z.mul Z.ltb Z.compare].
  do 3 f_equal; lia.
Qed.

Lemma to_number_int lit neg m :
  m < 2 ^ 53 -> to_number lit neg m 0 = JInt (if neg then - Z.of_N m else Z.of_N m)%Z.
Proof.
  intros Hm. unfold to_number.
  destruct (Z.eqb_spec (Z.of_N m) 0) as [E|Hne]; [rewrite E; by destruct neg|].
  change (10 ^ Z.max 0 0)%Z with 1%Z. change (10 ^ Z.max 0 (- 0))%Z with 1%Z.
  rewrite Z.mul_1_r. set (z := Z.of_N m) in *.
  assert (0 < z < 2 ^ 53)%Z as Hz by (subst z; lia).
  rewrite nearest_double_int by done.
  pose proof (Z.log2_nonneg z). assert (Z.log2 z < 53)%Z by (apply Z.log2_lt_pow2; lia).
  rewrite Z.log2_mul_pow2 by lia.
  rewrite (proj2 (Z.ltb_ge _ _)) by lia.
  destruct (Z.leb_spec 0 (Z.log2 z - 52)).
  - replace (Z.log2 z - 52)%Z with 0%Z by lia. replace (52 - Z.log2 z)%Z with 0%Z by lia.
    destruct neg; f_equal; lia.
  - replace (- (Z.log2 z - 52))%Z with (52 - Z.log2 z)%Z by lia.
    rewrite Z.mod_mul, Z.div_mul by (apply Z.pow_nonzero; lia). cbn.
    destruct neg; f_equal; lia.
Qed.

(** What may follow a number without being read as part of it. *)
Definition no_num_next (l : jstr) : bool :=
  match l with
  | c :: _ => negb (is_dec c || (c =? 46) || (c =? 101) || (c =? 69))
  | [] => true
  end.

Lemma parse_exponent_none l : no_num_next l = true -> parse_exponent l = Some (0%Z, l).
Proof.
  destruct l as [|c r]; [done|]. cbn. intros H. apply negb_true_iff in H.
  repeat (apply orb_false_iff in H as [H ?]).
  by destruct (c =? 101), (c =? 69).
Qed.

Lemma parse_fraction_none l : no_num_next l = true -> parse_fraction l = Some ([], l).
Proof.
  destruct l as [|c r]; [done|]. cbn. intros H. apply negb_true_iff in H.
  repeat (apply orb_false_iff in H as [H ?]). by destruct (c =? 46).
Qed.

Definition safe_int (z : Z) : bool := (- (2 ^ 53) <? z)%Z && (z <? 2 ^ 53)%Z.

Lemma parse_number_decimal z rest :
  safe_int z = true -> no_num_next rest = true ->
  parse_number (decimal_Z z ++ rest) = Some (JInt z, rest).
Proof.
  intros Hz Hr. apply andb_prop in Hz as [Hz1%Z.ltb_lt Hz2%Z.ltb_lt].
  assert (no_dec_next rest = true) as Hd.
  { destruct rest; [done|]. cbn in *. by destruct (is_dec n). }
  assert (exists (neg : bool) m, z = (if neg then - Z.of_N m else Z.of_N m)%Z
    /\ decimal_Z z = (if neg then [45] else []) ++ decimal m
    /\ m < 2 ^ 53) as (neg & m & Ez & Ed & Hm).
  { destruct z as [|p|p].
    - exists false, 0. done.
    - exists false, (Npos p). split_and!; [done..|lia].
    - exists true, (Npos p). split_and!; [done..|lia]. }
  rewrite Ed. unfold parse_number.
  destruct (decimal_spec m) as (H1 & H2 & d & r & E & _).
  set (l := (_ ++ decimal m) ++ rest).
  assert ((match l with
           | c :: r0 => if c =? 45 then (true, r0) else (false, l)
           | [] => (false, l)
           end) = (neg, decimal m ++ rest)) as ->.
  { subst l. destruct neg; [done|]. rewrite E in H1 |- *. cbn in *.
    destruct (N.eqb_spec d 45) as [->|]; [done|done]. }
  rewrite span_dec_app by done.
  rewrite bool_decide_false by (by rewrite E). rewrite decimal_no_leading_zero.
  rewrite parse_fraction_none by done. cbn [mbind option_bind].
  rewrite parse_exponent_none by done. cbn [mbind option_bind].
  rewrite app_nil_r, H2. cbn [length]. change (0 - Z.of_nat 0)%Z with 0%Z.
  by rewrite to_number_int, Ez.
Qed.

(** ** Strings *)
Definition is_unit (c : N) : Prop := c < 65536.

Lemma hex_value_digit d : d < 16 -> hex_value (hex_digit d) = Some d.
Proof.
  intros Hd. destruct d as [|p]; [done|].
  do 5 (destruct p as [p|p|]; try done; try (exfalso; lia)).
Qed.

Lemma hex4_escape c :
  is_unit c ->
  hex4 (hex_digit (c / 4096 mod 16)) (hex_digit (c / 256 mod 16))
       (hex_digit (c / 16 mod 16)) (hex_digit (c mod 16)) = Some c.
Proof.
  intros Hc. unfold hex4. rewrite !hex_value_digit by (apply N.mod_lt; done).
  cbn [mbind option_bind]. f_equal.
  assert (c / 4096 < 16) by (apply N.Div0.div_lt_upper_bound; done).
  rewrite (N.mod_small (c / 4096)) by done.
  clear -Hc. unfold is_unit in Hc. zify. Z.to_euclidean_division_equations. lia.
Qed.

Lemma parse_string_unit c t :
  is_unit c ->
  parse_string (quote_unit c ++ t) = ('(s, t') ← parse_string t; Some (c :: s, t')).
Proof.
  intros Hc. unfold quote_unit.
  repeat match goal with
  | |- context [if ?x =? ?y then _ else _] => destruct (N.eqb_spec x y) as [->|]; [done|]
  end.
  destruct (_ || _) eqn:E.
  - unfold escape_u. cbn [app]. cbn -[hex4 hex_digit N.div N.modulo].
    by rewrite hex4_escape.
  - apply orb_false_iff in E as [[E _]%orb_false_iff _]. cbn.
    by rewrite !(proj2 (N.eqb_neq _ _)), E by done.
Qed.

Lemma parse_string_plain c t :
  high_surrogate c || low_surrogate c = true ->
  parse_string (c :: t) = ('(s, t') ← parse_string t; Some (c :: s, t')).
Proof.
  intros H. assert (55296 <= c).
  { unfold high_surrogate, low_surrogate in H.
    apply orb_prop in H as [[H%N.leb_le _]%andb_prop|[H%N.leb_le _]%andb_prop]; lia. }
  cbn. rewrite !(proj2 (N.eqb_neq c _)) by lia. by rewrite (proj2 (N.ltb_ge c 32)) by lia.
Qed.

Lemma parse_string_quote s rest :
  Forall is_unit s -> parse_string (quote_units s ++ 34 :: rest) = Some (s, rest).
Proof.
  remember (length s) as n eqn:En. assert (length s <= n)%nat as Hn by lia. clear En.
  revert s Hn. induction n as [|n IH]; intros [|c s] Hn Hs; cbn in Hn; try (done || lia).
  apply Forall_cons_1 in Hs as [Hc Hs]. destruct s as [|d s].
  - cbn [quote_units]. by rewrite parse_string_unit.
  - cbn -[quote_unit high_surrogate low_surrogate] in *.
    destruct (high_surrogate c && low_surrogate d) eqn:E.
    + apply andb_prop in E as [E1 E2]. apply Forall_cons_1 in Hs as [Hd Hs].
      cbn [app]. rewrite parse_string_plain by (by rewrite E1).
      rewrite parse_string_plain by (by rewrite E2, orb_true_r).
      by rewrite IH by (done || lia).
    + rewrite <- app_assoc, parse_string_unit by done.
      pose proof (IH (d :: s)) as IH'. cbn [quote_units] in IH'. rewrite IH'; [done| |done]. cbn in *. lia.
Qed.

Lemma units_inj s s' : units s = units s' -> s = s'.
Proof.
  unfold units. revert s'. induction s as [|c s IH]; intros [|c' s']; cbn; try done.
  intros [= Hc Hs]. f_equal; [|auto].
  by rewrite <- (ascii_N_embedding c), Hc, ascii_N_embedding.
Qed.

#[export] Instance units_Inj : Inj (=) (=) units := units_inj.
Lemma units_wf s : bool_decide (Forall is_unit (units s)) = true.
Proof.
  apply bool_decide_eq_true, Forall_forall. intros c (a & -> & _)%list_elem_of_In%list_elem_of_fmap.
  pose proof (N_ascii_bounded a). unfold is_unit. lia.
Qed.

(** ** The parser reads back what the printer writes *)
(** The values [stringify] prints exactly. *)
Fixpoint json_wf (j : json) : bool :=
  match j with
  | JNull | JBool _ => true
  | JInt z => safe_int z
  | JFrac _ => false
  | JStr s => bool_decide (Forall is_unit s)
  | JArr l => forallb json_wf l
  | JObj l =>
      bool_decide (NoDup l.*1)
      && forallb (fun kv => bool_decide (Forall is_unit kv.1) && json_wf kv.2) l
  end.

(** The fuel a value needs. *)
Fixpoint cost (j : json) : nat :=
  match j with
  | JArr l => S (sum_list (map (fun x => S (cost x)) l))
  | JObj l => S (sum_list (map (fun kv => S (cost kv.2)) l))
  | _ => 1
  end.

Lemma decimal_Z_head z :
  exists c r, decimal_Z z = c :: r /\ (c = 45 \/ is_dec c = true).
Proof.
  assert (forall n, exists c r, decimal n = c :: r /\ (c = 45 \/ is_dec c = true)) as H.
  { intros n. destruct (decimal_spec n) as (Hd & _ & d & r & E & _).
    rewrite E in *. cbn in Hd. apply andb_prop in Hd as [Hd _]. eauto. }
  destruct z; cbn; eauto.
Qed.

(** The first unit of a value: not white space and no closing bracket. *)
Lemma stringify_head j :
  json_wf j = true ->
  exists c r, stringify j = c :: r /\ is_ws c = false /\ c <> 93 /\ c <> 125.
Proof.
  destruct j as [|[]|z| | | |]; try (by eauto 10).
  intros _. destruct (decimal_Z_head z) as (c & r & E & Hc). exists c, r.
  split; [done|]. destruct Hc as [->|Hc%is_dec_iff]; [done|].
  unfold is_ws. rewrite !(proj2 (N.eqb_neq c _)) by lia. split_and!; [done|lia..].
Qed.

Lemma skip_ws_head c r : is_ws c = false -> skip_ws (c :: r) = c :: r.
Proof. cbn. by intros ->. Qed.

Definition reads_back (j : json) : Prop :=
  json_wf j = true -> forall f rest, (cost j <= f)%nat -> no_num_next rest = true ->
  parse_value f (stringify j ++ rest) = Some (j, rest).

Lemma parse_elements_back l :
  Forall reads_back l -> forallb json_wf l = true -> l <> [] ->
  forall f acc rest,
  (sum_list (map (fun x => S (cost x)) l) <= f)%nat ->
  parse_elements f acc (sep_concat [44] (map stringify l) ++ 93 :: rest)
  = Some (JArr (acc ++ l), rest).
Proof.
  induction l as [|x l IH]; [done|]. intros [Hx Hl]%Forall_cons_1.
  cbn [forallb]. intros [Wx Wl]%andb_prop _ [|f] acc rest Hf; cbn in Hf; [lia|].
  destruct l as [|y l].
  - cbn [map sep_concat parse_elements]. rewrite Hx by (done || lia). done.
  - change (sep_concat [44] (map stringify (x :: y :: l)))
      with (stringify x ++ [44] ++ sep_concat [44] (map stringify (y :: l))).
    rewrite <- !app_assoc. cbn [parse_elements app]. rewrite Hx by (done || lia).
    cbn [mbind option_bind]. cbn [skip_ws is_ws N.eqb Pos.eqb orb].
    rewrite IH; [|done..|lia]. by rewrite <- app_assoc.
Qed.

Lemma parse_members_back l :
  Forall (fun kv => reads_back kv.2) l ->
  forallb (fun kv => bool_decide (Forall is_unit kv.1) && json_wf kv.2) l = true -> l <> [] ->
  forall f acc rest,
  (sum_list (map (fun kv => S (cost kv.2)) l) <= f)%nat ->
  NoDup (acc ++ l).*1 ->
  parse_members f acc
    (sep_concat [44] (map (fun kv => quoted kv.1 ++ [58] ++ stringify kv.2) l) ++ 125 :: rest)
  = Some (JObj (acc ++ l), rest).
Proof.
  induction l as [|[k v] l IH]; [done|]. intros [Hx Hl]%Forall_cons_1.
  cbn [forallb fst snd] in *. intros [[Wk%bool_decide_eq_true Wx]%andb_prop Wl]%andb_prop _ [|f] acc rest Hf Hn.
  { cbn in Hf. lia. }
  cbn in Hf.
  assert (k ∉ acc.*1) as Hk.
  { rewrite fmap_app in Hn. apply list.NoDup_app in Hn as (_ & Hd & _).
    intros Hin. apply (Hd k Hin). cbn. left. }
  assert (forall t, no_num_next t = true ->
    parse_members (S f) acc ((quoted k ++ [58] ++ stringify v) ++ t) =
    match skip_ws t with
    | d :: r2 => if d =? 44 then parse_members f (acc ++ [(k, v)]) r2
                 else if d =? 125 then Some (JObj (acc ++ [(k, v)]), r2) else None
    | [] => None
    end) as Hstep.
  { intros t Ht. unfold quoted. rewrite <- !app_assoc. cbn [app parse_members].
    rewrite skip_ws_head by done. cbn [N.eqb Pos.eqb].
    rewrite parse_string_quote by done. cbn [mbind option_bind].
    rewrite skip_ws_head by done. cbn [N.eqb Pos.eqb]. 
    rewrite Hx by (done || lia). cbn [mbind option_bind]. by rewrite map_set_new. }
  destruct l as [|y l].
  - cbn [map sep_concat fst snd]. by rewrite Hstep.
  - change (sep_concat [44] (map _ ((k, v) :: y :: l)))
      with ((quoted k ++ [58] ++ stringify v) ++ [44] ++
            sep_concat [44] (map (fun kv => quoted kv.1 ++ [58] ++ stringify kv.2) (y :: l))).
    rewrite <- (app_assoc (quoted k ++ _)). rewrite Hstep by done.
    cbn [app]. rewrite skip_ws_head by done. cbn [N.eqb Pos.eqb].
    rewrite IH; [|done..|lia|]; rewrite <- app_assoc; done.
Qed.

Lemma parse_value_back j : reads_back j.
Proof.
  induction j as [|b|z|s|s|l IH|l IH] using json_nested_ind; intros W [|f] rest Hf Hr;
    try (cbn in Hf; lia).
  - done.
  - by destruct b.
  - cbn [stringify]. destruct (decimal_Z_head z) as (c & r & E & Hc).
    rewrite <- (parse_number_decimal z rest) by done. rewrite E. cbn [app parse_value].
    destruct Hc as [->|Hc%is_dec_iff]; [done|].
    rewrite skip_ws_head by (unfold is_ws; by rewrite !(proj2 (N.eqb_neq c _)) by lia).
    by rewrite !(proj2 (N.eqb_neq c _)) by lia.
  - done.
  - cbn in W. apply bool_decide_eq_true in W. cbn [stringify]. unfold quoted.
    rewrite <- !app_assoc. cbn [app parse_value]. rewrite skip_ws_head by done.
    cbn [N.eqb Pos.eqb]. by rewrite parse_string_quote.
  - cbn [stringify]. rewrite <- !app_assoc. cbn [app parse_value].
    rewrite skip_ws_head by done. cbn [N.eqb Pos.eqb]. cbn in W.
    destruct l as [|x l]; [done|].
    pose proof (parse_elements_back _ IH W ltac:(done) f [] rest) as HE.
    rewrite app_nil_l in HE.
    cbn [cost] in Hf. rewrite <- (HE ltac:(lia)). clear HE.
    cbn in W. apply andb_prop in W as [Wx _].
    destruct (stringify_head x Wx) as (c & r & E & Hc & Hn & _).
    assert (exists t, sep_concat [44] (map stringify (x :: l)) = c :: t) as [t ->].
    { cbn [map]. rewrite E. destruct l; cbn; eauto. }
    cbn [app]. rewrite skip_ws_head by done. by rewrite (proj2 (N.eqb_neq c 93)) by done.
  - cbn [stringify]. rewrite <- !app_assoc. cbn [app parse_value].
    rewrite skip_ws_head by done. cbn [N.eqb Pos.eqb]. cbn in W.
    apply andb_prop in W as [Wn%bool_decide_eq_true W].
    destruct l as [|x l]; [done|].
    pose proof (parse_members_back _ IH W ltac:(done) f [] rest) as HE.
    rewrite app_nil_l in HE.
    cbn [cost] in Hf. rewrite <- (HE ltac:(lia) Wn). clear HE.
    destruct l; reflexivity.
Qed.

Lemma sep_concat_length_comma x l :
  (sum_list (map length (x :: l)) + length l <= length (sep_concat [44%N] (x :: l)))%nat.
Proof.
  revert x. induction l as [|y l IH]; intros x; [cbn; lia|].
  change (sep_concat [44] (x :: y :: l)) with (x ++ [44] ++ sep_concat [44] (y :: l)).
  rewrite !length_app. specialize (IH y). cbn in *. lia.
Qed.

Lemma cost_list {A} (f : A -> nat) (g : A -> jstr) l :
  Forall (fun x => f x <= 2 * length (g x))%nat l ->
  (sum_list (map (fun x => S (f x)) l) <= 2 * length (sep_concat [44%N] (map g l)) + 1)%nat.
Proof.
  intros H. destruct l as [|x l]; [cbn; lia|].
  pose proof (sep_concat_length_comma (g x) (map g l)) as Hl. rewrite length_map in Hl.
  enough (sum_list (map (fun x => S (f x)) (x :: l))
          <= 2 * sum_list (map length (map g (x :: l))) + length (x :: l))%nat by (cbn in *; lia).
  clear Hl. revert H. generalize (x :: l). clear. intros l H.
  induction H as [|x l Hx Hl IH]; cbn in *; lia.
Qed.

Lemma cost_length j : json_wf j = true -> (cost j <= 2 * length (stringify j))%nat.
Proof.
  induction j as [|b|z|s|s|l IH|l IH] using json_nested_ind; intros W; try done; cbn [cost stringify].
  - vm_compute. lia.
  - destruct b; vm_compute; lia.
  - destruct (decimal_Z_head z) as (c & r & -> & _). cbn. lia.
  - unfold quoted. rewrite length_app. cbn. lia.
  - pose proof (cost_list cost stringify l) as HC. rewrite !length_app. cbn [length].
    enough (Forall (fun x => cost x <= 2 * length (stringify x))%nat l) by (specialize (HC H); lia).
    cbn in W. rewrite forallb_forall in W. rewrite Forall_forall in *.
    auto.
  - change (json_wf (JObj l)) with (bool_decide (NoDup l.*1)
      && forallb (fun kv => bool_decide (Forall is_unit kv.1) && json_wf kv.2) l) in W.
    apply andb_prop in W as [_ W]. rewrite forallb_forall in W.
    assert (Forall (fun kv => cost kv.2 <= 2 * length (quoted kv.1 ++ [58%N] ++ stringify kv.2))%nat l)
      as HC%cost_list.
    { rewrite Forall_forall in *. intros kv Hkv. rewrite !length_app.
      specialize (W kv Hkv). apply andb_prop in W as [_ W]. specialize (IH kv Hkv W). lia. }
    rewrite !length_app. cbn [length]. lia.
Qed.

(** [JSON.parse] reads back what [JSON.stringify] writes. *)
Lemma parse_stringify j : json_wf j = true -> parse (stringify j) = Some j.
Proof.
  intros W. unfold parse. pose proof (cost_length j W).
  rewrite <- (app_nil_r (stringify j)) at 2. by rewrite parse_value_back by (done || lia).
Qed.

Lemma stringify_inj j j' :
  json_wf j = true -> json_wf j' = true -> stringify j = stringify j' -> j = j'.
Proof.
  intros W W' E. apply (f_equal parse) in E. rewrite !parse_stringify in E by done. congruence.
Qed.

(** ** The parser's fuel is enough *)
Lemma skip_ws_length l : (length (skip_ws l) <= length l)%nat.
Proof. induction l as [|c l IH]; cbn; [done|]. destruct (is_ws c); cbn; lia. Qed.

Lemma skip_ws_cons l c r : skip_ws l = c :: r -> (length r < length l)%nat.
Proof. intros E. pose proof (skip_ws_length l) as H. rewrite E in H. cbn in H. lia. Qed.

Lemma span_dec_length l ds t : span_dec l = (ds, t) -> length l = (length ds + length t)%nat.
Proof.
  revert ds t. induction l as [|c l IH]; cbn; intros ds t E; [by simplify_eq|].
  destruct (is_dec c); [|by simplify_eq].
  destruct (span_dec l) as [ds' t'] eqn:E'. simplify_eq. cbn. by rewrite (IH ds' t).
Qed.

Lemma parse_string_length l s t : parse_string l = Some (s, t) -> (length t < length l)%nat.
Proof.
  remember (length l) as n eqn:En. assert (length l <= n)%nat as Hn by lia. clear En.
  revert l s t Hn. induction n as [|n IH]; intros [|c l] s t Hn E; cbn in Hn, E; try (done || lia).
  destruct (c =? 34); [simplify_eq; lia|]. destruct (c =? 92).
  - destruct l as [|e l]; [done|]. cbn in Hn. destruct (e =? 117).
    + destruct l as [|? [|? [|? [|? l]]]]; try done. cbn in Hn.
      inv_some. apply IH in H0; cbn; lia.
    + inv_some. apply IH in H0; lia.
  - destruct (c <? 32); [done|]. inv_some. apply IH in H; lia.
Qed.

Lemma expect_length w l t : expect w l = Some t -> (length t <= length l)%nat.
Proof.
  revert l. induction w as [|c w IH]; intros [|d l]; cbn; intros E; simplify_eq; [done..|].
  destruct (c =? d); [|done]. apply IH in E. lia.
Qed.

Lemma parse_number_length l j t : parse_number l = Some (j, t) -> (length t < length l)%nat.
Proof.
  unfold parse_number. intros E.
  destruct (match l with c :: r => if c =? 45 then (true, r) else (false, l) | [] => (false, l) end)
    as [neg l1] eqn:El.
  assert (length l1 <= length l)%nat as Hl1.
  { destruct l as [|c r]; [by simplify_eq|]. destruct (c =? 45); simplify_eq; cbn; lia. }
  destruct (span_dec l1) as [ip l2] eqn:Es. apply span_dec_length in Es.
  destruct (bool_decide (ip = []) || leading_zero ip) eqn:Eb; [done|].
  apply orb_false_iff in Eb as [Hip%bool_decide_eq_false _].
  assert (length ip <> 0)%nat by (by destruct ip).
  apply bind_Some in E as ([fp l3] & Ef & E). apply bind_Some in E as ([e l4] & Ee & E).
  assert (length l3 <= length l2)%nat.
  { unfold parse_fraction in Ef. destruct l2 as [|c r]; [by simplify_eq|].
    destruct (c =? 46); [|by simplify_eq].
    destruct (span_dec r) as [[|d ds] t'] eqn:Ed; simplify_eq. apply span_dec_length in Ed. cbn in *. lia. }
  assert (length l4 <= length l3)%nat.
  { unfold parse_exponent in Ee. destruct l3 as [|c r]; [by simplify_eq|].
    destruct (_ || _); [|by simplify_eq].
    destruct (match r with s :: r' => _ | [] => _ end) as [neg' r1] eqn:Er.
    assert (length r1 <= length r)%nat.
    { destruct r as [|s r']; [by simplify_eq|]. destruct (s =? 45), (s =? 43); simplify_eq; cbn; lia. }
    destruct (span_dec r1) as [[|d ds] t'] eqn:Ed; simplify_eq. apply span_dec_length in Ed. cbn in *. lia. }
  simplify_eq. lia.
Qed.

Lemma parse_length f :
  (forall l j t, parse_value f l = Some (j, t) -> (length t < length l)%nat)
  /\ (forall acc l j t, parse_elements f acc l = Some (j, t) -> (length t < length l)%nat)
  /\ (forall acc l j t, parse_members f acc l = Some (j, t) -> (length t < length l)%nat).
Proof.
  induction f as [|f (IHv & IHe & IHm)]; [done|]. split_and!.
  - intros l j t E. cbn [parse_value] in E. destruct (skip_ws l) as [|c r] eqn:El; [done|].
    apply skip_ws_cons in El.
    repeat match goal with
    | E : (if ?b then _ else _) = Some _ |- _ => destruct b
    | E : match skip_ws ?x with _ => _ end = Some _ |- _ =>
        destruct (skip_ws x) as [|? ?] eqn:Es; [done|]; apply skip_ws_cons in Es
    end; inv_some; try lia;
    repeat match goal with
    | H : parse_elements f _ _ = _ |- _ => apply IHe in H; cbn in H
    | H : parse_members f _ _ = _ |- _ => apply IHm in H; cbn in H
    | H : parse_string _ = _ |- _ => apply parse_string_length in H
    | H : expect _ _ = _ |- _ => apply expect_length in H
    | H : parse_number _ = _ |- _ => apply parse_number_length in H; cbn in H
    end; lia.
  - intros acc l j t E. cbn in E. apply bind_Some in E as ([v t1] & Ev & E).
    apply IHv in Ev. destruct (skip_ws t1) as [|c r] eqn:Es; [done|]. apply skip_ws_cons in Es.
    destruct (c =? 44); [apply IHe in E; lia|]. destruct (c =? 93); inv_some; lia.
  - intros acc l j t E. cbn in E. destruct (skip_ws l) as [|q r] eqn:El; [done|].
    apply skip_ws_cons in El. destruct (q =? 34); [|done].
    apply bind_Some in E as ([k t0] & Ek & E). apply parse_string_length in Ek.
    destruct (skip_ws t0) as [|c r1] eqn:Es; [done|]. apply skip_ws_cons in Es.
    destruct (c =? 58); [|done]. apply bind_Some in E as ([v t1] & Ev & E). apply IHv in Ev.
    destruct (skip_ws t1) as [|d r2] eqn:Et; [done|]. apply skip_ws_cons in Et.
    destruct (d =? 44); [apply IHm in E; lia|]. destruct (d =? 125); inv_some; lia.
Qed.

Lemma parse_fuel_step f :
  (forall l, (2 * length l + 1 <= f)%nat -> parse_value f l = parse_value (S f) l)
  /\ (forall acc l, (2 * length l + 2 <= f)%nat -> parse_elements f acc l = parse_elements (S f) acc l)
  /\ (forall acc l, (2 * length l + 2 <= f)%nat -> parse_members f acc l = parse_members (S f) acc l).
Proof.
  induction f as [|f (IHv & IHe & IHm)]; [split_and!; intros; lia|]. split_and!.
  - intros l Hl. remember (S f) as f' eqn:Ef. cbn [parse_value]. rewrite Ef at 1. cbn [parse_value].
    destruct (skip_ws l) as [|c r] eqn:El; [done|]. apply skip_ws_cons in El.
    destruct (c =? 123); [|destruct (c =? 91)]; try done;
      (destruct (skip_ws r) as [|d r'] eqn:Er; [done|]; apply skip_ws_cons in Er;
       destruct (d =? _); [done|]; subst f'; apply IHm || apply IHe; cbn; lia).
  - intros acc l Hl. remember (S f) as f' eqn:Ef. cbn [parse_elements]. rewrite Ef at 1.
    cbn [parse_elements]. subst f'. rewrite IHv by lia.
    destruct (parse_value (S f) l) as [[v t]|] eqn:Ev; [|done]. apply (parse_length (S f)) in Ev.
    cbn [mbind option_bind]. destruct (skip_ws t) as [|c r] eqn:Es; [done|]. apply skip_ws_cons in Es.
    destruct (c =? 44); [|done]. apply IHe. lia.
  - intros acc l Hl. remember (S f) as f' eqn:Ef. cbn [parse_members]. rewrite Ef at 1.
    cbn [parse_members]. subst f'. destruct (skip_ws l) as [|q r] eqn:El; [done|].
    apply skip_ws_cons in El. destruct (q =? 34); [|done].
    destruct (parse_string r) as [[k t]|] eqn:Ek; [|done]. apply parse_string_length in Ek.
    cbn [mbind option_bind]. destruct (skip_ws t) as [|c r1] eqn:Es; [done|]. apply skip_ws_cons in Es.
    destruct (c =? 58); [|done]. rewrite IHv by lia.
    destruct (parse_value (S f) r1) as [[v t1]|] eqn:Ev; [|done]. apply (parse_length (S f)) in Ev.
    cbn [mbind option_bind]. destruct (skip_ws t1) as [|d r2] eqn:Et; [done|]. apply skip_ws_cons in Et.
    destruct (d =? 44); [|done]. apply IHm. lia.
Qed.

(** More fuel than [parse] gives changes nothing. *)
Lemma parse_value_fuel f l :
  (2 * length l + 2 <= f)%nat -> parse_value f l = parse_value (2 * length l + 2) l.
Proof.
  intros Hf. replace f with (2 * length l + 2 + (f - (2 * length l + 2)))%nat by lia.
  generalize (f - (2 * length l + 2))%nat. intros k. induction k as [|k IH]; [by rewrite Nat.add_0_r|].
  rewrite Nat.add_succ_r, <- IH. symmetry. apply parse_fuel_step. lia.
Qed.
