(* ===== verification/Codec.v ===== *)
(** * Text encodings ([packages/license/src/token.ts], first half)

    [TextEncoder], the fatal [TextDecoder] and the base64url codec of the
    license tokens, on code units and bytes. *)
From S2P Require Import Prelude Json.
Local Open Scope N_scope.

(** A [Uint8Array], as its bytes. *)
Abbreviation bytes := (list N).
Definition is_byte (b : N) : Prop := b < 256.

(** ** UTF-8 *)
(** A code point outside the surrogates. *)
Definition encode_point (c : N) : bytes :=
  if c <? 128 then [c]
  else if c <? 2048 then [192 + c / 64; 128 + c mod 64]
  else if c <? 65536 then [224 + c / 4096; 128 + c / 64 mod 64; 128 + c mod 64]
  else [240 + c / 262144; 128 + c / 4096 mod 64; 128 + c / 64 mod 64; 128 + c mod 64].

Definition surrogate (c : N) : bool := high_surrogate c || low_surrogate c.

(** A surrogate without its partner is encoded as U+FFFD. *)
Definition encode_unit (c : N) : bytes := encode_point (if surrogate c then 65533 else c).

Definition pair_point (hi lo : N) : N := 65536 + (hi - 55296) * 1024 + (lo - 56320).

(** [enc.encode(s)]. *)
Fixpoint utf8 (s : jstr) : bytes :=
  match s with
  | [] => []
  | c :: r =>
      match r with
      | d :: r' =>
          if high_surrogate c && low_surrogate d then encode_point (pair_point c d) ++ utf8 r'
          else encode_unit c ++ utf8 r
      | [] => encode_unit c
      end
  end.

Definition continuation (b : N) : bool := (128 <=? b) && (b <=? 191).

(** The code units of a code point. *)
Definition point_units (c : N) : jstr :=
  if c <? 65536 then [c]
  else [55296 + (c - 65536) / 1024; 56320 + (c - 65536) mod 1024].

(** The UTF-8 decoder of the Encoding Standard; any error is fatal. *)
Fixpoint utf8_decode (l : bytes) : option jstr :=
  match l with
  | [] => Some []
  | b :: r =>
      if b <? 128 then s ← utf8_decode r; Some (b :: s)
      else if (194 <=? b) && (b <=? 223) then
        match r with
        | b1 :: r1 =>
            if continuation b1 then
              s ← utf8_decode r1; Some (point_units ((b - 192) * 64 + (b1 - 128)) ++ s)
            else None
        | [] => None
        end
      else if (224 <=? b) && (b <=? 239) then
        match r with
        | b1 :: b2 :: r2 =>
            if ((if b =? 224 then 160 else 128) <=? b1) && (b1 <=? (if b =? 237 then 159 else 191))
               && continuation b2
            then s ← utf8_decode r2;
                 Some (point_units ((b - 224) * 4096 + (b1 - 128) * 64 + (b2 - 128)) ++ s)
            else None
        | _ => None
        end
      else if (240 <=? b) && (b <=? 244) then
        match r with
        | b1 :: b2 :: b3 :: r3 =>
            if ((if b =? 240 then 144 else 128) <=? b1) && (b1 <=? (if b =? 244 then 143 else 191))
               && continuation b2 && continuation b3
            then s ← utf8_decode r3;
                 Some (point_units ((b - 240) * 262144 + (b1 - 128) * 4096 + (b2 - 128) * 64
                                    + (b3 - 128)) ++ s)
            else None
        | _ => None
        end
      else None
  end.

(** [dec.decode(bytes)]: a byte order mark at the start is dropped. *)
Definition decode_text (l : bytes) : option jstr :=
  match l with
  | a :: b :: c :: r =>
      if (a =? 239) && (b =? 187) && (c =? 191) then utf8_decode r else utf8_decode l
  | _ => utf8_decode l
  end.

(** ** Base64url *)
(** The characters of [btoa]. *)
Definition b64_char (v : N) : N :=
  if v <? 26 then 65 + v
  else if v <? 52 then 71 + v
  else if v <? 62 then v - 4
  else if v =? 62 then 43 else 47.

Definition b64_value (c : N) : option N :=
  if (65 <=? c) && (c <=? 90) then Some (c - 65)
  else if (97 <=? c) && (c <=? 122) then Some (c - 71)
  else if (48 <=? c) && (c <=? 57) then Some (c + 4)
  else if c =? 43 then Some 62
  else if c =? 47 then Some 63
  else None.

Fixpoint btoa (l : bytes) : jstr :=
  match l with
  | a :: b :: c :: r =>
      b64_char (a / 4) :: b64_char (a mod 4 * 16 + b / 16)
      :: b64_char (b mod 16 * 4 + c / 64) :: b64_char (c mod 64) :: btoa r
  | [a; b] => [b64_char (a / 4); b64_char (a mod 4 * 16 + b / 16); b64_char (b mod 16 * 4); 61]
  | [a] => [b64_char (a / 4); b64_char (a mod 4 * 16); 61; 61]
  | [] => []
  end.

(** The 6-bit groups of a text without padding, leftover bits dropped. *)
Fixpoint b64_groups (l : jstr) : option bytes :=
  match l with
  | p :: q :: r :: s :: t =>
      a ← b64_value p; b ← b64_value q; c ← b64_value r; d ← b64_value s;
      rest ← b64_groups t;
      Some (a * 4 + b / 16 :: b mod 16 * 16 + c / 4 :: c mod 4 * 64 + d :: rest)
  | [p; q; r] =>
      a ← b64_value p; b ← b64_value q; c ← b64_value r;
      Some [a * 4 + b / 16; b mod 16 * 16 + c / 4]
  | [p; q] => a ← b64_value p; b ← b64_value q; Some [a * 4 + b / 16]
  | [p] => None
  | [] => Some []
  end.

Fixpoint drop_trailing (c : N) (l : jstr) : jstr :=
  match l with
  | [] => []
  | x :: r =>
      match drop_trailing c r with
      | [] => if x =? c then [] else [x]
      | r' => x :: r'
      end
  end.

(** The padding [atob] accepts: one or two [=] at the end of a text of full
    groups. *)
Definition unpad (l : jstr) : jstr :=
  if N.of_nat (length l) mod 4 =? 0 then
    match reverse l with
    | a :: b :: r =>
        if a =? 61 then (if b =? 61 then reverse r else reverse (b :: r)) else l
    | [a] => if a =? 61 then [] else l
    | [] => l
    end
  else l.

(** [atob]: forgiving-base64 decode; [None] is the [InvalidCharacterError]. *)
Definition atob (l : jstr) : option bytes :=
  b64_groups (unpad (List.filter (fun c => negb ((c =? 9) || (c =? 10) || (c =? 12) || (c =? 13) || (c =? 32))) l)).

Definition replace_unit (x y c : N) : N := if c =? x then y else c.

Definition b64uEncode (l : bytes) : jstr :=
  drop_trailing 61 (map (replace_unit 47 95) (map (replace_unit 43 45) (btoa l))).

(** [/^[A-Za-z0-9_-]+$/]. *)
Definition is_b64url (c : N) : bool :=
  ((65 <=? c) && (c <=? 90)) || ((97 <=? c) && (c <=? 122)) || ((48 <=? c) && (c <=? 57))
  || (c =? 95) || (c =? 45).

(** Errors thrown while a token is decoded: those of the code with their
    message, and those the engine throws ([atob], [TextDecoder], [JSON.parse]),
    none of which is a [RangeError]. *)
Inductive token_error :=
| SyntaxError (message : string)
| RangeError (message : string)
| EngineError.

Definition b64uDecode (value : jstr) : result token_error bytes :=
  if bool_decide (value = []) || negb (forallb is_b64url value)
     || (N.of_nat (length value) mod 4 =? 1)
  then Err (SyntaxError "invalid base64url")
  else
    let padded :=
      map (replace_unit 95 47) (map (replace_unit 45 43) value)
      ++ replicate (N.to_nat ((4 - N.of_nat (length value) mod 4) mod 4)) 61 in
    match atob padded with
    | None => Err EngineError
    | Some out =>
        if bool_decide (b64uEncode out = value) then Ok out
        else Err (SyntaxError "non-canonical base64url")
    end.

(** ** The base64url round trip *)
Section ListInd3.
Context {A : Type} (P : list A -> Prop) (H0 : P []) (H1 : forall a, P [a])
  (H2 : forall a b, P [a; b]) (H3 : forall a b c l, P l -> P (a :: b :: c :: l)).

Fixpoint list_ind3 (l : list A) : P l :=
  match l with
  | [] => H0
  | [a] => H1 a
  | [a; b] => H2 a b
  | a :: b :: c :: r => H3 a b c r (list_ind3 r)
  end.
End ListInd3.

(** The 6-bit values of the characters [btoa] writes before the padding. *)
Fixpoint b64_core (l : bytes) : list N :=
  match l with
  | a :: b :: c :: r =>
      a / 4 :: a mod 4 * 16 + b / 16 :: b mod 16 * 4 + c / 64 :: c mod 64 :: b64_core r
  | [a; b] => [a / 4; a mod 4 * 16 + b / 16; b mod 16 * 4]
  | [a] => [a / 4; a mod 4 * 16]
  | [] => []
  end.

Fixpoint b64_pad (l : bytes) : nat :=
  match l with
  | _ :: _ :: _ :: r => b64_pad r
  | [_; _] => 1
  | [_] => 2
  | [] => 0
  end.

Lemma btoa_core l : btoa l = map b64_char (b64_core l) ++ replicate (b64_pad l) 61.
Proof. induction l as [| | |a b c l IH] using list_ind3; cbn; [done..|]. by rewrite IH. Qed.

Lemma divmod_bound a n k : a < n * k -> n <> 0 -> k <> 0 -> a / n < k.
Proof. intros. apply N.Div0.div_lt_upper_bound. lia. Qed.

Ltac div_lia := zify; Z.to_euclidean_division_equations; lia.

Lemma b64_core_bound l : Forall is_byte l -> Forall (fun v => v < 64) (b64_core l).
Proof.
  unfold is_byte. induction l as [|a|a b|a b c l IH] using list_ind3; cbn.
  - constructor.
  - intros [? _]%Forall_cons_1. repeat constructor; div_lia.
  - intros [? [? _]%Forall_cons_1]%Forall_cons_1. repeat constructor; div_lia.
  - intros [? [? [? ?]%Forall_cons_1]%Forall_cons_1]%Forall_cons_1.
    repeat (apply Forall_cons_2; [div_lia|]). auto.
Qed.

(** The character of base64url for a 6-bit value. *)
Definition b64u_char (v : N) : N := replace_unit 47 95 (replace_unit 43 45 (b64_char v)).

Lemma below_64 (P : N -> bool) :
  forallb P (map N.of_nat (seq 0 64)) = true -> forall v, v < 64 -> P v = true.
Proof.
  rewrite forallb_forall. intros H v Hv. apply H. apply in_map_iff.
  exists (N.to_nat v). rewrite N2Nat.id. split; [done|]. apply in_seq. lia.
Qed.

Lemma b64_char_value v : v < 64 -> b64_value (b64_char v) = Some v.
Proof.
  pose (ok v := match b64_value (b64_char v) with Some w => w =? v | None => false end).
  intros Hv. assert (ok v = true) as E by (by apply (below_64 ok)). unfold ok in E.
  destruct (b64_value (b64_char v)); [|done]. by apply N.eqb_eq in E as ->.
Qed.

Lemma b64u_char_url v : v < 64 -> is_b64url (b64u_char v) = true.
Proof. by apply (below_64 (fun v => is_b64url (b64u_char v))). Qed.

Lemma b64u_char_back v :
  v < 64 -> replace_unit 95 47 (replace_unit 45 43 (b64u_char v)) = b64_char v.
Proof.
  intros Hv. apply N.eqb_eq.
  by apply (below_64 (fun v => replace_unit 95 47 (replace_unit 45 43 (b64u_char v)) =? b64_char v)).
Qed.

(** Neither padding nor white space. *)
Lemma b64_char_plain v :
  v < 64 ->
  negb ((b64_char v =? 61) || (b64_char v =? 9) || (b64_char v =? 10) || (b64_char v =? 12)
        || (b64_char v =? 13) || (b64_char v =? 32)) = true.
Proof.
  by apply (below_64 (fun v => negb ((b64_char v =? 61) || (b64_char v =? 9) || (b64_char v =? 10)
    || (b64_char v =? 12) || (b64_char v =? 13) || (b64_char v =? 32)))).
Qed.

Lemma b64u_char_not_pad v : v < 64 -> b64u_char v <> 61.
Proof.
  intros Hv. apply N.eqb_neq, negb_true_iff.
  by apply (below_64 (fun v => negb (b64u_char v =? 61))).
Qed.

Lemma drop_trailing_pad c l n :
  Forall (fun x => x <> c) l -> drop_trailing c (l ++ replicate n c) = l.
Proof.
  induction 1 as [|x l Hx Hl IH]; cbn.
  - induction n as [|n IH]; cbn; [done|]. rewrite IH. by rewrite N.eqb_refl.
  - rewrite IH. destruct l; [|done]. by rewrite (proj2 (N.eqb_neq x c)).
Qed.

Lemma b64uEncode_core l : Forall is_byte l -> b64uEncode l = map b64u_char (b64_core l).
Proof.
  intros Hl. unfold b64uEncode. rewrite btoa_core, !map_app, !map_map.
  replace (map _ (replicate (b64_pad l) 61)) with (replicate (b64_pad l) 61)
    by (clear; induction (b64_pad l) as [|n IH]; [done|]; cbn; by rewrite <- IH).
  apply drop_trailing_pad. apply b64_core_bound in Hl.
  clear -Hl. induction Hl as [|v vs Hv Hvs IH]; cbn; constructor; [by apply b64u_char_not_pad|done].
Qed.

Lemma b64_groups_core l :
  Forall is_byte l -> b64_groups (map b64_char (b64_core l)) = Some l.
Proof.
  intros Hl. pose proof (b64_core_bound l Hl) as Hc. revert Hl Hc. unfold is_byte.
  induction l as [|a|a b|a b c l IH] using list_ind3; cbn [b64_core map b64_groups]; [done|..].
  - intros [Ha _]%Forall_cons_1 [? [? _]%Forall_cons_1]%Forall_cons_1.
    rewrite !b64_char_value by done. cbn [mbind option_bind]. do 2 f_equal. clear -Ha. div_lia.
  - intros [Ha [Hb _]%Forall_cons_1]%Forall_cons_1 [? [? [? _]%Forall_cons_1]%Forall_cons_1]%Forall_cons_1.
    rewrite !b64_char_value by done. cbn [mbind option_bind]. clear -Ha Hb.
    do 2 f_equal; [div_lia|]. f_equal. div_lia.
  - intros [Ha [Hb [Hc Hl]%Forall_cons_1]%Forall_cons_1]%Forall_cons_1
      [? [? [? [? ?]%Forall_cons_1]%Forall_cons_1]%Forall_cons_1]%Forall_cons_1.
    rewrite !b64_char_value by done. rewrite IH by done. cbn [mbind option_bind]. clear -Ha Hb Hc.
    f_equal. f_equal; [div_lia|]. f_equal; [div_lia|]. f_equal. div_lia.
Qed.

Lemma b64_core_length l :
  (N.of_nat (length (b64_core l)) + N.of_nat (b64_pad l)) mod 4 = 0 /\ (b64_pad l <= 2)%nat.
Proof.
  induction l as [| | |a b c l [IH ?]] using list_ind3; cbn [b64_core b64_pad length].
  1-3: split; [done|lia].
  split; [|done]. rewrite !Nat2N.inj_succ.
  replace (_ + _) with (N.of_nat (length (b64_core l)) + N.of_nat (b64_pad l) + 1 * 4) by lia.
  by rewrite N.Div0.mod_add.
Qed.

Lemma reverse_head_not_pad (x : list N) a r :
  Forall (fun c => c <> 61) x -> reverse x = a :: r -> a <> 61.
Proof.
  intros Hx E. rewrite List.Forall_forall in Hx. apply Hx, list_elem_of_In.
  rewrite <- (reverse_involutive x), E. apply elem_of_reverse. left.
Qed.

(** [atob] strips the padding its text is completed with. *)
Lemma unpad_app (x : jstr) n :
  Forall (fun c => c <> 61) x -> (n <= 2)%nat ->
  (N.of_nat (length x) + N.of_nat n) mod 4 = 0 ->
  unpad (x ++ replicate n 61) = x.
Proof.
  intros Hx Hn Hm. unfold unpad. rewrite length_app, length_replicate, Nat2N.inj_add, Hm.
  cbn [N.eqb]. rewrite reverse_app. destruct n as [|[|[|n]]]; [| | |lia].
  - cbn. rewrite app_nil_r. destruct (reverse x) as [|a [|b r]] eqn:E; [done|..];
      pose proof (reverse_head_not_pad _ _ _ Hx E); by rewrite (proj2 (N.eqb_neq a 61)).
  - change (reverse (replicate 1 61)) with [61]. cbn [app].
    destruct (reverse x) as [|a r] eqn:E.
    + by rewrite <- (reverse_involutive x), E.
    + pose proof (reverse_head_not_pad _ _ _ Hx E). rewrite N.eqb_refl, (proj2 (N.eqb_neq a 61)) by done.
      by rewrite <- E, reverse_involutive.
  - change (reverse (replicate 2 61)) with [61; 61]. cbn [app]. apply reverse_involutive.
Qed.

Lemma filter_plain (p : N -> bool) x : Forall (fun c => p c = true) x -> List.filter p x = x.
Proof. induction 1 as [|c x Hc Hx IH]; cbn; [done|]. by rewrite Hc, IH. Qed.

Lemma atob_core l :
  Forall is_byte l -> atob (map b64_char (b64_core l) ++ replicate (b64_pad l) 61) = Some l.
Proof.
  intros Hl. pose proof (b64_core_bound l Hl) as Hc. destruct (b64_core_length l) as [Hm Hp].
  assert (Forall (fun c => negb ((c =? 61) || (c =? 9) || (c =? 10) || (c =? 12) || (c =? 13)
                                 || (c =? 32)) = true) (map b64_char (b64_core l))) as Hplain.
  { clear -Hc. induction Hc; cbn; constructor; [by apply b64_char_plain|done]. }
  unfold atob. rewrite List.filter_app, !filter_plain.
  - rewrite unpad_app; [by apply b64_groups_core| |done|by rewrite length_map].
    eapply List.Forall_impl; [|exact Hplain]. intros c Hc' ->. done.
  - apply List.Forall_forall. intros c ->%list_elem_of_In%elem_of_replicate_inv. done.
  - eapply List.Forall_impl; [|exact Hplain]. cbn. intros c.
    rewrite !negb_true_iff, !orb_false_iff. tauto.
Qed.

Lemma b64_pad_length l :
  N.to_nat ((4 - N.of_nat (length (b64_core l)) mod 4) mod 4) = b64_pad l.
Proof.
  destruct (b64_core_length l) as [Hm Hp]. clear -Hm Hp.
  set (n := N.of_nat (length (b64_core l))) in *. set (k := b64_pad l) in *. clearbody n k.
  assert (n mod 4 = (4 - N.of_nat k) mod 4) as ->.
  { assert (n mod 4 < 4) by (by apply N.mod_lt). rewrite N.Div0.add_mod in Hm.
    destruct k as [|[|[|k]]]; [..|lia];
      destruct (n mod 4) as [|[[|[]|]|[|[]|]|]]; try done; lia. }
  destruct k as [|[|[|k]]]; [done..|lia].
Qed.

Lemma b64uDecode_encode l :
  Forall is_byte l -> l <> [] -> b64uDecode (b64uEncode l) = Ok l.
Proof.
  intros Hl Hne. rewrite b64uEncode_core by done. unfold b64uDecode.
  pose proof (b64_core_bound l Hl) as Hc. pose proof (b64_core_length l) as [Hm Hp].
  rewrite bool_decide_false by (by destruct l as [|? [|? [|? ?]]]).
  assert (forallb is_b64url (map b64u_char (b64_core l)) = true) as ->.
  { clear -Hc. induction Hc; cbn; [done|]. by rewrite b64u_char_url. }
  rewrite length_map, b64_pad_length. cbn [orb negb].
  assert ((N.of_nat (length (b64_core l)) mod 4 =? 1) = false) as ->.
  { apply N.eqb_neq. intros E. rewrite N.Div0.add_mod, E in Hm.
    destruct (b64_pad l) as [|[|[|k]]]; [done..|lia]. }
  replace (map _ (map _ (map b64u_char _))) with (map b64_char (b64_core l)).
  - rewrite atob_core by done. by rewrite b64uEncode_core, bool_decide_true.
  - clear -Hc. induction Hc as [|v vs Hv Hvs IH]; cbn; [done|].
    by rewrite b64u_char_back, IH.
Qed.

(** Only the canonical text of some bytes is accepted. *)
Lemma b64uDecode_canonical v l : b64uDecode v = Ok l -> b64uEncode l = v.
Proof.
  unfold b64uDecode. destruct (_ || _ || _); [done|]. destruct (atob _) as [out|]; [|done].
  destruct (bool_decide _) eqn:E; [|done]. intros [= <-]. by apply bool_decide_eq_true in E.
Qed.

(** ** The UTF-8 round trip *)
(** Every surrogate is part of a pair. *)
Fixpoint well_formed16 (s : jstr) : bool :=
  match s with
  | [] => true
  | c :: r =>
      if high_surrogate c
      then match r with d :: r' => low_surrogate d && well_formed16 r' | [] => false end
      else negb (low_surrogate c) && well_formed16 r
  end.

Lemma high_surrogate_iff c : high_surrogate c = true <-> 55296 <= c <= 56319.
Proof. unfold high_surrogate. by rewrite andb_true_iff, !N.leb_le. Qed.
Lemma low_surrogate_iff c : low_surrogate c = true <-> 56320 <= c <= 57343.
Proof. unfold low_surrogate. by rewrite andb_true_iff, !N.leb_le. Qed.
Lemma surrogate_iff c : surrogate c = true <-> 55296 <= c <= 57343.
Proof. unfold surrogate. rewrite orb_true_iff, high_surrogate_iff, low_surrogate_iff. lia. Qed.

Ltac eval_cond :=
  repeat match goal with
  | |- context [?a <? ?b] => first [rewrite (proj2 (N.ltb_lt a b)) by lia | rewrite (proj2 (N.ltb_ge a b)) by lia]
  | |- context [?a <=? ?b] => first [rewrite (proj2 (N.leb_le a b)) by lia | rewrite (proj2 (N.leb_gt a b)) by lia]
  end; cbn [andb orb negb].

Lemma utf8_decode_point c t :
  c < 1114112 -> surrogate c = false ->
  utf8_decode (encode_point c ++ t) = (s ← utf8_decode t; Some (point_units c ++ s)).
Proof.
  intros Hc Hs. assert (~ 55296 <= c <= 57343) as Hs' by (rewrite <- surrogate_iff; by rewrite Hs).
  clear Hs. unfold encode_point. destruct (N.ltb_spec c 128).
  { cbn [app utf8_decode]. eval_cond. unfold point_units. by eval_cond. }
  destruct (N.ltb_spec c 2048).
  { set (x := c / 64). set (y := c mod 64).
    assert (2 <= x <= 31 /\ y < 64 /\ c = x * 64 + y) as (Hx & Hy & Ec) by (subst x y; div_lia).
    clearbody x y. subst c. cbn [app utf8_decode]. unfold continuation. eval_cond.
    replace ((192 + x - 192) * 64 + (128 + y - 128)) with (x * 64 + y) by lia. done. }
  destruct (N.ltb_spec c 65536).
  { set (x := c / 4096). set (y := c / 64 mod 64). set (z := c mod 64).
    assert (x <= 15 /\ y < 64 /\ z < 64 /\ c = x * 4096 + y * 64 + z) as (Hx & Hy & Hz & Ec)
      by (subst x y z; div_lia).
    clearbody x y z. subst c. cbn [app utf8_decode]. unfold continuation. eval_cond.
    replace ((224 + x - 224) * 4096 + (128 + y - 128) * 64 + (128 + z - 128))
      with (x * 4096 + y * 64 + z) by lia.
    assert (((if 224 + x =? 224 then 160 else 128) <=? 128 + y) = true) as ->.
    { apply N.leb_le. destruct (N.eqb_spec (224 + x) 224); lia. }
    assert ((128 + y <=? (if 224 + x =? 237 then 159 else 191)) = true) as ->.
    { apply N.leb_le. destruct (N.eqb_spec (224 + x) 237); lia. }
    done. }
  set (w := c / 262144). set (x := c / 4096 mod 64). set (y := c / 64 mod 64). set (z := c mod 64).
  assert (w <= 4 /\ x < 64 /\ y < 64 /\ z < 64 /\ c = w * 262144 + x * 4096 + y * 64 + z)
    as (Hw & Hx & Hy & Hz & Ec) by (subst w x y z; div_lia).
  clearbody w x y z. subst c. cbn [app utf8_decode]. unfold continuation. eval_cond.
  replace ((240 + w - 240) * 262144 + (128 + x - 128) * 4096 + (128 + y - 128) * 64 + (128 + z - 128))
    with (w * 262144 + x * 4096 + y * 64 + z) by lia.
  assert (((if 240 + w =? 240 then 144 else 128) <=? 128 + x) = true) as ->.
  { apply N.leb_le. destruct (N.eqb_spec (240 + w) 240); lia. }
  assert ((128 + x <=? (if 240 + w =? 244 then 143 else 191)) = true) as ->.
  { apply N.leb_le. destruct (N.eqb_spec (240 + w) 244); lia. }
  done.
Qed.

Lemma point_units_pair c d :
  high_surrogate c = true -> low_surrogate d = true -> point_units (pair_point c d) = [c; d].
Proof.
  rewrite high_surrogate_iff, low_surrogate_iff. intros Hc Hd. unfold point_units, pair_point.
  eval_cond. f_equal; [|f_equal]; div_lia.
Qed.

Lemma utf8_decode_encode s :
  Forall is_unit s -> well_formed16 s = true -> utf8_decode (utf8 s) = Some s.
Proof.
  remember (length s) as n eqn:En. assert (length s <= n)%nat as Hn by lia. clear En.
  revert s Hn. induction n as [|n IH]; intros [|c s] Hn Hs Hw; cbn in Hn; try (done || lia).
  apply Forall_cons_1 in Hs as [Hc Hs]. unfold is_unit in Hc. cbn [well_formed16] in Hw.
  destruct (high_surrogate c) eqn:Eh.
  - destruct s as [|d s]; [done|]. apply andb_prop in Hw as [El Hw].
    apply Forall_cons_1 in Hs as [Hd Hs]. cbn [utf8]. rewrite Eh, El. cbn [andb].
    rewrite utf8_decode_point.
    + rewrite point_units_pair, IH by (done || (cbn in Hn; lia)). done.
    + apply high_surrogate_iff in Eh. apply low_surrogate_iff in El. unfold pair_point. lia.
    + apply not_true_iff_false. rewrite surrogate_iff.
      apply high_surrogate_iff in Eh. apply low_surrogate_iff in El. unfold pair_point. lia.
  - apply andb_prop in Hw as [El%negb_true_iff Hw].
    assert (surrogate c = false) as Es by (unfold surrogate; by rewrite Eh, El).
    assert (utf8 (c :: s) = encode_point c ++ utf8 s) as ->.
    { cbn [utf8]. unfold encode_unit. rewrite Eh, Es. destruct s; [by rewrite app_nil_r|done]. }
    rewrite utf8_decode_point by (done || lia). rewrite IH by (done || lia).
    unfold point_units. by eval_cond.
Qed.

Lemma decode_text_utf8 c s :
  c < 128 -> Forall is_unit (c :: s) -> well_formed16 (c :: s) = true ->
  decode_text (utf8 (c :: s)) = Some (c :: s).
Proof.
  intros Hc Hu Hw. rewrite <- (utf8_decode_encode (c :: s)) by done.
  assert (exists t, utf8 (c :: s) = c :: t) as [t ->].
  { cbn [utf8]. unfold encode_unit. assert (surrogate c = false) as ->.
    { apply not_true_iff_false. rewrite surrogate_iff. lia. }
    assert (high_surrogate c = false) as ->.
    { apply not_true_iff_false. rewrite high_surrogate_iff. lia. }
    unfold encode_point. eval_cond. destruct s; cbn; eauto. }
  unfold decode_text. destruct t as [|? [|? ?]]; [done..|].
  by rewrite (proj2 (N.eqb_neq c 239)) by lia.
Qed.

Lemma encode_point_bytes c : c < 1114112 -> Forall is_byte (encode_point c).
Proof.
  intros Hc. unfold encode_point, is_byte.
  repeat match goal with |- context [if ?x <? ?y then _ else _] => destruct (N.ltb_spec x y) end;
    repeat constructor; div_lia.
Qed.

Lemma utf8_bytes s : Forall is_unit s -> Forall is_byte (utf8 s).
Proof.
  remember (length s) as n eqn:En. assert (length s <= n)%nat as Hn by lia. clear En.
  revert s Hn. induction n as [|n IH]; intros [|c s] Hn Hs; cbn in Hn; try (done || lia).
  apply Forall_cons_1 in Hs as [Hc Hs]. unfold is_unit in Hc.
  assert (Forall is_byte (encode_unit c)).
  { apply encode_point_bytes. destruct (surrogate c); lia. }
  cbn [utf8]. destruct s as [|d s]; [done|]. destruct (_ && _) eqn:E.
  - apply andb_prop in E as [Eh El]. apply high_surrogate_iff in Eh. apply low_surrogate_iff in El.
    apply Forall_cons_1 in Hs as [Hd Hs]. apply Forall_app_2; [|apply IH; [cbn in Hn; lia|done]].
    apply encode_point_bytes. unfold pair_point. lia.
  - apply Forall_app_2; [done|]. apply IH; [lia|done].
Qed.

(** ** The texts [JSON.stringify] writes are well-formed UTF-16 *)
Definition text_ok (s : jstr) : Prop := Forall is_unit s /\ well_formed16 s = true.

Lemma well_formed16_app s t :
  well_formed16 s = true -> well_formed16 t = true -> well_formed16 (s ++ t) = true.
Proof.
  remember (length s) as n eqn:En. assert (length s <= n)%nat as Hn by lia. clear En.
  revert s Hn. induction n as [|n IH]; intros [|c s] Hn Hs Ht; cbn in Hn; try (done || lia).
  cbn [well_formed16 app] in *. destruct (high_surrogate c).
  - destruct s as [|d s]; [done|]. apply andb_prop in Hs as [Hd Hs]. cbn [app].
    rewrite Hd. apply IH; [cbn in Hn; lia|done..].
  - apply andb_prop in Hs as [Hd Hs]. rewrite Hd. apply IH; [lia|done..].
Qed.

Lemma text_ok_app s t : text_ok s -> text_ok t -> text_ok (s ++ t).
Proof. intros [] []. split; [by apply Forall_app_2|by apply well_formed16_app]. Qed.

Lemma text_ok_ascii s : Forall (fun c => c < 128) s -> text_ok s.
Proof.
  induction 1 as [|c s Hc Hs [IHu IHw]]; [by split|]. split.
  - apply Forall_cons_2; [unfold is_unit; lia|done].
  - cbn. rewrite IHw. destruct (high_surrogate c) eqn:E; [apply high_surrogate_iff in E; lia|].
    destruct (low_surrogate c) eqn:E'; [apply low_surrogate_iff in E'; lia|done].
Qed.

Lemma hex_digit_ascii d : d < 16 -> hex_digit d < 128.
Proof. intros. unfold hex_digit. destruct (N.ltb_spec d 10); lia. Qed.

Lemma quote_unit_ok c : is_unit c -> text_ok (quote_unit c).
Proof.
  intros Hc. unfold quote_unit.
  repeat match goal with
  | |- context [if ?x =? ?y then _ else _] =>
      destruct (x =? y); [apply text_ok_ascii; repeat constructor|]
  end.
  destruct (_ || _) eqn:E.
  - apply text_ok_ascii. unfold escape_u.
    repeat (apply Forall_cons_2; [done || (apply hex_digit_ascii, N.mod_lt; done)|]). constructor.
  - apply orb_false_iff in E as [[_ Eh]%orb_false_iff El]. split; [by repeat constructor|].
    cbn. by rewrite Eh, El.
Qed.

Lemma quote_units_ok s : Forall is_unit s -> text_ok (quote_units s).
Proof.
  remember (length s) as n eqn:En. assert (length s <= n)%nat as Hn by lia. clear En.
  revert s Hn. induction n as [|n IH]; intros [|c s] Hn Hs; cbn in Hn; try (lia || by split).
  apply Forall_cons_1 in Hs as [Hc Hs]. cbn [quote_units].
  destruct s as [|d s]; [by apply quote_unit_ok|]. destruct (_ && _) eqn:E.
  - apply andb_prop in E as [Eh El]. apply Forall_cons_1 in Hs as [Hd Hs].
    destruct (IH s) as [IHu IHw]; [cbn in Hn; lia|done|].
    split; [by repeat apply Forall_cons_2|]. cbn [well_formed16]. by rewrite Eh, El.
  - apply text_ok_app; [by apply quote_unit_ok|]. apply IH; [lia|done].
Qed.

Lemma quoted_ok s : Forall is_unit s -> text_ok (quoted s).
Proof.
  intros Hs. unfold quoted. repeat apply text_ok_app; [| |].
  2: by apply quote_units_ok.
  all: apply text_ok_ascii; by repeat constructor.
Qed.

Lemma units_ok s : forallb (fun c => c <? 128) (units s) = true -> text_ok (units s).
Proof.
  intros H. apply text_ok_ascii, List.Forall_forall. intros c Hc.
  rewrite forallb_forall in H. by apply N.ltb_lt, H.
Qed.

Lemma decimal_Z_ok z : text_ok (decimal_Z z).
Proof.
  assert (forall n, text_ok (decimal n)) as H.
  { intros n. destruct (decimal_spec n) as (Hd & _). apply text_ok_ascii, List.Forall_forall.
    intros c Hc. rewrite forallb_forall in Hd. apply Hd, is_dec_iff in Hc. lia. }
  destruct z; [exact (H 0)|exact (H _)|].
  change (text_ok ([45] ++ decimal (N.pos p))). apply text_ok_app; [|apply H].
  apply text_ok_ascii. by repeat constructor.
Qed.

Lemma sep_concat_ok l : Forall text_ok l -> text_ok (sep_concat [44] l).
Proof.
  induction 1 as [|x l Hx Hl IH]; [by split|]. destruct l as [|y l]; [done|].
  change (sep_concat [44] (x :: y :: l)) with (x ++ [44] ++ sep_concat [44] (y :: l)).
  repeat apply text_ok_app; [done| |done]. apply text_ok_ascii. by repeat constructor.
Qed.

Lemma stringify_ok j : json_wf j = true -> text_ok (stringify j).
Proof.
  induction j as [|b|z|s|s|l IH|l IH] using json_nested_ind; intros W; try done; cbn [stringify].
  - by apply units_ok.
  - destruct b; by apply units_ok.
  - apply decimal_Z_ok.
  - apply quoted_ok. by apply bool_decide_eq_true in W.
  - repeat apply text_ok_app; [apply text_ok_ascii; by repeat constructor| |
      apply text_ok_ascii; by repeat constructor].
    apply sep_concat_ok. cbn in W. rewrite forallb_forall in W. rewrite List.Forall_forall in *.
    intros t (x & <- & Hx)%in_map_iff. auto.
  - repeat apply text_ok_app; [apply text_ok_ascii; by repeat constructor| |
      apply text_ok_ascii; by repeat constructor].
    apply sep_concat_ok. cbn in W. apply andb_prop in W as [_ W].
    rewrite forallb_forall in W. rewrite List.Forall_forall in *.
    intros t ([k v] & <- & Hx)%in_map_iff. specialize (W _ Hx). specialize (IH _ Hx). cbn in W, IH.
    apply andb_prop in W as [Wk%bool_decide_eq_true Wv].
    apply text_ok_app; [by apply quoted_ok|]. apply text_ok_app; [|by apply IH].
    apply text_ok_ascii. by repeat constructor.
Qed.
