(* ===== verification/Token.v ===== *)
(** * License tokens ([packages/license/src/token.ts])

    The text format of license tokens and revocation lists: four segments
    [tnlic1.<header>.<payload>.<signature>], the last three in base64url, the
    middle two JSON objects.  The signature covers the text of the first
    three segments. *)
From S2P Require Import Prelude Json Codec.
Local Open Scope N_scope.

Definition TOKEN_PREFIX : jstr := units "tnlic1".
Definition LICENSE_TYP : jstr := units "tunnet-license+2".
Definition REVOCATION_TYP : jstr := units "tunnet-revocations+2".
Definition MAX_TOKEN_CHARS : nat := N.to_nat 8192.
Definition MAX_SEGMENT_CHARS : nat := N.to_nat 4096.

(** The white space and line terminators [trim] removes. *)
Definition is_space_unit (c : N) : bool :=
  ((9 <=? c) && (c <=? 13)) || (c =? 32) || (c =? 160) || (c =? 5760)
  || ((8192 <=? c) && (c <=? 8202)) || (c =? 8232) || (c =? 8233) || (c =? 8239)
  || (c =? 8287) || (c =? 12288) || (c =? 65279).

Fixpoint drop_spaces (l : jstr) : jstr :=
  match l with
  | c :: r => if is_space_unit c then drop_spaces r else l
  | [] => []
  end.

Definition trim_units (l : jstr) : jstr := reverse (drop_spaces (reverse (drop_spaces l))).

(** [s.split(".")]. *)
Fixpoint split_units (sep : N) (l : jstr) : list jstr :=
  match l with
  | [] => [[]]
  | c :: r =>
      if c =? sep then [] :: split_units sep r
      else match split_units sep r with
           | seg :: segs => (c :: seg) :: segs
           | [] => [[c]]
           end
  end.

Record ProtectedHeader := mkHeader {
  header_kid : jstr;
  header_typ : jstr;
  header_crit : list jstr
}.

Record DecodedToken := mkDecoded {
  dt_header : ProtectedHeader;
  dt_payload : list (jstr * json);
  dt_signature : bytes;
  dt_signingInput : bytes
}.

Definition parseJsonObject (b : bytes) : result token_error (list (jstr * json)) :=
  match decode_text b ≫= parse with
  | None => Err EngineError
  | Some (JObj fields) => Ok fields
  | Some _ => Err (SyntaxError "expected JSON object")
  end.

Definition as_string (j : json) : option jstr :=
  match j with JStr s => Some s | _ => None end.

(** The strings of an array of strings. *)
Fixpoint strings_of (l : list json) : option (list jstr) :=
  match l with
  | [] => Some []
  | j :: r => s ← as_string j; rest ← strings_of r; Some (s :: rest)
  end.

Definition parseHeader (raw : list (jstr * json)) : result token_error ProtectedHeader :=
  match prop raw (units "alg") ≫= as_string with
  | Some alg =>
      if bool_decide (alg = units "Ed25519") then
        match prop raw (units "kid") ≫= as_string with
        | Some kid =>
            if bool_decide (kid = []) || (64 <? length kid)%nat then Err (SyntaxError "invalid kid")
            else
              match prop raw (units "typ") ≫= as_string with
              | Some typ =>
                  match prop raw (units "crit") with
                  | None => Ok (mkHeader kid typ [])
                  | Some (JArr crit) =>
                      match strings_of crit with
                      | Some crit => Ok (mkHeader kid typ crit)
                      | None => Err (SyntaxError "invalid crit")
                      end
                  | Some _ => Err (SyntaxError "invalid crit")
                  end
              | None => Err (SyntaxError "invalid typ")
              end
        | None => Err (SyntaxError "invalid kid")
        end
      else Err (SyntaxError "unsupported alg")
  | None => Err (SyntaxError "unsupported alg")
  end.

(** [`${TOKEN_PREFIX}.${h}.${p}`]. *)
Definition signing_text (h p : jstr) : jstr := TOKEN_PREFIX ++ [46] ++ h ++ [46] ++ p.

Definition decodeToken (token : jstr) : result token_error DecodedToken :=
  let trimmed := trim_units token in
  if (MAX_TOKEN_CHARS <? length trimmed)%nat then Err (RangeError "token too large")
  else
    match split_units 46 trimmed with
    | [prefix; h; p; s] =>
        if bool_decide (prefix = TOKEN_PREFIX) then
          if (MAX_SEGMENT_CHARS <? length h)%nat || (MAX_SEGMENT_CHARS <? length p)%nat
             || (128 <? length s)%nat
          then Err (RangeError "segment too large")
          else
            signature ← b64uDecode s;
            if negb (length signature =? 64)%nat then Err (SyntaxError "invalid signature length")
            else
              raw ← b64uDecode h ≫= parseJsonObject;
              header ← parseHeader raw;
              payload ← b64uDecode p ≫= parseJsonObject;
              Ok (mkDecoded header payload signature (utf8 (signing_text h p)))
        else Err (SyntaxError "unsupported token format")
    | _ => Err (SyntaxError "unsupported token format")
    end.

Record SigningInput := mkSigningInput { si_input : bytes; si_h : jstr; si_p : jstr }.

Definition buildSigningInput (header payload : json) : SigningInput :=
  let h := b64uEncode (utf8 (stringify header)) in
  let p := b64uEncode (utf8 (stringify payload)) in
  mkSigningInput (utf8 (signing_text h p)) h p.

Definition assembleToken (h p : jstr) (signature : bytes) : jstr :=
  TOKEN_PREFIX ++ [46] ++ h ++ [46] ++ p ++ [46] ++ b64uEncode signature.

(** ** Splitting *)
Lemma split_units_plain sep x : Forall (fun c => c <> sep) x -> split_units sep x = [x].
Proof.
  induction 1 as [|c x Hc Hx IH]; cbn; [done|]. rewrite (proj2 (N.eqb_neq c sep)) by done. by rewrite IH.
Qed.

Lemma split_units_app sep x y :
  Forall (fun c => c <> sep) x -> split_units sep (x ++ sep :: y) = x :: split_units sep y.
Proof.
  induction 1 as [|c x Hc Hx IH]; cbn; [by rewrite N.eqb_refl|].
  rewrite (proj2 (N.eqb_neq c sep)) by done. by rewrite IH.
Qed.

Lemma split_units_join sep l segs : split_units sep l = segs -> l = sep_concat [sep] segs.
Proof.
  intros <-. induction l as [|c l IH]; cbn; [done|]. destruct (N.eqb_spec c sep) as [->|Hne].
  - destruct (split_units sep l) eqn:E; [by destruct l as [|d l]; cbn in E; [|destruct (d =? sep), (split_units sep l)]|].
    cbn in *. by rewrite IH.
  - destruct (split_units sep l) as [|seg [|seg' segs]]; cbn in *; by rewrite IH.
Qed.

Lemma drop_spaces_head c l : is_space_unit c = false -> drop_spaces (c :: l) = c :: l.
Proof. cbn. by intros ->. Qed.

Lemma trim_units_plain c x d :
  is_space_unit c = false -> is_space_unit d = false ->
  trim_units (c :: x ++ [d]) = c :: x ++ [d].
Proof.
  intros Hc Hd. unfold trim_units. rewrite drop_spaces_head by done.
  change (c :: x ++ [d]) with ((c :: x) ++ [d]). rewrite reverse_snoc, drop_spaces_head by done.
  by rewrite reverse_cons, reverse_involutive.
Qed.

(** ** Decoding what was encoded *)
Lemma b64u_text l :
  Forall is_byte l -> Forall (fun c => is_b64url c = true) (b64uEncode l).
Proof.
  intros Hl. rewrite b64uEncode_core by done. apply b64_core_bound in Hl.
  induction Hl; cbn; constructor; [by apply b64u_char_url|done].
Qed.

Lemma b64url_plain c : is_b64url c = true -> c <> 46 /\ is_space_unit c = false /\ c < 128.
Proof.
  intros H. assert (c < 123 /\ c <> 46 /\ 33 <= c) as (? & ? & ?).
  { unfold is_b64url in H. rewrite !orb_true_iff, !andb_true_iff, !N.leb_le, !N.eqb_eq in H. lia. }
  split_and!; [done| |lia]. unfold is_space_unit.
  repeat match goal with
  | |- context [?a <=? ?b] =>
      first [rewrite (proj2 (N.leb_le a b)) by lia | rewrite (proj2 (N.leb_gt a b)) by lia]
  | |- context [c =? ?b] => rewrite (proj2 (N.eqb_neq c b)) by lia
  end. by destruct (9 <=? c).
Qed.

Lemma b64_core_size l : length (b64_core l) = ((4 * length l + 2) / 3)%nat.
Proof.
  induction l as [|a|a b|a b c l IH] using list_ind3; cbn [b64_core length]; [done..|]. rewrite IH.
  replace (4 * S (S (S (length l))) + 2)%nat with (4 * length l + 2 + 4 * 3)%nat by lia.
  rewrite Nat.div_add by lia. lia.
Qed.

Lemma b64uEncode_length l :
  Forall is_byte l -> length (b64uEncode l) = ((4 * length l + 2) / 3)%nat.
Proof. intros Hl. by rewrite b64uEncode_core, length_map, b64_core_size. Qed.

Lemma parseJsonObject_stringify fields :
  json_wf (JObj fields) = true ->
  parseJsonObject (utf8 (stringify (JObj fields))) = Ok fields.
Proof.
  intros W. pose proof (stringify_ok _ W) as [Hu Hw]. pose proof (parse_stringify _ W) as Hp.
  unfold parseJsonObject.
  destruct (stringify (JObj fields)) as [|c t] eqn:E; [done|].
  assert (c = 123) as -> by (cbn in E; congruence).
  rewrite decode_text_utf8 by done. cbn [mbind option_bind]. by rewrite Hp.
Qed.

Lemma utf8_nonempty c s : utf8 (c :: s) <> [].
Proof.
  assert (forall x, encode_point x <> []) as H.
  { intros x. unfold encode_point. by repeat destruct (_ <? _). }
  cbn. destruct s as [|d s]; [apply H|]. destruct (_ && _); intros [E _]%app_nil; exact (H _ E).
Qed.

Lemma segment_decodes fields :
  json_wf (JObj fields) = true ->
  (b64uDecode (b64uEncode (utf8 (stringify (JObj fields)))) ≫= parseJsonObject) = Ok fields.
Proof.
  intros W. pose proof (stringify_ok _ W) as [Hu _].
  rewrite b64uDecode_encode; [by apply parseJsonObject_stringify|by apply utf8_bytes|].
  cbn [stringify app]. apply utf8_nonempty.
Qed.

Lemma segment_text fields :
  json_wf (JObj fields) = true ->
  Forall (fun c => is_b64url c = true) (b64uEncode (utf8 (stringify (JObj fields)))).
Proof. intros W. apply b64u_text, utf8_bytes, stringify_ok, W. Qed.

Lemma no_dot x : Forall (fun c => is_b64url c = true) x -> Forall (fun c => c <> 46) x.
Proof. intros H. eapply List.Forall_impl; [|exact H]. intros c Hc. by destruct (b64url_plain c Hc). Qed.

Lemma assembled_segments h p s :
  Forall (fun c => is_b64url c = true) h -> Forall (fun c => is_b64url c = true) p ->
  Forall (fun c => is_b64url c = true) s -> s <> [] ->
  let t := TOKEN_PREFIX ++ [46] ++ h ++ [46] ++ p ++ [46] ++ s in
  trim_units t = t /\ split_units 46 t = [TOKEN_PREFIX; h; p; s].
Proof.
  intros Hh Hp Hs Hne t. split.
  - destruct s as [|d s _] using rev_ind; [done|].
    apply List.Forall_app in Hs as [_ [Hd _]%Forall_cons_1]. apply b64url_plain in Hd as (_ & Hd & _).
    replace t with (116 :: (units "nlic1" ++ [46] ++ h ++ [46] ++ p ++ [46] ++ s) ++ [d]).
    + by apply trim_units_plain.
    + subst t. change TOKEN_PREFIX with (116 :: units "nlic1"). by repeat (cbn [app]; rewrite <- ?app_assoc).
  - subst t. cbn [app]. rewrite split_units_app by (repeat constructor; done).
    rewrite !split_units_app by (by apply no_dot). by rewrite split_units_plain by (by apply no_dot).
Qed.

Lemma decode_assembled hf pf header sig :
  json_wf (JObj hf) = true -> json_wf (JObj pf) = true -> parseHeader hf = Ok header ->
  Forall is_byte sig -> length sig = 64%nat ->
  let si := buildSigningInput (JObj hf) (JObj pf) in
  let token := assembleToken (si_h si) (si_p si) sig in
  (length (si_h si) <= MAX_SEGMENT_CHARS)%nat -> (length (si_p si) <= MAX_SEGMENT_CHARS)%nat ->
  (length token <= MAX_TOKEN_CHARS)%nat ->
  decodeToken token = Ok (mkDecoded header pf sig (si_input si)).
Proof.
  intros Wh Wp Hhd Hb Hl si token Lh Lp Lt. subst si token. cbn [buildSigningInput si_h si_p si_input] in *.
  pose proof (segment_text _ Wh) as Th. pose proof (segment_text _ Wp) as Tp.
  pose proof (segment_decodes _ Wh) as Dh. pose proof (segment_decodes _ Wp) as Dp.
  set (h := b64uEncode (utf8 (stringify (JObj hf)))) in *.
  set (p := b64uEncode (utf8 (stringify (JObj pf)))) in *. clearbody h p.
  assert (length (b64uEncode sig) = 86%nat) as Ls by (by rewrite b64uEncode_length, Hl).
  destruct (assembled_segments h p (b64uEncode sig)) as [Et Es];
    [done|done|by apply b64u_text|by destruct (b64uEncode sig)|].
  unfold decodeToken, assembleToken in *. rewrite Et, Es.
  rewrite !(proj2 (Nat.ltb_ge _ _)) by lia. rewrite bool_decide_true by done. cbn [orb].
  rewrite b64uDecode_encode by (done || by destruct sig). cbn [mbind result_bind].
  rewrite Hl. cbn [Nat.eqb negb]. rewrite Dh. cbn [mbind result_bind]. rewrite Hhd.
  cbn [mbind result_bind]. by rewrite Dp.
Qed.

(** ** Tokens have one text *)
Lemma decodeToken_text t d :
  decodeToken t = Ok d ->
  exists h p, trim_units t = assembleToken h p (dt_signature d)
    /\ dt_signingInput d = utf8 (signing_text h p)
    /\ Forall (fun c => is_b64url c = true) h /\ Forall (fun c => is_b64url c = true) p
    /\ length (dt_signature d) = 64%nat
    /\ (length (trim_units t) <= MAX_TOKEN_CHARS)%nat.
Proof.
  unfold decodeToken. destruct (Nat.ltb_spec MAX_TOKEN_CHARS (length (trim_units t))) as [|Ht]; [done|].
  destruct (split_units 46 (trim_units t)) as [|pre [|h [|p [|s [|]]]]] eqn:E; try done.
  destruct (bool_decide _) eqn:Epre; [|done]. apply bool_decide_eq_true in Epre as ->.
  destruct (_ || _); [done|]. intros H. inv_ok.
  destruct (length _ =? 64)%nat eqn:El; [|done]. apply Nat.eqb_eq in El. cbn [negb] in *. inv_ok.
  cbn. apply split_units_join in E. exists h, p. split_and!; [|done| | |done|done].
  - rewrite E. unfold assembleToken. cbn [sep_concat].
    by rewrite (b64uDecode_canonical s) by done.
  - match goal with H : b64uDecode h = Ok _ |- _ => revert H end. unfold b64uDecode.
    destruct (forallb is_b64url h) eqn:Ef; [|by destruct (bool_decide _)].
    intros _. apply List.Forall_forall. by apply forallb_forall.
  - match goal with H : b64uDecode p = Ok _ |- _ => revert H end. unfold b64uDecode.
    destruct (forallb is_b64url p) eqn:Ef; [|by destruct (bool_decide _)].
    intros _. apply List.Forall_forall. by apply forallb_forall.
Qed.
