(* ===== verification/License.v ===== *)
(** * License verification ([packages/license/src/features.ts], [errors.ts],
      [keyring.ts], [verify.ts])

    The features and limits a license carries, the keyring of trusted keys and
    the verification of a license token.  Ed25519 and SHA-256 come from the
    [@noble] packages and are parameters.  The texts of failure messages are
    not modelled, their codes are; [Date.prototype.toISOString], which builds
    one of them, throws for dates outside its range, and that is. *)
From S2P Require Import Prelude Json Codec Token.
Local Open Scope Z_scope.

(** ** Features, limits and tiers *)
Inductive LicenseTier := community | cloud | enterprise.
Inductive Feature :=
| multiOrganization | cloudLanding | cloudInfrastructure | openSignUp | clickhouseAudit
| auditEnterpriseStreams | complianceExport.
Inductive Limit := organizations | nodes | seats | relays.

#[export] Instance LicenseTier_eq_dec : EqDecision LicenseTier.
Proof. solve_decision. Defined.
#[export] Instance Feature_eq_dec : EqDecision Feature.
Proof. solve_decision. Defined.
#[export] Instance Limit_eq_dec : EqDecision Limit.
Proof. solve_decision. Defined.

Definition TIERS : list LicenseTier := [community; cloud; enterprise].
Definition FEATURES : list Feature :=
  [multiOrganization; cloudLanding; cloudInfrastructure; openSignUp; clickhouseAudit;
   auditEnterpriseStreams; complianceExport].
Definition LIMITS : list Limit := [organizations; nodes; seats; relays].

Definition tier_name (t : LicenseTier) : string :=
  match t with community => "community" | cloud => "cloud" | enterprise => "enterprise" end.

Definition feature_name (f : Feature) : string :=
  match f with
  | multiOrganization => "multiOrganization"
  | cloudLanding => "cloudLanding"
  | cloudInfrastructure => "cloudInfrastructure"
  | openSignUp => "openSignUp"
  | clickhouseAudit => "clickhouseAudit"
  | auditEnterpriseStreams => "auditEnterpriseStreams"
  | complianceExport => "complianceExport"
  end.

Definition limit_name (l : Limit) : string :=
  match l with
  | organizations => "organizations" | nodes => "nodes" | seats => "seats" | relays => "relays"
  end.

Definition FeatureMap := Feature -> bool.
Definition LimitMap := Limit -> option Z.

Definition featureMap (on : list Feature) : FeatureMap := fun f => bool_decide (f ∈ on).
Definition NO_LIMITS : LimitMap := fun _ => None.

Definition TIER_PRESETS (t : LicenseTier) : FeatureMap :=
  match t with
  | community => featureMap []
  | cloud => featureMap FEATURES
  | enterprise => featureMap [clickhouseAudit; auditEnterpriseStreams; complianceExport]
  end.

Definition isTier (v : option json) : option LicenseTier :=
  match v with
  | Some (JStr s) => List.find (fun t => bool_decide (units (tier_name t) = s)) TIERS
  | _ => None
  end.

Inductive LicenseFailureCode :=
| not_configured | source_unavailable | too_large | malformed | unsupported_format | unknown_key
| key_revoked | alg_mismatch | bad_signature | unsupported_claim | invalid_claims
| issuer_mismatch | audience_mismatch | not_yet_valid | expired | revoked | clock_rollback
| unavailable. (* not a member of the type: what the manager casts to it *)
#[export] Instance LicenseFailureCode_eq_dec : EqDecision LicenseFailureCode.
Proof. solve_decision. Defined.

Inductive LicenseStatus := st_community | st_active | st_grace | st_expired.
#[export] Instance LicenseStatus_eq_dec : EqDecision LicenseStatus.
Proof. solve_decision. Defined.

Record Entitlements := mkEntitlements {
  en_status : LicenseStatus;
  en_tier : LicenseTier;
  en_features : FeatureMap;
  en_limits : LimitMap;
  en_licenseId : option jstr;
  en_subject : option jstr;
  en_issuedAt : option Z;
  en_notAfter : option Z;
  en_graceUntil : option Z;
  en_stale : bool;
  en_reason : option LicenseFailureCode
}.

Definition COMMUNITY_LIMITS : LimitMap :=
  fun l => match l with organizations => Some 1 | _ => None end.

Definition COMMUNITY_ENTITLEMENTS : Entitlements :=
  mkEntitlements st_community community (TIER_PRESETS community) COMMUNITY_LIMITS
    None None None None None false None.

Definition communityWithReason (reason : option LicenseFailureCode) (stale : bool) : Entitlements :=
  mkEntitlements st_community community (TIER_PRESETS community) COMMUNITY_LIMITS
    None None None None None stale reason.

(** ** The keyring *)
Inductive KeyStatus := key_active | key_retired | key_compromised.
#[export] Instance KeyStatus_eq_dec : EqDecision KeyStatus.
Proof. solve_decision. Defined.

Record TrustedKey := mkKey {
  key_kid : jstr;
  key_alg : jstr;
  key_publicKey : bytes;
  key_validFrom : Z;
  key_validUntil : option Z;
  key_status : KeyStatus
}.

Definition Keyring := list (jstr * TrustedKey).

(** Errors of the constructor, with the key they are about. *)
Inductive keyring_error := EmptyKeyring | BadKeyLength (kid : jstr) | DuplicateKid (kid : jstr).

Fixpoint new_keyring_loop (map : Keyring) (keys : list TrustedKey) : result keyring_error Keyring :=
  match keys with
  | [] => Ok map
  | k :: rest =>
      if negb (length (key_publicKey k) =? 32)%nat then Err (BadKeyLength (key_kid k))
      else match map_get map (key_kid k) with
           | Some _ => Err (DuplicateKid (key_kid k))
           | None => new_keyring_loop (map_set map (key_kid k) k) rest
           end
  end.

Definition new_Keyring (keys : list TrustedKey) : result keyring_error Keyring :=
  match keys with
  | [] => Err EmptyKeyring
  | _ => new_keyring_loop [] keys
  end.

Definition keyring_get (keyring : Keyring) (kid : jstr) : option TrustedKey := map_get keyring kid.

(** ** Claims *)
Definition DEFAULT_CLOCK_SKEW_SEC : Z := 300.
Definition UNDERSTOOD_CRIT : list jstr := [units "aud"; units "limits"].

Record License := mkLicense {
  lic_jti : jstr;
  lic_iss : jstr;
  lic_sub : jstr;
  lic_aud : list jstr;
  lic_tier : LicenseTier;
  lic_features : FeatureMap;
  lic_limits : LimitMap;
  lic_iat : Z;
  lic_nbf : Z;
  lic_exp : Z;
  lic_grace : Z;
  lic_meta : list (jstr * jstr);
  lic_kid : jstr
}.

Record VerifyOptions := mkVerifyOptions {
  vo_keyring : Keyring;
  vo_now : Z;
  vo_clockSkewSec : option Z;
  vo_audience : option jstr;
  vo_expectedIssuer : option jstr;
  vo_revokedIds : option (list jstr)
}.

Inductive lic_status := ls_active | ls_grace.

Inductive VerifyResult :=
| Verified (license : License) (status : lic_status)
| Failed (code : LicenseFailureCode).

Definition int (v : option json) : option Z :=
  match v with
  | Some (JInt z) => if safe_int z then Some z else None
  | _ => None
  end.

Definition str (v : option json) (max : nat) : option jstr :=
  match v with
  | Some (JStr s) => if (0 <? length s)%nat && (length s <=? max)%nat then Some s else None
  | _ => None
  end.

(** Whether a feature's claim is absent or a boolean. *)
Definition feature_claim_ok (src : list (jstr * json)) (f : Feature) : bool :=
  match prop src (units (feature_name f)) with
  | None | Some (JBool _) => true
  | Some _ => false
  end.

Definition feature_claim (src : list (jstr * json)) (f : Feature) : bool :=
  match prop src (units (feature_name f)) with
  | Some (JBool b) => b
  | _ => false
  end.

Definition parseFeatures (v : option json) : option FeatureMap :=
  match v with
  | Some (JObj src) =>
      if forallb (feature_claim_ok src) FEATURES then Some (feature_claim src) else None
  | _ => None
  end.

Definition limit_claim (src : list (jstr * json)) (l : Limit) : option (option Z) :=
  match prop src (units (limit_name l)) with
  | None | Some JNull => Some None
  | Some raw =>
      match int (Some raw) with
      | Some n => if n <? 0 then None else Some (Some n)
      | None => None
      end
  end.

Definition parseLimits (v : option json) : option LimitMap :=
  match v with
  | None => Some NO_LIMITS
  | Some (JObj src) =>
      if forallb (fun l => bool_decide (limit_claim src l <> None)) LIMITS
      then Some (fun l => default None (limit_claim src l)) else None
  | Some _ => None
  end.

(** The strings of an object whose values are short strings. *)
Fixpoint meta_strings (src : list (jstr * json)) : option (list (jstr * jstr)) :=
  match src with
  | [] => Some []
  | (k, v) :: rest =>
      s ← as_string v;
      if (256 <? length s)%nat then None else (l ← meta_strings rest; Some ((k, s) :: l))
  end.

Definition parseMeta (v : option json) : option (list (jstr * jstr)) :=
  match v with
  | None => Some []
  | Some (JObj src) => if (16 <? length src)%nat then None else meta_strings src
  | Some _ => None
  end.

Definition parseAud (v : option json) : option (list jstr) :=
  match v with
  | None => Some []
  | Some (JArr l) =>
      if (length l <=? 32)%nat then
        aud ← strings_of l; if forallb (fun a => (length a <=? 64)%nat) aud then Some aud else None
      else None
  | Some _ => None
  end.

(** The payload's claims, [None] when its schema validation fails. *)
Definition parseClaims (payload : list (jstr * json)) (kid : jstr) : option License :=
  let get k := prop payload (units k) in
  jti ← str (get "jti") 64;
  iss ← str (get "iss") 256;
  sub ← str (get "sub") 256;
  tier ← isTier (get "tier");
  features ← parseFeatures (get "features");
  limits ← parseLimits (get "limits");
  meta ← parseMeta (get "meta");
  aud ← parseAud (get "aud");
  iat ← int (get "iat");
  nbf ← match get "nbf" with None => Some iat | v => int v end;
  exp ← int (get "exp");
  grace ← match get "grace" with None => Some 0 | v => int v end;
  if bool_decide (tier = community) || (grace <? 0) || (90 * 86400 <? grace) || (exp <=? iat)
  then None
  else Some (mkLicense jti iss sub aud tier features limits iat nbf exp grace meta kid).

(** Whether [new Date(1000 * sec).toISOString()] throws. *)
Definition iso_throws (sec : Z) : bool := 8640000000000000 <? Z.abs (sec * 1000).

(** [x] is a non-empty string, what the code tests an optional string for. *)
Definition truthy (x : option jstr) : option jstr :=
  match x with Some [] | None => None | Some s => Some s end.

Section Crypto.
(** [ed25519.verify(signature, message, publicKey, { zip215: false })], [None]
    when it throws, and [sha256]. *)
Context (ed25519_verify : bytes -> bytes -> bytes -> option bool) (sha256 : bytes -> bytes).

Definition deploymentFingerprint (deploymentId : jstr) : jstr :=
  take 22 (b64uEncode (sha256 (utf8 (units "tunnet-deployment-v1" ++ [0%N] ++ deploymentId)))).

Definition signature_valid (d : DecodedToken) (key : TrustedKey) : bool :=
  default false (ed25519_verify (dt_signature d) (dt_signingInput d) (key_publicKey key)).

(** The checks on the claims, after the signature. *)
Definition check_claims (options : VerifyOptions) (key : TrustedKey) (license : License)
    : result token_error VerifyResult :=
  let skew := default DEFAULT_CLOCK_SKEW_SEC (vo_clockSkewSec options) in
  let now := vo_now options in
  if lic_iat license <? key_validFrom key then Ok (Failed key_revoked)
  else if match key_validUntil key with Some u => u <? lic_iat license | None => false end
  then Ok (Failed key_revoked)
  else if match truthy (vo_expectedIssuer options) with
          | Some i => bool_decide (lic_iss license <> i) | None => false end
  then Ok (Failed issuer_mismatch)
  else if match vo_revokedIds options with
          | Some ids => bool_decide (lic_jti license ∈ ids) | None => false end
  then Ok (Failed revoked)
  else if negb (bool_decide (lic_aud license = []))
          && match truthy (vo_audience options) with
             | Some a => bool_decide (a ∉ lic_aud license) | None => true end
  then Ok (Failed audience_mismatch)
  else if now + skew <? lic_nbf license then Ok (Failed not_yet_valid)
  else if now - skew <? lic_exp license then Ok (Verified license ls_active)
  else if now - skew <? lic_exp license + lic_grace license then Ok (Verified license ls_grace)
  else if iso_throws (lic_exp license) then Err (RangeError "Invalid time value")
  else Ok (Failed expired).

Definition verifyLicenseToken (token : jstr) (options : VerifyOptions)
    : result token_error VerifyResult :=
  match decodeToken token with
  | Err (RangeError _) => Ok (Failed too_large)
  | Err _ => Ok (Failed malformed)
  | Ok decoded =>
      let header := dt_header decoded in
      if bool_decide (header_typ header <> LICENSE_TYP) then Ok (Failed unsupported_format)
      else if existsb (fun c => bool_decide (c ∉ UNDERSTOOD_CRIT)) (header_crit header)
      then Ok (Failed unsupported_claim)
      else
        match keyring_get (vo_keyring options) (header_kid header) with
        | None => Ok (Failed unknown_key)
        | Some key =>
            if bool_decide (key_status key = key_compromised) then Ok (Failed key_revoked)
            else if bool_decide (units "Ed25519" <> key_alg key) then Ok (Failed alg_mismatch)
            else if negb (signature_valid decoded key) then Ok (Failed bad_signature)
            else
              match parseClaims (dt_payload decoded) (header_kid header) with
              | None => Ok (Failed invalid_claims)
              | Some license => check_claims options key license
              end
        end
  end.

Definition entitlementsFrom (license : License) (status : lic_status) (stale : bool) : Entitlements :=
  mkEntitlements
    match status with ls_active => st_active | ls_grace => st_grace end
    (lic_tier license) (lic_features license) (lic_limits license)
    (Some (lic_jti license)) (Some (lic_sub license)) (Some (lic_iat license))
    (Some (lic_exp license))
    (if 0 <? lic_grace license then Some (lic_exp license + lic_grace license) else None)
    stale None.

(** ** What a verified license satisfies *)
(** The conditions on the claims of a license at the time of the options. *)
Record claims_accepted (options : VerifyOptions) (key : TrustedKey) (lic : License)
    (status : lic_status) : Prop := {
  ca_key_from : key_validFrom key <= lic_iat lic;
  ca_key_until : forall u, key_validUntil key = Some u -> lic_iat lic <= u;
  ca_issuer : forall i, truthy (vo_expectedIssuer options) = Some i -> lic_iss lic = i;
  ca_revoked : forall ids, vo_revokedIds options = Some ids -> lic_jti lic ∉ ids;
  ca_audience : lic_aud lic = [] \/
    exists a, truthy (vo_audience options) = Some a /\ a ∈ lic_aud lic;
  ca_nbf : lic_nbf lic <= vo_now options + default DEFAULT_CLOCK_SKEW_SEC (vo_clockSkewSec options);
  ca_status :
    let t := vo_now options - default DEFAULT_CLOCK_SKEW_SEC (vo_clockSkewSec options) in
    match status with
    | ls_active => t < lic_exp lic
    | ls_grace => lic_exp lic <= t < lic_exp lic + lic_grace lic
    end
}.

(** A token signed by a trusted key, with understood and well-formed claims
    that are accepted now. *)
Definition accepted (token : jstr) (options : VerifyOptions) (lic : License) (status : lic_status)
    : Prop :=
  exists decoded key,
    decodeToken token = Ok decoded
    /\ header_typ (dt_header decoded) = LICENSE_TYP
    /\ Forall (fun c => c ∈ UNDERSTOOD_CRIT) (header_crit (dt_header decoded))
    /\ keyring_get (vo_keyring options) (header_kid (dt_header decoded)) = Some key
    /\ key_status key <> key_compromised
    /\ key_alg key = units "Ed25519"
    /\ ed25519_verify (dt_signature decoded) (dt_signingInput decoded) (key_publicKey key) = Some true
    /\ parseClaims (dt_payload decoded) (header_kid (dt_header decoded)) = Some lic
    /\ claims_accepted options key lic status.

Lemma guard_iff (b : bool) c (k : result token_error VerifyResult) lic status :
  (if b then Ok (Failed c) else k) = Ok (Verified lic status)
  <-> b = false /\ k = Ok (Verified lic status).
Proof. destruct b; split; [done|by intros []|done|by intros []]. Qed.

Lemma opt_false_iff {A} (x : option A) (f : A -> bool) :
  match x with Some a => f a | None => false end = false
  <-> forall a, x = Some a -> f a = false.
Proof. destruct x; split; [by intros ? ? [= <-]|auto|done..]. Qed.

Lemma audience_iff (aud : list jstr) (x : option jstr) :
  negb (bool_decide (aud = []))
  && match x with Some a => bool_decide (a ∉ aud) | None => true end = false
  <-> aud = [] \/ exists a, x = Some a /\ a ∈ aud.
Proof.
  rewrite andb_false_iff, negb_false_iff, bool_decide_eq_true. f_equiv.
  destruct x as [a|]; [|split; [done|by intros (? & ? & _)]].
  rewrite bool_decide_eq_false. split.
  - intros H%dec_stable. eauto.
  - by intros (? & [= <-] & ?) ?.
Qed.

Lemma check_claims_Verified options key lic lic' status :
  check_claims options key lic = Ok (Verified lic' status)
  <-> lic' = lic /\ claims_accepted options key lic status.
Proof.
  unfold check_claims. rewrite !guard_iff, !opt_false_iff, audience_iff.
  setoid_rewrite Z.ltb_ge. setoid_rewrite bool_decide_eq_false.
  set (skew := default _ _). set (now := vo_now options). split.
  - intros (Hf & Hu & Hi & Hr & Ha & Hn & H). split.
    + repeat match type of H with (if ?b then _ else _) = _ => destruct b; simplify_eq end; done.
    + constructor; try done.
      * intros i Ei. by apply dec_stable, Hi.
      * fold skew now. destruct (Z.ltb_spec (now - skew) (lic_exp lic)); [by simplify_eq|].
        destruct (Z.ltb_spec (now - skew) (lic_exp lic + lic_grace lic)); [by simplify_eq|].
        by destruct (iso_throws _).
  - intros (-> & [Hf Hu Hi Hr Ha Hn Hs]). fold skew now in Hn, Hs. cbn in Hs.
    split_and!; try done.
    + intros i Ei. intros Hne. by apply Hne, Hi.
    + destruct status.
      * by rewrite (proj2 (Z.ltb_lt _ _)).
      * rewrite (proj2 (Z.ltb_ge _ _)) by lia. by rewrite (proj2 (Z.ltb_lt _ _)) by lia.
Qed.

Lemma crit_iff (l : list jstr) :
  existsb (fun c => bool_decide (c ∉ UNDERSTOOD_CRIT)) l = false
  <-> Forall (fun c => c ∈ UNDERSTOOD_CRIT) l.
Proof.
  induction l as [|c l IH]; cbn; [split; [constructor|done]|].
  rewrite orb_false_iff, IH, Forall_cons_iff, bool_decide_eq_false. f_equiv.
  split; [apply dec_stable|by intros H ?].
Qed.

Lemma verify_accepted token options lic status :
  verifyLicenseToken token options = Ok (Verified lic status)
  <-> accepted token options lic status.
Proof.
  unfold verifyLicenseToken, accepted. destruct (decodeToken token) as [d|[]] eqn:Ed.
  2-4: split; [done|by intros (? & ? & ? & _)].
  rewrite !guard_iff, crit_iff, bool_decide_eq_false.
  destruct (keyring_get _ _) as [key|] eqn:Ek.
  2: { split; [by intros (_ & _ & ?)|]. intros (d' & key & [= <-] & _ & _ & Hk & _). congruence. }
  rewrite !guard_iff, !bool_decide_eq_false, negb_false_iff. unfold signature_valid. split.
  - intros (Ht & Hc & Hs & Ha & Hv & H).
    destruct (parseClaims _ _) as [lic'|] eqn:Ec; [|done].
    apply check_claims_Verified in H as [-> H].
    destruct (ed25519_verify _ _ _) as [[]|] eqn:Ev; try done.
    exists d, key. split_and!; try done; [by apply dec_stable|by apply eq_sym, dec_stable].
  - intros (d' & key' & [= <-] & Ht & Hc & Hk & Hs & Ha & Hv & Hp & H).
    rewrite Hk in Ek. injection Ek as ->. rewrite Hp, Hv. split_and!; try done.
    + intros Hne. by apply Hne.
    + intros Hne. by apply Hne.
    + by apply check_claims_Verified.
Qed.

Lemma parseClaims_bounds payload kid lic :
  parseClaims payload kid = Some lic ->
  lic_tier lic <> community /\ 0 <= lic_grace lic <= 90 * 86400 /\ lic_iat lic < lic_exp lic.
Proof.
  unfold parseClaims. intros H. repeat (apply bind_Some in H as (? & ? & H)).
  destruct (_ || _) eqn:E; [done|]. injection H as <-. cbn.
  rewrite !orb_false_iff, bool_decide_eq_false, !Z.ltb_ge, Z.leb_gt in E. lia || (destruct_and!; done).
Qed.
End Crypto.

(** C15: a license token is verified exactly when it decodes, is typed as a
    license with only understood critical claims, is signed by a known key of
    the keyring that is not compromised and was valid when the license was
    issued, has well-formed claims, is not revoked, and matches the expected
    issuer, the deployment and the current time. *)
Theorem verifyLicenseToken_spec (ed25519_verify : bytes -> bytes -> bytes -> option bool)
    (token : jstr) (options : VerifyOptions) (lic : License) (status : lic_status) :
  verifyLicenseToken ed25519_verify token options = Ok (Verified lic status)
  <-> accepted ed25519_verify token options lic status.
Proof. apply verify_accepted. Qed.

(** whatever a token says, it is not accepted more than ninety days and the
    clock skew after its expiry, nor at the community tier. *)
Theorem verified_window (ed25519_verify : bytes -> bytes -> bytes -> option bool)
    (token : jstr) (options : VerifyOptions) (lic : License) (status : lic_status) :
  verifyLicenseToken ed25519_verify token options = Ok (Verified lic status) ->
  lic_tier lic <> community
  /\ vo_now options
     < lic_exp lic + 90 * 86400 + default DEFAULT_CLOCK_SKEW_SEC (vo_clockSkewSec options)
  /\ lic_iat lic < lic_exp lic.
Proof.
  intros (d & key & _ & _ & _ & _ & _ & _ & _ & Hp & [_ _ _ _ _ _ Hs])%verify_accepted.
  apply parseClaims_bounds in Hp as (? & ? & ?). split_and!; [done| |done].
  destruct status; cbn in Hs; lia.
Qed.
