(* ===== verification/Issuer.v ===== *)
(** * Issuing licenses and revocation lists ([packages/license/src/issuer.ts],
      [revocation.ts])

    A signer signs the text of a header and a payload.  Days are whole days;
    the current time and the random identifier are arguments. *)
From S2P Require Import Prelude Json Codec Token License.
Local Open Scope Z_scope.

(** [LicenseSigner]; its [alg] is always Ed25519. *)
Record LicenseSigner := mkSigner { signer_kid : jstr; signer_sign : bytes -> bytes }.

Record IssueInput := mkIssueInput {
  ii_signer : LicenseSigner;
  ii_tier : LicenseTier;
  ii_subject : jstr;
  ii_issuer : option jstr;
  ii_licenseId : option jstr;
  ii_expiresInDays : option Z;
  ii_issuedAt : option Z;
  ii_notBefore : option Z;
  ii_graceDays : option Z;
  ii_audience : option (list jstr);
  ii_featureOverrides : Feature -> option bool;
  ii_limits : Limit -> option Z;
  ii_meta : option (list (jstr * jstr))
}.

Record IssuedLicense := mkIssued { issued_token : jstr; issued_jti : jstr; issued_exp : Z }.

Definition field (k : string) (v : json) : jstr * json := (units k, v).

Definition issued_iat (clock : Z) (input : IssueInput) : Z := default clock (ii_issuedAt input).
Definition issued_expiry (clock : Z) (input : IssueInput) : Z :=
  issued_iat clock input + default 365 (ii_expiresInDays input) * 86400.
(** [uuid] is [crypto.randomUUID()] without its dashes. *)
Definition issued_id (uuid : jstr) (input : IssueInput) : jstr :=
  default (units "lic_" ++ uuid) (ii_licenseId input).
Definition issued_features (input : IssueInput) (f : Feature) : bool :=
  default (TIER_PRESETS (ii_tier input) f) (ii_featureOverrides input f).

Definition crit_of (input : IssueInput) : list jstr :=
  (match ii_audience input with Some (_ :: _) => [units "aud"] | _ => [] end)
  ++ (if existsb (fun l => bool_decide (ii_limits input l <> None)) LIMITS then [units "limits"] else []).

Definition license_header (input : IssueInput) : list (jstr * json) :=
  [field "alg" (JStr (units "Ed25519"));
   field "kid" (JStr (signer_kid (ii_signer input)));
   field "typ" (JStr LICENSE_TYP);
   field "crit" (JArr (map JStr (crit_of input)))].

Definition license_payload (clock : Z) (uuid : jstr) (input : IssueInput) : list (jstr * json) :=
  let iat := issued_iat clock input in
  [field "jti" (JStr (issued_id uuid input));
   field "iss" (JStr (default (units "https://licensing.tunnet.io") (ii_issuer input)));
   field "sub" (JStr (ii_subject input));
   field "aud" (JArr (map JStr (default [] (ii_audience input))));
   field "tier" (JStr (units (tier_name (ii_tier input))));
   field "features"
     (JObj (map (fun f => field (feature_name f) (JBool (issued_features input f))) FEATURES));
   field "limits"
     (JObj (map (fun l => field (limit_name l)
                            match ii_limits input l with Some n => JInt n | None => JNull end) LIMITS));
   field "iat" (JInt iat);
   field "nbf" (JInt (default iat (ii_notBefore input)));
   field "exp" (JInt (issued_expiry clock input));
   field "grace" (JInt (default 14 (ii_graceDays input) * 86400));
   field "meta" (JObj (map (fun kv => (kv.1, JStr kv.2)) (default [] (ii_meta input))))].

(** The signing input and the token of a header and a payload. *)
Definition signed_token (signer : LicenseSigner) (header payload : list (jstr * json)) : jstr :=
  let si := buildSigningInput (JObj header) (JObj payload) in
  assembleToken (si_h si) (si_p si) (signer_sign signer (si_input si)).

Definition issueLicense (clock : Z) (uuid : jstr) (input : IssueInput)
    : result string IssuedLicense :=
  if issued_expiry clock input <=? issued_iat clock input then Err "exp must be after iat"
  else
    Ok (mkIssued
          (signed_token (ii_signer input) (license_header input) (license_payload clock uuid input))
          (issued_id uuid input) (issued_expiry clock input)).

Definition revocation_header (signer : LicenseSigner) : list (jstr * json) :=
  [field "alg" (JStr (units "Ed25519"));
   field "kid" (JStr (signer_kid signer));
   field "typ" (JStr REVOCATION_TYP);
   field "crit" (JArr [])].

Definition issueRevocationList (signer : LicenseSigner) (ids : list jstr) (issuedAt : Z) : jstr :=
  signed_token signer (revocation_header signer)
    [field "iat" (JInt issuedAt); field "revoked" (JArr (map JStr ids))].

(** ** Revocation lists *)
Inductive RevocationParse :=
| RevocationOk (ids : list jstr) (issuedAt : Z)
| RevocationError (message : string).

Definition MAX_REVOCATION_AGE_SEC : Z := 30 * 86400.

(** The license identifier of an entry: a string, or an object with a [jti]. *)
Definition revocation_entry (entry : json) : option jstr :=
  match entry with
  | JStr s => Some s
  | JObj fields => prop fields (units "jti") ≫= as_string
  | _ => None
  end.

Fixpoint revocation_entries (l : list json) : option (list jstr) :=
  match l with
  | [] => Some []
  | e :: r => id ← revocation_entry e; rest ← revocation_entries r; Some (id :: rest)
  end.

Section Revocation.
Context (ed25519_verify : bytes -> bytes -> bytes -> option bool).

(** The message of a token error is not modelled. *)
Definition parseRevocationList (token : jstr) (keyring : Keyring) (now : Z) : RevocationParse :=
  match decodeToken token with
  | Err _ => RevocationError "malformed"
  | Ok decoded =>
      if bool_decide (header_typ (dt_header decoded) <> REVOCATION_TYP)
      then RevocationError "unexpected typ"
      else
        match keyring_get keyring (header_kid (dt_header decoded)) with
        | None => RevocationError "unknown or revoked kid"
        | Some key =>
            if bool_decide (key_status key = key_compromised)
            then RevocationError "unknown or revoked kid"
            else if bool_decide (units "Ed25519" <> key_alg key) then RevocationError "alg mismatch"
            else if negb (signature_valid ed25519_verify decoded key)
            then RevocationError "bad signature"
            else
              match int (prop (dt_payload decoded) (units "iat")) with
              | None => RevocationError "invalid iat"
              | Some iat =>
                  match prop (dt_payload decoded) (units "revoked") with
                  | Some (JArr list) =>
                      if (N.to_nat 100000 <? length list)%nat then RevocationError "invalid list"
                      else if MAX_REVOCATION_AGE_SEC <? now - iat
                      then RevocationError "revocation list is stale"
                      else match revocation_entries list with
                           | Some ids => RevocationOk ids iat
                           | None => RevocationError "invalid revocation entry"
                           end
                  | _ => RevocationError "invalid list"
                  end
              end
        end
  end.
End Revocation.

(** ** Verifying what was issued *)
(** Lookup of a field by name. *)
Lemma prop_field k v l k' :
  prop (field k v :: l) (units k') = if (k =? k')%string then Some v else prop l (units k').
Proof.
  unfold prop, field. cbn [map_get]. destruct (String.eqb_spec k k') as [->|Hne].
  - by rewrite decide_True.
  - rewrite decide_False; [done|]. intros E. apply Hne. by apply (inj units) in E.
Qed.

Ltac eval_fields :=
  repeat (rewrite prop_field;
          match goal with
          | |- context [String.eqb ?a ?b] =>
              let r := eval vm_compute in (String.eqb a b) in
              change (String.eqb a b) with r; cbv iota
          end).

Lemma strings_of_map l : strings_of (map JStr l) = Some l.
Proof. induction l as [|s l IH]; cbn; [done|]. by rewrite IH. Qed.

Lemma meta_strings_map (l : list (jstr * jstr)) :
  Forall (fun kv => length kv.2 <= 256)%nat l ->
  meta_strings (map (fun kv => (kv.1, JStr kv.2)) l) = Some l.
Proof.
  induction 1 as [|[k s] l Hs Hl IH]; [done|].
  cbn [meta_strings map as_string mbind option_bind fst snd] in *.
  rewrite (proj2 (Nat.ltb_ge _ _)) by done. by rewrite IH.
Qed.

Lemma isTier_name t : isTier (Some (JStr (units (tier_name t)))) = Some t.
Proof. by destruct t. Qed.

Lemma prop_features (g : Feature -> bool) f :
  prop (map (fun f => field (feature_name f) (JBool (g f))) FEATURES) (units (feature_name f))
  = Some (JBool (g f)).
Proof. destruct f; cbn [map FEATURES feature_name]; by eval_fields. Qed.

Lemma prop_limits (g : Limit -> option Z) l :
  prop (map (fun l => field (limit_name l)
                        match g l with Some n => JInt n | None => JNull end) LIMITS)
       (units (limit_name l))
  = Some match g l with Some n => JInt n | None => JNull end.
Proof. destruct l; cbn [map LIMITS limit_name]; by eval_fields. Qed.

(** A string claim as the verifier reads it. *)
Definition short (max : nat) (s : jstr) : Prop :=
  Forall is_unit s /\ (0 < length s <= max)%nat.

Lemma str_short s max : short max s -> str (Some (JStr s)) max = Some s.
Proof.
  intros [_ [H1 H2]]. unfold str. rewrite (proj2 (Nat.ltb_lt _ _)), (proj2 (Nat.leb_le _ _)) by done. done.
Qed.

(** What [issueLicense] must be given so that the license it signs is within
    the bounds of [verifyLicenseToken]; the issuer itself checks only the
    expiry. *)
Record issue_ok (clock : Z) (uuid : jstr) (input : IssueInput) : Prop := {
  io_kid : short 64 (signer_kid (ii_signer input));
  io_tier : ii_tier input <> community;
  io_jti : short 64 (issued_id uuid input);
  io_iss : short 256 (default (units "https://licensing.tunnet.io") (ii_issuer input));
  io_sub : short 256 (ii_subject input);
  io_aud : (length (default [] (ii_audience input)) <= 32)%nat
    /\ Forall (fun a => Forall is_unit a /\ (length a <= 64)%nat) (default [] (ii_audience input));
  io_meta : (length (default [] (ii_meta input)) <= 16)%nat /\ NoDup (default [] (ii_meta input)).*1
    /\ Forall (fun kv => Forall is_unit kv.1 /\ Forall is_unit kv.2 /\ (length kv.2 <= 256)%nat)
         (default [] (ii_meta input));
  io_limits : forall l n, ii_limits input l = Some n -> 0 <= n /\ safe_int n = true;
  io_iat : safe_int (issued_iat clock input) = true;
  io_nbf : safe_int (default (issued_iat clock input) (ii_notBefore input)) = true;
  io_exp : safe_int (issued_expiry clock input) = true;
  io_grace : 0 <= default 14 (ii_graceDays input) <= 90;
  io_size : let si := buildSigningInput (JObj (license_header input))
                        (JObj (license_payload clock uuid input)) in
    (length (si_h si) <= MAX_SEGMENT_CHARS)%nat /\ (length (si_p si) <= MAX_SEGMENT_CHARS)%nat
    /\ (length (si_h si) + length (si_p si) + 95 <= MAX_TOKEN_CHARS)%nat
}.

Lemma parseClaims_issued clock uuid input kid :
  issue_ok clock uuid input -> issued_iat clock input < issued_expiry clock input ->
  exists lic, parseClaims (license_payload clock uuid input) kid = Some lic
    /\ lic_jti lic = issued_id uuid input
    /\ lic_iss lic = default (units "https://licensing.tunnet.io") (ii_issuer input)
    /\ lic_sub lic = ii_subject input
    /\ lic_aud lic = default [] (ii_audience input)
    /\ lic_tier lic = ii_tier input
    /\ (forall f, lic_features lic f = issued_features input f)
    /\ (forall l, lic_limits lic l = ii_limits input l)
    /\ lic_iat lic = issued_iat clock input
    /\ lic_nbf lic = default (issued_iat clock input) (ii_notBefore input)
    /\ lic_exp lic = issued_expiry clock input
    /\ lic_grace lic = default 14 (ii_graceDays input) * 86400
    /\ lic_meta lic = default [] (ii_meta input).
Proof.
  intros [Hkid Htier Hjti Hiss Hsub [Ha1 Ha2] (Hm1 & Hm2 & Hm3) Hlim Hiat Hnbf Hexp Hgr _] Hlt.
  unfold parseClaims, license_payload. eval_fields.
  rewrite !str_short by done. cbn [mbind option_bind]. rewrite isTier_name. cbn [mbind option_bind].
  unfold parseFeatures. rewrite (proj2 (forallb_forall _ _)).
  2: { intros f _. unfold feature_claim_ok. by rewrite prop_features. }
  cbn [mbind option_bind]. unfold parseLimits. rewrite (proj2 (forallb_forall _ _)).
  2: { intros l _. apply bool_decide_eq_true. unfold limit_claim. rewrite prop_limits.
       destruct (ii_limits input l) as [n|] eqn:E; [|done]. destruct (Hlim l n E) as [? Hn].
       cbn. rewrite Hn. by rewrite (proj2 (Z.ltb_ge _ _)). }
  cbn [mbind option_bind]. unfold parseMeta. rewrite length_map.
  rewrite (proj2 (Nat.ltb_ge _ _)) by done. rewrite meta_strings_map.
  2: { eapply List.Forall_impl; [|exact Hm3]. by intros kv (_ & _ & ?). }
  cbn [mbind option_bind]. unfold parseAud. rewrite length_map, (proj2 (Nat.leb_le _ _)) by done.
  rewrite strings_of_map. cbn [mbind option_bind]. rewrite (proj2 (forallb_forall _ _)).
  2: { intros a Ha. rewrite List.Forall_forall in Ha2. by apply Nat.leb_le, Ha2. }
  cbn [mbind option_bind int]. rewrite Hiat. cbn [mbind option_bind]. rewrite Hnbf, Hexp.
  assert (safe_int (default 14 (ii_graceDays input) * 86400) = true) as ->.
  { unfold safe_int. apply andb_true_intro. split; apply Z.ltb_lt; lia. }
  cbn [mbind option_bind]. rewrite bool_decide_false by done.
  rewrite !(proj2 (Z.ltb_ge _ _)) by lia. rewrite (proj2 (Z.leb_gt _ _)) by lia. cbn [orb].
  eexists. split; [done|]. split_and!; try done.
  - intros f. cbn [lic_features]. unfold feature_claim. by rewrite prop_features.
  - intros l. cbn [lic_limits]. unfold limit_claim. rewrite prop_limits.
    destruct (ii_limits input l) as [n|] eqn:E; [|done]. destruct (Hlim l n E) as [? Hn].
    cbn. rewrite Hn. by rewrite (proj2 (Z.ltb_ge _ _)).
Qed.

Lemma parseHeader_fields kid typ crit :
  short 64 kid ->
  parseHeader [field "alg" (JStr (units "Ed25519")); field "kid" (JStr kid);
               field "typ" (JStr typ); field "crit" (JArr (map JStr crit))]
  = Ok (mkHeader kid typ crit).
Proof.
  intros [_ [H1 H2]]. unfold parseHeader. eval_fields. cbn [mbind option_bind as_string].
  rewrite bool_decide_true by done. rewrite bool_decide_false by (by destruct kid; cbn in H1; [lia|]).
  rewrite (proj2 (Nat.ltb_ge _ _)) by done. cbn [orb]. by rewrite strings_of_map.
Qed.

Lemma strings_wf l : Forall (Forall is_unit) l -> json_wf (JArr (map JStr l)) = true.
Proof.
  intros H. cbn. apply forallb_forall. intros j (s & <- & Hs)%in_map_iff.
  rewrite List.Forall_forall in H. by apply bool_decide_eq_true, H.
Qed.

(** An object of named fields is printable when its values are. *)
Lemma fields_wf (l : list (string * json)) :
  bool_decide (NoDup l.*1) = true -> Forall (fun kv => json_wf kv.2 = true) l ->
  json_wf (JObj (map (fun kv => field kv.1 kv.2) l)) = true.
Proof.
  intros Hn%bool_decide_eq_true Hl. cbn. apply andb_true_intro. split.
  - apply bool_decide_eq_true.
    replace (map (fun kv => field kv.1 kv.2) l).*1 with (units <$> l.*1).
    + by apply (NoDup_fmap_2 units).
    + clear. induction l as [|kv l IH]; cbn; [done|]. by f_equal.
  - apply forallb_forall. intros kv (x & <- & Hx)%in_map_iff. cbn.
    rewrite units_wf. rewrite List.Forall_forall in Hl. cbn. auto.
Qed.

Lemma JStr_wf s : Forall is_unit s -> json_wf (JStr s) = true.
Proof. apply bool_decide_eq_true. Qed.

Lemma units_Forall s : Forall is_unit (units s).
Proof. exact (bool_decide_eq_true_1 _ (units_wf s)). Qed.

Lemma header_wf kid typ crit :
  Forall is_unit kid -> Forall is_unit typ -> Forall (Forall is_unit) crit ->
  json_wf (JObj [field "alg" (JStr (units "Ed25519")); field "kid" (JStr kid);
                 field "typ" (JStr typ); field "crit" (JArr (map JStr crit))]) = true.
Proof.
  intros Hk Ht Hc.
  apply (fields_wf [("alg", _); ("kid", _); ("typ", _); ("crit", _)]); [done|].
  repeat apply Forall_cons_2; try apply Forall_nil_2; cbn [snd];
    auto using JStr_wf, units_Forall, strings_wf.
Qed.

Lemma crit_units input : Forall (Forall is_unit) (crit_of input).
Proof.
  unfold crit_of. apply Forall_app_2.
  - destruct (ii_audience input) as [[|]|]; repeat constructor.
  - destruct (existsb _ _); repeat constructor.
Qed.

Lemma crit_understood input : Forall (fun c => c ∈ UNDERSTOOD_CRIT) (crit_of input).
Proof.
  unfold crit_of, UNDERSTOOD_CRIT. apply Forall_app_2.
  - destruct (ii_audience input) as [[|]|]; repeat constructor.
  - destruct (existsb _ _); repeat constructor.
Qed.

Lemma issued_tables_wf input :
  (forall l n, ii_limits input l = Some n -> 0 <= n /\ safe_int n = true) ->
  json_wf (JObj (map (fun f => field (feature_name f) (JBool (issued_features input f))) FEATURES)) = true
  /\ json_wf (JObj (map (fun l => field (limit_name l)
       match ii_limits input l with Some n => JInt n | None => JNull end) LIMITS)) = true.
Proof.
  intros Hl. split.
  - rewrite <- (map_map (fun f => (feature_name f, JBool (issued_features input f)))
                  (fun kv => field kv.1 kv.2)).
    apply fields_wf; [done|]. by repeat constructor.
  - rewrite <- (map_map (fun l => (limit_name l,
        match ii_limits input l with Some n => JInt n | None => JNull end))
        (fun kv => field kv.1 kv.2)).
    apply fields_wf; [done|]. apply List.Forall_forall. intros kv (l & <- & _)%in_map_iff. cbn.
    destruct (ii_limits input l) as [n|] eqn:E; [|done]. by apply (Hl l n).
Qed.

Lemma meta_wf (l : list (jstr * jstr)) :
  NoDup l.*1 -> Forall (fun kv => Forall is_unit kv.1 /\ Forall is_unit kv.2 /\ (length kv.2 <= 256)%nat) l ->
  json_wf (JObj (map (fun kv => (kv.1, JStr kv.2)) l)) = true.
Proof.
  intros Hn Hl. cbn. apply andb_true_intro. split.
  - apply bool_decide_eq_true. replace (map _ l).*1 with l.*1; [done|].
    clear. induction l as [|kv l IH]; cbn; [done|]. by f_equal.
  - apply forallb_forall. intros kv (x & <- & Hx)%in_map_iff. cbn.
    rewrite List.Forall_forall in Hl. destruct (Hl x Hx) as (? & ? & _).
    apply andb_true_intro. split; by apply bool_decide_eq_true.
Qed.

Lemma payload_wf clock uuid input :
  issue_ok clock uuid input -> json_wf (JObj (license_payload clock uuid input)) = true.
Proof.
  intros [Hkid Htier Hjti Hiss Hsub [Ha1 Ha2] (Hm1 & Hm2 & Hm3) Hlim Hiat Hnbf Hexp Hgr _].
  destruct (issued_tables_wf input Hlim) as [Wf Wl].
  apply (fields_wf [("jti", _); ("iss", _); ("sub", _); ("aud", _); ("tier", _); ("features", _);
    ("limits", _); ("iat", _); ("nbf", _); ("exp", _); ("grace", _); ("meta", _)]); [done|].
  repeat apply Forall_cons_2; try apply Forall_nil_2; cbn [snd]; try done.
  - apply JStr_wf, Hjti.
  - apply JStr_wf, Hiss.
  - apply JStr_wf, Hsub.
  - apply strings_wf. eapply List.Forall_impl; [|exact Ha2]. by intros a [? _].
  - apply JStr_wf, units_Forall.
  - cbn. unfold safe_int. apply andb_true_intro. split; apply Z.ltb_lt; lia.
  - by apply meta_wf.
Qed.

(** What the documentation of Ed25519 promises of a signer and its public key:
    signatures have 64 bytes and verify. *)
Definition signs_for (ed25519_verify : bytes -> bytes -> bytes -> option bool)
    (signer : LicenseSigner) (pk : bytes) : Prop :=
  forall m, Forall is_byte m ->
    Forall is_byte (signer_sign signer m) /\ length (signer_sign signer m) = 64%nat
    /\ ed25519_verify (signer_sign signer m) m pk = Some true.

(** The token of a header and a payload fits the bounds of [decodeToken]. *)
Definition token_fits (header payload : list (jstr * json)) : Prop :=
  let si := buildSigningInput (JObj header) (JObj payload) in
  (length (si_h si) <= MAX_SEGMENT_CHARS)%nat /\ (length (si_p si) <= MAX_SEGMENT_CHARS)%nat
  /\ (length (si_h si) + length (si_p si) + 95 <= MAX_TOKEN_CHARS)%nat.

Lemma signing_text_bytes h p :
  Forall (fun c => is_b64url c = true) h -> Forall (fun c => is_b64url c = true) p ->
  Forall is_byte (utf8 (signing_text h p)).
Proof.
  intros Hh Hp. apply utf8_bytes. unfold signing_text.
  assert (forall x, Forall (fun c => is_b64url c = true) x -> Forall is_unit x) as Hu.
  { intros x Hx. eapply List.Forall_impl; [|exact Hx]. intros c Hc.
    destruct (b64url_plain c Hc) as (_ & _ & ?). unfold is_unit. lia. }
  repeat apply Forall_app_2; auto; [apply units_Forall| |]; by repeat constructor.
Qed.

Lemma signed_token_decodes ed25519_verify signer pk hf pf header :
  signs_for ed25519_verify signer pk ->
  json_wf (JObj hf) = true -> json_wf (JObj pf) = true -> parseHeader hf = Ok header ->
  token_fits hf pf ->
  exists d, decodeToken (signed_token signer hf pf) = Ok d
    /\ dt_header d = header /\ dt_payload d = pf
    /\ ed25519_verify (dt_signature d) (dt_signingInput d) pk = Some true.
Proof.
  intros Hs Wh Wp Hh (Lh & Lp & Lt).
  set (si := buildSigningInput (JObj hf) (JObj pf)) in *.
  destruct (Hs (si_input si)) as (Hb & Hl & Hv).
  { apply signing_text_bytes; by apply segment_text. }
  exists (mkDecoded header pf (signer_sign signer (si_input si)) (si_input si)).
  split_and!; [|done..].
  apply (decode_assembled hf pf header (signer_sign signer (si_input si))); try done.
  fold si. unfold assembleToken. rewrite !length_app, b64uEncode_length, Hl by done.
  change (length TOKEN_PREFIX) with 6%nat. change ((4 * 64 + 2) / 3)%nat with 86%nat.
  cbn [length]. lia.
Qed.

Lemma issued_verifies (ed25519_verify : bytes -> bytes -> bytes -> option bool)
    (clock : Z) (uuid : jstr) (input : IssueInput) (r : IssuedLicense) (options : VerifyOptions)
    (key : TrustedKey) :
  signs_for ed25519_verify (ii_signer input) (key_publicKey key) ->
  issue_ok clock uuid input ->
  issueLicense clock uuid input = Ok r ->
  keyring_get (vo_keyring options) (signer_kid (ii_signer input)) = Some key ->
  key_status key <> key_compromised -> key_alg key = units "Ed25519" ->
  exists lic,
    (forall status, verifyLicenseToken ed25519_verify (issued_token r) options
                    = Ok (Verified lic status) <-> claims_accepted options key lic status)
    /\ lic_jti lic = issued_jti r /\ lic_exp lic = issued_exp r
    /\ lic_iss lic = default (units "https://licensing.tunnet.io") (ii_issuer input)
    /\ lic_iat lic = issued_iat clock input
    /\ lic_nbf lic = default (issued_iat clock input) (ii_notBefore input)
    /\ lic_grace lic = default 14 (ii_graceDays input) * 86400
    /\ lic_sub lic = ii_subject input /\ lic_tier lic = ii_tier input
    /\ lic_aud lic = default [] (ii_audience input)
    /\ (forall f, lic_features lic f = issued_features input f)
    /\ (forall l, lic_limits lic l = ii_limits input l)
    /\ lic_meta lic = default [] (ii_meta input).
Proof.
  intros Hs Hok Hi Hk Hst Halg. unfold issueLicense in Hi.
  destruct (Z.leb_spec (issued_expiry clock input) (issued_iat clock input)) as [|Hlt]; [done|].
  injection Hi as <-. cbn.
  destruct (signed_token_decodes _ _ _ (license_header input) (license_payload clock uuid input)
    _ Hs (header_wf _ _ _ (proj1 (io_kid _ _ _ Hok)) (units_Forall _) (crit_units input))
    (payload_wf _ _ _ Hok) (parseHeader_fields _ _ _ (io_kid _ _ _ Hok)) (io_size _ _ _ Hok))
    as (d & Hd & Hhd & Hpl & Hv).
  destruct (parseClaims_issued clock uuid input (signer_kid (ii_signer input)) Hok Hlt)
    as (lic & Hp & Hj & Hi & Hsub & Ha & Ht & Hf & Hl & Hia & Hn & He & Hg & Hm).
  exists lic. split_and!; try done. intros status. rewrite verify_accepted. split.
  - intros (d' & key' & Hd' & _ & _ & Hk' & _ & _ & _ & _ & Hc).
    rewrite Hd in Hd'. injection Hd' as <-. rewrite Hhd in Hk'. cbn in Hk'.
    rewrite Hk in Hk'. by injection Hk' as <-.
  - intros Hc. exists d, key. rewrite Hhd, Hpl. cbn. split_and!; try done. apply crit_understood.
Qed.

(** C16: a license issued within the verifier's bounds verifies, with exactly
    the claims it was issued for, whenever the claims are acceptable: the
    token, its JSON, base64url and UTF-8 encodings and the signature check
    lose nothing. *)
Theorem issued_license_verifies (ed25519_verify : bytes -> bytes -> bytes -> option bool)
    (clock : Z) (uuid : jstr) (input : IssueInput) (r : IssuedLicense) (options : VerifyOptions)
    (key : TrustedKey) :
  signs_for ed25519_verify (ii_signer input) (key_publicKey key) ->
  issue_ok clock uuid input ->
  issueLicense clock uuid input = Ok r ->
  keyring_get (vo_keyring options) (signer_kid (ii_signer input)) = Some key ->
  key_status key <> key_compromised -> key_alg key = units "Ed25519" ->
  exists lic,
    (forall status, verifyLicenseToken ed25519_verify (issued_token r) options
                    = Ok (Verified lic status) <-> claims_accepted options key lic status)
    /\ lic_jti lic = issued_jti r /\ lic_exp lic = issued_exp r
    /\ lic_iss lic = default (units "https://licensing.tunnet.io") (ii_issuer input)
    /\ lic_iat lic = issued_iat clock input
    /\ lic_nbf lic = default (issued_iat clock input) (ii_notBefore input)
    /\ lic_grace lic = default 14 (ii_graceDays input) * 86400
    /\ lic_sub lic = ii_subject input /\ lic_tier lic = ii_tier input
    /\ lic_aud lic = default [] (ii_audience input)
    /\ (forall f, lic_features lic f = issued_features input f)
    /\ (forall l, lic_limits lic l = ii_limits input l)
    /\ lic_meta lic = default [] (ii_meta input).
Proof. apply issued_verifies. Qed.

(** a revocation list issued with a trusted key revokes: once parsed, it
    names exactly the listed licenses, and a license it names no longer
    verifies. *)
Theorem revocation_effective (ed25519_verify : bytes -> bytes -> bytes -> option bool)
    (signer : LicenseSigner) (key : TrustedKey) (keyring : Keyring) (ids : list jstr)
    (issuedAt now : Z) :
  signs_for ed25519_verify signer (key_publicKey key) ->
  keyring_get keyring (signer_kid signer) = Some key ->
  key_status key <> key_compromised -> key_alg key = units "Ed25519" ->
  short 64 (signer_kid signer) -> Forall (Forall is_unit) ids -> safe_int issuedAt = true ->
  (length ids <= N.to_nat 100000)%nat -> now - issuedAt <= MAX_REVOCATION_AGE_SEC ->
  token_fits (revocation_header signer)
    [field "iat" (JInt issuedAt); field "revoked" (JArr (map JStr ids))] ->
  parseRevocationList ed25519_verify (issueRevocationList signer ids issuedAt) keyring now
  = RevocationOk ids issuedAt
  /\ forall token options lic status,
       vo_revokedIds options = Some ids -> lic_jti lic ∈ ids ->
       verifyLicenseToken ed25519_verify token options <> Ok (Verified lic status).
Proof.
  intros Hs Hk Hst Halg Hkid Hids Hsafe Hlen Hage Hfits. split.
  - assert (json_wf (JObj [field "iat" (JInt issuedAt); field "revoked" (JArr (map JStr ids))]) = true)
      as Wp.
    { apply (fields_wf [("iat", _); ("revoked", _)]); [done|].
      repeat apply Forall_cons_2; [done|by apply strings_wf|apply Forall_nil_2]. }
    destruct (signed_token_decodes _ _ _ (revocation_header signer)
      [field "iat" (JInt issuedAt); field "revoked" (JArr (map JStr ids))] _ Hs
      (header_wf _ _ [] (proj1 Hkid) (units_Forall _) (Forall_nil_2 _)) Wp
      (parseHeader_fields _ _ [] Hkid) Hfits) as (d & Hd & Hhd & Hpl & Hv).
    unfold parseRevocationList, issueRevocationList. rewrite Hd, Hhd, Hpl. cbn [header_typ header_kid].
    rewrite bool_decide_false by (intros H; by apply H). rewrite Hk, bool_decide_false by done.
    rewrite bool_decide_false by (intros H; by apply H). unfold signature_valid. rewrite Hv.
    cbn [default negb]. eval_fields. cbn [int]. rewrite Hsafe, length_map.
    rewrite (proj2 (Nat.ltb_ge _ _)) by done. rewrite (proj2 (Z.ltb_ge _ _)) by lia.
    assert (revocation_entries (map JStr ids) = Some ids) as ->; [|done].
    clear. induction ids as [|s ids IH]; cbn; [done|]. by rewrite IH.
  - intros token options lic status Hr Hj Hv%verify_accepted.
    destruct Hv as (d & key' & _ & _ & _ & _ & _ & _ & _ & _ & [_ _ _ Hrev _ _ _]).
    by apply (Hrev ids).
Qed.

(** ** The size of revocation lists *)
Lemma utf8_length s : (length s <= length (utf8 s))%nat.
Proof.
  assert (forall c, (1 <= length (encode_point c))%nat) as H1.
  { intros c. unfold encode_point. repeat destruct (_ <? _)%N; cbn; lia. }
  assert (forall c d, high_surrogate c = true -> low_surrogate d = true ->
    (2 <= length (encode_point (pair_point c d)))%nat) as H2.
  { intros c d Hc%high_surrogate_iff Hd%low_surrogate_iff. unfold encode_point, pair_point.
    rewrite !(proj2 (N.ltb_ge _ _)) by lia. cbn. lia. }
  remember (length s) as n eqn:En. assert (length s <= n)%nat as Hn by lia. rewrite En. clear En.
  revert s Hn. induction n as [|n IH]; intros [|c s] Hn; cbn in Hn; try (cbn; lia).
  cbn [utf8]. destruct s as [|d s].
  - unfold encode_unit. specialize (H1 (if surrogate c then 65533%N else c)). cbn. lia.
  - cbn [length] in *. destruct (_ && _) eqn:E; rewrite length_app.
    + apply andb_prop in E as [Eh El]. specialize (H2 c d Eh El). specialize (IH s). lia.
    + specialize (IH (d :: s)). unfold encode_unit.
      specialize (H1 (if surrogate c then 65533%N else c)). cbn [length] in *. lia.
Qed.

Lemma revocation_payload_length (ids : list jstr) issuedAt :
  (3 * length ids <= length (stringify (JObj
     [field "iat" (JInt issuedAt); field "revoked" (JArr (map JStr ids))])))%nat.
Proof.
  destruct ids as [|s ids]; [cbn; lia|].
  pose proof (sep_concat_length_comma (quoted s) (map quoted ids)) as H. rewrite length_map in H.
  assert (2 * length (s :: ids) <= sum_list (map length (map quoted (s :: ids))))%nat as H'.
  { generalize (s :: ids). clear. intros l. induction l as [|x l IH]; cbn in *; [lia|].
    rewrite length_app. cbn [length]. lia. }
  set (body := sep_concat [44%N] (quoted s :: map quoted ids)) in *.
  assert (exists a b, stringify (JObj [field "iat" (JInt issuedAt);
    field "revoked" (JArr (map JStr (s :: ids)))]) = a ++ [58%N; 91%N] ++ body ++ b) as (a & b & ->).
  { exists ([123%N] ++ quoted (units "iat") ++ [58%N] ++ decimal_Z issuedAt ++ [44%N]
            ++ quoted (units "revoked")), [93%N; 125%N].
    assert (stringify (JArr (map JStr (s :: ids))) = [91%N] ++ body ++ [93%N]) as Ea.
    { cbn [stringify]. by rewrite map_map. }
    change (stringify (JObj _)) with
      ([123%N] ++ ((quoted (units "iat") ++ [58%N] ++ decimal_Z issuedAt) ++ [44%N]
        ++ (quoted (units "revoked") ++ [58%N] ++ stringify (JArr (map JStr (s :: ids))))) ++ [125%N]).
    rewrite Ea. clear. by rewrite <- !app_assoc. }
  rewrite !length_app. cbn [length map] in *. lia.
Qed.

(** A revocation list of more than 1024 licenses cannot be read back, whatever
    its identifiers: its payload exceeds the token format's segment limit, far
    below the 100,000 entries [parseRevocationList] allows for. *)
Theorem long_revocation_list_unreadable
    (ed25519_verify : bytes -> bytes -> bytes -> option bool) (signer : LicenseSigner)
    (keyring : Keyring) (ids : list jstr) (issuedAt now : Z) :
  Forall is_unit (signer_kid signer) -> Forall (Forall is_unit) ids -> safe_int issuedAt = true ->
  (forall m, Forall is_byte (signer_sign signer m) /\ signer_sign signer m <> []) ->
  (1024 < length ids)%nat ->
  parseRevocationList ed25519_verify (issueRevocationList signer ids issuedAt) keyring now
  = RevocationError "malformed".
Proof.
  intros Hkid Hids Hsafe Hsig Hlen.
  set (pf := [field "iat" (JInt issuedAt); field "revoked" (JArr (map JStr ids))]).
  assert (json_wf (JObj pf) = true) as Wp.
  { apply (fields_wf [("iat", _); ("revoked", _)]); [done|].
    repeat apply Forall_cons_2; [done|by apply strings_wf|apply Forall_nil_2]. }
  pose proof (header_wf (signer_kid signer) REVOCATION_TYP [] Hkid (units_Forall _) (Forall_nil_2 _)) as Wh.
  unfold parseRevocationList, issueRevocationList, signed_token. fold pf.
  set (si := buildSigningInput _ _).
  destruct (Hsig (si_input si)) as [Hb Hne].
  assert (4096 < length (si_p si))%nat as Hlong.
  { subst si. cbn [buildSigningInput si_p].
    rewrite b64uEncode_length by (apply utf8_bytes, stringify_ok, Wp).
    pose proof (utf8_length (stringify (JObj pf))). pose proof (revocation_payload_length ids issuedAt).
    apply Nat.lt_le_trans with ((4 * (3 * 1025) + 2) / 3)%nat; [apply Nat.ltb_lt; reflexivity|].
    apply Nat.Div0.div_le_mono. fold pf in H0. lia. }
  destruct (assembled_segments (si_h si) (si_p si) (b64uEncode (signer_sign signer (si_input si))))
    as [Et Es]; [exact (segment_text _ Wh)|exact (segment_text _ Wp)|by apply b64u_text| |].
  { intros E. apply (f_equal length) in E. rewrite b64uEncode_length in E by done.
    destruct (signer_sign signer (si_input si)) as [|b l]; [done|]. cbn [length] in E.
    pose proof (Nat.div_le_mono 3 (4 * S (length l) + 2) 3). change (3 / 3)%nat with 1%nat in *. lia. }
  unfold decodeToken, assembleToken. rewrite Et, Es. destruct (_ <? _)%nat; [done|].
  rewrite bool_decide_true by done. rewrite (proj2 (Nat.ltb_lt _ (length (si_p si)))) by done.
  by rewrite orb_true_r.
Qed.

(** ** Examples *)
(** A signature scheme for the examples: the first bytes of the message. *)
Definition toy_sign (m : bytes) : bytes :=
  map (fun b => (b mod 256)%N) (take 64 (m ++ replicate 64 0%N)).
Definition toy_verify (s m pk : bytes) : option bool := Some (bool_decide (s = toy_sign m)).

Lemma toy_signs kid pk : signs_for toy_verify (mkSigner kid toy_sign) pk.
Proof.
  intros m _. cbn [signer_sign]. split_and!.
  - apply List.Forall_forall. intros b (x & <- & _)%in_map_iff. unfold is_byte. by apply N.mod_lt.
  - unfold toy_sign. rewrite length_map, length_take, length_app, length_replicate. lia.
  - unfold toy_verify. by rewrite bool_decide_true.
Qed.

Definition sample_signer : LicenseSigner := mkSigner (units "tnk-2025-01") toy_sign.
Definition sample_key : TrustedKey :=
  mkKey (units "tnk-2025-01") (units "Ed25519") (replicate 32 7%N) 0 None key_active.
Definition sample_keyring : Keyring := [(units "tnk-2025-01", sample_key)].

(** A hash for the examples, and the deployment the sample license is for. *)
Definition toy_sha256 (m : bytes) : bytes :=
  map (fun b => (b mod 256)%N) (take 32 (reverse m ++ replicate 32 0%N)).
Definition sample_aud : jstr := deploymentFingerprint toy_sha256 (units "site-1").

Definition sample_input : IssueInput :=
  mkIssueInput sample_signer enterprise (units "Example Corp") None (Some (units "lic_1")) (Some 30)
    (Some 1700000000) None None (Some [sample_aud]) (fun _ => None)
    (fun l => match l with seats => Some 25 | _ => None end) (Some [(units "plan", units "gold")]).

Definition sample_options (now : Z) (ids : option (list jstr)) : VerifyOptions :=
  mkVerifyOptions sample_keyring now (Some 300) (Some sample_aud)
    (Some (units "https://licensing.tunnet.io")) ids.

Lemma sample_input_ok : issue_ok 0 [] sample_input.
Proof.
  constructor; cbn [sample_input ii_signer ii_tier ii_subject ii_issuer ii_licenseId ii_audience ii_meta
    ii_limits ii_graceDays default issued_id sample_signer signer_kid].
  all: try (split; [apply units_Forall|split; apply Nat.leb_le; reflexivity]).
  - done.
  - split; [cbn; lia|]. apply Forall_cons_2; [|apply Forall_nil_2].
    split; [apply (bool_decide_eq_true_1 _); vm_compute; reflexivity|].
    apply Nat.leb_le. vm_compute. reflexivity.
  - split_and!; [cbn; lia|apply NoDup_singleton|]. repeat constructor.
  - intros [] n; intros [= <-]. split; [lia|reflexivity].
  - reflexivity.
  - reflexivity.
  - reflexivity.
  - lia.
  - split_and!; apply Nat.leb_le; vm_compute; reflexivity.
Qed.

(** The claims of the sample license are acceptable shortly after its issue. *)
Lemma sample_accepted lic :
  lic_jti lic = units "lic_1" -> lic_iss lic = units "https://licensing.tunnet.io" ->
  lic_iat lic = 1700000000 -> lic_nbf lic = 1700000000 -> lic_exp lic = 1702592000 ->
  lic_aud lic = [sample_aud] ->
  claims_accepted (sample_options 1700000100 None) sample_key lic ls_active.
Proof.
  intros Hj Hi Hia Hn He Ha. constructor; cbn.
  - by rewrite Hia.
  - done.
  - intros i [= <-]. by rewrite Hi.
  - done.
  - right. exists sample_aud. split; [reflexivity|]. rewrite Ha. left.
  - by rewrite Hn.
  - by rewrite He.
Qed.

Definition sample_token : jstr :=
  signed_token sample_signer (license_header sample_input) (license_payload 0 [] sample_input).

Lemma sample_verified :
  exists lic,
    verifyLicenseToken toy_verify sample_token (sample_options 1700000100 None)
    = Ok (Verified lic ls_active)
    /\ lic_exp lic = 1702592000 /\ lic_grace lic = 14 * 86400
    /\ lic_features lic clickhouseAudit = true.
Proof.
  destruct (issued_verifies toy_verify 0 [] sample_input _ (sample_options 1700000100 None)
    sample_key (toy_signs _ _) sample_input_ok eq_refl eq_refl ltac:(done) eq_refl)
    as (lic & Hv & Hj & He & Hi & Hia & Hn & Hg & Hs & Ht & Ha & Hf & _).
  exists lic. split_and!; [|done..|by rewrite Hf]. by apply Hv, sample_accepted.
Qed.

Lemma issued_license_verifies_witness :
  exists lic r,
    issueLicense 0 [] sample_input = Ok r
    /\ verifyLicenseToken toy_verify (issued_token r) (sample_options 1700000100 None)
       = Ok (Verified lic ls_active)
    /\ lic_tier lic = enterprise /\ lic_limits lic seats = Some 25.
Proof.
  destruct (issued_license_verifies toy_verify 0 [] sample_input _ (sample_options 1700000100 None)
    sample_key (toy_signs _ _) sample_input_ok eq_refl eq_refl ltac:(done) eq_refl)
    as (lic & Hv & Hj & He & Hi & Hia & Hn & Hg & Hs & Ht & Ha & _ & Hl & _).
  exists lic. eexists. split_and!; [reflexivity| |done|by rewrite Hl].
  by apply Hv, sample_accepted.
Defined.

Lemma revocation_effective_witness :
  verifyLicenseToken toy_verify
    (signed_token sample_signer (license_header sample_input) (license_payload 0 [] sample_input))
    (sample_options 1700000100 (Some [units "lic_1"])) = Ok (Failed revoked)
  /\ parseRevocationList toy_verify (issueRevocationList sample_signer [units "lic_1"] 1700000000)
       sample_keyring 1700000100 = RevocationOk [units "lic_1"] 1700000000.
Proof.
  split; [vm_compute; reflexivity|].
  apply (revocation_effective toy_verify sample_signer sample_key sample_keyring [units "lic_1"]
           1700000000 1700000100).
  - apply toy_signs.
  - reflexivity.
  - done.
  - reflexivity.
  - split; [apply units_Forall|split; apply Nat.leb_le; reflexivity].
  - repeat constructor.
  - reflexivity.
  - apply Nat.leb_le. vm_compute. reflexivity.
  - vm_compute. done.
  - split_and!; apply Nat.leb_le; vm_compute; reflexivity.
Defined.


Lemma verified_window_witness :
  exists lic, 1700000100 < lic_exp lic + 90 * 86400 + 300 /\ lic_tier lic <> community.
Proof.
  destruct sample_verified as (lic & Hv & _).
  exists lic. destruct (verified_window _ _ _ _ _ Hv) as (? & Hw & _). by split.
Defined.
