(* ===== verification/Manager.v ===== *)
(** * The license manager ([packages/license/src/manager.ts], [sources.ts])

    The manager's state, its refresh as a function of what the outside gives
    it (the license source, the revocation source, the clock and the state
    store), and the runs of a manager as a step relation.  Refreshes do not
    overlap: [refresh] returns the one in flight.  Listeners, timers and log
    lines are not modelled, except that a log line whose date is out of range
    throws. *)
From S2P Require Import Prelude Json Codec Token License Issuer.
Local Open Scope Z_scope.

(** ** Sources *)
Inductive source_failure := sf_not_configured | sf_unavailable | sf_too_large.

Inductive SourceResult :=
| SourceOk (token : jstr)
| SourceErr (reason : source_failure).

Definition emptySource : SourceResult := SourceErr sf_not_configured.
Definition inlineSource (token : jstr) : SourceResult := SourceOk (trim_units token).

(** [readFile] gives the text, or [None] when it throws. *)
Definition fileSource (text : option jstr) : SourceResult :=
  match text with
  | Some text =>
      if (MAX_TOKEN_CHARS <? length text)%nat then SourceErr sf_too_large
      else SourceOk (trim_units text)
  | None => SourceErr sf_unavailable
  end.

(** [result.reason as LicenseFailureCode]. *)
Definition cast_reason (r : source_failure) : LicenseFailureCode :=
  match r with
  | sf_not_configured => not_configured
  | sf_unavailable => unavailable
  | sf_too_large => too_large
  end.

(** ** State *)
Record PersistedState := mkPersisted { ps_token : option jstr; ps_clockWatermark : option Z }.

Record LicenseManagerOptions := mkManagerOptions {
  mo_keyring : Keyring;
  mo_has_revocationSource : bool;
  mo_deploymentId : option jstr;
  mo_expectedIssuer : option jstr;
  mo_clockSkewSec : Z
}.

Record LicenseManager := mkManager {
  m_entitlements : Entitlements;
  m_watermark : Z;
  m_revoked : option (list jstr);
  m_store : option PersistedState
}.

(** What one refresh gets from outside: the source, the revocation source, the
    two readings of the clock, and whether the store can be read and written. *)
Record environment := mkEnvironment {
  e_source : SourceResult;
  e_revocations : SourceResult;
  e_wall : Z;
  e_wall2 : Z;
  e_read_ok : bool;
  e_write_ok : bool
}.

Definition new_LicenseManager (store : option PersistedState) : LicenseManager :=
  mkManager COMMUNITY_ENTITLEMENTS 0 None store.

(** ** Reading the entitlements *)
Definition has (m : LicenseManager) (f : Feature) : bool := en_features (m_entitlements m) f.

Definition require_ (m : LicenseManager) (f : Feature) : result (Feature * LicenseTier) unit :=
  if has m f then Ok tt else Err (f, en_tier (m_entitlements m)).

(** [None] is infinity. *)
Definition limit (m : LicenseManager) (l : Limit) : option Z := en_limits (m_entitlements m) l.

Definition requireWithin (m : LicenseManager) (l : Limit) (requested : Z)
    : result (Limit * Z * Z) unit :=
  match limit m l with
  | Some allowed => if allowed <? requested then Err (l, allowed, requested) else Ok tt
  | None => Ok tt
  end.

Section Refresh.
Context (ed25519_verify : bytes -> bytes -> bytes -> option bool) (sha256 : bytes -> bytes).
Context (o : LicenseManagerOptions).

Definition read_store (env : environment) (m : LicenseManager) : option PersistedState :=
  if e_read_ok env then m_store m else None.

Definition persist (env : environment) (token : jstr) (m : LicenseManager) : LicenseManager :=
  if e_write_ok env
  then mkManager (m_entitlements m) (m_watermark m) (m_revoked m)
         (Some (mkPersisted (Some token) (Some (m_watermark m))))
  else m.

Definition publish (e : Entitlements) (m : LicenseManager) : LicenseManager :=
  mkManager e (m_watermark m) (m_revoked m) (m_store m).

Definition loadRevocations (env : environment) (m : LicenseManager) : LicenseManager :=
  if mo_has_revocationSource o then
    match e_revocations env with
    | SourceErr _ => m
    | SourceOk token =>
        match parseRevocationList ed25519_verify token (mo_keyring o) (e_wall2 env) with
        | RevocationOk ids _ => mkManager (m_entitlements m) (m_watermark m) (Some ids) (m_store m)
        | RevocationError _ => m
        end
    end
  else m.

(** The time a token is judged at, and the watermark after it: a clock that
    went back by more than the skew is replaced by the watermark. *)
Definition effective_now (m : LicenseManager) (wall : Z) : Z :=
  if wall + mo_clockSkewSec o <? m_watermark m then m_watermark m else wall.

Definition advance_watermark (m : LicenseManager) (wall : Z) : LicenseManager :=
  mkManager (m_entitlements m)
    (if wall + mo_clockSkewSec o <? m_watermark m then m_watermark m
     else if m_watermark m <? wall then wall else m_watermark m)
    (m_revoked m) (m_store m).

Definition manager_options (m : LicenseManager) (now : Z) : VerifyOptions :=
  mkVerifyOptions (mo_keyring o) now (Some (mo_clockSkewSec o))
    (match truthy (mo_deploymentId o) with
     | Some id => Some (deploymentFingerprint sha256 id)
     | None => None
     end)
    (mo_expectedIssuer o) (m_revoked m).

(** The entitlements of a token, with the state; [Err] is the error the promise
    is rejected with. *)
Definition evaluate (env : environment) (token : jstr) (stale : bool) (m : LicenseManager)
    : LicenseManager * result token_error Entitlements :=
  let now := effective_now m (e_wall env) in
  let m := loadRevocations env (advance_watermark m (e_wall env)) in
  match verifyLicenseToken ed25519_verify token (manager_options m now) with
  | Err e => (m, Err e)
  | Ok (Failed code) =>
      (if bool_decide (code = expired) then persist env token m else m,
       Ok (communityWithReason (Some code) stale))
  | Ok (Verified license status) =>
      let m := persist env token m in
      if match status with
         | ls_grace => iso_throws (lic_exp license + lic_grace license)
         | ls_active => iso_throws (lic_exp license)
         end
      then (m, Err (RangeError "Invalid time value"))
      else (m, Ok (entitlementsFrom license status stale))
  end.

Definition doRefresh (env : environment) (m : LicenseManager)
    : LicenseManager * result token_error Entitlements :=
  let finish token stale :=
    let '(m', r) := evaluate env token stale m in
    match r with
    | Ok e => (publish e m', Ok e)
    | Err err => (m', Err err)
    end in
  match e_source env with
  | SourceOk token => finish token false
  | SourceErr sf_not_configured => (publish COMMUNITY_ENTITLEMENTS m, Ok COMMUNITY_ENTITLEMENTS)
  | SourceErr reason =>
      match truthy (read_store env m ≫= ps_token) with
      | None =>
          let e := communityWithReason (Some (cast_reason reason)) true in (publish e m, Ok e)
      | Some token => finish token true
      end
  end.

(** [start]: the watermark comes from the store, then the first refresh. *)
Definition start (env : environment) (m : LicenseManager)
    : LicenseManager * result token_error Entitlements :=
  doRefresh env
    (mkManager (m_entitlements m) (default 0 (read_store env m ≫= ps_clockWatermark))
       (m_revoked m) (m_store m)).

(** ** Runs *)
(** One refresh, whatever the environment. *)
Definition refreshes (m m' : LicenseManager) : Prop :=
  exists env r, doRefresh env m = (m', r).

(** A run with its history: for every refresh, its environment and the manager
    before it.  The first one is that of [start], on some store. *)
Definition log := list (environment * LicenseManager).

Definition started (env : environment) (store : option PersistedState) : LicenseManager :=
  let m := new_LicenseManager store in
  mkManager (m_entitlements m) (default 0 (read_store env m ≫= ps_clockWatermark)) (m_revoked m) (m_store m).

Inductive run : log -> LicenseManager -> Prop :=
| run_start store env m r :
    start env (new_LicenseManager store) = (m, r) -> run [(env, started env store)] m
| run_refresh h m env m' r : run h m -> doRefresh env m = (m', r) -> run (h ++ [(env, m)]) m'.

(** The token a refresh judges: that of the source, or the stored one when the
    source is there but fails. *)
Definition judged (x : environment * LicenseManager) : option jstr :=
  match e_source x.1 with
  | SourceOk token => Some token
  | SourceErr sf_not_configured => None
  | SourceErr _ => truthy (read_store x.1 x.2 ≫= ps_token)
  end.

(** The revocation list a refresh is given, when it can be read. *)
Definition delivered (env : environment) : option (list jstr) :=
  if mo_has_revocationSource o then
    match e_revocations env with
    | SourceOk token =>
        match parseRevocationList ed25519_verify token (mo_keyring o) (e_wall2 env) with
        | RevocationOk ids _ => Some ids
        | RevocationError _ => None
        end
    | SourceErr _ => None
    end
  else None.

(** The list in force after a history: the last one delivered to a refresh that
    judged a token. *)
Definition in_force (h : log) : option (list jstr) :=
  foldl (fun current x =>
    match judged x, delivered x.1 with Some _, Some ids => Some ids | _, _ => current end) None h.

(** ** The watermark *)
Lemma loadRevocations_watermark env m : m_watermark (loadRevocations env m) = m_watermark m.
Proof.
  unfold loadRevocations. destruct (mo_has_revocationSource o); [|done].
  destruct (e_revocations env); [|done]. by destruct (parseRevocationList _ _ _ _).
Qed.

Lemma persist_watermark env t m : m_watermark (persist env t m) = m_watermark m.
Proof. unfold persist. by destruct (e_write_ok env). Qed.

Lemma evaluate_watermark env token stale m m' r :
  0 <= mo_clockSkewSec o -> evaluate env token stale m = (m', r) ->
  m_watermark m <= m_watermark m' /\ e_wall env <= m_watermark m'.
Proof.
  intros Hs E.
  assert (m_watermark m' = m_watermark (advance_watermark m (e_wall env))) as ->.
  { unfold evaluate in E. repeat case_match; simplify_eq;
      by rewrite ?persist_watermark, loadRevocations_watermark. }
  cbn. destruct (Z.ltb_spec (e_wall env + mo_clockSkewSec o) (m_watermark m)); [lia|].
  destruct (Z.ltb_spec (m_watermark m) (e_wall env)); lia.
Qed.

(** The cases of a refresh. *)
Inductive refresh_case (env : environment) (m m' : LicenseManager)
    : result token_error Entitlements -> Prop :=
| rc_community e :
    en_features e = TIER_PRESETS community -> en_tier e = community -> en_notAfter e = None ->
    m' = publish e m -> refresh_case env m m' (Ok e)
| rc_evaluated token stale m1 e :
    evaluate env token stale m = (m1, Ok e) -> m' = publish e m1 -> refresh_case env m m' (Ok e)
| rc_rejected token stale err :
    evaluate env token stale m = (m', Err err) -> refresh_case env m m' (Err err).

Lemma doRefresh_cases env m m' r : doRefresh env m = (m', r) -> refresh_case env m m' r.
Proof.
  unfold doRefresh. destruct (e_source env) as [token|[]].
  - destruct (evaluate env token false m) as [m1 [e|err]] eqn:E; intros [= <- <-];
      [by eapply rc_evaluated|by eapply rc_rejected].
  - intros [= <- <-]. by eapply rc_community.
  - destruct (truthy _) as [token|]; [|intros [= <- <-]; by eapply rc_community].
    destruct (evaluate env token true m) as [m1 [e|err]] eqn:E; intros [= <- <-];
      [by eapply rc_evaluated|by eapply rc_rejected].
  - destruct (truthy _) as [token|]; [|intros [= <- <-]; by eapply rc_community].
    destruct (evaluate env token true m) as [m1 [e|err]] eqn:E; intros [= <- <-];
      [by eapply rc_evaluated|by eapply rc_rejected].
Qed.

Lemma refreshes_watermark m m' :
  0 <= mo_clockSkewSec o -> refreshes m m' -> m_watermark m <= m_watermark m'.
Proof.
  intros Hs (env & r & [e _ _ _ ->|token stale m1 e E ->|token stale err E]%doRefresh_cases); [done|..];
    by apply evaluate_watermark in E as [? _].
Qed.

Lemma rtc_watermark m m' :
  0 <= mo_clockSkewSec o -> rtc refreshes m m' -> m_watermark m <= m_watermark m'.
Proof.
  intros Hs. induction 1 as [|x y z Hxy _ IH]; [lia|]. apply refreshes_watermark in Hxy; [lia|done].
Qed.

(** ** What entitlements rest on *)
(** Community entitlements, or those of a token that verified with the
    manager's keyring, at a time that is at most the clock skew behind the
    watermark. *)
Definition backed (watermark : Z) (e : Entitlements) : Prop :=
  ((forall f, en_features e f = false) /\ en_tier e = community /\ en_notAfter e = None)
  \/ exists token options lic status stale,
       verifyLicenseToken ed25519_verify token options = Ok (Verified lic status)
       /\ vo_keyring options = mo_keyring o
       /\ vo_clockSkewSec options = Some (mo_clockSkewSec o)
       /\ watermark - mo_clockSkewSec o <= vo_now options
       /\ e = entitlementsFrom lic status stale.

Lemma community_features f : TIER_PRESETS community f = false.
Proof. by destruct f. Qed.

Lemma evaluate_backed env token stale m m' e :
  0 <= mo_clockSkewSec o ->
  evaluate env token stale m = (m', Ok e) -> backed (m_watermark m) e.
Proof.
  intros Hs. unfold evaluate. set (m1 := loadRevocations _ _).
  destruct (verifyLicenseToken _ _ _) as [[lic status|code]|] eqn:Ev; intros E; [| |done].
  - case_match; [done|]. injection E as <- <-.
    right. do 5 eexists. split_and!; [exact Ev|done..| |done].
    cbn. unfold effective_now. destruct (Z.ltb_spec (e_wall env + mo_clockSkewSec o) (m_watermark m)); lia.
  - injection E as <- <-. left. split_and!; [|done..]. intros f. apply community_features.
Qed.

Lemma doRefresh_backed env m m' e :
  0 <= mo_clockSkewSec o -> doRefresh env m = (m', Ok e) ->
  backed (m_watermark m) e /\ m_entitlements m' = e.
Proof.
  intros Hs H%doRefresh_cases. inversion H as [e' Hf Ht Hi ->|token stale m1 e' E ->|]; subst.
  - split; [|done]. left. split_and!; [|done..]. intros f. rewrite Hf. apply community_features.
  - split; [by eapply evaluate_backed|done].
Qed.

(** The watermark may have advanced since a license was granted. *)
Lemma backed_weaken w w' e : w' <= w -> backed w e -> backed w' e.
Proof.
  intros Hw [Hc|(token & opts & lic & st & stale & Hv & Hk & Hs & Hn & He)]; [by left|].
  right. exists token, opts, lic, st, stale. split_and!; [done..|lia|done].
Qed.

Lemma evaluate_entitlements env token stale m m' r :
  evaluate env token stale m = (m', r) -> m_entitlements m' = m_entitlements m.
Proof.
  assert (forall x, m_entitlements (loadRevocations env x) = m_entitlements x) as HL.
  { intros x. unfold loadRevocations. repeat case_match; done. }
  assert (forall x, m_entitlements (persist env token x) = m_entitlements x) as HP.
  { intros x. unfold persist. by destruct (e_write_ok env). }
  unfold evaluate. intros E. repeat case_match; simplify_eq; by rewrite ?HP, HL.
Qed.

(** *** The history behind a run *)
Lemma loadRevocations_revoked env m :
  m_revoked (loadRevocations env m) = match delivered env with Some ids => Some ids | None => m_revoked m end.
Proof. unfold loadRevocations, delivered. by repeat case_match. Qed.

Lemma persist_revoked env t m : m_revoked (persist env t m) = m_revoked m.
Proof. unfold persist. by destruct (e_write_ok env). Qed.

Lemma evaluate_revoked env token stale m m' r :
  evaluate env token stale m = (m', r) ->
  m_revoked m' = match delivered env with Some ids => Some ids | None => m_revoked m end.
Proof.
  intros E. transitivity (m_revoked (loadRevocations env (advance_watermark m (e_wall env)))).
  - unfold evaluate in E. repeat case_match; simplify_eq; by rewrite ?persist_revoked.
  - by rewrite loadRevocations_revoked.
Qed.

Lemma doRefresh_judged env m :
  doRefresh env m
  = match judged (env, m) with
    | Some token =>
        let '(m', r) := evaluate env token (match e_source env with SourceOk _ => false | _ => true end) m in
        match r with Ok e => (publish e m', Ok e) | Err err => (m', Err err) end
    | None =>
        let e := match e_source env with
                 | SourceErr (sf_unavailable | sf_too_large) as s =>
                     communityWithReason (Some (cast_reason (match s with SourceErr r => r | _ => sf_unavailable end))) true
                 | _ => COMMUNITY_ENTITLEMENTS
                 end in
        (publish e m, Ok e)
    end.
Proof. unfold doRefresh, judged. cbn [fst snd]. destruct (e_source env) as [token|[]]; [done..| |]; by destruct (truthy _). Qed.

Lemma doRefresh_revoked env m m' r h :
  doRefresh env m = (m', r) -> m_revoked m = in_force h -> m_revoked m' = in_force (h ++ [(env, m)]).
Proof.
  rewrite doRefresh_judged. unfold in_force. rewrite foldl_app. fold (in_force h). cbn [foldl fst].
  destruct (judged (env, m)) as [token|]; [|by intros [= <- _]].
  destruct (evaluate _ _ _ _) as [m1 r1] eqn:E. apply evaluate_revoked in E.
  intros H Hh. assert (m_revoked m' = m_revoked m1) as -> by (destruct r1; by injection H as <- _).
  rewrite E. by destruct (delivered env).
Qed.

(** Entitlements with a feature come from the last refresh that did not throw,
    which judged a token under the options of the manager and the list in
    force. *)
Definition granted (h : log) (e : Entitlements) : Prop :=
  exists pre env m0 post token now lic status,
    h = pre ++ (env, m0) :: post
    /\ judged (env, m0) = Some token
    /\ Forall (fun x => exists err, (doRefresh x.1 x.2).2 = Err err) post
    /\ e_wall env <= now /\ m_watermark m0 - mo_clockSkewSec o <= now
    /\ verifyLicenseToken ed25519_verify token
         (mkVerifyOptions (mo_keyring o) now (Some (mo_clockSkewSec o))
            (deploymentFingerprint sha256 <$> truthy (mo_deploymentId o)) (mo_expectedIssuer o)
            (in_force (pre ++ [(env, m0)])))
       = Ok (Verified lic status)
    /\ forall f, en_features e f = lic_features lic f.

Lemma evaluate_granted env token stale m m' e h :
  0 <= mo_clockSkewSec o ->
  judged (env, m) = Some token -> m_revoked m = in_force h -> evaluate env token stale m = (m', Ok e) ->
  (forall f, en_features e f = false) \/ granted (h ++ [(env, m)]) e.
Proof.
  intros Hskew Hj Hh. unfold evaluate. set (m1 := loadRevocations _ _).
  assert (m_revoked m1 = in_force (h ++ [(env, m)])) as Hr.
  { unfold m1, in_force. rewrite loadRevocations_revoked, foldl_app. fold (in_force h). cbn [foldl fst].
    rewrite Hj. by destruct (delivered env). }
  destruct (verifyLicenseToken _ _ _) as [[lic status|code]|] eqn:Ev; intros E; [| |done].
  - case_match; [done|]. injection E as <- <-. right.
    exists h, env, m, [], token, (effective_now m (e_wall env)), lic, status.
    split_and!; [done|done|constructor| | | |done].
    1-2: unfold effective_now; destruct (Z.ltb_spec (e_wall env + mo_clockSkewSec o) (m_watermark m)); lia.
    rewrite <- Hr. unfold manager_options in Ev. rewrite <- Ev. by destruct (truthy (mo_deploymentId o)).
  - injection E as <- <-. left. intros f. apply community_features.
Qed.

Lemma granted_snoc h x e err : (doRefresh x.1 x.2).2 = Err err -> granted h e -> granted (h ++ [x]) e.
Proof.
  intros Hx (pre & env & m0 & post & token & now & lic & st & -> & Hj & Hp & H).
  exists pre, env, m0, (post ++ [x]), token, now, lic, st.
  split; [by rewrite <- app_assoc|]. split_and!; [done| |apply H..]. apply Forall_app. split; [done|].
  repeat constructor. eauto.
Qed.

Lemma doRefresh_granted env m m' r h :
  0 <= mo_clockSkewSec o ->
  m_revoked m = in_force h ->
  (forall f, en_features (m_entitlements m) f = false) \/ granted h (m_entitlements m) ->
  doRefresh env m = (m', r) ->
  (forall f, en_features (m_entitlements m') f = false) \/ granted (h ++ [(env, m)]) (m_entitlements m').
Proof.
  intros Hskew Hh Hg H. pose proof H as H0. rewrite doRefresh_judged in H.
  destruct (judged (env, m)) as [token|] eqn:Hj.
  - destruct (evaluate _ _ _ _) as [m1 [e|err]] eqn:E.
    + injection H as <- <-. by eapply evaluate_granted.
    + injection H as <- <-. rewrite (evaluate_entitlements _ _ _ _ _ _ E).
      destruct Hg as [Hg|Hg]; [by left|right]. eapply granted_snoc; [|done]. cbn. by rewrite H0.
  - injection H as <- _. left. intros f. cbn. destruct (e_source env) as [|[]]; apply community_features.
Qed.

Lemma run_granted h m :
  0 <= mo_clockSkewSec o ->
  run h m ->
  m_revoked m = in_force h
  /\ ((forall f, en_features (m_entitlements m) f = false) \/ granted h (m_entitlements m)).
Proof.
  intros Hskew. induction 1 as [store env m r H|h m env m' r _ [IHr IHg] H].
  - change (doRefresh env (started env store) = (m, r)) in H. split.
    + by apply (doRefresh_revoked _ _ _ _ []) in H.
    + apply (doRefresh_granted _ _ _ _ [] Hskew) in H; [done..|]. left. intros f. apply community_features.
  - split; [by eapply doRefresh_revoked|by eapply doRefresh_granted].
Qed.
End Refresh.

(** C17: whatever the sources, the store and the clock deliver, a running
    manager grants a feature only on a token that the last refresh that did not
    throw judged, taken from the source or, when the source failed, from the
    store, and that verified: with the manager's keyring, at a time not before
    the clock reading of that refresh nor behind the watermark by more than the
    skew, for the manager's deployment when it has one and for the expected
    issuer when there is one, with a license that grants the feature and whose id
    is not on the last readable revocation list that a refresh of the run was
    given with a token to judge. *)
Theorem manager_features_backed (ed25519_verify : bytes -> bytes -> bytes -> option bool)
    (sha256 : bytes -> bytes) (o : LicenseManagerOptions) (h : log) (m : LicenseManager) (f : Feature) :
  0 <= mo_clockSkewSec o ->
  run ed25519_verify sha256 o h m -> has m f = true ->
  exists pre env m0 post token now lic status,
    h = pre ++ (env, m0) :: post
    /\ judged (env, m0) = Some token
    /\ Forall (fun x => exists err, (doRefresh ed25519_verify sha256 o x.1 x.2).2 = Err err) post
    /\ e_wall env <= now /\ m_watermark m0 - mo_clockSkewSec o <= now
    /\ accepted ed25519_verify token
         (mkVerifyOptions (mo_keyring o) now (Some (mo_clockSkewSec o))
            (deploymentFingerprint sha256 <$> truthy (mo_deploymentId o)) (mo_expectedIssuer o)
            (in_force ed25519_verify o (pre ++ [(env, m0)]))) lic status
    /\ lic_features lic f = true
    /\ (forall ids, in_force ed25519_verify o (pre ++ [(env, m0)]) = Some ids -> lic_jti lic ∉ ids).
Proof.
  intros Hskew [_ [Hf|Hg]]%run_granted Hh; [unfold has in Hh; by rewrite Hf in Hh| |done].
  destruct Hg as (pre & env & m0 & post & token & now & lic & st & -> & Hj & Hp & Hw & Hm & Hv & Hf).
  apply verify_accepted in Hv. exists pre, env, m0, post, token, now, lic, st.
  split_and!; [done..|unfold has in Hh; by rewrite <- Hf|].
  intros ids Hids. destruct Hv as (d & key & _ & _ & _ & _ & _ & _ & _ & _ & [_ _ _ Hrev _ _ _]).
  by apply Hrev.
Qed.

(** C18: turning the clock back does not bring a license back: once a refresh
    has judged a token at some clock reading, no later refresh grants a
    license whose expiry and grace period ended before that reading, up to
    twice the clock skew. *)
Theorem clock_rollback_bounded (ed25519_verify : bytes -> bytes -> bytes -> option bool)
    (sha256 : bytes -> bytes) (o : LicenseManagerOptions)
    (env env' : environment) (token : jstr) (stale : bool) (m m1 m2 m3 : LicenseManager)
    (r : result token_error Entitlements) (e : Entitlements) (exp : Z) :
  0 <= mo_clockSkewSec o ->
  evaluate ed25519_verify sha256 o env token stale m = (m1, r) ->
  rtc (refreshes ed25519_verify sha256 o) m1 m2 ->
  doRefresh ed25519_verify sha256 o env' m2 = (m3, Ok e) ->
  en_notAfter e = Some exp ->
  e_wall env < default exp (en_graceUntil e) + 2 * mo_clockSkewSec o.
Proof.
  intros Hs He Hrtc Hr Hexp. apply evaluate_watermark in He as [_ Hw]; [|done].
  apply rtc_watermark in Hrtc; [|done].
  apply doRefresh_backed in Hr as [[(_ & _ & Hn)|(tok & opts & lic & st & stale' & Hv & _ & Hsk & Hnow & ->)] _];
    [congruence| |done].
  injection Hexp as <-. apply verify_accepted in Hv as (d & key & _ & _ & _ & _ & _ & _ & _ & Hp & Hc).
  apply parseClaims_bounds in Hp as (_ & Hg & _). destruct Hc as [_ _ _ _ _ _ Hst].
  rewrite Hsk in Hst. cbn in Hst |- *.
  destruct (Z.ltb_spec 0 (lic_grace lic)); cbn; destruct st; lia.
Qed.

(** ** Examples *)
Definition sample_manager_options : LicenseManagerOptions :=
  mkManagerOptions sample_keyring false (Some (units "site-1"))
    (Some (units "https://licensing.tunnet.io")) 300.

Definition sample_env (wall : Z) : environment :=
  mkEnvironment (SourceOk sample_token) emptySource wall wall true true.

Lemma sample_evaluate m :
  m_watermark m <= 1700000100 -> m_revoked m = None ->
  exists m' lic,
    evaluate toy_verify toy_sha256 sample_manager_options (sample_env 1700000100) sample_token false m
    = (m', Ok (entitlementsFrom lic ls_active false))
    /\ lic_features lic clickhouseAudit = true /\ lic_exp lic = 1702592000
    /\ lic_grace lic = 14 * 86400 /\ m_watermark m' <= 1700000100 /\ m_revoked m' = None.
Proof.
  intros Hw Hr. destruct sample_verified as (lic & Hv & He & Hg & Hf).
  unfold evaluate, effective_now, advance_watermark, loadRevocations, manager_options.
  cbn [mo_has_revocationSource sample_manager_options m_revoked m_watermark m_entitlements m_store
       mo_clockSkewSec mo_keyring mo_deploymentId mo_expectedIssuer sample_env e_wall].
  rewrite Hr, (proj2 (Z.ltb_ge _ _)) by lia.
  change (mkVerifyOptions _ _ _ _ _ _) with (sample_options 1700000100 None). rewrite Hv, He.
  change (iso_throws 1702592000) with false. cbv iota.
  eexists _, lic. split_and!; [reflexivity|done..| |done]. cbn.
  destruct (Z.ltb_spec (m_watermark m) 1700000100); lia.
Qed.

Lemma manager_features_backed_witness :
  exists m, has m clickhouseAudit = true /\
  exists token options lic status,
    accepted toy_verify token options lic status /\ vo_keyring options = sample_keyring
    /\ vo_expectedIssuer options = Some (units "https://licensing.tunnet.io")
    /\ lic_features lic clickhouseAudit = true.
Proof.
  destruct (sample_evaluate (new_LicenseManager None) ltac:(done) eq_refl) as (m' & lic & E & Hf & _).
  set (e := entitlementsFrom lic ls_active false) in *.
  assert (run toy_verify toy_sha256 sample_manager_options
    [(sample_env 1700000100, started (sample_env 1700000100) None)] (publish e m')) as Hrun.
  { eapply (run_start _ _ _ None (sample_env 1700000100)). unfold start.
    change (mkManager _ _ _ _) with (new_LicenseManager None). unfold doRefresh.
    cbn [sample_env e_source]. by rewrite E. }
  exists (publish e m'). split; [done|].
  destruct (manager_features_backed toy_verify toy_sha256 sample_manager_options _ (publish e m')
    clickhouseAudit ltac:(done) Hrun Hf) as (pre & env & m0 & post & token & now & lic' & st & _ & _ & _ & _ & _ & Ha & Hf' & _).
  do 4 eexists. split; [exact Ha|]. split; [reflexivity|]. split; [reflexivity|exact Hf'].
Defined.

Lemma clock_rollback_bounded_witness : 1700000100 < 1702592000 + 14 * 86400 + 2 * 300.
Proof.
  destruct (sample_evaluate (new_LicenseManager None) ltac:(done) eq_refl)
    as (m1 & lic1 & E1 & _ & _ & _ & Hw & Hr).
  destruct (sample_evaluate m1 Hw Hr) as (m2 & lic & E2 & _ & He & Hg & _).
  set (e := entitlementsFrom lic ls_active false) in *.
  assert (doRefresh toy_verify toy_sha256 sample_manager_options (sample_env 1700000100) m1
          = (publish e m2, Ok e)) as Hd.
  { unfold doRefresh. cbn [sample_env e_source]. by rewrite E2. }
  pose proof (clock_rollback_bounded toy_verify toy_sha256 sample_manager_options
    (sample_env 1700000100) (sample_env 1700000100) sample_token false _ _ _ _ _ _ _
    ltac:(done) E1 (rtc_refl _ _) Hd eq_refl) as H.
  subst e. cbn in H. rewrite He, Hg in H. exact H.
Defined.
