(* ===== verification/AuditEvent.v ===== *)
(** * Audit events ([apps/management/src/lib/audit.ts])

    The event emitted for an action: its class, activity and target type are
    read off the action's name.  Delivery to the control plane is not
    modelled. *)
From S2P Require Import Prelude.

Record AuditClass := mkAuditClass { classUid : Z; activityId : Z; targetType : string }.

Definition CLASS_ACCOUNT_CHANGE : Z := 7001.
Definition CLASS_AUTH_AUDIT : Z := 7002.
Definition CLASS_ENTITY_MGMT : Z := 7003.
Definition CLASS_NETWORK_ACTIVITY : Z := 7101.
Definition CLASS_DEVICE_ACTIVITY : Z := 7102.
Definition CLASS_POLICY_ACTIVITY : Z := 7103.
Definition CLASS_TUNNEL_ACTIVITY : Z := 7104.
Definition CLASS_SSH_SESSION : Z := 7105.
Definition CLASS_EDGE_ACTIVITY : Z := 7106.
Definition CLASS_POSTURE_ACTIVITY : Z := 7107.
Definition CLASS_CERTIFICATE_ACTIVITY : Z := 7108.
Definition CLASS_SERVE_ACTIVITY : Z := 7110.
Definition CLASS_API_KEY_ACTIVITY : Z := 7111.
Definition CLASS_RELAY_ACTIVITY : Z := 7112.

(** The class and the target type for the part of the action before the first
    dot. *)
Definition class_of_prefix (prefix : string) : Z * string :=
  let eq s := (prefix =? s)%string in
  if eq "network" then (CLASS_NETWORK_ACTIVITY, "network")
  else if eq "device" || eq "sdk" then (CLASS_DEVICE_ACTIVITY, "device")
  else if eq "policy" || eq "acl" then (CLASS_POLICY_ACTIVITY, "policy")
  else if eq "tunnel" then (CLASS_TUNNEL_ACTIVITY, "tunnel")
  else if eq "ssh" then (CLASS_SSH_SESSION, "ssh")
  else if eq "edge" then (CLASS_EDGE_ACTIVITY, "edge")
  else if eq "relay" then (CLASS_RELAY_ACTIVITY, "relay")
  else if eq "posture" then (CLASS_POSTURE_ACTIVITY, "posture")
  else if eq "certificate" || eq "ca" then (CLASS_CERTIFICATE_ACTIVITY, "certificate")
  else if eq "serve" then (CLASS_SERVE_ACTIVITY, "serve")
  else if eq "api_key" || eq "apikey" then (CLASS_API_KEY_ACTIVITY, "api_key")
  else if eq "member" || eq "user" || eq "invitation" then (CLASS_ACCOUNT_CHANGE, "user")
  else if eq "auth" || eq "sso" then (CLASS_AUTH_AUDIT, "auth")
  else (CLASS_ENTITY_MGMT, "entity").

Definition ACTIVITY_CREATE : Z := 1.
Definition ACTIVITY_UPDATE : Z := 3.
Definition ACTIVITY_DELETE : Z := 4.
Definition ACTIVITY_OTHER : Z := 99.

Definition activity_of (action : string) : Z :=
  let has := existsb (includes action) in
  if has ["created"; "added"; "registered"; "enrolled"; "issued"] then ACTIVITY_CREATE
  else if has ["deleted"; "removed"; "revoked"; "purged"] then ACTIVITY_DELETE
  else if has ["updated"; "changed"; "patched"; "set"] then ACTIVITY_UPDATE
  else ACTIVITY_OTHER.

Definition mapAction (action : string) : AuditClass :=
  let prefix := default "entity" (head (split_unit "."%char action)) in
  let '(c, t) := class_of_prefix prefix in
  mkAuditClass c (activity_of action) t.

Record AuditInput := mkAuditInput {
  ai_organizationId : string;
  ai_actor : string;
  ai_action : string;
  ai_target : option string;
  ai_metadata : list (string * string);
  ai_traceId : option string
}.

Record AuditIngestEvent := mkAuditEvent {
  ae_organization_id : string;
  ae_class_uid : Z;
  ae_activity_id : Z;
  ae_message : string;
  ae_actor_id : string;
  ae_target_type : string;
  ae_target_id : string;
  ae_metadata : list (string * string);
  ae_trace_id : option string
}.

Definition toIngestEvent (input : AuditInput) : AuditIngestEvent :=
  let c := mapAction (ai_action input) in
  let targetId := default "" (ai_target input) in
  mkAuditEvent (ai_organizationId input) (classUid c) (activityId c)
    (ai_action input +:+ (if (targetId =? "")%string then "" else " on " +:+ targetId)
     +:+ " by " +:+ ai_actor input)
    (ai_actor input) (targetType c) targetId
    (foldl (fun m kv => map_set m kv.1 kv.2) [("action", ai_action input)] (ai_metadata input))
    (ai_traceId input).

(** The part of an action before its first dot decides the class. *)
Lemma mapAction_prefix prefix rest :
  lacks "."%char prefix = true ->
  mapAction (prefix +:+ "." +:+ rest)
  = mkAuditClass (class_of_prefix prefix).1 (activity_of (prefix +:+ "." +:+ rest))
      (class_of_prefix prefix).2.
Proof.
  intros H. unfold mapAction. change ("." +:+ rest) with (String "." rest).
  rewrite split_unit_app by done. change (default "entity" (head (prefix :: _))) with prefix. by destruct (class_of_prefix prefix).
Qed.
