(* ===== verification/Notify.v ===== *)
(** * Versions and change notifications ([apps/management/src/lib/notify.ts])

    A change bumps the version agents compare with and notifies the control
    plane.  Notifications are the channel and payload of each [pg_notify], in
    order. *)
From S2P Require Import Prelude.

Definition NOTIFY_CHANNEL : string := "tunnet:network_changed".
Definition ORG_NOTIFY_CHANNEL : string := "tunnet:org_changed".

Record NetworkVersion := mkNetworkVersion { nv_id : string; nv_org : string; nv_version : Z }.

Definition bumpNetworkVersion (networkId organizationId : string) (networks : list NetworkVersion)
    : list NetworkVersion :=
  map (fun n => if (nv_id n =? networkId)%string && (nv_org n =? organizationId)%string
                then mkNetworkVersion (nv_id n) (nv_org n) (nv_version n + 1) else n) networks.

(** Organizations with their snapshot versions. *)
Definition bumpOrgSnapshotVersion (organizationId : string) (organizations : list (string * Z))
    : list (string * Z) :=
  map (fun o => if (o.1 =? organizationId)%string then (o.1, (o.2 + 1)%Z) else o) organizations.

Definition notifyNetworkChanged (networkId : string) (sent : list (string * string))
    : list (string * string) := sent ++ [(NOTIFY_CHANNEL, networkId)].

Definition notifyOrgChanged (organizationId : string) (sent : list (string * string))
    : list (string * string) := sent ++ [(ORG_NOTIFY_CHANNEL, organizationId)].

Definition bumpNetworkAndNotify (networkId organizationId : string)
    (s : list NetworkVersion * list (string * string)) : list NetworkVersion * list (string * string) :=
  (bumpNetworkVersion networkId organizationId s.1, notifyNetworkChanged networkId s.2).

Definition bumpOrgAndNotify (organizationId : string)
    (s : list (string * Z) * list (string * string)) : list (string * Z) * list (string * string) :=
  (bumpOrgSnapshotVersion organizationId s.1, notifyOrgChanged organizationId s.2).

(** The bump is seen in the bumped organization and nowhere else. *)
Lemma bumpOrgSnapshotVersion_elem org organizations o v :
  (o, v) ∈ organizations ->
  (o, if (o =? org)%string then (v + 1)%Z else v) ∈ bumpOrgSnapshotVersion org organizations.
Proof.
  intros H. apply list_elem_of_fmap. exists (o, v). split; [|done]. cbn.
  by destruct (o =? org)%string.
Qed.

Lemma bumpOrgSnapshotVersion_other org org' organizations :
  org' <> org ->
  List.filter (fun o => (o.1 =? org')%string) (bumpOrgSnapshotVersion org organizations)
  = List.filter (fun o => (o.1 =? org')%string) organizations.
Proof.
  intros Hne. unfold bumpOrgSnapshotVersion.
  induction organizations as [|[o v] l IH]; cbn; [done|].
  destruct (String.eqb_spec o org) as [->|]; cbn.
  - by rewrite (proj2 (String.eqb_neq org org')) by congruence.
  - by destruct (o =? org')%string; rewrite IH.
Qed.
