(* ===== verification/Tx.v ===== *)
(** * Transactions of the management server

    The handlers read and write the database inside [db.transaction], which
    undoes its writes when the callback throws, and send audit events with
    [writeAudit] ([lib/audit.ts]), which go to the control plane at once and are
    not undone.  [Tx] is the monad of such code: a database, the events sent so
    far, and a result or an exception. *)
From S2P Require Import Prelude AuditEvent.

Section Tx.
Context {D E : Type}.

Definition state : Type := D * list AuditIngestEvent.
Definition Tx (A : Type) : Type := state -> state * result E A.

Definition tx_ret {A} (a : A) : Tx A := fun s => (s, Ok a).
Definition tx_bind {A B} (f : A -> Tx B) (m : Tx A) : Tx B :=
  fun s => let '(s', r) := m s in
           match r with Ok a => f a s' | Err e => (s', Err e) end.
Definition throw {A} (e : E) : Tx A := fun s => (s, Err e).
Definition query {A} (f : D -> A) : Tx A := fun s => (s, Ok (f s.1)).
Definition update (f : D -> D) : Tx unit := fun s => ((f s.1, s.2), Ok tt).
Definition or_throw {A} (o : option A) (e : E) : Tx A :=
  match o with Some a => tx_ret a | None => throw e end.

(** [db.transaction(callback)] *)
Definition transaction {A} (m : Tx A) : Tx A :=
  fun s => let '(s', r) := m s in
           match r with Ok _ => (s', r) | Err _ => ((s.1, s'.2), r) end.

(** [promise.catch(handler)], which returns or throws again. *)
Definition catch {A} (m : Tx A) (handler : E -> result E A) : Tx A :=
  fun s => let '(s', r) := m s in
           (s', match r with Ok a => Ok a | Err e => handler e end).

Definition writeAudit (input : AuditInput) : Tx unit :=
  fun s => ((s.1, s.2 ++ [toIngestEvent input]), Ok tt).
End Tx.
Arguments state : clear implicits.
Arguments Tx : clear implicits.

#[export] Instance tx_mret {D E} : MRet (Tx D E) := @tx_ret D E.
#[export] Instance tx_mbind {D E} : MBind (Tx D E) := @tx_bind D E.

(** ** Reasoning *)
Section Lemmas.
Context {D E : Type}.

(** A computation returned or threw. *)
Lemma tx_bind_Ok {A B} (m : Tx D E A) (f : A -> Tx D E B) s s' b :
  (x ← m; f x) s = (s', Ok b) <-> exists s1 a, m s = (s1, Ok a) /\ f a s1 = (s', Ok b).
Proof.
  unfold mbind, tx_mbind, tx_bind. destruct (m s) as [s1 [a|e]]; naive_solver.
Qed.

Lemma or_throw_Ok {A} (o : option A) (e : E) (s s' : state D) a :
  or_throw o e s = (s', Ok a) <-> s' = s /\ o = Some a.
Proof. destruct o; unfold or_throw, tx_ret, throw; naive_solver. Qed.

(** A transaction that throws leaves the database as it was, and its events
    sent. *)
Lemma transaction_Err {A} (m : Tx D E A) s s' e :
  transaction m s = (s', Err e) -> s'.1 = s.1.
Proof. unfold transaction. destruct (m s) as [s1 [a|e']]; naive_solver. Qed.

Lemma transaction_Ok {A} (m : Tx D E A) s s' a :
  transaction m s = (s', Ok a) <-> m s = (s', Ok a).
Proof. unfold transaction. destruct (m s) as [s1 [a'|e']]; naive_solver. Qed.

Lemma catch_Ok_inv {A} (m : Tx D E A) h s s' a :
  catch m h s = (s', Ok a) ->
  m s = (s', Ok a) \/ exists e, m s = (s', Err e) /\ h e = Ok a.
Proof. unfold catch. destruct (m s) as [s1 [a'|e]]; naive_solver. Qed.
End Lemmas.

(** ** Computations that take steps of a relation *)
Section Steps.
Context {D E : Type} (R : relation D) `{!PreOrder R}.

(** The runs that return are steps. *)
Definition tx_step {A} (m : Tx D E A) : Prop :=
  forall s s' r, m s = (s', r) -> match r with Ok _ => R s.1 s'.1 | Err _ => True end.
(** All runs are steps. *)
Definition tx_safe {A} (m : Tx D E A) : Prop := forall s, R s.1 (m s).1.1.

Lemma tx_safe_ret {A} (a : A) : tx_safe (mret a).
Proof. intros s. reflexivity. Qed.
Lemma tx_safe_query {A} (f : D -> A) : tx_safe (query f).
Proof. intros s. reflexivity. Qed.
Lemma tx_safe_throw {A} (e : E) : tx_safe (throw e : Tx D E A).
Proof. intros s. reflexivity. Qed.
Lemma tx_safe_or_throw {A} (o : option A) (e : E) : tx_safe (or_throw o e).
Proof. intros s. by destruct o. Qed.
Lemma tx_safe_audit input : tx_safe (writeAudit input : Tx D E unit).
Proof. intros s. reflexivity. Qed.
Lemma tx_safe_update f : (forall db, R db (f db)) -> tx_safe (update f : Tx D E unit).
Proof. intros H s. apply H. Qed.
Lemma tx_safe_bind {A B} (m : Tx D E A) (f : A -> Tx D E B) :
  tx_safe m -> (forall a, tx_safe (f a)) -> tx_safe (x ← m; f x).
Proof.
  intros Hm Hf s. unfold mbind, tx_mbind, tx_bind. specialize (Hm s).
  destruct (m s) as [s1 [a|e]]; cbn [fst] in *; [|done]. etransitivity; [done|]. apply Hf.
Qed.
Lemma tx_safe_transaction {A} (m : Tx D E A) : tx_step m -> tx_safe (transaction m).
Proof.
  intros Hm s. unfold transaction. destruct (m s) as [s1 [a|e]] eqn:E1; cbn [fst]; [|reflexivity].
  exact (Hm _ _ _ E1).
Qed.
Lemma tx_safe_catch {A} (m : Tx D E A) h : tx_safe m -> tx_safe (catch m h).
Proof. intros Hm s. specialize (Hm s). unfold catch. by destruct (m s) as [s1 r]. Qed.
Lemma tx_step_safe {A} (m : Tx D E A) : tx_safe m -> tx_step m.
Proof. intros Hm s s' [a|e] E1; [|done]. specialize (Hm s). by rewrite E1 in Hm. Qed.
Lemma tx_step_bind {A B} (m : Tx D E A) (f : A -> Tx D E B) :
  tx_step m -> (forall a, tx_step (f a)) -> tx_step (x ← m; f x).
Proof.
  intros Hm Hf s s' [b|e] E1; [|done]. apply tx_bind_Ok in E1 as (s1 & a & E1 & E2).
  etransitivity; [exact (Hm _ _ _ E1)|exact (Hf _ _ _ _ E2)].
Qed.

(** One run is a step; what was read before is known. *)
Definition runs {A} (s : state D) (m : Tx D E A) : Prop := R s.1 (m s).1.1.

Lemma runs_safe {A} s (m : Tx D E A) : tx_safe m -> runs s m.
Proof. intros H. apply H. Qed.
Lemma safe_runs {A} (m : Tx D E A) : (forall s, runs s m) -> tx_safe m.
Proof. done. Qed.
Lemma runs_query {A B} s (f : D -> A) (k : A -> Tx D E B) : runs s (k (f s.1)) -> runs s (x ← query f; k x).
Proof. done. Qed.
Lemma runs_or_throw {A B} s (o : option A) e (k : A -> Tx D E B) :
  (forall a, o = Some a -> runs s (k a)) -> runs s (x ← or_throw o e; k x).
Proof. intros H. destruct o; [by apply H|]. unfold runs. cbn. reflexivity. Qed.
Lemma runs_update {A} s f (k : Tx D E A) : R s.1 (f s.1) -> tx_safe k -> runs s (_ ← update f; k).
Proof. intros Hf Hk. unfold runs. cbn. etransitivity; [exact Hf|]. apply (Hk (f s.1, s.2)). Qed.
Lemma runs_bind {A B} s (m : Tx D E A) (k : A -> Tx D E B) :
  runs s m -> (forall a, tx_safe (k a)) -> runs s (x ← m; k x).
Proof.
  unfold runs, mbind, tx_mbind, tx_bind. destruct (m s) as [s1 [a|e]]; cbn [fst]; intros Hm Hk; [|done].
  etransitivity; [exact Hm|apply Hk].
Qed.
Lemma runs_pure {A B} s (m : Tx D E A) (k : A -> Tx D E B) :
  (m s).1 = s -> (forall a, m s = (s, Ok a) -> runs s (k a)) -> runs s (x ← m; k x).
Proof.
  intros Hs Hk. unfold runs, mbind, tx_mbind, tx_bind. destruct (m s) as [s1 [a|e]]; cbn [fst] in *; subst s1.
  - by apply Hk.
  - reflexivity.
Qed.
Lemma runs_transaction {A} s (m : Tx D E A) : runs s m -> runs s (transaction m).
Proof. unfold runs, transaction. destruct (m s) as [s1 [a|e]]; cbn [fst]; intros Hm; [done|reflexivity]. Qed.
Lemma runs_catch {A} s (m : Tx D E A) h : runs s m -> runs s (catch m h).
Proof. unfold runs, catch. by destruct (m s) as [s1 r]. Qed.
End Steps.

Create HintDb txdb.
#[export] Hint Resolve tx_safe_ret tx_safe_query tx_safe_throw tx_safe_or_throw tx_safe_audit tx_safe_bind
  tx_safe_transaction tx_safe_catch tx_step_safe tx_step_bind : txdb.
#[export] Hint Extern 0 (PreOrder _) => typeclasses eauto : txdb.
Ltac tx_apply lem := apply lem; [typeclasses eauto|..].

(** Decomposes a computation that returned. *)
Ltac tx_inv :=
  repeat match goal with
  | H : (_ ← _; _) _ = (_, Ok _) |- _ => apply tx_bind_Ok in H as (? & ? & ? & ?)
  | H : mbind _ _ _ = (_, Ok _) |- _ => apply tx_bind_Ok in H as (? & ? & ? & ?)
  | H : or_throw _ _ _ = (_, Ok _) |- _ => apply or_throw_Ok in H as [? ?]
  | H : query _ _ = (_, Ok _) |- _ => unfold query in H; injection H; clear H; intros; subst
  | H : update _ _ = (_, Ok _) |- _ => unfold update in H; injection H; clear H; intros; subst
  | H : writeAudit _ _ = (_, Ok _) |- _ => unfold writeAudit in H; injection H; clear H; intros; subst
  | H : tx_ret _ _ = (_, Ok _) |- _ => unfold tx_ret in H; injection H; clear H; intros; subst
  | H : mret _ _ = (_, Ok _) |- _ => unfold mret, tx_mret, tx_ret in H; injection H; clear H; intros; subst
  | H : throw _ _ = (_, Ok _) |- _ => discriminate H
  | H : ?x = Some _ |- _ => progress subst
  end; subst.
