(* ===== verification/Plans.v ===== *)
(** * Billing plans ([packages/api/src/billing/plans.ts])

    The plans, their limits and features, and the functions that derive seat
    and resource limits from them.  The texts only the price page shows
    ([pitch], [cta], [featureBullets], [highlight], [support]) are left out.

    Plan ids reach this code from a [jsonb] column, so they need not be
    strings; and [PLAN_BY_ID] is an ordinary object, so looking up a name such
    as ["constructor"] finds an inherited property. *)
From S2P Require Import Prelude.
Local Open Scope Z_scope.

(** ** Values used as plan ids *)
(** A string, or another value: of the latter the code only sees whether it is
    truthy and the property key it is converted to. *)
Inductive js_value :=
| JsString (s : string)
| JsOther (is_truthy : bool) (key : string).
Coercion JsString : string >-> js_value.

Definition truthy_id (v : js_value) : bool :=
  match v with JsString s => negb (s =? "")%string | JsOther b _ => b end.
Definition key_of (v : js_value) : string :=
  match v with JsString s => s | JsOther _ k => k end.
(** [(IDS as readonly string[]).includes(v)] *)
Definition includes_id (ids : list string) (v : js_value) : bool :=
  match v with JsString s => existsb (String.eqb s) ids | JsOther _ _ => false end.

(** The properties every object inherits. *)
Definition OBJECT_PROTOTYPE : list string :=
  ["constructor"; "__defineGetter__"; "__defineSetter__"; "hasOwnProperty";
   "__lookupGetter__"; "__lookupSetter__"; "isPrototypeOf"; "propertyIsEnumerable";
   "toString"; "valueOf"; "__proto__"; "toLocaleString"].

(** ** Data *)
Inductive PlanFeature :=
| invites | customDomains | apiAccess | kubernetes | basicPosture | oidcSso | customRoles
| policyAsCode | advancedPolicies | samlSso | scim | advancedRbac | advancedPosture
| sshRecording | logStreaming | complianceExport | domainClaiming | regionalRelays.
#[export] Instance PlanFeature_eq_dec : EqDecision PlanFeature.
Proof. solve_decision. Defined.

Definition PlanFeatures := PlanFeature -> bool.

Record PlanLimits := mkPlanLimits {
  minSeats : option Z;
  maxSeats : option Z;
  baseResources : option Z;
  perSeatResources : Z;
  networks : option Z;
  publicTunnels : option Z;
  trafficGB : option Z;
  auditRetentionHours : option Z
}.

Inductive pricing := pricing_free | pricing_flat | pricing_per_seat | pricing_custom.
#[export] Instance pricing_eq_dec : EqDecision pricing.
Proof. solve_decision. Defined.

Record Plan := mkPlan {
  plan_id : string;
  plan_name : string;
  plan_price : option Z;
  plan_pricing : pricing;
  plan_cadence : string;
  plan_limits : PlanLimits;
  plan_features : PlanFeatures;
  plan_trialDays : option Z
}.

Definition NONE : PlanFeatures := fun _ => false.

Definition features (enabled : list PlanFeature) : PlanFeatures :=
  foldl (fun out f => fun g => if bool_decide (g = f) then true else out g) NONE enabled.

Definition OWNERSHIP_CAP_VERIFIED : Z := 3.
Definition OWNERSHIP_CAP_UNVERIFIED : Z := 1.
Definition OWNERSHIP_TOMBSTONE_WINDOW_DAYS : Z := 30.

Definition BILLABLE_PLAN_IDS : list string := ["personal"; "team"; "business"].
Definition CREATABLE_PLAN_IDS : list string := ["free"; "personal"; "team"; "business"].
Definition PER_SEAT_PLAN_IDS : list string := ["team"; "business"].

Definition freePlan : Plan :=
  mkPlan "free" "Free" (Some 0) pricing_free "forever"
    (mkPlanLimits (Some 1) (Some 1) (Some 20) 0 (Some 1) (Some 1) (Some 5) (Some 24))
    (features []) None.

Definition personalPlan : Plan :=
  mkPlan "personal" "Personal" (Some 5) pricing_flat "/month"
    (mkPlanLimits (Some 1) (Some 1) (Some 100) 0 (Some 5) (Some 5) (Some 50) (Some (24 * 30)))
    (features [customDomains; apiAccess; kubernetes; basicPosture]) (Some 14).

Definition teamPlan : Plan :=
  mkPlan "team" "Team" (Some 5) pricing_per_seat "/user/month"
    (mkPlanLimits (Some 2) None (Some 100) 25 (Some 10) (Some 25) (Some 250) (Some (24 * 90)))
    (features [invites; customDomains; apiAccess; kubernetes; basicPosture; oidcSso; customRoles;
               policyAsCode; advancedPolicies]) (Some 14).

Definition businessPlan : Plan :=
  mkPlan "business" "Business" (Some 10) pricing_per_seat "/user/month"
    (mkPlanLimits (Some 5) None (Some 500) 50 (Some 50) (Some 100) (Some 1024) (Some (24 * 365)))
    (features [invites; customDomains; apiAccess; kubernetes; basicPosture; oidcSso; customRoles;
               policyAsCode; advancedPolicies; samlSso; scim; advancedRbac; advancedPosture;
               sshRecording; logStreaming; complianceExport; domainClaiming; regionalRelays])
    (Some 14).

Definition enterprisePlan : Plan :=
  mkPlan "enterprise" "Enterprise" None pricing_custom "custom"
    (mkPlanLimits None None None 0 None None None None)
    (features [invites; customDomains; apiAccess; kubernetes; basicPosture; oidcSso; customRoles;
               policyAsCode; advancedPolicies; samlSso; scim; advancedRbac; advancedPosture;
               sshRecording; logStreaming; complianceExport; domainClaiming; regionalRelays])
    None.

Definition PLANS : list Plan := [freePlan; personalPlan; teamPlan; businessPlan; enterprisePlan].

Definition PLAN_BY_ID : list (string * Plan) := map_of (map (fun p => (plan_id p, p)) PLANS).

Definition FEATURE_REQUIRED_PLAN (f : PlanFeature) : string :=
  match f with
  | customDomains | apiAccess | kubernetes | basicPosture => "personal"
  | invites | oidcSso | customRoles | policyAsCode | advancedPolicies => "team"
  | samlSso | scim | advancedRbac | advancedPosture | sshRecording | logStreaming
  | complianceExport | domainClaiming | regionalRelays => "business"
  end.

(** ** Functions *)
(** What [PLAN_BY_ID[id]] gives: a plan, an inherited property, which has none
    of a plan's fields, or [undefined]. *)
Inductive plan_lookup :=
| FoundPlan (p : Plan)
| InheritedProperty
| NoPlan.

Definition getPlan (id : option js_value) : plan_lookup :=
  match id with
  | None => NoPlan
  | Some v =>
      if truthy_id v then
        match map_get PLAN_BY_ID (key_of v) with
        | Some p => FoundPlan p
        | None => if existsb (String.eqb (key_of v)) OBJECT_PROTOTYPE then InheritedProperty
                  else NoPlan
        end
      else NoPlan
  end.

Definition isCreatablePlanId (id : js_value) : bool := includes_id CREATABLE_PLAN_IDS id.
Definition isBillablePlanId (id : js_value) : bool := includes_id BILLABLE_PLAN_IDS id.
Definition isPerSeatPlanId (id : js_value) : bool := includes_id PER_SEAT_PLAN_IDS id.

(** Reading a field of [undefined]. *)
Inductive type_error := TypeError.

(** [getPlan(id) ?? PLAN_BY_ID.free], [None] for a value without a plan's
    fields. *)
Definition planOrFree (id : js_value) : option Plan :=
  match getPlan (Some id) with
  | FoundPlan p => Some p
  | InheritedProperty => None
  | NoPlan => Some freePlan
  end.

Definition planLimits (id : js_value) : option PlanLimits := plan_limits <$> planOrFree id.

(** [limits.field] where [limits] may be [undefined]. *)
Definition plan_field {A B} (o : option A) (f : A -> B) : result type_error B :=
  match o with Some a => Ok (f a) | None => Err TypeError end.

Definition planHasFeature (planId : js_value) (feature : PlanFeature) : result type_error bool :=
  plan_field (planOrFree planId) (fun p => plan_features p feature).

Definition requiredPlanForFeature (feature : PlanFeature) : string := FEATURE_REQUIRED_PLAN feature.

Definition minimumSeats (planId : js_value) : result type_error Z :=
  plan_field (planLimits planId) (fun l => default 1 (minSeats l)).

Definition resourceLimit (planId : js_value) (seats : option Z) : result type_error (option Z) :=
  plan_field (planLimits planId) (fun limits =>
    base ← baseResources limits;
    let min := default 1 (minSeats limits) in
    let seatCount := Z.max (default min seats) min in
    let extra := Z.max 0 (seatCount - min) in
    Some (base + perSeatResources limits * extra)).

Record PlanLimitsSnapshot := mkLimitsSnapshot {
  snap_seats : option Z;
  snap_resources : option Z;
  snap_trafficGB : option Z;
  snap_networks : option Z;
  snap_publicTunnels : option Z;
  snap_auditRetentionHours : option Z
}.

Definition planLimitsSnapshot (planId : js_value) (seats : option Z)
    : result type_error PlanLimitsSnapshot :=
  limits ← plan_field (planLimits planId) id;
  resources ← resourceLimit planId (match seats with Some s => Some s | None => minSeats limits end);
  Ok (mkLimitsSnapshot (maxSeats limits) resources (trafficGB limits) (networks limits)
        (publicTunnels limits) (auditRetentionHours limits)).

Definition seatCost (plan : Plan) (seats : Z) : option Z :=
  price ← plan_price plan;
  match plan_pricing plan with
  | pricing_free => Some 0
  | pricing_flat => Some price
  | pricing_per_seat => Some (price * Z.max seats (default 1 (minSeats (plan_limits plan))))
  | pricing_custom => None
  end.

(** The loop of [planForResources] over the plans. *)
Fixpoint planForResources_loop (plans : list Plan) (resources : Z) : result type_error Plan :=
  match plans with
  | [] => Ok enterprisePlan
  | p :: rest =>
      cap ← resourceLimit (plan_id p) (minSeats (plan_limits p));
      match cap with
      | Some c => if resources <=? c then Ok p else planForResources_loop rest resources
      | None => planForResources_loop rest resources
      end
  end.

Definition planForResources (resources : Z) : result type_error Plan :=
  planForResources_loop PLANS resources.

Definition effectiveSeatLimit (planId : js_value) (subscriptionSeats : option Z)
    : result type_error (option Z) :=
  plan_field (planLimits planId) (fun limits =>
    match maxSeats limits, minSeats limits with
    | None, None => None
    | Some m, _ =>
        if isPerSeatPlanId planId
        then Some (let min := default 1 (minSeats limits) in
                   match subscriptionSeats with None => min | Some s => Z.max min s end)
        else Some m
    | None, Some min =>
        Some (match subscriptionSeats with None => min | Some s => Z.max min s end)
    end).

Definition priceEnvKey (planId : string) : option string :=
  if (planId =? "personal")%string then Some "STRIPE_PRICE_PERSONAL"
  else if (planId =? "team")%string then Some "STRIPE_PRICE_TEAM"
  else if (planId =? "business")%string then Some "STRIPE_PRICE_BUSINESS"
  else None.

Definition seatPriceEnvKey (planId : string) : option string := priceEnvKey planId.

(** ** Lemmas *)
(** Limits are ordered with [null], no limit, on top. *)
Definition limit_le (a b : option Z) : Prop :=
  match b with
  | None => True
  | Some y => match a with Some x => x <= y | None => False end
  end.

#[export] Instance limit_le_preorder : PreOrder limit_le.
Proof.
  split; unfold limit_le.
  - intros [x|]; [lia|done].
  - intros [x|] [y|] [z|]; try done; lia.
Qed.

Lemma getPlan_known p : p ∈ PLANS -> getPlan (Some (JsString (plan_id p))) = FoundPlan p.
Proof.
  unfold PLANS. rewrite !elem_of_cons. by intros [->|[->|[->|[->|[->|[]%elem_of_nil]]]]].
Qed.

Lemma planLimits_known p : p ∈ PLANS -> planLimits (plan_id p) = Some (plan_limits p).
Proof. intros Hp. unfold planLimits, planOrFree. by rewrite getPlan_known. Qed.

(** The resources a plan gives for a number of seats. *)
Definition resources_of (p : Plan) (seats : option Z) : option Z :=
  (fun base =>
     let min := default 1 (minSeats (plan_limits p)) in
     base + perSeatResources (plan_limits p) * Z.max 0 (Z.max (default min seats) min - min))
  <$> baseResources (plan_limits p).

Lemma resourceLimit_known p seats :
  p ∈ PLANS -> resourceLimit (plan_id p) seats = Ok (resources_of p seats).
Proof.
  intros Hp. unfold resourceLimit, resources_of. rewrite planLimits_known by done. cbn.
  by destruct (baseResources (plan_limits p)).
Qed.

(** A plan ladder: each step keeps all features and lowers no limit. *)
Record plan_le (p q : Plan) : Prop := {
  le_features : forall f, plan_features p f = true -> plan_features q f = true;
  le_networks : limit_le (networks (plan_limits p)) (networks (plan_limits q));
  le_tunnels : limit_le (publicTunnels (plan_limits p)) (publicTunnels (plan_limits q));
  le_traffic : limit_le (trafficGB (plan_limits p)) (trafficGB (plan_limits q));
  le_retention : limit_le (auditRetentionHours (plan_limits p)) (auditRetentionHours (plan_limits q));
  le_resources : forall seats, limit_le (resources_of p seats) (resources_of q seats);
}.

#[export] Instance plan_le_preorder : PreOrder plan_le.
Proof.
  split; [by intros p; split|].
  intros p q r Hp Hq. split; [intros f Hf; by apply Hq, Hp|..|intros seats];
    etransitivity; by (apply Hp || apply Hq).
Qed.

Lemma plan_steps : StronglySorted plan_le PLANS.
Proof.
  apply Sorted_StronglySorted; [intros ? ? ?; apply plan_le_preorder|].
  repeat constructor;
    try (intros []; vm_compute; congruence); try (vm_compute; congruence); try (vm_compute; done).
  all: intros seats; unfold resources_of, limit_le; cbn; destruct seats; cbn; lia.
Qed.

Lemma StronglySorted_lookup {A} (R : relation A) l i j x y :
  Reflexive R -> StronglySorted R l -> l !! i = Some x -> l !! j = Some y -> (i <= j)%nat -> R x y.
Proof.
  intros HR Hs. revert i j. induction Hs as [|a l Hs IH Ha]; intros i j; [done|].
  destruct i as [|i], j as [|j]; cbn; intros Hi Hj Hij; try lia; simplify_eq; [done| |].
  - rewrite list.Forall_forall in Ha. apply Ha. by eapply list_elem_of_lookup_2.
  - apply (IH i j); [done..|lia].
Qed.

(** ** Properties *)
(** moving up the list of plans never loses anything: every feature is
    kept, and no limit on networks, tunnels, traffic, audit retention or, at
    any number of seats, resources gets smaller. *)
Theorem upgrade_never_loses (i j : nat) (p q : Plan) (seats : option Z) :
  PLANS !! i = Some p -> PLANS !! j = Some q -> (i <= j)%nat ->
  plan_le p q
  /\ exists r s, resourceLimit (plan_id p) seats = Ok r /\ resourceLimit (plan_id q) seats = Ok s
                 /\ limit_le r s.
Proof.
  intros Hi Hj Hij.
  assert (plan_le p q) as Hle.
  { eapply StronglySorted_lookup; eauto using plan_steps. apply plan_le_preorder. }
  split; [done|]. exists (resources_of p seats), (resources_of q seats).
  rewrite !resourceLimit_known by (by eapply list_elem_of_lookup_2).
  split_and!; [done..|]. by apply Hle.
Qed.

(** the plan named in the upgrade hint for a feature is the lowest plan
    that has the feature: a plan has it exactly when it is at or above the
    named one. *)
Theorem required_plan_is_lowest (i : nat) (p : Plan) (f : PlanFeature) :
  PLANS !! i = Some p ->
  (planHasFeature (plan_id p) f = Ok true
   <-> exists j q, PLANS !! j = Some q /\ plan_id q = requiredPlanForFeature f /\ (j <= i)%nat).
Proof.
  intros Hi. unfold planHasFeature, planOrFree.
  rewrite getPlan_known by (by eapply list_elem_of_lookup_2). cbn [plan_field].
  split.
  - intros [= Hf].
    assert (exists j q, PLANS !! j = Some q /\ plan_id q = requiredPlanForFeature f
              /\ forall k r, PLANS !! k = Some r -> (k < j)%nat -> plan_features r f = false) as
      (j & q & Hj & Hq & Hlow).
    { destruct f; ((by (exists 1%nat, personalPlan; split_and!; [done..|];
          intros [|k] r; [by intros [= <-] _|lia])) ||
        (by (exists 2%nat, teamPlan; split_and!; [done..|];
          intros [|[|k]] r; [by intros [= <-] _..|lia])) ||
        (by (exists 3%nat, businessPlan; split_and!; [done..|];
          intros [|[|[|k]]] r; [by intros [= <-] _..|lia]))). }
    exists j, q. split_and!; [done..|]. destruct (decide (j <= i)%nat); [done|].
    rewrite (Hlow i p) in Hf by (done || lia). done.
  - intros (j & q & Hj & Hq & Hij). f_equal.
    eapply (le_features q p).
    + eapply StronglySorted_lookup; eauto using plan_steps. apply plan_le_preorder.
    + clear i p Hi Hij. assert (q ∈ PLANS) as Hin by (by eapply list_elem_of_lookup_2).
      unfold PLANS in Hin. rewrite !elem_of_cons in Hin.
      destruct Hin as [->|[->|[->|[->|[->|[]%elem_of_nil]]]]]; by destruct f.
Qed.

Lemma upgrade_never_loses_witness :
  plan_le teamPlan businessPlan.
Proof. apply (upgrade_never_loses 2 3 teamPlan businessPlan None); (done || lia). Defined.

Lemma required_plan_is_lowest_witness :
  exists j q, PLANS !! j = Some q /\ plan_id q = requiredPlanForFeature scim /\ (j <= 3)%nat.
Proof. apply (required_plan_is_lowest 3 businessPlan scim); reflexivity. Defined.
