(* ===== verification/OrgBilling.v ===== *)
(** * Organization billing ([apps/management/src/lib/org-billing.ts],
      [lib/plan-errors.ts], and the hooks of [src/auth.ts] that call them)

    The plan an organization runs on, the counters it is compared with, the
    capacity checks, traffic metering, soft deletion and the retention of audit
    events.  The tables hold the columns this code reads; times are in
    milliseconds; [enabled] is the module's [cloudBillingEnabled] flag. *)
From S2P Require Import Prelude Json Plans.
Local Open Scope Z_scope.

(** ** Tables *)
(** [ob_plan] is what [(metadata ?? {}).plan] reads. *)
Record OrganizationRow := mkOrganization {
  ob_id : string; ob_slug : string; ob_plan : option js_value;
  ob_createdAt : Z; ob_deletedAt : option Z }.
Record SubscriptionRow := mkSubscription {
  su_id : string; su_plan : string; su_referenceId : string;
  su_stripeSubscriptionId : option string; su_status : string; su_periodEnd : option Z;
  su_cancelAtPeriodEnd : option bool; su_seats : option Z }.
Record MemberRow := mkMember { me_org : string; me_user : string; me_role : string }.
Record InvitationRow := mkInvitation { iv_org : string; iv_status : string }.
Record DeviceRow := mkDevice { de_org : string; de_endpointId : string }.
Record NetworkCountRow := mkNetworkCount { ne_id : string; ne_org : string }.
Record TunnelRow := mkTunnel { tu_org : string; tu_status : string }.
Record UsageRow := mkUsage { us_org : string; us_month : Z; us_relay : Z; us_tunnel : Z }.
Record SessionRow := mkSession { se_id : string; se_activeOrg : option string }.
Record AuditRow := mkAudit { au_org : string; au_time : Z }.

Record BillingDb := mkBillingDb {
  bd_organizations : list OrganizationRow;
  bd_subscriptions : list SubscriptionRow;
  bd_members : list MemberRow;
  bd_invitations : list InvitationRow;
  bd_devices : list DeviceRow;
  bd_networks : list NetworkCountRow;
  bd_tunnels : list TunnelRow;
  bd_usage : list UsageRow;
  bd_sessions : list SessionRow;
  bd_audit : list AuditRow
}.

(** ** Errors *)
Definition plan_feature_name (f : PlanFeature) : string :=
  match f with
  | invites => "invites" | customDomains => "customDomains" | apiAccess => "apiAccess"
  | kubernetes => "kubernetes" | basicPosture => "basicPosture" | oidcSso => "oidcSso"
  | customRoles => "customRoles" | policyAsCode => "policyAsCode"
  | advancedPolicies => "advancedPolicies" | samlSso => "samlSso" | scim => "scim"
  | advancedRbac => "advancedRbac" | advancedPosture => "advancedPosture"
  | sshRecording => "sshRecording" | logStreaming => "logStreaming"
  | complianceExport => "complianceExport" | domainClaiming => "domainClaiming"
  | regionalRelays => "regionalRelays"
  end.

Inductive billing_error :=
| PlanRequiredError (feature : PlanFeature) (requiredPlan : string) (currentPlan : js_value)
| PlanLimitError (limit : string) (allowed current : Z) (requiredPlan : option string)
    (message : string)
| PlainError (message : string)
| FieldOfUndefined.

Definition error_message (e : billing_error) : string :=
  match e with
  | PlanRequiredError f req cur =>
      "Feature " +:+ dquote +:+ plan_feature_name f +:+ dquote +:+ " requires the " +:+ req
      +:+ " plan (current: " +:+ key_of cur +:+ "). Upgrade to unlock it."
  | PlanLimitError _ _ _ _ m => m
  | PlainError m => m
  | FieldOfUndefined => "Cannot read properties of undefined"
  end.

Definition lift {A} (r : result type_error A) : result billing_error A :=
  match r with Ok a => Ok a | Err TypeError => Err FieldOfUndefined end.

(** ** Prices *)
(** [process.env] is a parameter. *)
Definition isPriceConfigured (env : string -> option string) (planId : js_value) : bool :=
  match planId with
  | JsString s =>
      isBillablePlanId planId
      && match priceEnvKey s with
         | Some key => match env key with Some v => negb (trim v =? "")%string | None => false end
         | None => false
         end
  | JsOther _ _ => false
  end.
Definition isSeatPriceConfigured := isPriceConfigured.

(** ** Roles and ownership quota *)
Definition role_parts (role : string) : list string := map trim (split_unit ","%char role).
Definition isOwnerRole (role : string) : bool := existsb (String.eqb "owner") (role_parts role).
Definition isAdminOrOwnerRole (role : string) : bool :=
  existsb (String.eqb "owner") (role_parts role) || existsb (String.eqb "admin") (role_parts role).

Definition ownershipCapForUser (emailVerified : bool) : Z :=
  if emailVerified then OWNERSHIP_CAP_VERIFIED else OWNERSHIP_CAP_UNVERIFIED.

Definition ownershipWindowStart (now : Z) : Z :=
  now - OWNERSHIP_TOMBSTONE_WINDOW_DAYS * 24 * 60 * 60 * 1000.

Definition orgCountsTowardOwnershipQuota (org : OrganizationRow) (now : Z) : bool :=
  match ob_deletedAt org with
  | None => true
  | Some _ => ownershipWindowStart now <=? ob_createdAt org
  end.

Definition find_org (db : BillingDb) (orgId : string) : option OrganizationRow :=
  List.find (fun o => (ob_id o =? orgId)%string) (bd_organizations db).

Definition memberships (db : BillingDb) (userId : string) : list MemberRow :=
  List.filter (fun m => (me_user m =? userId)%string) (bd_members db).

Definition countOwnedOrganizationsTowardQuota (db : BillingDb) (userId : string) (now : Z) : Z :=
  foldl (fun total m =>
    if negb (isOwnerRole (me_role m)) then total
    else match find_org db (me_org m) with
         | None => total
         | Some org => if orgCountsTowardOwnershipQuota org now then total + 1 else total
         end) 0 (memberships db userId).

(** [countActiveMemberships] of [auth.ts]: a membership whose organization is
    missing counts. *)
Definition countActiveMemberships (db : BillingDb) (userId : string) : Z :=
  Z.of_nat (length (List.filter (fun m =>
    match find_org db (me_org m) with
    | Some org => match ob_deletedAt org with Some _ => false | None => true end
    | None => true
    end) (memberships db userId))).

(** [license.limit("organizations")], [None] for infinity. *)
Definition canUserCreateOrganization (isCloudBilling : bool) (licenseLimit : option Z)
    (db : BillingDb) (userId : string) (emailVerified : bool) (now : Z) : bool :=
  if isCloudBilling then
    countOwnedOrganizationsTowardQuota db userId now <? ownershipCapForUser emailVerified
  else
    let active := countActiveMemberships db userId in
    (active =? 0) || match licenseLimit with None => true | Some l => active + 1 <=? l end.

Definition hasReachedOrganizationLimit (isCloudBilling : bool) (licenseLimit : option Z)
    (db : BillingDb) (userId : string) (emailVerified : bool) (now : Z) : bool :=
  if isCloudBilling then
    ownershipCapForUser emailVerified <=? countOwnedOrganizationsTowardQuota db userId now
  else
    let active := countActiveMemberships db userId in
    negb (active =? 0) && match licenseLimit with None => false | Some l => l <=? active end.

(** ** The effective plan *)
Definition ACTIVE_SUB_STATUSES : list string := ["active"; "trialing"].
Definition SEAT_BILLING_MEMBERSHIP_CAP : Z := 500.

Definition getActiveSubscription (db : BillingDb) (orgId : string) : option SubscriptionRow :=
  List.find (fun s => (su_referenceId s =? orgId)%string
                      && existsb (String.eqb (su_status s)) ACTIVE_SUB_STATUSES)
    (bd_subscriptions db).

Record EffectiveOrgPlan := mkEffective {
  ef_planId : js_value;
  ef_seats : option Z;
  ef_resources : option Z;
  ef_networks : option Z;
  ef_publicTunnels : option Z;
  ef_trafficGB : option Z;
  ef_auditRetentionHours : option Z;
  ef_features : PlanFeatures;
  ef_limits : PlanLimits;
  ef_subscriptionId : option string;
  ef_stripeSubscriptionId : option string;
  ef_status : option string;
  ef_seatsQuantity : option Z;
  ef_periodEnd : option Z;
  ef_cancelAtPeriodEnd : option bool
}.

Definition buildEffective (planId : js_value) (seatsQuantity : option Z)
    (sub : option SubscriptionRow) : result billing_error EffectiveOrgPlan :=
  seats ← lift (effectiveSeatLimit planId seatsQuantity);
  resources ← lift (resourceLimit planId seats);
  plan ← lift (plan_field (planOrFree planId) id);
  let limits := plan_limits plan in
  Ok (mkEffective planId seats resources (networks limits) (publicTunnels limits)
        (trafficGB limits) (auditRetentionHours limits) (plan_features plan) limits
        (su_id <$> sub) (sub ≫= su_stripeSubscriptionId) (su_status <$> sub) seatsQuantity
        (sub ≫= su_periodEnd) (sub ≫= su_cancelAtPeriodEnd)).

Definition unlimitedOrgPlan : result billing_error EffectiveOrgPlan :=
  buildEffective "enterprise" None None.

Definition metadata_plan (db : BillingDb) (orgId : string) : option js_value :=
  find_org db orgId ≫= ob_plan.

(** The plan id of an organization without an active subscription. *)
Definition unsubscribed_plan (metaPlan : option js_value) : js_value :=
  let planId :=
    match metaPlan with
    | Some v =>
        if truthy_id v
           && match getPlan (Some v) with NoPlan => false | _ => true end
           && negb (match v with JsString s => (s =? "enterprise")%string | JsOther _ _ => false end)
        then v else JsString "free"
    | None => JsString "free"
    end in
  if isBillablePlanId planId then JsString "free" else planId.

Definition getEffectiveOrgPlan (enabled : bool) (db : BillingDb) (orgId : string)
    : result billing_error EffectiveOrgPlan :=
  if negb enabled then unlimitedOrgPlan
  else
    match getActiveSubscription db orgId with
    | Some sub =>
        let planId := match getPlan (Some (JsString (su_plan sub))) with
                      | FoundPlan p => plan_id p
                      | _ => "free"
                      end in
        buildEffective planId (su_seats sub) (Some sub)
    | None => buildEffective (unsubscribed_plan (metadata_plan db orgId)) None None
    end.

(** ** Counters *)
Definition count_where {R} (p : R -> bool) (table : list R) : Z :=
  Z.of_nat (length (List.filter p table)).

Definition countOrgMembers (db : BillingDb) (orgId : string) : Z :=
  count_where (fun m => (me_org m =? orgId)%string) (bd_members db).
Definition countPendingInvitations (db : BillingDb) (orgId : string) : Z :=
  count_where (fun i => (iv_org i =? orgId)%string && (iv_status i =? "pending")%string)
    (bd_invitations db).
Definition countOrgDevices (db : BillingDb) (orgId : string) : Z :=
  count_where (fun d => (de_org d =? orgId)%string) (bd_devices db).
Definition countOrgNetworks (db : BillingDb) (orgId : string) : Z :=
  count_where (fun n => (ne_org n =? orgId)%string) (bd_networks db).
Definition ACTIVE_TUNNEL_STATUSES : list string := ["connecting"; "active"].
Definition countOrgPublicTunnels (db : BillingDb) (orgId : string) : Z :=
  count_where (fun t => (tu_org t =? orgId)%string
                        && existsb (String.eqb (tu_status t)) ACTIVE_TUNNEL_STATUSES)
    (bd_tunnels db).

(** ** Traffic *)
(** Days before the first of January of a year, and the year of a day, from
    the date algorithms of ECMAScript. *)
Definition day_from_year (y : Z) : Z :=
  365 * (y - 1970) + (y - 1969) / 4 - (y - 1901) / 100 + (y - 1601) / 400.
Definition year_from_day (d : Z) : Z :=
  let y := 1970 + d * 400 / 146097 in
  if d <? day_from_year y then y - 1
  else if day_from_year (y + 1) <=? d then y + 1
  else y.
Definition leap (y : Z) : bool :=
  ((y mod 4 =? 0) && negb (y mod 100 =? 0)) || (y mod 400 =? 0).
Definition month_starts (y : Z) : list Z :=
  let l := if leap y then 1 else 0 in
  [31; 59 + l; 90 + l; 120 + l; 151 + l; 181 + l; 212 + l; 243 + l; 273 + l; 304 + l; 334 + l].
(** [getUTCMonth()], from 0. *)
Definition utc_month (d : Z) : Z :=
  let y := year_from_day d in
  Z.of_nat (length (List.filter (fun s => s <=? d - day_from_year y) (month_starts y))).

Definition currentUsageMonth (now : Z) : Z :=
  let d := now / 86400000 in
  year_from_day d * 100 + (utc_month d + 1).

(** The double nearest to a non-negative integer. *)
Definition double_of (z : Z) : Z :=
  if z <=? 2 ^ 53 then z
  else let '(m, k) := nearest_double z 1 in m * 2 ^ k.

Definition usage_key (orgId : string) (month : Z) (u : UsageRow) : bool :=
  (us_org u =? orgId)%string && (us_month u =? month).

(** [bigint] columns read in the mode [number] are doubles, and so is their sum. *)
Definition getOrgTrafficBytes (db : BillingDb) (orgId : string) (month : Z) : Z :=
  match List.find (usage_key orgId month) (bd_usage db) with
  | None => 0
  | Some row => double_of (double_of (us_relay row) + double_of (us_tunnel row))
  end.

Inductive traffic_kind := relay | public_tunnel.

Definition with_usage (db : BillingDb) (u : list UsageRow) : BillingDb :=
  mkBillingDb (bd_organizations db) (bd_subscriptions db) (bd_members db) (bd_invitations db)
    (bd_devices db) (bd_networks db) (bd_tunnels db) u (bd_sessions db) (bd_audit db).

Definition int8 (z : Z) : bool := (- 2 ^ 63 <=? z) && (z <? 2 ^ 63).

(** The update of the row on a conflict, an error when a sum leaves the
    [bigint] range. *)
Fixpoint bump_usage (orgId : string) (month relayInc tunnelInc : Z) (l : list UsageRow)
    : result billing_error (list UsageRow) :=
  match l with
  | [] =>
      if int8 relayInc && int8 tunnelInc then Ok [mkUsage orgId month relayInc tunnelInc]
      else Err (PlainError "bigint out of range")
  | u :: rest =>
      if usage_key orgId month u then
        if int8 (us_relay u + relayInc) && int8 (us_tunnel u + tunnelInc) then
          Ok (mkUsage (us_org u) (us_month u) (us_relay u + relayInc) (us_tunnel u + tunnelInc) :: rest)
        else Err (PlainError "bigint out of range")
      else rest' ← bump_usage orgId month relayInc tunnelInc rest; Ok (u :: rest')
  end.

Definition incrementOrgTraffic (enabled : bool) (db : BillingDb) (orgId : string)
    (kind : traffic_kind) (bytes month : Z) : result billing_error BillingDb :=
  if negb enabled then Ok db
  else if bytes <=? 0 then Ok db
  else
    let relayInc := match kind with relay => bytes | public_tunnel => 0 end in
    let tunnelInc := match kind with relay => 0 | public_tunnel => bytes end in
    usage ← bump_usage orgId month relayInc tunnelInc (bd_usage db);
    Ok (with_usage db usage).

Inductive warn_level := level_ok | level_warn | level_exceeded.

(** [used >= m * 2 ^ k] *)
Definition ge_double (used : Z) (d : Z * Z) : bool :=
  let '(m, k) := d in
  if 0 <=? k then m * 2 ^ k <=? used else m <=? used * 2 ^ (- k).

(** [limitBytes * 0.8]: the literal is [3602879701896397 / 2 ^ 52]. *)
Definition times_0_8 (limitBytes : Z) : Z * Z :=
  nearest_double (limitBytes * 3602879701896397) (2 ^ 52).

Definition trafficWarnLevel (used : Z) (limitBytes : option Z) : warn_level :=
  match limitBytes with
  | None => level_ok
  | Some limit =>
      if limit <=? 0 then level_ok
      else if limit <=? used then level_exceeded
      else if ge_double used (times_0_8 limit) then level_warn
      else level_ok
  end.

Record OrgUsageSnapshot := mkUsageSnapshot {
  sn_plan : EffectiveOrgPlan;
  sn_members : Z;
  sn_pendingInvitations : Z;
  sn_seatsUsed : Z;
  sn_resourcesUsed : Z;
  sn_networksUsed : Z;
  sn_publicTunnelsUsed : Z;
  sn_trafficBytesUsed : Z;
  sn_trafficBytesLimit : option Z;
  sn_trafficWarnLevel : warn_level
}.

Definition getOrgUsageSnapshot (enabled : bool) (db : BillingDb) (orgId : string) (now : Z)
    : result billing_error OrgUsageSnapshot :=
  plan ← getEffectiveOrgPlan enabled db orgId;
  let members := countOrgMembers db orgId in
  let pending := countPendingInvitations db orgId in
  let traffic := getOrgTrafficBytes db orgId (currentUsageMonth now) in
  let limit := (fun gb => gb * 1024 * 1024 * 1024) <$> ef_trafficGB plan in
  Ok (mkUsageSnapshot plan members pending (members + pending) (countOrgDevices db orgId)
        (countOrgNetworks db orgId) (countOrgPublicTunnels db orgId) traffic limit
        (if enabled then trafficWarnLevel traffic limit else level_ok)).

(** ** Checks *)
Definition requirePlanFeature (enabled : bool) (db : BillingDb) (orgId : string)
    (feature : PlanFeature) : result billing_error EffectiveOrgPlan :=
  if negb enabled then unlimitedOrgPlan
  else
    plan ← getEffectiveOrgPlan enabled db orgId;
    has ← lift (planHasFeature (ef_planId plan) feature);
    if negb has then
      Err (PlanRequiredError feature (requiredPlanForFeature feature) (ef_planId plan))
    else Ok plan.

(** The number of seats the check compares with, [None] for no limit. *)
Definition seat_limit (plan : EffectiveOrgPlan) : option Z :=
  (fun seats =>
     if isPerSeatPlanId (ef_planId plan)
     then Z.min (Z.max seats (default 1 (minSeats (ef_limits plan)))) SEAT_BILLING_MEMBERSHIP_CAP
     else seats) <$> ef_seats plan.

Definition assertSeatCapacity (enabled : bool) (db : BillingDb) (orgId : string)
    (additionalSeats : Z) : result billing_error unit :=
  if negb enabled then Ok tt
  else
    plan ← getEffectiveOrgPlan enabled db orgId;
    let members := countOrgMembers db orgId in
    if negb (ef_features plan invites) && (0 <? additionalSeats) && (1 <? members + additionalSeats)
    then Err (PlanLimitError "seats" 1 members (Some "team")
                "This plan allows only 1 user. Upgrade to Team to invite members.")
    else
      match seat_limit plan with
      | None => Ok tt
      | Some limit =>
          let pending := countPendingInvitations db orgId in
          let per_seat := isPerSeatPlanId (ef_planId plan) in
          if limit <? members + pending + additionalSeats then
            Err (PlanLimitError "seats" limit (members + pending)
                   (if per_seat then None else Some "team")
                   ("Organization seat limit reached (" +:+ string_of_Z limit +:+ "). " +:+
                    (if per_seat then "Add seats in billing."
                     else "Upgrade the plan to invite members.")))
          else Ok tt
      end.

Definition assertResourceCapacity (enabled : bool) (db : BillingDb) (orgId : string)
    (endpointId : option string) : result billing_error unit :=
  if negb enabled then Ok tt
  else
    plan ← getEffectiveOrgPlan enabled db orgId;
    match ef_resources plan with
    | None => Ok tt
    | Some resources =>
        let existing :=
          match endpointId with
          | Some e => negb (e =? "")%string
                      && existsb (fun d => (de_org d =? orgId)%string && (de_endpointId d =? e)%string)
                           (bd_devices db)
          | None => false
          end in
        if existing then Ok tt
        else
          let devices := countOrgDevices db orgId in
          if resources <=? devices then
            Err (PlanLimitError "resources" resources devices None
                   ("Organization resource limit reached (" +:+ string_of_Z resources +:+
                    "). Upgrade the plan to enroll more machines."))
          else Ok tt
    end.

Definition assertNetworkCapacity (enabled : bool) (db : BillingDb) (orgId : string)
    : result billing_error unit :=
  if negb enabled then Ok tt
  else
    plan ← getEffectiveOrgPlan enabled db orgId;
    match ef_networks plan with
    | None => Ok tt
    | Some limit =>
        let used := countOrgNetworks db orgId in
        if limit <=? used then
          Err (PlanLimitError "networks" limit used None
                 ("Organization network limit reached (" +:+ string_of_Z limit +:+
                  "). Upgrade the plan to create more networks."))
        else Ok tt
    end.

Definition assertPublicTunnelCapacity (enabled : bool) (db : BillingDb) (orgId : string)
    : result billing_error unit :=
  if negb enabled then Ok tt
  else
    plan ← getEffectiveOrgPlan enabled db orgId;
    match ef_publicTunnels plan with
    | None => Ok tt
    | Some limit =>
        let used := countOrgPublicTunnels db orgId in
        if limit <=? used then
          Err (PlanLimitError "publicTunnels" limit used None
                 ("Organization public tunnel limit reached (" +:+ string_of_Z limit +:+
                  "). Upgrade the plan to create more tunnels."))
        else Ok tt
    end.

(** The hooks of the organization plugin before an invitation is created, a
    member added, or an invitation accepted. *)
Definition seatHook (isCloudBilling : bool) (db : BillingDb) (orgId : string) : result string unit :=
  if isCloudBilling then
    match assertSeatCapacity isCloudBilling db orgId 1 with
    | Ok _ => Ok tt
    | Err e => Err (error_message e)
    end
  else Ok tt.

Definition beforeCreateInvitation (openSignUp isCloudBilling : bool) (db : BillingDb)
    (orgId : string) : result string unit :=
  if negb openSignUp then
    Err "Invitations require cloud signup. Create users from the admin panel instead."
  else seatHook isCloudBilling db orgId.
Definition beforeAddMember := seatHook.
Definition beforeAcceptInvitation := seatHook.

Definition membershipLimit (isCloudBilling : bool) (db : BillingDb) (orgId : string)
    : result billing_error Z :=
  if negb isCloudBilling then Ok 100
  else plan ← getEffectiveOrgPlan isCloudBilling db orgId; Ok (default 500 (ef_seats plan)).

(** [None]: the metadata is not an object. *)
Definition parseCreatablePlan (metadata : option (option js_value)) : option string :=
  match metadata with
  | Some (Some (JsString s)) => if isCreatablePlanId s then Some s else None
  | _ => None
  end.

(** The metadata the organization is created with. *)
Definition beforeCreateOrganization (isCloudBilling : bool) (licenseLimit : option Z)
    (db : BillingDb) (userId : string) (emailVerified : bool) (now : Z)
    (metadata : option (option js_value)) : result string (option (option js_value)) :=
  if isCloudBilling then
    match parseCreatablePlan metadata with
    | None => Err ("Organization plan is required. Choose " +:+ dquote +:+ "free" +:+ dquote +:+ ", "
                   +:+ dquote +:+ "personal" +:+ dquote +:+ ", " +:+ dquote +:+ "team" +:+ dquote
                   +:+ ", or " +:+ dquote +:+ "business" +:+ dquote +:+ ".")
    | Some plan =>
        if negb (canUserCreateOrganization isCloudBilling licenseLimit db userId emailVerified now)
        then Err (if emailVerified
                  then "You can own at most " +:+ string_of_Z (ownershipCapForUser emailVerified)
                       +:+ " organizations."
                  else "Verify your email to own more than one organization.")
        else Ok (Some (Some (JsString plan)))
    end
  else Ok metadata.

(** ** Deletion *)
Definition with_orgs_sessions (db : BillingDb) (o : list OrganizationRow) (s : list SessionRow)
    : BillingDb :=
  mkBillingDb o (bd_subscriptions db) (bd_members db) (bd_invitations db) (bd_devices db)
    (bd_networks db) (bd_tunnels db) (bd_usage db) s (bd_audit db).

Definition softDeleteOrganization (db : BillingDb) (orgId : string) (now : Z)
    : result billing_error BillingDb :=
  match find_org db orgId with
  | None => Err (PlainError "Organization not found")
  | Some org =>
      match ob_deletedAt org with
      | Some _ => Err (PlainError "Organization already deleted")
      | None =>
          match getActiveSubscription db orgId with
          | Some _ => Err (PlainError "Cancel the active subscription before deleting this organization")
          | None =>
              let deletedSlug := ob_slug org +:+ "-deleted-" +:+ string_of_Z now in
              if existsb (fun o => negb (ob_id o =? orgId)%string && (ob_slug o =? deletedSlug)%string)
                   (bd_organizations db)
              then Err (PlainError "organization_slug_unique")
              else Ok (with_orgs_sessions db
                (map (fun o => if (ob_id o =? orgId)%string
                               then mkOrganization (ob_id o) deletedSlug (ob_plan o) (ob_createdAt o) (Some now)
                               else o) (bd_organizations db))
                (map (fun s => if bool_decide (se_activeOrg s = Some orgId)
                               then mkSession (se_id s) None else s) (bd_sessions db)))
          end
      end
  end.

Definition requireActiveOrganization (db : BillingDb) (orgId : string)
    : result billing_error OrganizationRow :=
  match List.find (fun o => (ob_id o =? orgId)%string
                            && match ob_deletedAt o with None => true | Some _ => false end)
          (bd_organizations db) with
  | Some org => Ok org
  | None => Err (PlainError "Organization not found")
  end.

Definition memberRoleInOrg (db : BillingDb) (userId organizationId : string) : option string :=
  me_role <$> List.find (fun m => (me_user m =? userId)%string && (me_org m =? organizationId)%string)
                (bd_members db).

(** ** Retention *)
Definition auditRetentionCutoff (enabled : bool) (db : BillingDb) (orgId : string) (now : Z)
    : result billing_error (option Z) :=
  plan ← getEffectiveOrgPlan enabled db orgId;
  Ok ((fun hours => now - hours * 60 * 60 * 1000) <$> ef_auditRetentionHours plan).

Definition with_audit (db : BillingDb) (a : list AuditRow) : BillingDb :=
  mkBillingDb (bd_organizations db) (bd_subscriptions db) (bd_members db) (bd_invitations db)
    (bd_devices db) (bd_networks db) (bd_tunnels db) (bd_usage db) (bd_sessions db) a.

Definition older (orgId : string) (cutoff : Z) (e : AuditRow) : bool :=
  (au_org e =? orgId)%string && (au_time e <? cutoff).

Section Prune.
(** What the driver reports as [rowCount] of a deletion of so many rows. *)
Context (rowCount : nat -> option Z).

(** Each deletion is committed on its own: an error leaves the earlier ones. *)
Fixpoint prune_loop (db : BillingDb) (orgs : list string) (now deleted : Z)
    : BillingDb * result billing_error Z :=
  match orgs with
  | [] => (db, Ok deleted)
  | org :: rest =>
      match auditRetentionCutoff true db org now with
      | Err e => (db, Err e)
      | Ok None => prune_loop db rest now deleted
      | Ok (Some cutoff) =>
          let gone := List.filter (older org cutoff) (bd_audit db) in
          let kept := List.filter (fun e => negb (older org cutoff e)) (bd_audit db) in
          prune_loop (with_audit db kept) rest now (deleted + default 0 (rowCount (length gone)))
      end
  end.

Definition live_orgs (db : BillingDb) : list string :=
  map ob_id (List.filter (fun o => match ob_deletedAt o with None => true | Some _ => false end)
               (bd_organizations db)).

Definition pruneAuditEventsBeyondRetention (enabled : bool) (db : BillingDb) (now : Z)
    : BillingDb * result billing_error Z :=
  if negb enabled then (db, Ok 0) else prune_loop db (live_orgs db) now 0.
End Prune.

(** ** Lemmas *)
Lemma assertSeatCapacity_iff db org k plan :
  getEffectiveOrgPlan true db org = Ok plan ->
  assertSeatCapacity true db org k = Ok tt
  <-> (ef_features plan invites = true \/ k <= 0 \/ countOrgMembers db org + k <= 1)
      /\ (forall limit, seat_limit plan = Some limit ->
            countOrgMembers db org + countPendingInvitations db org + k <= limit).
Proof.
  intros Hp. unfold assertSeatCapacity. rewrite Hp. cbn [negb mbind result_bind].
  assert (negb (ef_features plan invites) && (0 <? k) && (1 <? countOrgMembers db org + k) = false
          <-> ef_features plan invites = true \/ k <= 0 \/ countOrgMembers db org + k <= 1) as <-.
  { rewrite !andb_false_iff, negb_false_iff, !Z.ltb_ge. tauto. }
  destruct (negb _ && _ && _); [by split; [|intros []]|].
  destruct (seat_limit plan) as [l|]; [|by split].
  destruct (Z.ltb_spec l (countOrgMembers db org + countPendingInvitations db org + k)).
  - split; [done|]. intros [_ Hl]. specialize (Hl _ eq_refl). lia.
  - split; [|done]. intros _. split; [done|]. by intros ? [= <-].
Qed.

(** The row the organization plugin adds for an invitation. *)
Definition invited (db : BillingDb) (org : string) : BillingDb :=
  mkBillingDb (bd_organizations db) (bd_subscriptions db) (bd_members db)
    (bd_invitations db ++ [mkInvitation org "pending"])
    (bd_devices db) (bd_networks db) (bd_tunnels db) (bd_usage db) (bd_sessions db) (bd_audit db).

Lemma invited_pending db org :
  countPendingInvitations (invited db org) org = countPendingInvitations db org + 1.
Proof.
  unfold countPendingInvitations, count_where. cbn [bd_invitations invited].
  rewrite List.filter_app, length_app. cbn [List.filter iv_org iv_status].
  rewrite !String.eqb_refl. cbn [andb length]. lia.
Qed.

Lemma seatHook_Err db org plan limit :
  getEffectiveOrgPlan true db org = Ok plan -> seat_limit plan = Some limit ->
  limit < countOrgMembers db org + countPendingInvitations db org + 1 ->
  exists message, seatHook true db org = Err message.
Proof.
  intros Hp Hl Hlt. unfold seatHook.
  destruct (assertSeatCapacity true db org 1) as [[]|e] eqn:E; [|by eexists].
  apply (assertSeatCapacity_iff _ _ _ _ Hp) in E as [_ E]. specialize (E _ Hl). lia.
Qed.

Lemma unsubscribed_string (s : string) :
  getPlan (Some (JsString s)) <> InheritedProperty -> unsubscribed_plan (Some (JsString s)) = "free".
Proof.
  unfold unsubscribed_plan. intros Hi. destruct (truthy_id s) eqn:Ht; cbn [andb]; [|done].
  unfold getPlan in *. rewrite Ht in *. cbn [key_of] in *.
  destruct (map_get PLAN_BY_ID s) as [p|] eqn:Hg.
  - apply map_get_elem in Hg.
    change PLAN_BY_ID with (map (fun p => (plan_id p, p)) PLANS) in Hg.
    apply list_elem_of_fmap in Hg as (q & [= -> ->] & Hq). unfold PLANS in Hq.
    rewrite !elem_of_cons in Hq. by destruct Hq as [->|[->|[->|[->|[->|[]%elem_of_nil]]]]].
  - by destruct (existsb _ _).
Qed.

Lemma cutoff_with_audit enabled db a org now :
  auditRetentionCutoff enabled (with_audit db a) org now = auditRetentionCutoff enabled db org now.
Proof. done. Qed.

(** An event is expired for an organization of the list. *)
Definition expired_in (db : BillingDb) (now : Z) (orgs : list string) (e : AuditRow) : bool :=
  existsb (fun org => match auditRetentionCutoff true db org now with
                      | Ok (Some cutoff) => older org cutoff e
                      | _ => false
                      end) orgs.

Lemma prune_loop_spec rowCount db orgs now deleted :
  Forall (fun org => exists c, auditRetentionCutoff true db org now = Ok c) orgs ->
  (prune_loop rowCount db orgs now deleted).1
  = with_audit db (List.filter (fun e => negb (expired_in db now orgs e)) (bd_audit db))
  /\ exists n, (prune_loop rowCount db orgs now deleted).2 = Ok n.
Proof.
  intros Hall. revert db deleted Hall.
  induction orgs as [|org orgs IH]; intros db deleted Hall; cbn [prune_loop].
  - split; [|by exists deleted]. cbn. rewrite filter_true. by destruct db.
  - apply Forall_cons_1 in Hall as [[c Hc] Hall]. rewrite Hc. destruct c as [cutoff|].
    + set (kept := List.filter (fun e => negb (older org cutoff e)) (bd_audit db)).
      destruct (IH (with_audit db kept) (deleted + default 0 (rowCount
        (length (List.filter (older org cutoff) (bd_audit db)))))) as [H1 H2].
      { eapply List.Forall_impl; [|exact Hall]. cbn. intros o [c0 Ho]. exists c0. exact Ho. }
      split; [|exact H2]. rewrite H1. unfold with_audit at 1. cbn [bd_audit with_audit]. unfold kept.
      rewrite filter_filter. unfold with_audit. f_equal. apply List.filter_ext. intros e.
      cbn [expired_in existsb]. rewrite Hc, negb_orb. done.
    + destruct (IH db deleted Hall) as [H1 H2]. split; [|exact H2]. rewrite H1. f_equal.
      apply List.filter_ext. intros e. cbn [expired_in existsb]. by rewrite Hc.
Qed.

(** ** Properties *)
(** the seat check lets an addition through exactly when the plan has
    invitations (or nobody would join a second user) and members, pending
    invitations and the addition fit into the seat limit. *)
Theorem seat_check_spec (db : BillingDb) (org : string) (k : Z) (plan : EffectiveOrgPlan) :
  getEffectiveOrgPlan true db org = Ok plan ->
  assertSeatCapacity true db org k = Ok tt
  <-> (ef_features plan invites = true \/ k <= 0 \/ countOrgMembers db org + k <= 1)
      /\ (forall limit, seat_limit plan = Some limit ->
            countOrgMembers db org + countPendingInvitations db org + k <= limit).
Proof. apply assertSeatCapacity_iff. Qed.

(** an invitation for the last free seat is let through but can never be
    accepted: the check at acceptance counts the invitation itself as pending
    and once more as the new member. *)
Theorem last_seat_not_acceptable (db : BillingDb) (org : string) (plan : EffectiveOrgPlan)
    (limit : Z) :
  getEffectiveOrgPlan true db org = Ok plan -> ef_features plan invites = true ->
  seat_limit plan = Some limit ->
  countOrgMembers db org + countPendingInvitations db org + 1 = limit ->
  beforeCreateInvitation true true db org = Ok tt
  /\ exists message, beforeAcceptInvitation true (invited db org) org = Err message.
Proof.
  intros Hp Hi Hl Hn. split.
  - unfold beforeCreateInvitation, seatHook. cbn [negb].
    rewrite (proj2 (assertSeatCapacity_iff _ _ 1 _ Hp)); [done|].
    split; [by left|]. rewrite Hl. intros ? [= <-]. lia.
  - eapply (seatHook_Err (invited db org) org plan limit); [exact Hp|done|].
    rewrite invited_pending. change (countOrgMembers (invited db org) org) with
      (countOrgMembers db org). lia.
Qed.

(** without an active subscription a plan named in the metadata of the
    organization gives nothing: the organization runs on the free plan. *)
Theorem unsubscribed_is_free (db : BillingDb) (org : string) :
  getActiveSubscription db org = None ->
  (forall v, metadata_plan db org = Some v ->
     exists s, v = JsString s /\ getPlan (Some v) <> InheritedProperty) ->
  exists plan, getEffectiveOrgPlan true db org = Ok plan
    /\ ef_planId plan = "free" /\ ef_limits plan = plan_limits freePlan
    /\ ef_features plan = plan_features freePlan /\ ef_seats plan = Some 1.
Proof.
  intros Hs Hm. unfold getEffectiveOrgPlan. cbn [negb]. rewrite Hs.
  assert (unsubscribed_plan (metadata_plan db org) = "free") as ->.
  { destruct (metadata_plan db org) as [v|]; [|done].
    destruct (Hm v eq_refl) as (s & -> & Hi). by apply unsubscribed_string. }
  eexists. split; [reflexivity|]. by split_and!.
Qed.

(** A value of another type is not caught: a one-element list with the name of
    a plan is looked up like the name, but is neither billable nor
    "enterprise". *)
Theorem metadata_list_gives_paid_plan (db : BillingDb) (org : string) (p : Plan) :
  p ∈ PLANS -> getActiveSubscription db org = None ->
  metadata_plan db org = Some (JsOther true (plan_id p)) ->
  exists plan, getEffectiveOrgPlan true db org = Ok plan
    /\ ef_limits plan = plan_limits p /\ ef_features plan = plan_features p.
Proof.
  intros Hp Hs Hm. unfold getEffectiveOrgPlan. cbn [negb]. rewrite Hs, Hm.
  unfold PLANS in Hp. rewrite !elem_of_cons in Hp.
  destruct Hp as [->|[->|[->|[->|[->|[]%elem_of_nil]]]]];
    (eexists; split; [reflexivity|]; by split).
Qed.

(** pruning removes exactly the audit events of a live organization that
    are older than the retention of its plan, and changes nothing else. *)
Theorem prune_removes_expired (rowCount : nat -> option Z) (db : BillingDb) (now : Z) :
  Forall (fun org => exists c, auditRetentionCutoff true db org now = Ok c) (live_orgs db) ->
  let db' := (pruneAuditEventsBeyondRetention rowCount true db now).1 in
  (forall e, e ∈ bd_audit db' <-> e ∈ bd_audit db
     /\ ~ exists org cutoff, org ∈ live_orgs db /\ auditRetentionCutoff true db org now = Ok (Some cutoff)
            /\ au_org e = org /\ au_time e < cutoff)
  /\ db' = with_audit db (bd_audit db')
  /\ exists n, (pruneAuditEventsBeyondRetention rowCount true db now).2 = Ok n.
Proof.
  intros Hall. unfold pruneAuditEventsBeyondRetention. cbn [negb].
  destruct (prune_loop_spec rowCount db _ now 0 Hall) as [-> Hn].
  cbn zeta. split_and!; [|by destruct db|exact Hn]. cbn [bd_audit with_audit].
  intros e. rewrite elem_of_filter_bool, negb_true_iff, <- not_true_iff_false.
  unfold expired_in. rewrite existsb_exists. split; intros [He Hne]; (split; [done|]); contradict Hne.
  - destruct Hne as (org & c & Ho & Hc & Hi & Ht). exists org. split; [by apply list_elem_of_In|].
    rewrite Hc. unfold older. apply andb_true_intro. by rewrite String.eqb_eq, Z.ltb_lt.
  - destruct Hne as (org & Ho & Hc). apply list_elem_of_In in Ho.
    destruct (auditRetentionCutoff true db org now) as [[c|]|] eqn:E; try done.
    unfold older in Hc. apply andb_prop in Hc as [Hi%String.eqb_eq Ht%Z.ltb_lt]. eauto 6.
Qed.

Lemma find_ext_None {A} (p : A -> bool) (l : list A) : (forall x, x ∈ l -> p x = false) -> List.find p l = None.
Proof.
  intros H. destruct (List.find p l) as [x|] eqn:E; [|done].
  apply List.find_some in E as [Hin Hp]. rewrite H in Hp; [done|]. by apply list_elem_of_In.
Qed.

(** deleting an organization hides it from every request and ends its
    sessions, keeps its members, and leaves the other organizations alone; it
    goes on counting toward the owner's quota while its creation is inside the
    window. *)
Theorem softDelete_spec (db db' : BillingDb) (org : string) (now : Z) :
  softDeleteOrganization db org now = Ok db' ->
  requireActiveOrganization db' org = Err (PlainError "Organization not found")
  /\ (forall s, s ∈ bd_sessions db' -> se_activeOrg s <> Some org)
  /\ (forall org', org' <> org -> find_org db' org' = find_org db org')
  /\ bd_members db' = bd_members db
  /\ exists o o', find_org db org = Some o /\ find_org db' org = Some o'
       /\ ob_createdAt o' = ob_createdAt o
       /\ (forall t, orgCountsTowardOwnershipQuota o' t = (ownershipWindowStart t <=? ob_createdAt o)).
Proof.
  unfold softDeleteOrganization. intros H.
  destruct (find_org db org) as [o|] eqn:Ho; [|done]. destruct (ob_deletedAt o) eqn:Hd; [done|].
  destruct (getActiveSubscription db org); [done|]. destruct (existsb _ _); [done|].
  injection H as <-. unfold requireActiveOrganization, find_org in *.
  cbn [bd_organizations bd_sessions bd_members with_orgs_sessions]. split_and!.
  - rewrite find_ext_None; [done|]. intros x (y & -> & Hy)%list_elem_of_fmap.
    destruct (ob_id y =? org)%string eqn:E; cbn; by rewrite E.
  - intros s (y & -> & Hy)%list_elem_of_fmap. case_bool_decide; cbn; congruence.
  - intros org' Hne. clear Ho. induction (bd_organizations db) as [|x l IH]; cbn; [done|].
    destruct (String.eqb_spec (ob_id x) org) as [E|E]; cbn.
    + rewrite E, (proj2 (String.eqb_neq org org')) by congruence. exact IH.
    + by rewrite IH.
  - done.
  - exists o. induction (bd_organizations db) as [|x l IH]; cbn in *; [done|].
    destruct (ob_id x =? org)%string eqn:E; cbn.
    + injection Ho as ->. rewrite E. eexists. by split_and!.
    + rewrite E. by apply IH.
Qed.

(** Capacity checks that pass leave room for one more. *)
Lemma resource_check_room db org plan endpointId :
  getEffectiveOrgPlan true db org = Ok plan ->
  assertResourceCapacity true db org endpointId = Ok tt ->
  (exists e, endpointId = Some e /\ mkDevice org e ∈ bd_devices db)
  \/ limit_le (Some (countOrgDevices db org + 1)) (ef_resources plan).
Proof.
  intros Hp. unfold assertResourceCapacity. rewrite Hp. cbn [negb mbind result_bind].
  destruct (ef_resources plan) as [r|]; [|by right]. cbn [limit_le].
  destruct (match endpointId with Some _ => _ | None => _ end) eqn:E.
  - intros _. left. destruct endpointId as [e|]; [|done]. exists e. split; [done|].
    apply andb_prop in E as [_ ([o i] & Hin & Hd)%existsb_exists]. cbn in Hd.
    apply andb_prop in Hd as [->%String.eqb_eq ->%String.eqb_eq]. by apply list_elem_of_In.
  - destruct (Z.leb_spec r (countOrgDevices db org)); [done|]. intros _. right. lia.
Qed.

Lemma network_check_room db org plan :
  getEffectiveOrgPlan true db org = Ok plan ->
  assertNetworkCapacity true db org = Ok tt <->
  limit_le (Some (countOrgNetworks db org + 1)) (ef_networks plan).
Proof.
  intros Hp. unfold assertNetworkCapacity. rewrite Hp. cbn [negb mbind result_bind].
  destruct (ef_networks plan) as [n|]; [|done]. cbn [limit_le].
  destruct (Z.leb_spec n (countOrgNetworks db org)); split; (done || lia).
Qed.

Lemma tunnel_check_room db org plan :
  getEffectiveOrgPlan true db org = Ok plan ->
  assertPublicTunnelCapacity true db org = Ok tt <->
  limit_le (Some (countOrgPublicTunnels db org + 1)) (ef_publicTunnels plan).
Proof.
  intros Hp. unfold assertPublicTunnelCapacity. rewrite Hp. cbn [negb mbind result_bind].
  destruct (ef_publicTunnels plan) as [n|]; [|done]. cbn [limit_le].
  destruct (Z.leb_spec n (countOrgPublicTunnels db org)); split; (done || lia).
Qed.

(** The year of a day contains the day. *)
Lemma year_from_day_spec d :
  day_from_year (year_from_day d) <= d < day_from_year (year_from_day d + 1).
Proof.
  unfold year_from_day.
  assert (forall y, 1970 + d * 400 / 146097 = y ->
    day_from_year (y - 1) <= d < day_from_year (y + 2)) as H.
  { intros y <-. unfold day_from_year.
    set (q := d * 400 / 146097).
    assert (146097 * q <= d * 400 < 146097 * q + 146097) as Hq.
    { unfold q. pose proof (Z.div_mod (d * 400) 146097). pose proof (Z.mod_pos_bound (d * 400) 146097). lia. }
    clearbody q. Z.to_euclidean_division_equations. lia. }
  specialize (H _ eq_refl). set (y := 1970 + _) in *. clearbody y.
  destruct (Z.ltb_spec d (day_from_year y)).
  - replace (y - 1 + 1) with y by lia. lia.
  - destruct (Z.leb_spec (day_from_year (y + 1)) d); [|lia].
    replace (y + 1 + 1) with (y + 2) by lia. lia.
Qed.

(** The double product in the warning level is exact enough: for the traffic
    limits of the plans, the level is the one of the exact comparison. *)
Lemma trafficWarnLevel_exact gb used :
  gb ∈ [5; 50; 250; 1024] -> 0 <= used ->
  let limit := gb * 1024 * 1024 * 1024 in
  trafficWarnLevel used (Some limit)
  = if limit <=? used then level_exceeded
    else if 4 * limit <=? 5 * used then level_warn else level_ok.
Proof.
  intros Hgb Hu. cbn zeta. rewrite !elem_of_cons in Hgb.
  destruct Hgb as [->|[->|[->|[->|[]%elem_of_nil]]]];
    unfold trafficWarnLevel;
    match goal with |- context [times_0_8 ?x] =>
      let v := eval vm_compute in (times_0_8 x) in
      replace (times_0_8 x) with v by (vm_compute; reflexivity)
    end; unfold ge_double;
    repeat match goal with |- context [?a <=? ?b] => destruct (Z.leb_spec a b) end;
    (reflexivity || (exfalso; lia)).
Qed.

(** ** Witnesses *)
Definition sample_billing : BillingDb :=
  mkBillingDb [mkOrganization "acme" "acme" (Some (JsString "team")) 0 None;
               mkOrganization "solo" "solo" (Some (JsString "business")) 0 None]
    [mkSubscription "s1" "team" "acme" None "active" None None (Some 3)]
    [mkMember "acme" "u1" "owner"; mkMember "acme" "u2" "member"; mkMember "solo" "u1" "owner"]
    [] [] [] [] [] [mkSession "t" (Some "solo")]
    [mkAudit "acme" 5; mkAudit "solo" 5; mkAudit "solo" 100000000].

Definition sample_team : EffectiveOrgPlan :=
  mkEffective "team" (Some 3) (Some 125) (Some 10) (Some 25) (Some 250) (Some (24 * 90))
    (plan_features teamPlan) (plan_limits teamPlan) (Some "s1") None (Some "active") (Some 3)
    None None.

Lemma seat_check_spec_witness :
  assertSeatCapacity true sample_billing "acme" 1 = Ok tt.
Proof.
  apply (seat_check_spec sample_billing "acme" 1 sample_team); [reflexivity|].
  split; [left; reflexivity|]. intros limit [= <-]. vm_compute. discriminate.
Defined.

Lemma last_seat_not_acceptable_witness :
  exists message, beforeAcceptInvitation true (invited sample_billing "acme") "acme" = Err message.
Proof. apply (last_seat_not_acceptable sample_billing "acme" sample_team 3); reflexivity. Defined.

Lemma unsubscribed_is_free_witness :
  exists plan, getEffectiveOrgPlan true sample_billing "solo" = Ok plan
    /\ ef_planId plan = JsString "free".
Proof.
  destruct (unsubscribed_is_free sample_billing "solo") as (plan & Hp & Hf & _).
  - reflexivity.
  - intros v [= <-]. exists "business". split; [reflexivity|discriminate].
  - exists plan. split; assumption.
Defined.

Lemma prune_removes_expired_witness :
  mkAudit "solo" 5 ∉ bd_audit (pruneAuditEventsBeyondRetention (fun _ => None) true sample_billing 100000000).1.
Proof.
  destruct (prune_removes_expired (fun _ => None) sample_billing 100000000) as [H _].
  - repeat (constructor; [eexists; reflexivity|]). constructor.
  - intros [_ Hn]%H. apply Hn. exists "solo", 13600000. split_and!; try reflexivity.
    refine (bool_decide_eq_true_1 _ _). reflexivity.
Defined.

Lemma softDelete_spec_witness :
  exists db', softDeleteOrganization sample_billing "solo" 7 = Ok db'
    /\ requireActiveOrganization db' "solo" = Err (PlainError "Organization not found").
Proof.
  eexists. split; [reflexivity|].
  apply (softDelete_spec sample_billing _ "solo" 7). reflexivity.
Defined.
