(* ===== verification/Hierarchy.v ===== *)
(** * Role hierarchy ([packages/api/src/auth/permissions.ts],
      [apps/management/src/auth/hierarchy.ts], [auth/hierarchy-hooks.ts])

    The roles and their permissions, the ranks of roles, and the hooks that
    run before the organization plugin changes members, invitations and custom
    roles.  The plugin itself is better-auth's: a parameter, with what its
    documentation says of each request as laws, used to show that the hooks
    keep the hierarchy.

    The adapter's tables are lists of rows; role positions are the integers of
    the [position] column. *)
From S2P Require Import Prelude Plans OrgBilling.
Local Open Scope Z_scope.

(** ** Permissions *)
(** Actions by resource.  The statements of better-auth's own resources are
    parameters. *)
Definition statements := list (string * list string).

Definition spread (base own : statements) : statements :=
  foldl (fun m kv => map_set m kv.1 kv.2) base own.

Definition crud : list string := ["create"; "read"; "update"; "delete"].

Definition own_statement : statements :=
  [("network", crud); ("device", ["create"; "read"; "update"; "delete"; "approve"]);
   ("edge", crud); ("relay", crud); ("apiKey", ["create"; "read"; "revoke"]); ("policy", crud);
   ("tag", ["create"; "read"; "update"; "delete"; "assign"]); ("tunnel", crud); ("serve", crud);
   ("route", crud); ("enrollment", ["create"; "read"; "revoke"]); ("sso", ["read"; "update"]);
   ("audit", ["read"]); ("transfer", ["create"; "read"; "accept"; "reject"]);
   ("sshSession", ["read"; "terminate"]); ("ca", ["read"; "update"]);
   ("posture", ["create"; "read"; "update"; "delete"; "recheck"])].

Definition statement (defaultStatements : statements) : statements :=
  spread defaultStatements own_statement.

Definition owner_own : statements := own_statement.

Definition admin_own : statements :=
  [("network", ["create"; "read"; "update"]); ("device", ["create"; "read"; "update"; "approve"]);
   ("edge", ["read"]); ("relay", ["read"]); ("apiKey", ["create"; "read"]); ("policy", crud);
   ("tag", ["create"; "read"; "update"; "delete"; "assign"]); ("tunnel", crud); ("serve", crud);
   ("route", crud); ("enrollment", ["create"; "read"; "revoke"]); ("sso", ["read"; "update"]);
   ("audit", ["read"]); ("transfer", ["create"; "read"; "accept"; "reject"]);
   ("sshSession", ["read"; "terminate"]); ("ca", ["read"; "update"]);
   ("posture", ["create"; "read"; "update"; "delete"; "recheck"])].

Definition member_own : statements :=
  [("network", ["read"]); ("device", ["read"]); ("edge", ["read"]); ("relay", ["read"]);
   ("apiKey", []); ("policy", ["read"]); ("tag", ["read"]); ("tunnel", ["read"]);
   ("serve", ["read"]); ("route", ["read"]); ("enrollment", ["read"]); ("sso", ["read"]);
   ("audit", ["read"]); ("transfer", ["create"; "read"]); ("sshSession", ["read"]);
   ("ca", ["read"]); ("posture", ["read"])].

Definition owner (ownerAc : statements) : statements := spread ownerAc owner_own.
Definition admin (adminAc : statements) : statements := spread adminAc admin_own.
Definition member (memberAc : statements) : statements := spread memberAc member_own.

Definition STATIC_ROLE_NAMES : list string := ["owner"; "admin"; "member"].
Definition DEFAULT_DYNAMIC_ROLE_POSITION : Z := 101.

Definition isStaticRoleName (role : string) : bool := existsb (String.eqb role) STATIC_ROLE_NAMES.

Definition STATIC_ROLE_POSITIONS (role : string) : Z :=
  if (role =? "owner")%string then 1000 else if (role =? "admin")%string then 500 else 100.

Definition parseRoleNames (role : string) : list string :=
  List.filter (fun r => negb (r =? "")%string) (map trim (split_unit ","%char role)).

(** ** Ranks *)
Record RolePositionRecord := mkRolePosition { rp_role : string; rp_position : option Z }.

Definition getStaticRolePosition (roleName : string) : option Z :=
  if negb (isStaticRoleName roleName) then None else Some (STATIC_ROLE_POSITIONS roleName).

Definition same_role (a b : string) : bool := (toLowerCase a =? toLowerCase b)%string.

Definition getRolePosition (roleName : string) (dynamicRoles : list RolePositionRecord) : Z :=
  match getStaticRolePosition roleName with
  | Some p => p
  | None =>
      match List.find (fun r => same_role (rp_role r) roleName) dynamicRoles with
      | Some found => default DEFAULT_DYNAMIC_ROLE_POSITION (rp_position found)
      | None => DEFAULT_DYNAMIC_ROLE_POSITION
      end
  end.

Definition getHighestRolePosition (roleField : string) (dynamicRoles : list RolePositionRecord) : Z :=
  match map (fun name => getRolePosition name dynamicRoles) (parseRoleNames roleField) with
  | [] => 0
  | p :: ps => foldl Z.max p ps
  end.

(** ** Checks *)
Inductive status := UNAUTHORIZED | FORBIDDEN | BAD_REQUEST.
Record APIError := mkAPIError { api_status : status; api_message : option string }.
Definition throw {A} (s : status) (m : string) : result APIError A := Err (mkAPIError s (Some m)).

Definition assertCanManageTarget (actorRank targetRank : Z) : result APIError unit :=
  if actorRank <=? targetRank then throw FORBIDDEN "Cannot modify a member with equal or higher role"
  else Ok tt.

Definition assertCanAssignRole (actorRank newRoleRank : Z) : result APIError unit :=
  if actorRank <=? newRoleRank
  then throw FORBIDDEN "Cannot assign a role equal to or higher than your own"
  else Ok tt.

Definition assertCanManageRoleDefinition (actorRank rolePosition : Z) (roleName : string)
    : result APIError unit :=
  if isStaticRoleName roleName then throw FORBIDDEN "Cannot modify static system roles"
  else if actorRank <=? rolePosition
  then throw FORBIDDEN "Cannot manage a role equal to or higher than your own"
  else Ok tt.

Definition assertCanSetRolePosition (actorRank position : Z) : result APIError unit :=
  if actorRank <=? position then throw FORBIDDEN "Cannot place a role at or above your own rank"
  else if position <=? STATIC_ROLE_POSITIONS "member"
  then throw BAD_REQUEST "Role position must be above the member baseline"
  else Ok tt.

(** ** Hooks *)
Record RoleRow := mkRoleRow { rr_id : string; rr_org : string; rr_role : string; rr_position : option Z }.
Record MembershipRow := mkMembership { mb_id : string; mb_org : string; mb_user : string; mb_role : string }.
Record UserRow := mkUser { ur_id : string; ur_email : string }.

Record AdapterState := mkAdapter {
  ad_roles : list RoleRow;
  ad_members : list MembershipRow;
  ad_users : list UserRow
}.

(** The [role] of a request body: for an array the texts of its elements, for
    a value of another type its text. *)
Inductive body_role :=
| RoleMissing
| RoleText (s : string)
| RoleList (l : list string)
| RoleOther (text : string).

Record RoleData := mkRoleData { data_position : option Z; data_roleName : option string }.

(** A field that is not a string reads as [undefined] where strings are
    expected, and a position that is not a number as missing. *)
Record HookBody := mkBody {
  bo_organizationId : option string;
  bo_memberId : option string;
  bo_memberIdOrEmail : option string;
  bo_role : body_role;
  bo_roleName : option string;
  bo_roleId : option string;
  bo_position : option Z;
  bo_data : option RoleData
}.

Record HookSession := mkHookSession { hs_user : option string; hs_activeOrganizationId : option string }.

Record HookCtx := mkHookCtx { hc_path : string; hc_body : HookBody; hc_session : option HookSession }.

Definition loadDynamicRoles (ad : AdapterState) (org : string) : list RolePositionRecord :=
  map (fun row => mkRolePosition (rr_role row)
                    (Some (default DEFAULT_DYNAMIC_ROLE_POSITION (rr_position row))))
    (List.filter (fun row => (rr_org row =? org)%string) (ad_roles ad)).

Definition resolveActorMember (ad : AdapterState) (org user : string) : option MembershipRow :=
  List.find (fun m => (mb_org m =? org)%string && (mb_user m =? user)%string) (ad_members ad).

Definition find_member (ad : AdapterState) (id : string) : option MembershipRow :=
  List.find (fun m => (mb_id m =? id)%string) (ad_members ad).

(** A string that is not empty. *)
Definition nonempty (o : option string) : option string :=
  match o with Some s => if (s =? "")%string then None else Some s | None => None end.

Definition roleFieldFromBody (role : body_role) : string :=
  match role with RoleMissing => "" | RoleText s => s | RoleList l => join "," l
  | RoleOther text => text end.

Definition requireOrgId (ctx : HookCtx) : result APIError (string * string) :=
  match hc_session ctx with
  | Some (mkHookSession (Some user) active) =>
      match nonempty (bo_organizationId (hc_body ctx)) with
      | Some org => Ok (org, user)
      | None =>
          match nonempty active with
          | Some org => Ok (org, user)
          | None => throw BAD_REQUEST "Organization ID is required"
          end
      end
  | _ => Err (mkAPIError UNAUTHORIZED None)
  end.

Definition requireActor (ad : AdapterState) (org user : string) : result APIError MembershipRow :=
  match resolveActorMember ad org user with
  | Some m => Ok m
  | None => Err (mkAPIError FORBIDDEN None)
  end.

Definition enforceUpdateMemberRole (ad : AdapterState) (ctx : HookCtx) : result APIError unit :=
  ou ← requireOrgId ctx;
  let '(org, user) := ou in
  actor ← requireActor ad org user;
  match nonempty (bo_memberId (hc_body ctx)) with
  | None => throw BAD_REQUEST "memberId is required"
  | Some memberId =>
      match find_member ad memberId with
      | None => throw BAD_REQUEST "Member not found"
      | Some target =>
          let dynamicRoles := loadDynamicRoles ad org in
          let actorRank := getHighestRolePosition (mb_role actor) dynamicRoles in
          _ ← assertCanManageTarget actorRank (getHighestRolePosition (mb_role target) dynamicRoles);
          assertCanAssignRole actorRank
            (getHighestRolePosition (roleFieldFromBody (bo_role (hc_body ctx))) dynamicRoles)
      end
  end.

(** The member a removal names, by id or by the email of the user. *)
Definition removal_target (ad : AdapterState) (org memberIdOrEmail : string) : option MembershipRow :=
  match find_member ad memberIdOrEmail with
  | Some m => Some m
  | None =>
      if includes memberIdOrEmail "@" then
        match List.find (fun u => (ur_email u =? memberIdOrEmail)%string) (ad_users ad) with
        | Some u => if (ur_id u =? "")%string then None else resolveActorMember ad org (ur_id u)
        | None => None
        end
      else None
  end.

Definition enforceRemoveMember (ad : AdapterState) (ctx : HookCtx) : result APIError unit :=
  ou ← requireOrgId ctx;
  let '(org, user) := ou in
  actor ← requireActor ad org user;
  match nonempty (bo_memberIdOrEmail (hc_body ctx)) with
  | None => throw BAD_REQUEST "memberIdOrEmail is required"
  | Some memberIdOrEmail =>
      match removal_target ad org memberIdOrEmail with
      | None => throw BAD_REQUEST "Member not found"
      | Some target =>
          let dynamicRoles := loadDynamicRoles ad org in
          assertCanManageTarget (getHighestRolePosition (mb_role actor) dynamicRoles)
            (getHighestRolePosition (mb_role target) dynamicRoles)
      end
  end.

Definition enforceInviteMember (ad : AdapterState) (ctx : HookCtx) : result APIError unit :=
  ou ← requireOrgId ctx;
  let '(org, user) := ou in
  actor ← requireActor ad org user;
  let dynamicRoles := loadDynamicRoles ad org in
  assertCanAssignRole (getHighestRolePosition (mb_role actor) dynamicRoles)
    (getHighestRolePosition (roleFieldFromBody (bo_role (hc_body ctx))) dynamicRoles).

(** [asString(body.role)] *)
Definition role_string (role : body_role) : option string :=
  match role with RoleText s => Some s | _ => None end.

Section Hooks.
(** [requirePlanFeature(organizationId, "customRoles")] *)
Context (requireCustomRoles : string -> result billing_error EffectiveOrgPlan).

(** The position the hook writes into the request body. *)
Definition enforceCreateRole (ad : AdapterState) (ctx : HookCtx) : result APIError Z :=
  ou ← requireOrgId ctx;
  let '(org, user) := ou in
  match requireCustomRoles org with
  | Err e => throw BAD_REQUEST (error_message e)
  | Ok _ =>
      match nonempty (role_string (bo_role (hc_body ctx))) with
      | None => throw BAD_REQUEST "role is required"
      | Some roleName =>
          if isStaticRoleName roleName then
            throw BAD_REQUEST "Cannot create a role with a static role name"
          else
            actor ← requireActor ad org user;
            let actorRank := getHighestRolePosition (mb_role actor) (loadDynamicRoles ad org) in
            let position :=
              match bo_position (hc_body ctx) with
              | Some p => p
              | None => Z.min (actorRank - 1) DEFAULT_DYNAMIC_ROLE_POSITION
              end in
            _ ← assertCanSetRolePosition actorRank position;
            Ok position
      end
  end.

(** The row of a custom role a request names, by id in any organization, else
    by name in the given one. *)
Definition named_role (ad : AdapterState) (org : string) (body : HookBody) : option RoleRow :=
  match nonempty (bo_roleId body) with
  | Some roleId => List.find (fun r => (rr_id r =? roleId)%string) (ad_roles ad)
  | None =>
      match nonempty (bo_roleName body) with
      | Some roleName =>
          List.find (fun r => same_role (rr_role r) roleName)
            (List.filter (fun r => (rr_org r =? org)%string) (ad_roles ad))
      | None => None
      end
  end.

(** The check on the role a request is about, common to updates and deletions:
    the rank of the actor. *)
Definition checkRoleDefinition (ad : AdapterState) (ctx : HookCtx) : result APIError Z :=
  ou ← requireOrgId ctx;
  let '(org, user) := ou in
  actor ← requireActor ad org user;
  let dynamicRoles := loadDynamicRoles ad org in
  let actorRank := getHighestRolePosition (mb_role actor) dynamicRoles in
  let existingRow := named_role ad org (hc_body ctx) in
  let currentName :=
    match existingRow with
    | Some row => rr_role row
    | None => default "" (bo_roleName (hc_body ctx))
    end in
  let currentPosition :=
    match existingRow ≫= rr_position with
    | Some p => p
    | None => getRolePosition currentName dynamicRoles
    end in
  _ ← assertCanManageRoleDefinition actorRank currentPosition currentName;
  Ok actorRank.

Definition enforceUpdateRole (ad : AdapterState) (ctx : HookCtx) : result APIError unit :=
  actorRank ← checkRoleDefinition ad ctx;
  match bo_data (hc_body ctx) with
  | None => Ok tt
  | Some data =>
      _ ← match data_position data with
          | Some p => assertCanSetRolePosition actorRank p
          | None => Ok tt
          end;
      if match data_roleName data with Some n => isStaticRoleName n | None => false end
      then throw BAD_REQUEST "Cannot rename a role to a static role name"
      else Ok tt
  end.

Definition enforceDeleteRole (ad : AdapterState) (ctx : HookCtx) : result APIError unit :=
  _ ← checkRoleDefinition ad ctx; Ok tt.

(** The position the hook leaves in the body of a role creation. *)
Definition hierarchyBeforeHook (ad : AdapterState) (ctx : HookCtx) : result APIError (option Z) :=
  let path := hc_path ctx in
  let at_path s := (path =? s)%string in
  let unit_hook (r : result APIError unit) := _ ← r; Ok (bo_position (hc_body ctx)) in
  if negb (at_path "/organization/update-member-role" || at_path "/organization/remove-member"
           || at_path "/organization/invite-member" || at_path "/organization/create-role"
           || at_path "/organization/update-role" || at_path "/organization/delete-role")
  then Ok (bo_position (hc_body ctx))
  else match hc_session ctx with
  | None => Err (mkAPIError UNAUTHORIZED None)
  | Some _ =>
      if at_path "/organization/update-member-role" then unit_hook (enforceUpdateMemberRole ad ctx)
      else if at_path "/organization/remove-member" then unit_hook (enforceRemoveMember ad ctx)
      else if at_path "/organization/invite-member" then unit_hook (enforceInviteMember ad ctx)
      else if at_path "/organization/create-role" then position ← enforceCreateRole ad ctx; Ok (Some position)
      else if at_path "/organization/update-role" then unit_hook (enforceUpdateRole ad ctx)
      else unit_hook (enforceDeleteRole ad ctx)
  end.
End Hooks.

(** ** Ranks and owners *)
(** A role field that makes its holder an owner. *)
Definition is_owner (roleField : string) : bool := existsb (String.eqb "owner") (parseRoleNames roleField).

Lemma foldl_max_le l p b : foldl Z.max p l <= b <-> p <= b /\ Forall (fun q => q <= b) l.
Proof.
  revert p. induction l as [|q l IH]; intros p; cbn.
  - split; [|by intros []]. by split.
  - rewrite IH. split.
    + intros [Hm Hl]. split; [lia|]. constructor; [lia|done].
    + intros [Hp [Hq Hl]%Forall_cons_1]. split; [lia|done].
Qed.

Lemma highest_le field roles b :
  0 <= b ->
  getHighestRolePosition field roles <= b
  <-> Forall (fun name => getRolePosition name roles <= b) (parseRoleNames field).
Proof.
  intros Hb. unfold getHighestRolePosition. destruct (parseRoleNames field) as [|n ns]; cbn; [done|].
  rewrite foldl_max_le. split.
  - intros [Hn Hns]. constructor; [done|]. rewrite List.Forall_map in Hns. exact Hns.
  - intros [Hn Hns]%Forall_cons_1. split; [done|]. rewrite List.Forall_map. exact Hns.
Qed.

(** Every custom role is placed strictly between the member and the owner. *)
Definition positions_ok (ad : AdapterState) : Prop :=
  Forall (fun r => 100 < default DEFAULT_DYNAMIC_ROLE_POSITION (rr_position r) < 1000) (ad_roles ad).

Section Ranks.
Context (ad : AdapterState) (Hok : positions_ok ad) (org : string).

Lemma loadDynamicRoles_ok r :
  r ∈ loadDynamicRoles ad org -> exists p, rp_position r = Some p /\ 100 < p < 1000.
Proof.
  intros (row & -> & [Hr _]%elem_of_filter_bool)%list_elem_of_fmap. eexists. split; [done|].
  unfold positions_ok in Hok. rewrite list.Forall_forall in Hok. by apply Hok.
Qed.

Lemma getRolePosition_bounds name :
  100 <= getRolePosition name (loadDynamicRoles ad org) <= 1000
  /\ (getRolePosition name (loadDynamicRoles ad org) = 1000 <-> name = "owner").
Proof.
  unfold getRolePosition, getStaticRolePosition, isStaticRoleName. cbn [STATIC_ROLE_NAMES existsb].
  unfold STATIC_ROLE_POSITIONS.
  destruct (String.eqb_spec name "owner") as [->|Ho]; [by split|].
  destruct (String.eqb_spec name "admin") as [->|Ha]; [by split|].
  destruct (String.eqb_spec name "member") as [->|Hm]; [by split|]. cbn [orb negb].
  destruct (List.find _ _) as [r|] eqn:E.
  - apply List.find_some in E as [Hin _]. apply list_elem_of_In in Hin.
    apply loadDynamicRoles_ok in Hin as (p & -> & Hp). cbn. split; [lia|]. split; [lia|done].
  - unfold DEFAULT_DYNAMIC_ROLE_POSITION. by split.
Qed.

Lemma rank_le field : getHighestRolePosition field (loadDynamicRoles ad org) <= 1000.
Proof.
  apply highest_le; [lia|]. apply list.Forall_forall. intros name _. apply getRolePosition_bounds.
Qed.

(** Only owners reach the rank of the owner. *)
Lemma rank_owner field :
  is_owner field = true <-> 1000 <= getHighestRolePosition field (loadDynamicRoles ad org).
Proof.
  rewrite <- (Z.nlt_ge _ 1000). unfold is_owner.
  assert (getHighestRolePosition field (loadDynamicRoles ad org) < 1000
          <-> Forall (fun name => name <> "owner") (parseRoleNames field)) as ->.
  { rewrite (Z.lt_le_pred _ 1000). rewrite highest_le by (cbn; lia). rewrite !list.Forall_forall.
    split; intros H name Hin; specialize (H name Hin);
      destruct (getRolePosition_bounds name) as [Hb Ho].
    - intros ->. rewrite (proj2 Ho) in H by done. by cbn in H.
    - cbn. assert (getRolePosition name (loadDynamicRoles ad org) <> 1000) by tauto. lia. }
  rewrite list.Forall_forall, existsb_exists. split.
  - intros (name & Hin%list_elem_of_In & <-%String.eqb_eq) H. by apply (H "owner").
  - intros H. destruct (existsb (String.eqb "owner") (parseRoleNames field)) eqn:E.
    + by apply existsb_exists in E.
    + exfalso. apply H. intros name Hin ->. apply list_elem_of_In in Hin.
      rewrite (proj2 (existsb_exists _ _)) in E; [done|]. exists "owner". by rewrite String.eqb_refl.
Qed.

Lemma below_actor_not_owner field actorField :
  getHighestRolePosition field (loadDynamicRoles ad org)
    < getHighestRolePosition actorField (loadDynamicRoles ad org) ->
  is_owner field = false.
Proof.
  intros H. pose proof (rank_le actorField). apply not_true_iff_false. rewrite rank_owner. lia.
Qed.
End Ranks.

(** ** Requests the hooks let through *)
Record OrgState := mkOrgState { os_adapter : AdapterState; os_invitations : list string }.

Definition with_roles (ad : AdapterState) (roles : list RoleRow) : AdapterState :=
  mkAdapter roles (ad_members ad) (ad_users ad).
Definition with_members (ad : AdapterState) (members : list MembershipRow) : AdapterState :=
  mkAdapter (ad_roles ad) members (ad_users ad).

Definition set_role (memberId role : string) (m : MembershipRow) : MembershipRow :=
  if (mb_id m =? memberId)%string then mkMembership (mb_id m) (mb_org m) (mb_user m) role else m.

(** The organization of a request: the one it names, else the active one. *)
Definition request_org (ctx : HookCtx) : option string :=
  match nonempty (bo_organizationId (hc_body ctx)) with
  | Some org => Some org
  | None => match hc_session ctx with Some session => nonempty (hs_activeOrganizationId session) | None => None end
  end.

(** The member a removal names: by id, or by email as a member of the
    organization of the request. *)
Definition names_member (ad : AdapterState) (ctx : HookCtx) (m : MembershipRow) : Prop :=
  exists who, bo_memberIdOrEmail (hc_body ctx) = Some who
    /\ (mb_id m = who
        \/ exists u, u ∈ ad_users ad /\ ur_email u = who /\ ur_id u = mb_user m
             /\ request_org ctx = Some (mb_org m)).

(** better-auth's organization plugin: [plugin ctx p s s'] when the request
    [ctx], with the position [p] in its body, may take [s] to [s'].  What its
    documentation says of the requests: a role change sets the role of the
    member with the given id; a removal removes members it names; an
    invitation stores the role it invites to, and accepting one makes a new
    member with that role; a custom role is created with the position of the
    body, an update may rename it and move it to the position of its data, and
    a deletion removes custom roles.  A request that fails changes nothing. *)
Record PluginLaws (plugin : HookCtx -> option Z -> OrgState -> OrgState -> Prop) : Prop := mkPluginLaws {
  law_update_member_role : forall ctx p s s',
    hc_path ctx = "/organization/update-member-role" -> plugin ctx p s s' ->
    s' = s
    \/ exists memberId, bo_memberId (hc_body ctx) = Some memberId
        /\ s' = mkOrgState (with_members (os_adapter s)
                  (map (set_role memberId (roleFieldFromBody (bo_role (hc_body ctx)))) (ad_members (os_adapter s))))
                  (os_invitations s);
  law_remove_member : forall ctx p s s',
    hc_path ctx = "/organization/remove-member" -> plugin ctx p s s' ->
    exists keep : MembershipRow -> bool,
      (forall m, m ∈ ad_members (os_adapter s) -> keep m = false -> names_member (os_adapter s) ctx m)
      /\ s' = mkOrgState (with_members (os_adapter s) (List.filter keep (ad_members (os_adapter s))))
                (os_invitations s);
  law_invite_member : forall ctx p s s',
    hc_path ctx = "/organization/invite-member" -> plugin ctx p s s' ->
    s' = s \/ s' = mkOrgState (os_adapter s)
                    (os_invitations s ++ [roleFieldFromBody (bo_role (hc_body ctx))]);
  law_accept_invitation : forall ctx p s s',
    hc_path ctx = "/organization/accept-invitation" -> plugin ctx p s s' ->
    s' = s
    \/ exists m, mb_role m ∈ os_invitations s /\ mb_id m ∉ map mb_id (ad_members (os_adapter s))
        /\ includes (mb_id m) "@" = false
        /\ (mb_org m, mb_user m) ∉ map (fun x => (mb_org x, mb_user x)) (ad_members (os_adapter s))
        /\ s' = mkOrgState (with_members (os_adapter s) (ad_members (os_adapter s) ++ [m])) (os_invitations s);
  law_create_role : forall ctx p s s',
    hc_path ctx = "/organization/create-role" -> plugin ctx p s s' ->
    s' = s
    \/ exists row, rr_position row = p
        /\ s' = mkOrgState (with_roles (os_adapter s) (ad_roles (os_adapter s) ++ [row])) (os_invitations s);
  law_update_role : forall ctx p s s',
    hc_path ctx = "/organization/update-role" -> plugin ctx p s s' ->
    exists change : RoleRow -> RoleRow,
      (forall r, rr_position (change r) = rr_position r
         \/ exists data q, bo_data (hc_body ctx) = Some data /\ data_position data = Some q
              /\ rr_position (change r) = Some q)
      /\ s' = mkOrgState (with_roles (os_adapter s) (map change (ad_roles (os_adapter s)))) (os_invitations s);
  law_delete_role : forall ctx p s s',
    hc_path ctx = "/organization/delete-role" -> plugin ctx p s s' ->
    exists keep : RoleRow -> bool,
      s' = mkOrgState (with_roles (os_adapter s) (List.filter keep (ad_roles (os_adapter s)))) (os_invitations s)
}.

Definition member_paths : list string :=
  ["/organization/update-member-role"; "/organization/remove-member"; "/organization/invite-member";
   "/organization/accept-invitation"; "/organization/create-role"; "/organization/update-role";
   "/organization/delete-role"].

(** A request on members, invitations or custom roles: the hook, then the plugin
    with the position the hook leaves in the body. *)
Inductive org_step (requireCustomRoles : string -> result billing_error EffectiveOrgPlan)
    (plugin : HookCtx -> option Z -> OrgState -> OrgState -> Prop) (s s' : OrgState) : Prop :=
| request_step ctx p :
    hc_path ctx ∈ member_paths ->
    hierarchyBeforeHook requireCustomRoles (os_adapter s) ctx = Ok p ->
    plugin ctx p s s' -> org_step requireCustomRoles plugin s s'.

Definition owners (s : OrgState) : list string :=
  map mb_id (List.filter (fun m => is_owner (mb_role m)) (ad_members (os_adapter s))).

(** Ids and emails are unique and told apart by the at sign, a user is a member of
    an organization once, and no invitation is for an owner. *)
Record org_wf (s : OrgState) : Prop := {
  wf_positions : positions_ok (os_adapter s);
  wf_ids : NoDup (map mb_id (ad_members (os_adapter s)));
  wf_id_text : Forall (fun m => includes (mb_id m) "@" = false) (ad_members (os_adapter s));
  wf_once : NoDup (map (fun m => (mb_org m, mb_user m)) (ad_members (os_adapter s)));
  wf_emails : NoDup (map ur_email (ad_users (os_adapter s)));
  wf_email_text : Forall (fun u => includes (ur_email u) "@" = true) (ad_users (os_adapter s));
  wf_invitations : Forall (fun role => is_owner role = false) (os_invitations s)
}.

(** What each hook establishes. *)
Lemma assertCanManageTarget_Ok a t : assertCanManageTarget a t = Ok tt <-> t < a.
Proof. unfold assertCanManageTarget. destruct (Z.leb_spec a t); split; (done || lia). Qed.

Lemma assertCanAssignRole_Ok a t : assertCanAssignRole a t = Ok tt <-> t < a.
Proof. unfold assertCanAssignRole. destruct (Z.leb_spec a t); split; (done || lia). Qed.

Lemma assertCanSetRolePosition_Ok a p : assertCanSetRolePosition a p = Ok tt <-> 100 < p < a.
Proof.
  unfold assertCanSetRolePosition. change (STATIC_ROLE_POSITIONS "member") with 100.
  destruct (Z.leb_spec a p), (Z.leb_spec p 100); split; (done || lia).
Qed.

(** The request names an organization the user is a member of. *)
Definition acting (ad : AdapterState) (ctx : HookCtx) (org : string) (actor : MembershipRow) : Prop :=
  exists user, requireOrgId ctx = Ok (org, user) /\ resolveActorMember ad org user = Some actor.

Definition rank (ad : AdapterState) (org roleField : string) : Z :=
  getHighestRolePosition roleField (loadDynamicRoles ad org).

Lemma requireActor_Ok ad org user actor :
  requireActor ad org user = Ok actor <-> resolveActorMember ad org user = Some actor.
Proof. unfold requireActor. destruct (resolveActorMember ad org user); split; congruence. Qed.

Lemma enforceUpdateMemberRole_Ok ad ctx :
  enforceUpdateMemberRole ad ctx = Ok tt
  <-> exists org actor memberId target,
        acting ad ctx org actor
        /\ nonempty (bo_memberId (hc_body ctx)) = Some memberId
        /\ find_member ad memberId = Some target
        /\ rank ad org (mb_role target) < rank ad org (mb_role actor)
        /\ rank ad org (roleFieldFromBody (bo_role (hc_body ctx))) < rank ad org (mb_role actor).
Proof.
  unfold enforceUpdateMemberRole, acting, rank. split.
  - intros H. apply result_bind_Ok in H as ([org user] & Ho & H).
    apply result_bind_Ok in H as (actor & Ha%requireActor_Ok & H).
    destruct (nonempty _) as [memberId|]; [|done]. destruct (find_member ad memberId) as [target|] eqn:Ht; [|done].
    apply result_bind_Ok in H as ([] & Hm%assertCanManageTarget_Ok & Hr%assertCanAssignRole_Ok).
    exists org, actor, memberId, target. split_and!; eauto.
  - intros (org & actor & memberId & target & (user & -> & Ha%requireActor_Ok) & -> & Ht & Hm & Hr).
    cbn. rewrite Ha. cbn. rewrite Ht. apply assertCanManageTarget_Ok in Hm. rewrite Hm. cbn.
    by apply assertCanAssignRole_Ok.
Qed.

Lemma enforceRemoveMember_Ok ad ctx :
  enforceRemoveMember ad ctx = Ok tt
  <-> exists org actor memberIdOrEmail target,
        acting ad ctx org actor
        /\ nonempty (bo_memberIdOrEmail (hc_body ctx)) = Some memberIdOrEmail
        /\ removal_target ad org memberIdOrEmail = Some target
        /\ rank ad org (mb_role target) < rank ad org (mb_role actor).
Proof.
  unfold enforceRemoveMember, acting, rank. split.
  - intros H. apply result_bind_Ok in H as ([org user] & Ho & H).
    apply result_bind_Ok in H as (actor & Ha%requireActor_Ok & H).
    destruct (nonempty _) as [who|]; [|done]. destruct (removal_target ad org who) as [target|] eqn:Ht; [|done].
    apply assertCanManageTarget_Ok in H. exists org, actor, who, target. split_and!; eauto.
  - intros (org & actor & who & target & (user & -> & Ha%requireActor_Ok) & -> & Ht & Hm).
    cbn. rewrite Ha. cbn. rewrite Ht. by apply assertCanManageTarget_Ok.
Qed.

Lemma enforceInviteMember_Ok ad ctx :
  enforceInviteMember ad ctx = Ok tt
  <-> exists org actor, acting ad ctx org actor
        /\ rank ad org (roleFieldFromBody (bo_role (hc_body ctx))) < rank ad org (mb_role actor).
Proof.
  unfold enforceInviteMember, acting, rank. split.
  - intros H. apply result_bind_Ok in H as ([org user] & Ho & H).
    apply result_bind_Ok in H as (actor & Ha%requireActor_Ok & H%assertCanAssignRole_Ok).
    exists org, actor. split; eauto.
  - intros (org & actor & (user & -> & Ha%requireActor_Ok) & Hr). cbn. rewrite Ha. cbn.
    by apply assertCanAssignRole_Ok.
Qed.

Lemma enforceCreateRole_Ok rcr ad ctx p :
  enforceCreateRole rcr ad ctx = Ok p ->
  exists org actor, acting ad ctx org actor /\ 100 < p < rank ad org (mb_role actor).
Proof.
  unfold enforceCreateRole, acting, rank. intros H.
  apply result_bind_Ok in H as ([org user] & Ho & H). destruct (rcr org); [|done].
  destruct (nonempty _); [|done]. destruct (isStaticRoleName _); [done|].
  apply result_bind_Ok in H as (actor & Ha%requireActor_Ok & H).
  apply result_bind_Ok in H as ([] & Hp & [= Hq]). exists org, actor. split; [eauto|].
  apply assertCanSetRolePosition_Ok. by rewrite <- Hq.
Qed.

Lemma enforceUpdateRole_Ok ad ctx data p :
  enforceUpdateRole ad ctx = Ok tt -> bo_data (hc_body ctx) = Some data -> data_position data = Some p ->
  exists org actor, acting ad ctx org actor /\ 100 < p < rank ad org (mb_role actor).
Proof.
  unfold enforceUpdateRole, checkRoleDefinition, acting, rank. intros H Hd Hp.
  apply result_bind_Ok in H as (r & Hr & H). rewrite Hd, Hp in H.
  apply result_bind_Ok in Hr as ([org user] & Ho & Hr).
  apply result_bind_Ok in Hr as (actor & Ha%requireActor_Ok & Hr).
  apply result_bind_Ok in Hr as (? & _ & [= <-]).
  apply result_bind_Ok in H as ([] & Hs%assertCanSetRolePosition_Ok & _).
  exists org, actor. split; eauto.
Qed.

(** The hook at each path. *)
Ltac at_path :=
  match goal with
  | H : hierarchyBeforeHook _ _ _ = Ok _, P : hc_path _ = _ |- _ =>
      unfold hierarchyBeforeHook in H; rewrite P in H; cbn in H;
      destruct (hc_session _); [|done]; apply result_bind_Ok in H as (? & H & ?);
      simplify_eq; repeat match goal with u : unit |- _ => destruct u end
  end.

(** Changing the role of members who are not owners to one that is not the
    owner's, or removing them, keeps the owners. *)
Lemma owners_update f members :
  (forall m, m ∈ members -> mb_id (f m) = mb_id m /\ is_owner (mb_role (f m)) = is_owner (mb_role m)) ->
  map mb_id (List.filter (fun m => is_owner (mb_role m)) (map f members))
  = map mb_id (List.filter (fun m => is_owner (mb_role m)) members)
  /\ map mb_id (map f members) = map mb_id members.
Proof.
  induction members as [|m members IH]; cbn; [done|]. intros H.
  destruct (H m) as [Hi Ho]; [by left|]. rewrite Ho.
  destruct IH as [IH1 IH2]; [intros ? ?; apply H; by right|].
  destruct (is_owner (mb_role m)); cbn; by rewrite Hi, ?IH1, IH2.
Qed.

Lemma owners_filter keep members :
  (forall m, m ∈ members -> keep m = false -> is_owner (mb_role m) = false) ->
  map mb_id (List.filter (fun m => is_owner (mb_role m)) (List.filter keep members))
  = map mb_id (List.filter (fun m => is_owner (mb_role m)) members).
Proof.
  induction members as [|m members IH]; cbn; [done|]. intros H.
  destruct (keep m) eqn:E; cbn.
  - destruct (is_owner (mb_role m)); cbn; rewrite IH; auto; intros ? ?; apply H; by right.
  - rewrite (H m) by (done || by left). apply IH. intros ? ?; apply H; by right.
Qed.

Lemma owners_set_role members memberId role target :
  NoDup (map mb_id members) -> List.find (fun m => (mb_id m =? memberId)%string) members = Some target ->
  is_owner (mb_role target) = false -> is_owner role = false ->
  map mb_id (List.filter (fun m => is_owner (mb_role m)) (map (set_role memberId role) members))
  = map mb_id (List.filter (fun m => is_owner (mb_role m)) members)
  /\ map mb_id (map (set_role memberId role) members) = map mb_id members.
Proof.
  intros Hn [Hin%list_elem_of_In Hid%String.eqb_eq]%List.find_some Ht Hr. apply owners_update.
  intros m Hm. unfold set_role. destruct (String.eqb_spec (mb_id m) memberId) as [E|E]; [|done].
  cbn [mb_id mb_role]. split; [done|]. rewrite Hr.
  by rewrite (NoDup_map_inj mb_id members m target) by congruence.
Qed.

Lemma with_roles_wf s roles :
  org_wf s -> Forall (fun r => 100 < default DEFAULT_DYNAMIC_ROLE_POSITION (rr_position r) < 1000) roles ->
  org_wf (mkOrgState (with_roles (os_adapter s) roles) (os_invitations s))
  /\ owners (mkOrgState (with_roles (os_adapter s) roles) (os_invitations s)) = owners s.
Proof. intros [] Hr. by split. Qed.

Lemma requireOrgId_request ctx org user : requireOrgId ctx = Ok (org, user) -> request_org ctx = Some org.
Proof.
  unfold requireOrgId, request_org. destruct (hc_session ctx) as [[[u|] active]|]; [|done..].
  destruct (nonempty (bo_organizationId _)); [by intros [= <- _]|]. cbn.
  destruct (nonempty active); [by intros [= <- _]|done].
Qed.

(** The member the hook checks is the member the request names. *)
Lemma removal_target_named s ctx org user who target m :
  org_wf s -> requireOrgId ctx = Ok (org, user) -> nonempty (bo_memberIdOrEmail (hc_body ctx)) = Some who ->
  removal_target (os_adapter s) org who = Some target ->
  m ∈ ad_members (os_adapter s) -> names_member (os_adapter s) ctx m -> m = target.
Proof.
  intros [_ Hids Htext Honce Hmail Hmtext _] Ho Hw Ht Hm (who' & Hw' & Hn).
  assert (who' = who) as ->.
  { unfold nonempty in Hw. rewrite Hw' in Hw. destruct (who' =? "")%string; [done|]. by injection Hw. }
  rewrite list.Forall_forall in Htext. rewrite list.Forall_forall in Hmtext. unfold removal_target, find_member in Ht.
  destruct Hn as [Hid|(u & Hu & He & Huid & Horg)].
  - destruct (List.find _ _) as [x|] eqn:E.
    + injection Ht as <-. apply List.find_some in E as [Hx%list_elem_of_In Ex%String.eqb_eq].
      apply (NoDup_map_inj mb_id (ad_members (os_adapter s))); [done..|congruence].
    + apply list_elem_of_In in Hm. apply (List.find_none _ _ E) in Hm. cbn in Hm. by rewrite Hid, String.eqb_refl in Hm.
  - pose proof (Hmtext u Hu) as Hat. rewrite He in Hat. destruct (List.find _ _) as [x|] eqn:E.
    { apply List.find_some in E as [Hx%list_elem_of_In Ex%String.eqb_eq]. specialize (Htext x Hx). congruence. }
    rewrite Hat in Ht. destruct (List.find (fun u => (ur_email u =? who)%string) (ad_users (os_adapter s))) as [v|] eqn:Ev;
      [|done]. apply List.find_some in Ev as [Hv%list_elem_of_In Ee%String.eqb_eq].
    assert (v = u) as -> by (apply (NoDup_map_inj ur_email (ad_users (os_adapter s))); [done..|congruence]).
    destruct (ur_id u =? "")%string; [done|]. unfold resolveActorMember in Ht.
    apply List.find_some in Ht as [Hx%list_elem_of_In [Eo%String.eqb_eq Eu%String.eqb_eq]%andb_prop].
    rewrite (requireOrgId_request _ _ _ Ho) in Horg. injection Horg as ->.
    apply (NoDup_map_inj (fun m => (mb_org m, mb_user m)) (ad_members (os_adapter s))); [done..|congruence].
Qed.

Section Steps.
Context (requireCustomRoles : string -> result billing_error EffectiveOrgPlan)
  (plugin : HookCtx -> option Z -> OrgState -> OrgState -> Prop) (Laws : PluginLaws plugin).
Implicit Types (s : OrgState) (ctx : HookCtx).
Notation hook := (hierarchyBeforeHook requireCustomRoles).

Lemma step_update_member_role s s' ctx p :
  org_wf s -> hc_path ctx = "/organization/update-member-role" -> hook (os_adapter s) ctx = Ok p ->
  plugin ctx p s s' -> org_wf s' /\ owners s' = owners s.
Proof.
  intros Hwf Hpath Hh [->|(memberId & Hid & ->)]%(law_update_member_role _ Laws _ _ _ _ Hpath); [done|]. at_path.
  apply enforceUpdateMemberRole_Ok in Hh as (org & actor & id' & target & _ & Hid' & Hf & Hm & Hn).
  assert (id' = memberId) as ->.
  { unfold nonempty in Hid'. rewrite Hid in Hid'. destruct (memberId =? "")%string; [done|]. by injection Hid'. }
  destruct Hwf as [Hp Hi Ht Ho He Hte Hv]. apply (below_actor_not_owner _ Hp) in Hm, Hn.
  destruct (owners_set_role _ _ _ _ Hi Hf Hm Hn) as [Hown Hids].
  split; [|exact Hown]. split; cbn; [done|by rewrite Hids| | |done..].
  - apply List.Forall_map. eapply List.Forall_impl; [|exact Ht]. intros m. unfold set_role. by destruct (_ =? _)%string.
  - rewrite map_map. erewrite map_ext; [exact Ho|]. intros m. unfold set_role. by destruct (_ =? _)%string.
Qed.

Lemma step_remove_member s s' ctx p :
  org_wf s -> hc_path ctx = "/organization/remove-member" -> hook (os_adapter s) ctx = Ok p ->
  plugin ctx p s s' -> org_wf s' /\ owners s' = owners s.
Proof.
  intros Hwf Hpath Hh (keep & Hkeep & ->)%(law_remove_member _ Laws _ _ _ _ Hpath). at_path.
  apply enforceRemoveMember_Ok in Hh as (org & actor & who & target & (user & Ho & _) & Hw & Ht & Hm).
  pose proof Hwf as [Hp Hi Htx Hon He Hte Hv]. apply (below_actor_not_owner _ Hp) in Hm. split.
  - split; cbn; [done|by apply NoDup_map_filter| |by apply NoDup_map_filter|done..].
    apply list.Forall_forall. intros m [Hin _]%elem_of_filter_bool. rewrite list.Forall_forall in Htx. auto.
  - apply owners_filter. intros m Hin Hk.
    by rewrite (removal_target_named s ctx org user who target m Hwf Ho Hw Ht Hin (Hkeep m Hin Hk)).
Qed.

Lemma step_invite_member s s' ctx p :
  org_wf s -> hc_path ctx = "/organization/invite-member" -> hook (os_adapter s) ctx = Ok p ->
  plugin ctx p s s' -> org_wf s' /\ owners s' = owners s.
Proof.
  intros Hwf Hpath Hh [->| ->]%(law_invite_member _ Laws _ _ _ _ Hpath); [done|]. at_path.
  apply enforceInviteMember_Ok in Hh as (org & actor & _ & Hn).
  destruct Hwf as [Hp Hi Htx Hon He Hte Hv]. apply (below_actor_not_owner _ Hp) in Hn.
  split; [|done]. split; cbn; try done. apply Forall_app_2; [done|]. by constructor.
Qed.

Lemma step_accept_invitation s s' ctx p :
  org_wf s -> hc_path ctx = "/organization/accept-invitation" ->
  plugin ctx p s s' -> org_wf s' /\ owners s' = owners s.
Proof.
  intros Hwf Hpath [->|(m & Hr & Hid & Htext & Honce & ->)]%(law_accept_invitation _ Laws _ _ _ _ Hpath); [done|].
  destruct Hwf as [Hp Hi Htx Hon He Hte Hv]. rewrite list.Forall_forall in Hv. pose proof (Hv _ Hr) as Hno.
  split; [split; cbn|]; [done| | | |done..| |].
  - rewrite map_app. apply list.NoDup_app. split_and!; [done| |apply NoDup_singleton].
    by intros x Hx ->%list_elem_of_singleton.
  - apply Forall_app_2; [done|]. by constructor.
  - rewrite map_app. apply list.NoDup_app. split_and!; [done| |apply NoDup_singleton].
    by intros x Hx ->%list_elem_of_singleton.
  - by apply list.Forall_forall.
  - unfold owners. cbn [os_adapter with_members ad_members]. rewrite List.filter_app.
    cbn [List.filter]. by rewrite Hno, app_nil_r.
Qed.

Lemma step_roles s s' ctx p :
  org_wf s ->
  hc_path ctx = "/organization/create-role" \/ hc_path ctx = "/organization/update-role"
    \/ hc_path ctx = "/organization/delete-role" ->
  hook (os_adapter s) ctx = Ok p -> plugin ctx p s s' -> org_wf s' /\ owners s' = owners s.
Proof.
  intros Hwf Hpath Hh Hpl. pose proof (wf_positions _ Hwf) as Hp. pose proof Hp as Hall.
  unfold positions_ok in Hall. rewrite list.Forall_forall in Hall. destruct Hpath as [Hpath|[Hpath|Hpath]].
  - at_path. apply (law_create_role _ Laws _ _ _ _ Hpath) in Hpl as [->|(row & Hrow & ->)]; [done|].
    apply enforceCreateRole_Ok in Hh as (org' & actor & _ & Hb). apply with_roles_wf; [done|].
    apply Forall_app_2; [done|]. constructor; [|done]. rewrite Hrow. cbn.
    pose proof (rank_le _ Hp org' (mb_role actor)) as Hle. unfold rank in Hb. lia.
  - apply (law_update_role _ Laws _ _ _ _ Hpath) in Hpl as (change & Hchange & ->). at_path.
    apply with_roles_wf; [done|]. rewrite List.Forall_map. apply list.Forall_forall. intros r Hr.
    destruct (Hchange r) as [->|(data & q & Hd & Hq & ->)]; [auto|]. cbn.
    destruct (enforceUpdateRole_Ok _ ctx data q Hh Hd Hq) as (org & actor & _ & Hb).
    pose proof (rank_le _ Hp org (mb_role actor)) as Hle. unfold rank in Hb. lia.
  - apply (law_delete_role _ Laws _ _ _ _ Hpath) in Hpl as (keep & ->). apply with_roles_wf; [done|].
    apply list.Forall_forall. intros r [Hr _]%elem_of_filter_bool. auto.
Qed.

Lemma org_step_wf s s' : org_step requireCustomRoles plugin s s' -> org_wf s -> org_wf s' /\ owners s' = owners s.
Proof.
  intros [ctx p Hpath Hh Hpl] Hwf. unfold member_paths in Hpath. rewrite !elem_of_cons, elem_of_nil in Hpath.
  destruct Hpath as [Hpath|[Hpath|[Hpath|[Hpath|[Hpath|[Hpath|[Hpath|[]]]]]]]].
  - by eapply step_update_member_role.
  - by eapply step_remove_member.
  - by eapply step_invite_member.
  - by eapply step_accept_invitation.
  - eapply step_roles; eauto.
  - eapply step_roles; eauto.
  - eapply step_roles; eauto.
Qed.
End Steps.

(** ** Properties *)
(** a role change is let through exactly when the actor is a member of the
    organization, outranks the target and outranks the new role. *)
Theorem update_member_role_spec (ad : AdapterState) (ctx : HookCtx) :
  enforceUpdateMemberRole ad ctx = Ok tt
  <-> exists org actor memberId target,
        acting ad ctx org actor
        /\ nonempty (bo_memberId (hc_body ctx)) = Some memberId
        /\ find_member ad memberId = Some target
        /\ rank ad org (mb_role target) < rank ad org (mb_role actor)
        /\ rank ad org (roleFieldFromBody (bo_role (hc_body ctx))) < rank ad org (mb_role actor).
Proof. apply enforceUpdateMemberRole_Ok. Qed.


(** Permissions of a role on a resource. *)
Definition allows (st : statements) (resource action : string) : Prop :=
  action ∈ default [] (map_get st resource).
#[export] Instance allows_dec st resource action : Decision (allows st resource action).
Proof. unfold allows. apply _. Defined.
Definition role_le (st st' : statements) : Prop :=
  forall resource action, allows st resource action -> allows st' resource action.

Lemma map_get_spread base own k :
  NoDup own.*1 ->
  map_get (spread base own) k = match map_get own k with Some v => Some v | None => map_get base k end.
Proof.
  unfold spread. revert base. induction own as [|[a v] own IH]; intros base Hn; [done|].
  cbn in Hn. apply list.NoDup_cons in Hn as [Ha Hn]. cbn [foldl fst snd]. rewrite IH by done. cbn.
  rewrite map_get_set. destruct (decide (a = k)) as [<-|]; [|done].
  by rewrite (proj2 (map_get_None own a)).
Qed.

Lemma spread_le base base' own own' :
  NoDup own.*1 -> NoDup own'.*1 -> own.*1 = own'.*1 ->
  Forall (fun k => Forall (fun a => allows own' k a) (default [] (map_get own k))) own.*1 ->
  role_le base base' -> role_le (spread base own) (spread base' own').
Proof.
  intros Hn Hn' Hk Hall Hb k a. unfold allows. rewrite !map_get_spread by done.
  destruct (map_get own k) as [v|] eqn:E.
  - assert (k ∈ own.*1) as Hin.
    { apply map_get_elem in E. apply list_elem_of_fmap. by exists (k, v). }
    rewrite list.Forall_forall in Hall. specialize (Hall k Hin). rewrite E in Hall. cbn in *.
    intros Ha. rewrite list.Forall_forall in Hall. specialize (Hall a Ha). unfold allows in Hall.
    destruct (map_get own' k); [done|]. by apply elem_of_nil in Hall.
  - apply map_get_None in E. rewrite Hk in E. rewrite (proj2 (map_get_None own' k) E). apply Hb.
Qed.

(** the static roles are nested: what a member may do an admin may do, and
    what an admin may do an owner may do, whatever better-auth's own nested
    base roles allow. *)
Theorem static_roles_nested (memberAc adminAc ownerAc : statements) :
  role_le memberAc adminAc -> role_le adminAc ownerAc ->
  role_le (member memberAc) (admin adminAc) /\ role_le (admin adminAc) (owner ownerAc).
Proof.
  intros Hm Ha.
  split; (apply spread_le; [refine (bool_decide_eq_true_1 _ _); reflexivity..
    |reflexivity|refine (bool_decide_eq_true_1 _ _); reflexivity|done]).
Qed.

(** ** Witnesses *)
(** A plugin that works on the tables. *)
Definition table_plugin (ctx : HookCtx) (p : option Z) (s : OrgState) : OrgState :=
  let ad := os_adapter s in
  let body := hc_body ctx in
  let at_path t := (hc_path ctx =? t)%string in
  if at_path "/organization/update-member-role" then
    match bo_memberId body with
    | Some memberId =>
        mkOrgState (with_members ad (map (set_role memberId (roleFieldFromBody (bo_role body))) (ad_members ad)))
          (os_invitations s)
    | None => s
    end
  else if at_path "/organization/remove-member" then
    mkOrgState (with_members ad (List.filter (fun m => negb (bool_decide (bo_memberIdOrEmail body = Some (mb_id m))))
      (ad_members ad))) (os_invitations s)
  else if at_path "/organization/invite-member" then
    mkOrgState ad (os_invitations s ++ [roleFieldFromBody (bo_role body)])
  else if at_path "/organization/create-role" then
    mkOrgState (with_roles ad (ad_roles ad ++ [mkRoleRow "new" "org" "role" p])) (os_invitations s)
  else s.

Definition by_tables (ctx : HookCtx) (p : option Z) (s s' : OrgState) : Prop := s' = table_plugin ctx p s.

Lemma by_tables_laws : PluginLaws by_tables.
Proof.
  split; unfold by_tables, table_plugin; intros ctx p s s' -> ->; cbn [String.eqb Ascii.eqb Bool.eqb].
  - destruct (bo_memberId _); [right; eauto|by left].
  - eexists. split; [|done]. intros m _ Hk%negb_false_iff%bool_decide_eq_true.
    exists (mb_id m). split; [done|by left].
  - by right.
  - by left.
  - right. exists (mkRoleRow "new" "org" "role" p). by split.
  - exists (fun r => r). split; [by left|]. rewrite map_id. by destruct s as [[]].
  - exists (fun _ => true). rewrite filter_true. by destruct s as [[]].
Qed.

Definition sample_adapter : AdapterState :=
  mkAdapter [mkRoleRow "r1" "acme" "ops" (Some 300)]
    [mkMembership "m1" "acme" "alice" "owner"; mkMembership "m2" "acme" "bob" "admin";
     mkMembership "m3" "acme" "carol" "member"] [mkUser "alice" "alice@acme.test"].

Definition sample_body : HookBody :=
  mkBody (Some "acme") (Some "m3") None (RoleList ["ops"; "member"]) None None None None.

Definition sample_ctx : HookCtx :=
  mkHookCtx "/organization/update-member-role" sample_body (Some (mkHookSession (Some "bob") None)).

Definition removal_ctx : HookCtx :=
  mkHookCtx "/organization/remove-member"
    (mkBody (Some "acme") None (Some "m3") RoleMissing None None None None)
    (Some (mkHookSession (Some "alice") None)).

(** Bob promotes Carol, then Alice removes them. *)
Definition sample_promoted : OrgState := table_plugin sample_ctx None (mkOrgState sample_adapter []).
Definition sample_removed : OrgState := table_plugin removal_ctx None sample_promoted.

Lemma sample_wf : org_wf (mkOrgState sample_adapter []).
Proof.
  split; refine (bool_decide_eq_true_1 _ _); reflexivity.
Qed.


Lemma static_roles_nested_witness :
  allows (owner []) "network" "read".
Proof.
  apply (static_roles_nested [] [] []).
  - intros r a H. exact H.
  - intros r a H. exact H.
  - refine (bool_decide_eq_true_1 _ _). reflexivity.
Defined.
