(* ===== verification/TagOwnership.v ===== *)
(** * Tag ownership ([apps/management/src/lib/tag-ownership.ts] and the tag
      routes of [apps/management/src/api/v1/devices.ts])

    Who may put a tag on a device: the search through the owners of a tag,
    which follows [tag:] owners with one set of visited tags shared by the
    whole search, and the routes that change the tags of devices.  Sessions
    and the [requireTagAccess] middleware are outside, the actor is given; the
    audit event a route emits to the control plane is not modelled. *)
From S2P Require Import Prelude Notify.

(** [[...new Set(l)]]. *)
Definition set_add (s : list string) (x : string) : list string :=
  if bool_decide (x ∈ s) then s else s ++ [x].
Definition set_of (l : list string) : list string := foldl set_add [] l.

(** ** Data *)
Record TagActor := mkTagActor {
  ta_userId : option string;
  ta_email : option string;
  ta_isOrgAdmin : bool;
  ta_endpointId : option string
}.

Record TagDefinitionRow := mkTagDefinition { td_org : string; td_name : string; td_owners : list string }.
Record DeviceTagRow := mkDeviceTag { dt_endpoint : string; dt_tag : string }.
#[export] Instance DeviceTagRow_eq_dec : EqDecision DeviceTagRow.
Proof. solve_decision. Defined.

Record TagDb := mkTagDb {
  tg_definitions : list TagDefinitionRow;
  tg_deviceTags : list DeviceTagRow;
  tg_devices : list (string * string);
  tg_organizations : list (string * Z);
  tg_notifications : list (string * string)
}.

Definition with_deviceTags (db : TagDb) (l : list DeviceTagRow) : TagDb :=
  mkTagDb (tg_definitions db) l (tg_devices db) (tg_organizations db) (tg_notifications db).

Definition bump (db : TagDb) (org : string) : TagDb :=
  let s := bumpOrgAndNotify org (tg_organizations db, tg_notifications db) in
  mkTagDb (tg_definitions db) (tg_deviceTags db) (tg_devices db) s.1 s.2.

Definition normalizeTagName (name : string) : string :=
  let s := toLowerCase (trim name) in
  if startsWith s "tag:" then slice 4 s else s.

Definition defaultOwnerForUser (userId : string) : string := "user:" +:+ userId.

Definition find_definition (db : TagDb) (org name : string) : option TagDefinitionRow :=
  List.find (fun d => (td_org d =? org)%string && (td_name d =? name)%string) (tg_definitions db).

Definition has_tag (db : TagDb) (endpoint tag : string) : bool :=
  bool_decide (mkDeviceTag endpoint tag ∈ tg_deviceTags db).

(** ** The search *)
Definition truthy_text (o : option string) : option string :=
  match o with Some s => if (s =? "")%string then None else Some s | None => None end.

(** [user:] owners: the id, or the email in any case. *)
Definition user_matches (actor : TagActor) (identity : string) : bool :=
  match truthy_text (ta_userId actor) with Some u => (identity =? u)%string | None => false end
  || match truthy_text (ta_email actor) with
     | Some e => (toLowerCase identity =? toLowerCase e)%string
     | None => false
     end.

Definition holds_tag (db : TagDb) (actor : TagActor) (tag : string) : bool :=
  match truthy_text (ta_endpointId actor) with Some e => has_tag db e tag | None => false end.

(** The tag of an owner entry [tag:...]. *)
Definition parent_tag (owner : string) : string := normalizeTagName (slice 4 owner).

Section Search.
Context (db : TagDb) (org : string) (actor : TagActor).

(** One pass over the owners of a tag; [search] is the recursive call.  The
    result carries the set of visited tags, [None] is running out of fuel. *)
Fixpoint owners_loop (search : list string -> list string -> option (bool * list string))
    (owners visited : list string) : option (bool * list string) :=
  match owners with
  | [] => Some (false, visited)
  | owner :: rest =>
      if (owner =? "autogroup:admin")%string then
        if ta_isOrgAdmin actor then Some (true, visited) else owners_loop search rest visited
      else if startsWith owner "user:" then
        if user_matches actor (slice 5 owner) then Some (true, visited)
        else owners_loop search rest visited
      else if startsWith owner "tag:" then
        let parentTag := parent_tag owner in
        if bool_decide (parentTag ∈ visited) then owners_loop search rest visited
        else
          let visited := visited ++ [parentTag] in
          if holds_tag db actor parentTag then Some (true, visited)
          else
            match find_definition db org parentTag with
            | None => owners_loop search rest visited
            | Some parentDef =>
                match search (td_owners parentDef) visited with
                | None => None
                | Some (true, visited) => Some (true, visited)
                | Some (false, visited) => owners_loop search rest visited
                end
            end
      else owners_loop search rest visited
  end.

Fixpoint actorMatchesOwners (fuel : nat) : list string -> list string -> option (bool * list string) :=
  match fuel with
  | O => fun _ _ => None
  | S fuel => owners_loop (actorMatchesOwners fuel)
  end.

(** Every recursive call visits a new definition. *)
Definition search_fuel : nat := S (length (tg_definitions db)).

Definition canAssignTag (tagName : string) : option bool :=
  if ta_isOrgAdmin actor then Some true
  else
    match find_definition db org (normalizeTagName tagName) with
    | None => Some false
    | Some def => fst <$> actorMatchesOwners search_fuel (td_owners def) []
    end.

Definition unique_tags (tagNames : list string) : list string :=
  set_of (List.filter (fun t => negb (t =? "")%string) (map normalizeTagName tagNames)).

(** The first tag the actor may not assign, [None] when there is none. *)
Fixpoint first_forbidden (tags : list string) : option (option string) :=
  match tags with
  | [] => Some None
  | tag :: rest =>
      match canAssignTag tag with
      | None => None
      | Some true => first_forbidden rest
      | Some false => Some (Some tag)
      end
  end.

Definition assertCanAssignTags (tagNames : list string) : option (option string) :=
  first_forbidden (unique_tags tagNames).

Definition ensureTagDefinitionsExist (tagNames : list string) : list string :=
  let unique := unique_tags tagNames in
  let found := map td_name (List.filter (fun d => (td_org d =? org)%string
                 && bool_decide (td_name d ∈ unique)) (tg_definitions db)) in
  List.filter (fun name => negb (bool_decide (name ∈ found))) unique.
End Search.

(** ** Tags of devices *)
(** [sort()] compares code units. *)
Definition sort_tags (l : list string) : list string := sort_by String.leb l.

Definition tags_of (db : TagDb) (endpoint : string) : list string :=
  map dt_tag (List.filter (fun r => (dt_endpoint r =? endpoint)%string) (tg_deviceTags db)).

Definition listDeviceTags (db : TagDb) (endpoint : string) : list string :=
  sort_tags (tags_of db endpoint).

Definition listDeviceTagsForEndpoints (db : TagDb) (endpoints : list string)
    : list (string * list string) :=
  match endpoints with
  | [] => []
  | _ =>
      let rows := List.filter (fun r => bool_decide (dt_endpoint r ∈ endpoints)) (tg_deviceTags db) in
      let m := foldl (fun m r => map_set m (dt_endpoint r)
                                   (default [] (map_get m (dt_endpoint r)) ++ [dt_tag r])) [] rows in
      map (fun e => (e.1, sort_tags e.2)) m
  end.

Definition delete_tag (endpoint tag : string) (rows : list DeviceTagRow) : list DeviceTagRow :=
  List.filter (fun r => negb ((dt_endpoint r =? endpoint)%string && (dt_tag r =? tag)%string)) rows.

(** [insert ... onConflictDoNothing()]. *)
Definition insert_tag (endpoint : string) (rows : list DeviceTagRow) (tag : string) : list DeviceTagRow :=
  if bool_decide (mkDeviceTag endpoint tag ∈ rows) then rows else rows ++ [mkDeviceTag endpoint tag].

Definition applyDeviceTagChanges (db : TagDb) (endpoint : string) (add remove : list string)
    : TagDb * list string :=
  let toAdd := unique_tags add in
  let toRemove := unique_tags remove in
  let rows := foldl (fun rows tag => delete_tag endpoint tag rows) (tg_deviceTags db) toRemove in
  let rows := foldl (insert_tag endpoint) rows toAdd in
  let db' := with_deviceTags db rows in
  (db', listDeviceTags db' endpoint).

Definition replaceDeviceTags (db : TagDb) (endpoint : string) (tags : list string)
    : TagDb * list string :=
  let next := unique_tags tags in
  let kept := List.filter (fun r => negb (dt_endpoint r =? endpoint)%string) (tg_deviceTags db) in
  (with_deviceTags db (kept ++ map (mkDeviceTag endpoint) next), sort_tags next).

(** ** Routes *)
(** [tagNameSchema] *)
Definition is_tag_unit (c : ascii) : bool :=
  is_digit c || between 97 122 c || Ascii.eqb c "-"%char || Ascii.eqb c "_"%char.
Definition tagNameSchema (name : string) : bool :=
  match name with
  | EmptyString => false
  | String c rest => (is_digit c || between 97 122 c) && all_units is_tag_unit rest
                     && (String.length name <=? 64)%nat
  end.

Record RouteActor := mkRouteActor {
  ra_organizationId : string;
  ra_actor : TagActor
}.

Inductive route_response :=
| RouteOk (tags : list string)
| RouteNotFound
| RouteBadRequest (message : string)
| RouteForbidden
| RouteInvalidBody
| RouteDiverges.

Definition has_device (db : TagDb) (org endpoint : string) : bool :=
  bool_decide ((endpoint, org) ∈ tg_devices db).

(** The checks the routes share. *)
Definition check_touched (db : TagDb) (actor : RouteActor) (touched : list string)
    : option route_response :=
  match ensureTagDefinitionsExist db (ra_organizationId actor) touched with
  | [] =>
      match assertCanAssignTags db (ra_organizationId actor) (ra_actor actor) touched with
      | None => Some RouteDiverges
      | Some None => None
      | Some (Some _) => Some RouteForbidden
      end
  | missing => Some (RouteBadRequest ("Unknown tag definition(s): " +:+ join ", " missing))
  end.

Definition patchDeviceTags (db : TagDb) (actor : RouteActor) (endpoint : string)
    (add remove : list string) : TagDb * route_response :=
  if negb (forallb tagNameSchema add && forallb tagNameSchema remove) then (db, RouteInvalidBody)
  else if negb (has_device db (ra_organizationId actor) endpoint) then (db, RouteNotFound)
  else
    match check_touched db actor (add ++ remove) with
    | Some response => (db, response)
    | None =>
        let '(db', tags) := applyDeviceTagChanges db endpoint add remove in
        (bump db' (ra_organizationId actor), RouteOk tags)
    end.

Definition putDeviceTags (db : TagDb) (actor : RouteActor) (endpoint : string)
    (tags : list string) : TagDb * route_response :=
  if negb (forallb tagNameSchema tags) then (db, RouteInvalidBody)
  else if negb (has_device db (ra_organizationId actor) endpoint) then (db, RouteNotFound)
  else
    match check_touched db actor tags with
    | Some response => (db, response)
    | None =>
        let '(db', next) := replaceDeviceTags db endpoint tags in
        (bump db' (ra_organizationId actor), RouteOk next)
    end.

(** [bulkAssignDeviceTagsBody] *)
Definition bulk_body_ok (endpointIds add remove : list string) : bool :=
  forallb (fun e => (String.length e =? 64)%nat) endpointIds
  && (1 <=? length endpointIds)%nat && (length endpointIds <=? 500)%nat
  && forallb tagNameSchema add && forallb tagNameSchema remove.

(** The loop over the devices; devices of other organizations are skipped. *)
Fixpoint bulk_loop (db : TagDb) (org : string) (add remove endpointIds : list string)
    : TagDb * list (string * list string) :=
  match endpointIds with
  | [] => (db, [])
  | endpoint :: rest =>
      if negb (has_device db org endpoint) then bulk_loop db org add remove rest
      else
        let '(db1, tags) := applyDeviceTagChanges db endpoint add remove in
        let '(db2, results) := bulk_loop db1 org add remove rest in
        (db2, (endpoint, tags) :: results)
  end.

Definition bulkDeviceTags (db : TagDb) (actor : RouteActor) (endpointIds add remove : list string)
    : TagDb * (route_response + list (string * list string)) :=
  if negb (bulk_body_ok endpointIds add remove) then (db, inl RouteInvalidBody)
  else
    match check_touched db actor (add ++ remove) with
    | Some response => (db, inl response)
    | None =>
        let '(db', results) := bulk_loop db (ra_organizationId actor) add remove endpointIds in
        (bump db' (ra_organizationId actor), inr results)
    end.

(** ** The search, declaratively *)
Section SearchSpec.
Context (db : TagDb) (org : string) (actor : TagActor).

(** An owner entry that matches the actor by itself. *)
Definition direct (owner : string) : bool :=
  if (owner =? "autogroup:admin")%string then ta_isOrgAdmin actor
  else if startsWith owner "user:" then user_matches actor (slice 5 owner)
  else if startsWith owner "tag:" then holds_tag db actor (parent_tag owner)
  else false.

(** The actor is an owner, or an owner of an owning tag, and so on. *)
Inductive reaches : list string -> Prop :=
| reaches_direct owners owner :
    owner ∈ owners -> direct owner = true -> reaches owners
| reaches_parent owners owner def :
    owner ∈ owners -> startsWith owner "tag:" = true ->
    find_definition db org (parent_tag owner) = Some def -> reaches (td_owners def) ->
    reaches owners.

Lemma reaches_cons owner owners : reaches owners -> reaches (owner :: owners).
Proof.
  destruct 1; [eapply reaches_direct|eapply reaches_parent]; eauto; by right.
Qed.

(** The kinds of owner entries exclude each other. *)
Lemma tag_owner_kind owner :
  startsWith owner "tag:" = true ->
  (owner =? "autogroup:admin")%string = false /\ startsWith owner "user:" = false.
Proof. intros [r ->]%startsWith_iff. rewrite !app_String. done. Qed.

Lemma direct_tag owner :
  startsWith owner "tag:" = true -> direct owner = holds_tag db actor (parent_tag owner).
Proof. intros H. unfold direct. destruct (tag_owner_kind _ H) as [-> ->]. by rewrite H. Qed.

(** One step of the loop. *)
Lemma owners_loop_cons search owner rest visited :
  owners_loop db org actor search (owner :: rest) visited
  = if startsWith owner "tag:" then
      let p := parent_tag owner in
      if bool_decide (p ∈ visited) then owners_loop db org actor search rest visited
      else if direct owner then Some (true, visited ++ [p])
      else match find_definition db org p with
           | None => owners_loop db org actor search rest (visited ++ [p])
           | Some def =>
               match search (td_owners def) (visited ++ [p]) with
               | None => None
               | Some (true, v) => Some (true, v)
               | Some (false, v) => owners_loop db org actor search rest v
               end
           end
    else if direct owner then Some (true, visited)
    else owners_loop db org actor search rest visited.
Proof.
  cbn [owners_loop]. destruct (startsWith owner "tag:") eqn:Ht.
  - destruct (tag_owner_kind _ Ht) as [-> ->]. cbn zeta. by rewrite direct_tag.
  - unfold direct. rewrite Ht. destruct (owner =? _)%string; [done|].
    by destruct (startsWith owner "user:").
Qed.

(** *** Soundness *)
Lemma owners_loop_sound search owners visited v :
  (forall owners visited v, search owners visited = Some (true, v) -> reaches owners) ->
  owners_loop db org actor search owners visited = Some (true, v) -> reaches owners.
Proof.
  intros Hs. revert visited. induction owners as [|owner rest IH]; intros visited; [done|].
  rewrite owners_loop_cons. cbn zeta.
  destruct (startsWith owner "tag:") eqn:Ht; destruct (direct owner) eqn:Hd;
    try (intros _; eapply reaches_direct; [by left|done]); [|eauto using reaches_cons].
  case_bool_decide; [eauto using reaches_cons|].
  destruct (find_definition db org (parent_tag owner)) as [def|] eqn:Hf; [|eauto using reaches_cons].
  destruct (search _ _) as [[[] v']|] eqn:Es; [|eauto using reaches_cons|done].
  intros _. eapply reaches_parent; [by left|done..|eauto].
Qed.

Lemma search_sound fuel owners visited v :
  actorMatchesOwners db org actor fuel owners visited = Some (true, v) -> reaches owners.
Proof.
  revert owners visited v. induction fuel as [|fuel IH]; intros owners visited v; [done|].
  apply owners_loop_sound, IH.
Qed.

(** *** Completeness *)
(** The owners [owners] give nothing beyond the tags of [V]. *)
Definition exhausted (V owners : list string) : Prop :=
  forall owner, owner ∈ owners ->
    direct owner = false /\ (startsWith owner "tag:" = true -> parent_tag owner ∈ V).
Definition closed (V : list string) (tag : string) : Prop :=
  forall def, find_definition db org tag = Some def -> exhausted V (td_owners def).
Definition not_held (V : list string) : Prop :=
  forall tag, tag ∈ V -> holds_tag db actor tag = false.

(** What a search that fails has established. *)
Definition explored (V V' owners : list string) : Prop :=
  V ⊆ V' /\ not_held V' /\ exhausted V' owners /\ (forall t, t ∈ V' -> t ∉ V -> closed V' t).

Lemma exhausted_mono V V' owners : V ⊆ V' -> exhausted V owners -> exhausted V' owners.
Proof. intros Hs H owner Ho. destruct (H owner Ho) as [Hd Ht]. split; [done|]. intros ?. by apply Hs, Ht. Qed.

Lemma closed_mono V V' t : V ⊆ V' -> closed V t -> closed V' t.
Proof. intros Hs H def Hf. eapply exhausted_mono; eauto. Qed.

Lemma not_held_snoc V p : not_held V -> holds_tag db actor p = false -> not_held (V ++ [p]).
Proof. intros HV Hp t [Ht| ->%list_elem_of_singleton]%elem_of_app; auto. Qed.

Lemma exhausted_cons V owner owners :
  direct owner = false -> (startsWith owner "tag:" = true -> parent_tag owner ∈ V) ->
  exhausted V owners -> exhausted V (owner :: owners).
Proof. intros Hd Ht H o [->|Ho]%elem_of_cons; auto. Qed.

Lemma explored_new V V1 V' p owner rest :
  V1 = V ++ [p] -> p = parent_tag owner -> direct owner = false ->
  explored V1 V' rest -> closed V' p -> explored V V' (owner :: rest).
Proof.
  intros -> -> Hd (Hs & Hn & He & Hc) Hp.
  split_and!; [intros t Ht; apply Hs, elem_of_app; by left|done| |].
  - apply exhausted_cons; [done| |done]. intros _. apply Hs, elem_of_app. right. by left.
  - intros t Ht Hv. destruct (decide (t = parent_tag owner)) as [->|Hne]; [done|].
    apply Hc; [done|]. intros [?| ->%list_elem_of_singleton]%elem_of_app; done.
Qed.

Lemma explored_trans V V1 V' owners rest p def :
  find_definition db org p = Some def -> owners = td_owners def ->
  explored V V1 owners -> explored V1 V' rest ->
  explored V V' rest /\ closed V' p.
Proof.
  intros Hf -> (Hs & Hn & He & Hc) (Hs' & Hn' & He' & Hc'). split; [split_and!|].
  - intros t Ht. by apply Hs', Hs.
  - done.
  - done.
  - intros t Ht Hv. destruct (decide (t ∈ V1)) as [H1|H1]; [|by apply Hc'].
    by eapply closed_mono, Hc.
  - intros def' Hf'. rewrite Hf in Hf'. injection Hf' as <-. by eapply exhausted_mono.
Qed.

Lemma owners_loop_explored search owners V V' :
  (forall owners V V', not_held V -> search owners V = Some (false, V') -> explored V V' owners) ->
  not_held V -> owners_loop db org actor search owners V = Some (false, V') -> explored V V' owners.
Proof.
  intros Hs. revert V. induction owners as [|owner rest IH]; intros V HV.
  { intros [= <-]. split_and!; [done..| |]; [by intros ? ?%elem_of_nil|by intros]. }
  rewrite owners_loop_cons. cbn zeta. destruct (startsWith owner "tag:") eqn:Ht.
  - case_bool_decide as Hv.
    + intros (Hs' & Hn & He & Hc)%IH; [|done]. split_and!; [done..| |done].
      apply exhausted_cons; [|by intros _; apply Hs'|done]. rewrite direct_tag by done. by apply HV.
    + destruct (direct owner) eqn:Hd; [done|].
      assert (not_held (V ++ [parent_tag owner])) as HV1.
      { apply not_held_snoc; [done|]. by rewrite <- direct_tag. }
      destruct (find_definition db org (parent_tag owner)) as [def|] eqn:Hf.
      * destruct (search _ _) as [[[] V2]|] eqn:Es; [done| |done].
        apply (Hs _ _ _ HV1) in Es. intros He%IH; [|by destruct Es as (?&?&_)].
        destruct (explored_trans _ _ _ _ _ _ _ Hf eq_refl Es He). by eapply explored_new.
      * intros He%IH; [|done]. eapply explored_new; [done..|]. intros def Hf'. congruence.
  - destruct (direct owner) eqn:Hd; [done|]. intros (Hs' & Hn & He & Hc)%IH; [|done].
    split_and!; [done..| |done]. apply exhausted_cons; [done| |done]. by rewrite Ht.
Qed.

Lemma search_explored fuel owners V V' :
  not_held V -> actorMatchesOwners db org actor fuel owners V = Some (false, V') -> explored V V' owners.
Proof.
  revert owners V V'. induction fuel as [|fuel IH]; intros owners V V'; [done|].
  apply owners_loop_explored, IH.
Qed.

Lemma exhausted_not_reaches V owners :
  (forall t, t ∈ V -> closed V t) -> exhausted V owners -> ~ reaches owners.
Proof.
  intros Hc He Hr. revert He. induction Hr as [owners owner Ho Hd|owners owner def Ho Ht Hf Hr IH]; intros He.
  - destruct (He owner Ho). congruence.
  - apply IH. destruct (He owner Ho) as [_ Hp]. by eapply Hc; [apply Hp|].
Qed.
End SearchSpec.

(** *** Termination *)
Section SearchTotal.
Context (db : TagDb) (org : string) (actor : TagActor).

(** The definitions not yet visited. *)
Definition undone (V : list string) : nat :=
  length (List.filter (fun d => negb (bool_decide (td_name d ∈ V))) (tg_definitions db)).

Lemma filter_length_le {A} (p q : A -> bool) (l : list A) :
  (forall x, p x = true -> q x = true) -> (length (List.filter p l) <= length (List.filter q l))%nat.
Proof.
  intros H. induction l as [|x l IH]; cbn; [lia|].
  destruct (p x) eqn:E; [rewrite (H x E); cbn; lia|]. destruct (q x); cbn; lia.
Qed.

Lemma filter_length_lt {A} (p q : A -> bool) (l : list A) x :
  (forall x, p x = true -> q x = true) -> x ∈ l -> p x = false -> q x = true ->
  (length (List.filter p l) < length (List.filter q l))%nat.
Proof.
  intros H Hx Hp Hq. induction l as [|y l IH]; [by apply elem_of_nil in Hx|].
  apply elem_of_cons in Hx as [->|Hx]; cbn.
  - rewrite Hp, Hq. cbn. pose proof (filter_length_le p q l H). lia.
  - specialize (IH Hx). destruct (p y) eqn:E; [rewrite (H y E); cbn; lia|]. destruct (q y); cbn; lia.
Qed.

Lemma undone_mono V V' : V ⊆ V' -> (undone V' <= undone V)%nat.
Proof.
  intros Hs. apply filter_length_le. intros d. rewrite !negb_true_iff, !bool_decide_eq_false.
  intros Hn Hv. by apply Hn, Hs.
Qed.

Lemma undone_visit V p def :
  find_definition db org p = Some def -> p ∉ V -> (undone (V ++ [p]) < undone V)%nat.
Proof.
  intros Hf Hp. unfold find_definition in Hf. apply List.find_some in Hf as [Hin Hn].
  apply andb_prop in Hn as [_ Hn%String.eqb_eq]. apply list_elem_of_In in Hin.
  apply (filter_length_lt _ _ _ def); [|done|..].
  - intros d. rewrite !negb_true_iff, !bool_decide_eq_false. intros Hn' Hv. apply Hn', elem_of_app. by left.
  - rewrite negb_false_iff, bool_decide_eq_true, Hn. apply elem_of_app. right. by left.
  - by rewrite negb_true_iff, bool_decide_eq_false, Hn.
Qed.

Definition returns (search : list string -> list string -> option (bool * list string)) (n : nat) : Prop :=
  forall owners V, (undone V < n)%nat -> exists b V', search owners V = Some (b, V') /\ V ⊆ V'.

Lemma owners_loop_returns search n :
  returns search n -> returns (owners_loop db org actor search) (S n).
Proof.
  intros Hs owners. induction owners as [|owner rest IH]; intros V HV.
  { by exists false, V. }
  rewrite owners_loop_cons. cbn zeta. destruct (startsWith owner "tag:").
  - case_bool_decide as Hv; [by apply IH|]. set (p := parent_tag owner) in *.
    assert (V ⊆ V ++ [p]) as Hsub by (intros ? ?; apply elem_of_app; by left).
    destruct (direct db actor owner); [by exists true, (V ++ [p])|].
    destruct (find_definition db org p) as [def|] eqn:Hf.
    + pose proof (undone_visit V p def Hf Hv).
      destruct (Hs (td_owners def) (V ++ [p])) as (b & V2 & -> & H2); [lia|].
      destruct b; [exists true, V2; split; [done|by etransitivity]|].
      destruct (IH V2) as (b & V3 & -> & H3).
      { pose proof (undone_mono _ _ H2). lia. }
      exists b, V3. split; [done|]. etransitivity; [exact Hsub|]. by etransitivity.
    + destruct (IH (V ++ [p])) as (b & V3 & -> & H3).
      { pose proof (undone_mono _ _ Hsub). lia. }
      exists b, V3. split; [done|]. by etransitivity.
  - destruct (direct db actor owner); [by exists true, V|by apply IH].
Qed.

Lemma search_returns fuel : returns (actorMatchesOwners db org actor fuel) fuel.
Proof.
  induction fuel as [|fuel IH]; [intros ? ? ?; lia|]. by apply owners_loop_returns.
Qed.

Lemma undone_bound V : (undone V < search_fuel db)%nat.
Proof. unfold undone, search_fuel. pose proof (List.filter_length_le (fun d => negb (bool_decide (td_name d ∈ V))) (tg_definitions db)). lia. Qed.

(** The search decides reachability. *)
Lemma search_decides owners :
  exists b V, actorMatchesOwners db org actor (search_fuel db) owners [] = Some (b, V)
    /\ (b = true <-> reaches db org actor owners).
Proof.
  destruct (search_returns (search_fuel db) owners [] (undone_bound [])) as (b & V & HV & _).
  exists b, V. split; [done|]. destruct b; split; try done.
  - intros _. by eapply search_sound.
  - intros Hr. exfalso. apply search_explored in HV as (_ & _ & He & Hc); [|by intros ? ?%elem_of_nil].
    eapply exhausted_not_reaches; [|exact He|exact Hr]. intros t Ht. apply Hc; [done|apply not_elem_of_nil].
Qed.

Lemma canAssignTag_decides tagName :
  exists b, canAssignTag db org actor tagName = Some b
    /\ (b = true <-> ta_isOrgAdmin actor = true
          \/ exists def, find_definition db org (normalizeTagName tagName) = Some def
                         /\ reaches db org actor (td_owners def)).
Proof.
  unfold canAssignTag. destruct (ta_isOrgAdmin actor); [exists true; split; [done|]; tauto|].
  destruct (find_definition db org (normalizeTagName tagName)) as [def|].
  - destruct (search_decides (td_owners def)) as (b & V & -> & Hb). exists b. split; [done|].
    rewrite Hb. split; [by eauto|]. by intros [|(? & [= <-] & ?)].
  - exists false. split; [done|]. split; [done|]. by intros [|(? & ? & _)].
Qed.

(** May the actor put the tag on a device? *)
Definition may_assign (tag : string) : Prop := canAssignTag db org actor tag = Some true.

Lemma assertCanAssignTags_spec tagNames :
  exists r, assertCanAssignTags db org actor tagNames = Some r
    /\ match r with
       | None => Forall may_assign (unique_tags tagNames)
       | Some tag => tag ∈ unique_tags tagNames /\ ~ may_assign tag
       end.
Proof.
  unfold assertCanAssignTags, may_assign. induction (unique_tags tagNames) as [|tag rest IH]; cbn.
  { by exists None. }
  destruct (canAssignTag_decides tag) as (b & Hb & _). rewrite Hb. destruct b.
  - destruct IH as (r & -> & Hr). exists r. split; [done|]. destruct r as [t|].
    + destruct Hr. split; [by right|done].
    + by constructor.
  - exists (Some tag). split; [done|]. split; [by left|]. by rewrite Hb.
Qed.
End SearchTotal.

(** ** Changing tags *)
Lemma elem_of_set_of x l : x ∈ set_of l <-> x ∈ l.
Proof.
  unfold set_of. assert (forall s, x ∈ foldl set_add s l <-> x ∈ s \/ x ∈ l) as H.
  { induction l as [|y l IH]; intros s; cbn [foldl].
    - split; [by left|]. by intros [|?%elem_of_nil].
    - rewrite IH. unfold set_add. case_bool_decide as Hy.
      + rewrite elem_of_cons. split; [tauto|]. by intros [?|[->|?]]; [left|left|right].
      + rewrite elem_of_app, list_elem_of_singleton, elem_of_cons. tauto. }
  rewrite H. split; [|by right]. by intros [?%elem_of_nil|].
Qed.

Lemma elem_of_deletes endpoint tags rows r :
  r ∈ foldl (fun rows tag => delete_tag endpoint tag rows) rows tags
  <-> r ∈ rows /\ ~ (dt_endpoint r = endpoint /\ dt_tag r ∈ tags).
Proof.
  revert rows. induction tags as [|tag tags IH]; intros rows; cbn [foldl].
  - split; [|by intros []]. intros H. split; [done|]. by intros [_ ?%elem_of_nil].
  - rewrite IH. unfold delete_tag. rewrite elem_of_filter_bool, negb_true_iff, andb_false_iff,
      !String.eqb_neq, elem_of_cons.
    destruct (decide (dt_endpoint r = endpoint)), (decide (dt_tag r = tag)); tauto.
Qed.

Lemma elem_of_inserts endpoint tags rows r :
  r ∈ foldl (insert_tag endpoint) rows tags
  <-> r ∈ rows \/ (dt_endpoint r = endpoint /\ dt_tag r ∈ tags).
Proof.
  revert rows. induction tags as [|tag tags IH]; intros rows; cbn [foldl].
  - split; [by left|]. by intros [|[_ ?%elem_of_nil]].
  - rewrite IH, elem_of_cons. unfold insert_tag. case_bool_decide as Hin.
    + split; [tauto|]. intros [?|[<- [<-|?]]]; [by left| |by right].
      left. by destruct r.
    + rewrite elem_of_app, list_elem_of_singleton.
      assert (r = mkDeviceTag endpoint tag <-> dt_endpoint r = endpoint /\ dt_tag r = tag) as ->.
      { destruct r. cbn. split; [by intros [= -> ->]|by intros [-> ->]]. }
      tauto.
Qed.

(** A name of the schema is already normal. *)
Lemma tag_unit_props c :
  is_tag_unit c = true -> is_space c = false /\ lower_unit c = c /\ c <> ":"%char.
Proof.
  intros H. destruct c as [[] [] [] [] [] [] [] []]; vm_compute in H; try discriminate H;
    split_and!; vm_compute; congruence.
Qed.

Lemma trimmed_no_space s : all_units (fun c => negb (is_space c)) s = true -> trim s = s.
Proof.
  intros H. unfold trim.
  assert (trimStart s = s) as ->.
  { destruct s as [|c s]; [done|]. cbn in H |- *. by destruct (is_space c). }
  induction s as [|c s IH]; [done|]. cbn in H |- *. apply andb_prop in H as [Hc H].
  rewrite IH by done. apply negb_true_iff in Hc. rewrite Hc. by destruct s.
Qed.

Lemma toLowerCase_fixed s : all_units (fun c => Ascii.eqb (lower_unit c) c) s = true -> toLowerCase s = s.
Proof.
  induction s as [|c s IH]; [done|]. cbn. intros [Hc%Ascii.eqb_eq H]%andb_prop. by rewrite Hc, IH.
Qed.

Lemma tagNameSchema_units name : tagNameSchema name = true -> name <> "" /\ all_units is_tag_unit name = true.
Proof.
  destruct name as [|c rest]; [done|]. cbn [tagNameSchema]. intros [[Hc Hr]%andb_prop _]%andb_prop.
  split; [done|]. cbn [all_units]. rewrite Hr. unfold is_tag_unit.
  apply orb_prop in Hc as [-> | ->]; by rewrite ?orb_true_r.
Qed.

Lemma normalize_valid name : tagNameSchema name = true -> normalizeTagName name = name.
Proof.
  intros [_ Hu]%tagNameSchema_units. unfold normalizeTagName.
  rewrite trimmed_no_space, toLowerCase_fixed.
  - destruct (startsWith name "tag:") eqn:E; [|done]. apply startsWith_iff in E as [r ->].
    exfalso. rewrite !app_String in Hu. vm_compute in Hu. discriminate Hu.
  - eapply all_units_impl; [|exact Hu]. intros c Hc. apply Ascii.eqb_eq. by apply tag_unit_props.
  - eapply all_units_impl; [|exact Hu]. intros c Hc. apply negb_true_iff. by apply tag_unit_props.
Qed.

Lemma unique_tags_valid l t : forallb tagNameSchema l = true -> t ∈ unique_tags l <-> t ∈ l.
Proof.
  intros Hl. unfold unique_tags. rewrite elem_of_set_of, elem_of_filter_bool.
  rewrite forallb_forall in Hl. setoid_rewrite <- list_elem_of_In in Hl. split.
  - intros [(x & -> & Hx)%list_elem_of_fmap _]. by rewrite normalize_valid by auto.
  - intros Ht. split; [apply list_elem_of_fmap; exists t; by rewrite normalize_valid by auto|].
    apply negb_true_iff, String.eqb_neq. by apply tagNameSchema_units, Hl.
Qed.

Lemma applyDeviceTagChanges_rows db endpoint add remove e t :
  has_tag (applyDeviceTagChanges db endpoint add remove).1 e t = true
  <-> (e = endpoint /\ t ∈ unique_tags add)
      \/ (has_tag db e t = true /\ ~ (e = endpoint /\ t ∈ unique_tags remove)).
Proof.
  unfold has_tag, applyDeviceTagChanges. cbn [fst tg_deviceTags with_deviceTags].
  rewrite !bool_decide_eq_true, elem_of_inserts, elem_of_deletes. cbn. tauto.
Qed.

Lemma has_tag_bump db org e t : has_tag (bump db org) e t = has_tag db e t.
Proof. done. Qed.

Lemma check_touched_None db actor touched :
  check_touched db actor touched = None ->
  Forall (may_assign db (ra_organizationId actor) (ra_actor actor)) (unique_tags touched).
Proof.
  unfold check_touched. destruct (ensureTagDefinitionsExist _ _ _); [|done].
  destruct (assertCanAssignTags_spec db (ra_organizationId actor) (ra_actor actor) touched) as
    (r & -> & Hr). by destruct r.
Qed.

(** A change of tags touches the given tags of its device only. *)
Lemma applyDeviceTagChanges_touches db endpoint add remove e t :
  forallb tagNameSchema add = true -> forallb tagNameSchema remove = true ->
  has_tag (applyDeviceTagChanges db endpoint add remove).1 e t <> has_tag db e t ->
  e = endpoint /\ t ∈ add ++ remove.
Proof.
  intros Ha Hr Hne. pose proof (applyDeviceTagChanges_rows db endpoint add remove e t) as Hrow.
  rewrite !unique_tags_valid in Hrow by done. rewrite elem_of_app.
  destruct (has_tag (applyDeviceTagChanges db endpoint add remove).1 e t), (has_tag db e t); try done.
  - destruct Hrow as [Hrow _]. destruct (Hrow eq_refl) as [[? ?]|[? _]]; [by split; [|left]|done].
  - destruct (decide (e = endpoint /\ t ∈ remove)) as [[? ?]|Hn]; [by split; [|right]|].
    exfalso. destruct Hrow as [_ Hrow]. discriminate Hrow. right. by split.
Qed.

Lemma checked_may_assign db actor add remove t :
  check_touched db actor (add ++ remove) = None ->
  forallb tagNameSchema add = true -> forallb tagNameSchema remove = true -> t ∈ add ++ remove ->
  may_assign db (ra_organizationId actor) (ra_actor actor) t.
Proof.
  intros Hc Ha Hr Ht. apply check_touched_None in Hc. rewrite list.Forall_forall in Hc. apply Hc.
  apply unique_tags_valid; [|done]. by rewrite forallb_app, Ha, Hr.
Qed.

Lemma bulk_loop_touches db org add remove endpointIds e t :
  forallb tagNameSchema add = true -> forallb tagNameSchema remove = true ->
  has_tag (bulk_loop db org add remove endpointIds).1 e t <> has_tag db e t ->
  e ∈ endpointIds /\ has_device db org e = true /\ t ∈ add ++ remove.
Proof.
  intros Ha Hr. revert db. induction endpointIds as [|endpoint rest IH]; intros db;
    cbn [bulk_loop fst]; [done|].
  destruct (has_device db org endpoint) eqn:Hd; cbn [negb].
  2: { intros Hne. destruct (IH db Hne) as (? & ? & ?). split_and!; [by right|done..]. }
  pose proof (applyDeviceTagChanges_touches db endpoint add remove e t Ha Hr) as H1.
  destruct (applyDeviceTagChanges db endpoint add remove) as [db1 tags] eqn:E1. cbn [fst] in H1.
  assert (tg_devices db1 = tg_devices db) as Hdev by (unfold applyDeviceTagChanges in E1; by simplify_eq).
  specialize (IH db1). destruct (bulk_loop db1 org add remove rest) as [db2 results]. cbn [fst] in *.
  intros Hne. destruct (decide (has_tag db1 e t = has_tag db e t)) as [Heq|Hneq].
  - rewrite <- Heq in Hne. destruct (IH Hne) as (? & Hh & ?). unfold has_device in *. rewrite Hdev in Hh.
    split_and!; [by right|done..].
  - destruct (H1 Hneq) as [-> ?]. split_and!; [by left|done..].
Qed.

(** ** Properties *)
(** C38: whether an actor may assign a tag is decided on every input, cyclic
    ownership included: the search answers, and answers yes exactly when the
    actor is an administrator or is reached from the owners of the tag through
    users, held tags and owning tags. *)
Theorem canAssignTag_spec (db : TagDb) (org : string) (actor : TagActor) (tagName : string) :
  exists b, canAssignTag db org actor tagName = Some b
    /\ (b = true <-> ta_isOrgAdmin actor = true
          \/ exists def, find_definition db org (normalizeTagName tagName) = Some def
                         /\ reaches db org actor (td_owners def)).
Proof. apply canAssignTag_decides. Qed.

(** changing single tags of a device touches no tag the actor may not
    assign: whatever tag appears or disappears anywhere, it is on the device
    of the request and the actor may assign it. *)
Theorem patch_touches_only_assignable (db db' : TagDb) (actor : RouteActor) (endpoint : string)
    (add remove : list string) (response : route_response) (e t : string) :
  patchDeviceTags db actor endpoint add remove = (db', response) ->
  has_tag db' e t <> has_tag db e t ->
  e = endpoint /\ has_device db (ra_organizationId actor) e = true
  /\ may_assign db (ra_organizationId actor) (ra_actor actor) t.
Proof.
  unfold patchDeviceTags. intros H Hne.
  destruct (forallb tagNameSchema add && _) eqn:Hv; cbn [negb] in H; [|by simplify_eq].
  apply andb_prop in Hv as [Ha Hr].
  destruct (has_device _ _ _) eqn:Hd; cbn [negb] in H; [|by simplify_eq].
  destruct (check_touched _ _ _) as [r|] eqn:Hc; [by simplify_eq|].
  destruct (applyDeviceTagChanges db endpoint add remove) as [db1 tags1] eqn:E.
  injection H as <- <-. rewrite has_tag_bump in Hne.
  destruct (applyDeviceTagChanges_touches db endpoint add remove e t Ha Hr) as [-> Ht];
    [by rewrite E|]. split_and!; eauto using checked_may_assign.
Qed.

(** The same for many devices at once: only listed devices of the organization
    of the actor. *)
Theorem bulk_touches_only_assignable (db db' : TagDb) (actor : RouteActor)
    (endpointIds add remove : list string) (response : route_response + list (string * list string))
    (e t : string) :
  bulkDeviceTags db actor endpointIds add remove = (db', response) ->
  has_tag db' e t <> has_tag db e t ->
  e ∈ endpointIds /\ has_device db (ra_organizationId actor) e = true
  /\ may_assign db (ra_organizationId actor) (ra_actor actor) t.
Proof.
  unfold bulkDeviceTags. intros H Hne.
  destruct (bulk_body_ok endpointIds add remove) eqn:Hv; cbn [negb] in H; [|by simplify_eq].
  apply andb_prop in Hv as [Hv Hr]. apply andb_prop in Hv as [_ Ha].
  destruct (check_touched _ _ _) as [r|] eqn:Hc; [by simplify_eq|].
  pose proof (bulk_loop_touches db (ra_organizationId actor) add remove endpointIds e t Ha Hr) as Hl.
  destruct (bulk_loop _ _ _ _ _) as [db1 results]. injection H as <- <-. rewrite has_tag_bump in Hne.
  destruct (Hl Hne) as (? & ? & ?). split_and!; eauto using checked_may_assign.
Qed.

(** Replacing the tags of a device adds only tags the actor may assign. *)
Theorem put_adds_only_assignable (db db' : TagDb) (actor : RouteActor) (endpoint : string)
    (tags : list string) (response : route_response) (e t : string) :
  putDeviceTags db actor endpoint tags = (db', response) ->
  has_tag db' e t = true -> has_tag db e t = false ->
  e = endpoint /\ has_device db (ra_organizationId actor) e = true
  /\ may_assign db (ra_organizationId actor) (ra_actor actor) t.
Proof.
  unfold putDeviceTags. intros H Ht Hf.
  destruct (forallb tagNameSchema tags) eqn:Hv; cbn [negb] in H; [|simplify_eq; congruence].
  destruct (has_device _ _ _) eqn:Hd; cbn [negb] in H; [|simplify_eq; congruence].
  destruct (check_touched _ _ _) as [r|] eqn:Hc; [simplify_eq; congruence|].
  cbn [replaceDeviceTags] in H. injection H as <- <-. rewrite has_tag_bump in Ht.
  unfold has_tag in Ht, Hf. apply bool_decide_eq_true in Ht. apply bool_decide_eq_false in Hf.
  cbn in Ht. rewrite elem_of_app, elem_of_filter_bool in Ht.
  destruct Ht as [[? _]|(x & [= -> ->] & Hx)%list_elem_of_fmap]; [done|].
  apply check_touched_None in Hc. rewrite list.Forall_forall in Hc. split_and!; auto.
Qed.

(** Replacing the tags of a device checks the new tags only: with an empty list
    any actor who reaches the route removes every tag of the device, also
    those the actor may not assign. *)
Theorem put_strips_unowned_tags (db : TagDb) (actor : RouteActor) (endpoint : string) :
  has_device db (ra_organizationId actor) endpoint = true ->
  (putDeviceTags db actor endpoint []).2 = RouteOk []
  /\ forall t, has_tag (putDeviceTags db actor endpoint []).1 endpoint t = false.
Proof.
  intros Hd. unfold putDeviceTags. cbn [forallb negb]. rewrite Hd. cbn [negb].
  split; [done|]. intros t. cbn [fst check_touched]. unfold has_tag. apply bool_decide_eq_false.
  cbn. rewrite app_nil_r, elem_of_filter_bool. cbn. rewrite String.eqb_refl. by intros [_ ?].
Qed.

(** ** Witnesses *)
Definition sample_tags : TagDb :=
  mkTagDb [mkTagDefinition "acme" "web" ["tag:ops"]; mkTagDefinition "acme" "ops" ["tag:web"; "user:bob"];
           mkTagDefinition "acme" "db" ["user:carol"]]
    [mkDeviceTag "e1" "db"] [("e1", "acme")] [("acme", 1%Z)] [].

Definition sample_bob : RouteActor :=
  mkRouteActor "acme" (mkTagActor (Some "bob") None false None).

Lemma patch_touches_only_assignable_witness :
  may_assign sample_tags "acme" (ra_actor sample_bob) "web".
Proof.
  refine (proj2 (proj2 (patch_touches_only_assignable sample_tags
    (patchDeviceTags sample_tags sample_bob "e1" ["web"] []).1 sample_bob "e1" ["web"] []
    (RouteOk ["db"; "web"]) "e1" "web" _ _))).
  - vm_compute. reflexivity.
  - vm_compute. discriminate.
Defined.

Lemma put_strips_unowned_tags_witness :
  has_tag sample_tags "e1" "db" = true
  /\ ~ may_assign sample_tags "acme" (ra_actor sample_bob) "db"
  /\ has_tag (putDeviceTags sample_tags sample_bob "e1" []).1 "e1" "db" = false.
Proof.
  split; [reflexivity|]. split; [vm_compute; discriminate|].
  apply (put_strips_unowned_tags sample_tags sample_bob "e1"). reflexivity.
Defined.
