(* ===== verification/Duration.v ===== *)
(** * Durations ([packages/api/src/management/duration.ts])

    Reading durations people write, the intervals PostgreSQL stores, and the
    compact and long forms the interfaces show.  The parse-duration package is a
    parameter: [parse text] is its answer in seconds, [None] for null and
    [Some None] for a number that is not finite. *)
From Stdlib Require Import QArith Qround DecimalString DecimalN DecimalFacts.
From S2P Require Import Prelude Json OrgBilling.
Local Open Scope Z_scope.

(** ** Non-negative integers as JavaScript numbers *)
Inductive jsnum := Fin (z : Z) | Infinity.

Definition to_double (z : Z) : jsnum :=
  let d := double_of z in if d <? 2 ^ 1024 then Fin d else Infinity.
(** [Number(text)] of decimal digits. *)
Definition Number_digits (ds : string) : jsnum := to_double (digits_value ds).
Definition num_add (a b : jsnum) : jsnum :=
  match a, b with Fin x, Fin y => to_double (x + y) | _, _ => Infinity end.
(** By a positive factor. *)
Definition num_scale (a : jsnum) (k : Z) : jsnum :=
  match a with Fin x => to_double (x * k) | Infinity => Infinity end.
Definition is_finite (a : jsnum) : bool := match a with Fin _ => true | Infinity => false end.
Definition positive_num (a : jsnum) : bool := match a with Fin x => 0 <? x | Infinity => true end.

(** ** Patterns *)
(** [\d+] at the start, and what follows. *)
Definition take_digits (s : string) : option (string * string) :=
  match digits_prefix s with
  | EmptyString => None
  | ds => Some (ds, slice (String.length ds) s)
  end.

(** [\d{1,2}] before something that is not a digit. *)
Definition take_two (s : string) : option (string * string) :=
  match take_digits s with
  | Some (ds, rest) => if (String.length ds <=? 2)%nat then Some (ds, rest) else None
  | None => None
  end.

(** The rest after a colon. *)
Definition after_colon (s : string) : option string :=
  match s with
  | String c rest => if Ascii.eqb c ":"%char then Some rest else None
  | EmptyString => None
  end.

(** [(?:\.\d+)?$] *)
Definition fraction_end (s : string) : bool :=
  match s with
  | EmptyString => true
  | String c rest => Ascii.eqb c "."%char && negb (rest =? "")%string && all_units is_digit rest
  end.

(** [(\d+):(\d{1,2}):(\d{1,2})(?:\.\d+)?$] *)
Definition match_clock (s : string) : option (string * string * string) :=
  match take_digits s with
  | Some (h, r1) =>
      match after_colon r1 ≫= take_two with
      | Some (m, r2) =>
          match after_colon r2 ≫= take_two with
          | Some (sec, r3) => if fraction_end r3 then Some (h, m, sec) else None
          | None => None
          end
      | None => None
      end
  | None => None
  end.

(** With [(?:(\d+)\s+)?] before it; the days are empty when they are absent. *)
Definition match_dayTime (s : string) : option (string * string * string * string) :=
  match take_digits s with
  | Some (days, String c rest) =>
      if is_space c then
        (fun p => (days, p.1.1, p.1.2, p.2)) <$> match_clock (trimStart (String c rest))
      else (fun p => ("", p.1.1, p.1.2, p.2)) <$> match_clock s
  | _ => None
  end.

(** [^(\d+)\s+seconds?$], upper or lower case. *)
Definition match_seconds (s : string) : option string :=
  match take_digits s with
  | Some (n, String c rest) =>
      let word := toLowerCase (trimStart (String c rest)) in
      if is_space c && ((word =? "second")%string || (word =? "seconds")%string) then Some n else None
  | _ => None
  end.

Definition parsePostgresIntervalTime (value : string) : option jsnum :=
  match match_dayTime value with
  | Some (d, h, m, s) =>
      let days := if (d =? "")%string then Fin 0 else Number_digits d in
      let hours := Number_digits h in
      let minutes := Number_digits m in
      let seconds := Number_digits s in
      if negb (forallb is_finite [days; hours; minutes; seconds]) then None
      else
        let total := num_add (num_add (num_add (num_scale days 86400) (num_scale hours 3600))
                       (num_scale minutes 60)) seconds in
        if positive_num total then Some total else None
  | None =>
      match match_seconds value with
      | Some ds => let n := Number_digits ds in if positive_num n then Some n else None
      | None => None
      end
  end.

(** ** Compact durations *)
Definition multiplier (unit_ : ascii) : Z :=
  let u := lower_unit unit_ in
  if Ascii.eqb u "w" then 604800
  else if Ascii.eqb u "d" then 86400
  else if Ascii.eqb u "h" then 3600
  else if Ascii.eqb u "m" then 60
  else if Ascii.eqb u "s" then 1
  else 0.

(** The loop; every turn consumes a number and a unit, so that the length of
    the text is enough fuel. *)
Fixpoint compact_loop (fuel : nat) (value : string) (total : jsnum) (matched : bool) : option jsnum :=
  match value with
  | EmptyString => if matched && positive_num total then Some total else None
  | _ =>
      match fuel with
      | O => None
      | S fuel' =>
          match take_digits value with
          | Some (ds, String u rest) =>
              let amount := Number_digits ds in
              if negb (is_finite amount) || negb (positive_num amount) then None
              else if multiplier u =? 0 then None
              else compact_loop fuel' rest (num_add total (num_scale amount (multiplier u))) true
          | _ => None
          end
      end
  end.

Definition parseCompactDuration (value : string) : option jsnum :=
  let n := String.length value in
  if (n =? 0)%nat || (64 <? n)%nat then None else compact_loop n value (Fin 0) false.

(** ** Showing durations *)
(** The amount of one unit, if there is any, and what remains. *)
Definition unit_part (size : Z) (show : Z -> string) (st : list string * Z) : list string * Z :=
  let '(parts, rem) := st in
  let q := rem / size in
  if 0 <? q then (parts ++ [show q], rem mod size) else (parts, rem).

Definition compact_label (unit_ : string) (n : Z) : string := string_of_Z n +:+ unit_.
Definition long_label (unit_ : string) (n : Z) : string :=
  string_of_Z n +:+ " " +:+ unit_ +:+ (if n =? 1 then "" else "s").

(** The parts of the duration, largest unit first. *)
Definition duration_parts (label : string -> Z -> string) (units : string * string * string * string * string)
    (secs : Z) : list string :=
  let '(w, d, h, m, s) := units in
  let '(parts, rem) :=
    unit_part 60 (label m) (unit_part 3600 (label h)
      (unit_part 86400 (label d) (unit_part 604800 (label w) ([], secs)))) in
  if 0 <? rem then parts ++ [label s rem] else parts.

Definition formatDurationCompact (secs : Z) : string :=
  if secs <=? 0 then "0s" else join "" (duration_parts compact_label ("w", "d", "h", "m", "s") secs).

Definition formatDurationLong (secs : Z) : string :=
  if secs <=? 0 then "0 seconds"
  else join ", " (duration_parts long_label ("week", "day", "hour", "minute", "second") secs).

(** Integers below [10^21] are shown with all their digits. *)
Definition secondsToPgInterval (seconds : Z) : string := string_of_Z seconds +:+ " seconds".

Section Parse.
Context (parse : string -> option (option Q)).

Definition parseHumanDuration (raw : string) : option Z :=
  let trimmed := trim raw in
  if (trimmed =? "")%string then None
  else match parse trimmed with
       | Some (Some secs) => if Qle_bool secs 0 then None else Some (Qfloor secs)
       | _ => None
       end.

Definition pgIntervalToSeconds (value : string) : option jsnum :=
  let trimmed := trim value in
  if (trimmed =? "")%string then None
  else match parsePostgresIntervalTime trimmed with
       | Some n => Some n
       | None =>
           match (match parse trimmed with
                  | Some (Some secs) =>
                      if negb (Qle_bool secs 0) && (0 <? Qfloor secs) then Some (Fin (Qfloor secs)) else None
                  | _ => None
                  end) with
           | Some n => Some n
           | None => parseCompactDuration trimmed
           end
       end.

(** [None]: "Invalid duration" is thrown; times are milliseconds. *)
Definition expiresAtFromDuration (duration : string) (from : Z) : option Z :=
  (fun secs => from + secs * 1000) <$> parseHumanDuration duration.

(** [expiresInInputSchema]: what a body may give, trimmed by the schema. *)
Definition expiresInInput (value : option string) : option (option string) :=
  match value with
  | None => Some None
  | Some raw =>
      let v := trim raw in
      if (v =? "")%string || (100 <? String.length v)%nat then None
      else if (toLowerCase v =? "never")%string then Some (Some v)
      else match parseHumanDuration v with Some _ => Some (Some v) | None => None end
  end.
End Parse.

(** ** Lemmas *)
Lemma to_double_exact z : 0 <= z <= 2 ^ 53 -> to_double z = Fin z.
Proof.
  intros Hz. unfold to_double, double_of. rewrite (proj2 (Z.leb_le z (2 ^ 53))) by lia.
  rewrite (proj2 (Z.ltb_lt _ _)); [done|]. eapply Z.le_lt_trans; [apply Hz|]. by vm_compute.
Qed.

(** *** Decimal digits of a number *)
Lemma of_uint_acc_ge l acc : (Pos.to_nat acc * 10 ^ Decimal.nb_digits l <= Pos.to_nat (Pos.of_uint_acc l acc))%nat.
Proof.
  revert acc. induction l as [|l IH|l IH|l IH|l IH|l IH|l IH|l IH|l IH|l IH|l IH]; intros acc;
    cbn [Decimal.nb_digits Pos.of_uint_acc]; [cbn; lia|..];
    rewrite Nat.pow_succ_r'; (etransitivity; [|apply IH]);
    pose proof (Nat.pow_nonzero 10 (Decimal.nb_digits l) ltac:(lia)); nia.
Qed.

Lemma string_of_uint_length u : String.length (NilEmpty.string_of_uint u) = Decimal.nb_digits u.
Proof. induction u; cbn; congruence. Qed.

(** A positive number has no leading zero. *)
Lemma to_uint_ge n :
  (0 < n)%N -> (10 ^ pred (Decimal.nb_digits (N.to_uint n)) <= N.to_nat n)%nat.
Proof.
  intros Hn. pose proof (DecimalN.Unsigned.of_to n) as Hof.
  pose proof (DecimalN.Unsigned.to_of (N.to_uint n)) as Hun. rewrite Hof in Hun.
  unfold Decimal.unorm in Hun.
  destruct (Decimal.nzhead (N.to_uint n)) as [|u|u|u|u|u|u|u|u|u|u] eqn:Hz.
  1: { rewrite Hun in Hof. cbn in Hof. lia. }
  1: { by destruct (DecimalFacts.nzhead_nonzero _ _ Hz). }
  all: rewrite Hun in Hof |- *; cbn [Decimal.nb_digits pred];
    cbn [N.of_uint Pos.of_uint] in Hof; rewrite <- Hof;
    match goal with |- context [Pos.of_uint_acc ?v ?a] => pose proof (of_uint_acc_ge v a) as Hge end;
    cbn [N.to_nat]; lia.
Qed.

Lemma string_of_Z_spec n :
  0 <= n ->
  exists c ds, string_of_Z n = String c ds /\ all_units is_digit (String c ds) = true
    /\ digits_value (String c ds) = n.
Proof.
  intros Hn. rewrite string_of_Z_nonneg by done.
  destruct (string_of_N_spec (Z.to_N n)) as (c & ds & Hs & Hd & Hv). exists c, ds.
  split_and!; [done..|]. rewrite Hv. lia.
Qed.

Lemma string_of_Z_length n (k : nat) :
  0 <= n < 10 ^ Z.of_nat k -> (1 <= k)%nat -> (String.length (string_of_Z n) <= k)%nat.
Proof.
  intros [Hn Hlt] Hk. destruct (decide (n = 0)) as [->|Hne]; [cbn; lia|].
  rewrite string_of_Z_nonneg by done. pose proof (to_uint_ge (Z.to_N n) ltac:(lia)) as Hge.
  assert (NilZero.string_of_uint (N.to_uint (Z.to_N n)) = NilEmpty.string_of_uint (N.to_uint (Z.to_N n)))
    as ->.
  { destruct (N.to_uint (Z.to_N n)) eqn:E; [|done..].
    pose proof (DecimalN.Unsigned.of_to (Z.to_N n)) as Hof. rewrite E in Hof. cbn in Hof. lia. }
  rewrite string_of_uint_length. set (L := Decimal.nb_digits _) in *.
  destruct (decide (L <= k)%nat) as [|Hgt]; [done|exfalso].
  assert (10 ^ k <= 10 ^ pred L)%nat as Hp by (apply Nat.pow_le_mono_r; lia).
  assert (Z.of_nat (10 ^ k) <= n) as Hc by lia. rewrite Nat2Z.inj_pow in Hc. change (Z.of_nat 10) with 10 in Hc.
  lia.
Qed.

Lemma take_digits_number n rest :
  0 <= n -> no_digit_next rest = true -> take_digits (string_of_Z n +:+ rest) = Some (string_of_Z n, rest).
Proof.
  intros Hn Hr. destruct (string_of_Z_spec n Hn) as (c & ds & -> & Hd & _).
  unfold take_digits. rewrite digits_prefix_next by done. f_equal. f_equal. apply slice_app.
Qed.

Lemma Number_string_of_Z n : 0 <= n <= 2 ^ 53 -> Number_digits (string_of_Z n) = Fin n.
Proof.
  intros Hn. destruct (string_of_Z_spec n) as (c & ds & -> & _ & Hv); [lia|].
  unfold Number_digits. rewrite Hv. by apply to_double_exact.
Qed.

(** *** Compact durations *)
(** One number with its unit. *)
Lemma compact_step fuel k u rest t b :
  0 < k -> is_digit u = false -> 0 < multiplier u -> 0 <= t -> t + k * multiplier u <= 2 ^ 53 ->
  compact_loop (S fuel) (string_of_Z k +:+ String u rest) (Fin t) b
  = compact_loop fuel rest (Fin (t + k * multiplier u)) true.
Proof.
  intros Hk Hu Hm Ht Hle. cbn [compact_loop].
  assert (exists c r, string_of_Z k +:+ String u rest = String c r) as (c & r & Es).
  { destruct (string_of_Z_spec k) as (c & ds & -> & _); [lia|]. rewrite app_String. eauto. }
  rewrite Es, <- Es, take_digits_number by (cbn; rewrite ?Hu; done || lia).
  assert (0 < k * multiplier u /\ k <= k * multiplier u) as [Hkm Hkk] by nia.
  rewrite Number_string_of_Z by lia. cbn [is_finite positive_num negb orb].
  rewrite (proj2 (Z.ltb_lt 0 k)) by lia. cbn [negb orb].
  rewrite (proj2 (Z.eqb_neq (multiplier u) 0)) by lia. cbn [num_scale].
  rewrite (to_double_exact (k * multiplier u)) by lia. cbn [num_add].
  by rewrite to_double_exact by lia.
Qed.

Definition component : Type := Z * ascii.
Definition component_text (c : component) : string := string_of_Z c.1 +:+ String c.2 "".
Definition components_value (l : list component) : Z := foldr (fun c acc => c.1 * multiplier c.2 + acc) 0 l.
Definition component_ok (c : component) : Prop :=
  0 < c.1 /\ is_digit c.2 = false /\ 0 < multiplier c.2.

Lemma components_value_nonneg l : Forall component_ok l -> 0 <= components_value l.
Proof.
  induction 1 as [|c l (? & _ & ?) _ IH]; cbn [components_value foldr]; [lia|].
  fold (components_value l). nia.
Qed.

Lemma join_empty_cons x l : join "" (x :: l) = x +:+ join "" l.
Proof. destruct l; cbn [join]; [by rewrite app_Empty_r|]. by rewrite app_Empty_l. Qed.

Lemma compact_components l fuel t b :
  Forall component_ok l -> (length l <= fuel)%nat -> 0 <= t -> t + components_value l <= 2 ^ 53 ->
  0 < t + components_value l -> l <> [] \/ b = true ->
  compact_loop fuel (join "" (map component_text l)) (Fin t) b = Some (Fin (t + components_value l)).
Proof.
  intros Hl. revert fuel t b. induction Hl as [|c l Hc Hl IH]; intros fuel t b Hf Ht Hle Hp Hb.
  - destruct Hb as [?| ->]; [done|]. cbn in *. destruct fuel; cbn; rewrite Z.add_0_r in *;
      by rewrite (proj2 (Z.ltb_lt 0 t)) by lia.
  - destruct fuel as [|fuel]; [cbn in Hf; lia|]. destruct Hc as (Hk & Hu & Hm).
    pose proof (components_value_nonneg l Hl) as Hv.
    cbn [map components_value foldr] in *. fold (components_value l) in *.
    rewrite join_empty_cons. unfold component_text at 1. rewrite app_assoc_str, app_String, app_Empty_l.
    rewrite compact_step by (done || lia). cbn [length] in Hf.
    rewrite IH by (done || lia || nia || auto). f_equal. f_equal. lia.
Qed.

(** *** The parts shown *)
Lemma unit_part_eq size show parts rem :
  0 < size -> 0 <= rem ->
  unit_part size show (parts, rem)
  = (parts ++ (if 0 <? rem / size then [show (rem / size)] else []), rem mod size).
Proof.
  intros Hs Hr. unfold unit_part. destruct (Z.ltb_spec 0 (rem / size)); [done|].
  rewrite app_nil_r. f_equal. symmetry. apply Z.mod_small. split; [done|].
  destruct (Z.lt_ge_cases rem size); [done|]. pose proof (Z.div_str_pos rem size). lia.
Qed.

(** The components of a duration, zero ones left out. *)
Definition components (secs : Z) : list component :=
  List.filter (fun c => 0 <? c.1)
    [(secs / 604800, "w"%char); (secs mod 604800 / 86400, "d"%char);
     (secs mod 604800 mod 86400 / 3600, "h"%char); (secs mod 604800 mod 86400 mod 3600 / 60, "m"%char);
     (secs mod 604800 mod 86400 mod 3600 mod 60, "s"%char)].

Lemma compact_parts secs :
  0 <= secs ->
  duration_parts compact_label ("w", "d", "h", "m", "s") secs = map component_text (components secs).
Proof.
  intros Hs. unfold duration_parts, components.
  rewrite !unit_part_eq by (lia || (repeat apply Z.mod_pos_bound; lia) || by apply Z.mod_pos_bound).
  cbn [List.filter fst].
  repeat match goal with |- context [0 <? ?x] => destruct (0 <? x) end; reflexivity.
Qed.

Lemma components_ok secs : Forall component_ok (components secs).
Proof.
  unfold components. apply list.Forall_forall. intros c [Hin Hp]%elem_of_filter_bool.
  apply Z.ltb_lt in Hp. split; [done|].
  repeat (apply elem_of_cons in Hin as [->|Hin]; [split; [done|]; vm_compute; done|]).
  by apply elem_of_nil in Hin.
Qed.

Lemma components_value_filter l :
  Forall (fun c : component => 0 <= c.1) l ->
  components_value (List.filter (fun c => 0 <? c.1) l) = components_value l.
Proof.
  induction 1 as [|c l Hc _ IH]; cbn [List.filter]; [done|].
  destruct (Z.ltb_spec 0 c.1); cbn [components_value foldr]; unfold components_value in *; rewrite IH; [done|].
  assert (c.1 = 0) as -> by lia. lia.
Qed.

Lemma components_sum secs : 0 <= secs -> components_value (components secs) = secs.
Proof.
  intros Hs. unfold components. rewrite components_value_filter.
  - cbn -[Z.div Z.modulo Z.mul Z.add].
    change (multiplier "w") with 604800. change (multiplier "d") with 86400.
    change (multiplier "h") with 3600. change (multiplier "m") with 60. change (multiplier "s") with 1.
    pose proof (Z.div_mod secs 604800). pose proof (Z.div_mod (secs mod 604800) 86400).
    pose proof (Z.div_mod (secs mod 604800 mod 86400) 3600).
    pose proof (Z.div_mod (secs mod 604800 mod 86400 mod 3600) 60). lia.
  - pose proof (Z.mod_pos_bound secs 604800 ltac:(lia)).
    pose proof (Z.mod_pos_bound (secs mod 604800) 86400 ltac:(lia)).
    pose proof (Z.mod_pos_bound (secs mod 604800 mod 86400) 3600 ltac:(lia)).
    pose proof (Z.mod_pos_bound (secs mod 604800 mod 86400 mod 3600) 60 ltac:(lia)).
    repeat constructor; cbn [fst]; try (apply Z.div_pos; lia); lia.
Qed.

(** *** Intervals *)
Lemma trimEnd_no_space s : all_units (fun c => negb (is_space c)) s = true -> trimEnd s = s.
Proof.
  induction s as [|c s IH]; cbn; [done|]. intros [Hc Hs]%andb_prop. rewrite IH by done.
  destruct s; [|done]. by rewrite (proj1 (negb_true_iff _) Hc).
Qed.

Lemma digits_no_space s : all_units is_digit s = true -> all_units (fun c => negb (is_space c)) s = true.
Proof. apply all_units_impl. intros c Hc. by destruct (is_digit_not_sign c Hc) as [-> _]. Qed.

(** A text that starts with a digit and whose end is trimmed. *)
Lemma trim_digit_start c s :
  is_digit c = true -> trimEnd (String c s) = String c s -> trim (String c s) = String c s.
Proof. intros (Hs & _)%is_digit_not_sign He. unfold trim. cbn [trimStart]. by rewrite Hs. Qed.

(** What PostgreSQL shows for an interval of seconds: hours, minutes and
    seconds with at least two digits each. *)
Definition pad2 (n : Z) : string := (if n <? 10 then "0" else "") +:+ string_of_Z n.
Definition clock_text (n : Z) : string :=
  pad2 (n / 3600) +:+ ":" +:+ pad2 (n mod 3600 / 60) +:+ ":" +:+ pad2 (n mod 60).

Lemma pad2_spec n :
  0 <= n ->
  exists c ds, pad2 n = String c ds /\ all_units is_digit (String c ds) = true
    /\ digits_value (String c ds) = n.
Proof.
  intros Hn. destruct (string_of_Z_spec n Hn) as (c & ds & Hs & Hd & Hv). unfold pad2. rewrite Hs.
  destruct (n <? 10); [|by rewrite app_Empty_l; eauto].
  exists "0"%char, (String c ds). split_and!; [done|cbn in *; exact Hd|].
  rewrite <- Hv. unfold digits_value.
  change (NilEmpty.uint_of_string (String "0" (String c ds)))
    with (uint_of_char "0" (NilEmpty.uint_of_string (String c ds))).
  by destruct (NilEmpty.uint_of_string (String c ds)).
Qed.

Lemma take_digits_pad2 n rest :
  0 <= n -> no_digit_next rest = true -> take_digits (pad2 n +:+ rest) = Some (pad2 n, rest).
Proof.
  intros Hn Hr. destruct (pad2_spec n Hn) as (c & ds & -> & Hd & _).
  unfold take_digits. rewrite digits_prefix_next by done. f_equal. f_equal. apply slice_app.
Qed.

Lemma pad2_two n : 0 <= n < 100 -> (String.length (pad2 n) <= 2)%nat.
Proof.
  intros Hn. unfold pad2. destruct (Z.ltb_spec n 10).
  - rewrite app_String, app_Empty_l. cbn [String.length].
    pose proof (string_of_Z_length n 1 ltac:(change (10 ^ Z.of_nat 1) with 10; lia) ltac:(lia)). lia.
  - rewrite app_Empty_l. apply string_of_Z_length; [|lia]. change (10 ^ Z.of_nat 2) with 100. lia.
Qed.

Lemma Number_pad2 n : 0 <= n <= 2 ^ 53 -> Number_digits (pad2 n) = Fin n.
Proof.
  intros Hn. destruct (pad2_spec n) as (c & ds & -> & _ & Hv); [lia|].
  unfold Number_digits. rewrite Hv. by apply to_double_exact.
Qed.

Lemma take_two_pad2 n rest :
  0 <= n < 100 -> no_digit_next rest = true ->
  after_colon (String ":" (pad2 n +:+ rest)) ≫= take_two = Some (pad2 n, rest).
Proof.
  intros Hn Hr. cbn [after_colon]. rewrite Ascii.eqb_refl. unfold take_two. simpl mbind.
  rewrite take_digits_pad2 by (done || lia).
  by rewrite (proj2 (Nat.leb_le _ _) (pad2_two n Hn)).
Qed.

Lemma match_clock_text n :
  0 <= n -> match_clock (clock_text n) = Some (pad2 (n / 3600), pad2 (n mod 3600 / 60), pad2 (n mod 60)).
Proof.
  intros Hn. pose proof (Z.mod_pos_bound n 3600 ltac:(lia)). pose proof (Z.mod_pos_bound n 60 ltac:(lia)).
  assert (0 <= n mod 3600 / 60 < 60) by (split; [apply Z.div_pos|apply Z.div_lt_upper_bound]; lia).
  assert (0 <= n / 3600) by (apply Z.div_pos; lia).
  unfold match_clock, clock_text. rewrite !app_String, !app_Empty_l.
  rewrite take_digits_pad2 by done. rewrite take_two_pad2 by (done || lia).
  rewrite <- (app_Empty_r (pad2 (n mod 60))) at 1. by rewrite take_two_pad2 by (done || lia).
Qed.

Lemma clock_text_read n :
  0 < n <= 2 ^ 53 -> parsePostgresIntervalTime (clock_text n) = Some (Fin n).
Proof.
  intros Hn. pose proof (Z.mod_pos_bound n 3600 ltac:(lia)). pose proof (Z.mod_pos_bound n 60 ltac:(lia)).
  assert (0 <= n mod 3600 / 60 < 60) by (split; [apply Z.div_pos|apply Z.div_lt_upper_bound]; lia).
  assert (0 <= n / 3600 <= n) by (split; [apply Z.div_pos|apply Z.div_le_upper_bound]; lia).
  assert (n / 3600 * 3600 + n mod 3600 / 60 * 60 + n mod 60 = n) as Hsum.
  { rewrite (Z.div_mod n 3600) at 4 by lia. rewrite (Z.div_mod (n mod 3600) 60) at 2 by lia.
    rewrite <- (Znumtheory.Zmod_div_mod 60 3600 n); [lia|lia|lia|]. by exists 60. }
  unfold parsePostgresIntervalTime, match_dayTime. unfold clock_text at 1.
  rewrite take_digits_pad2 by (done || lia). rewrite app_String.
  change (is_space ":") with false. cbn iota. rewrite match_clock_text by lia.
  cbn [fmap option_fmap option_map fst snd]. change ("" =? "")%string with true. cbn iota.
  rewrite !Number_pad2 by lia. cbn [forallb is_finite andb negb num_scale].
  do 4 (rewrite ?to_double_exact by lia; cbn [num_add]).
  cbn [positive_num]. rewrite Z.mul_0_l, Z.add_0_l, Hsum.
  by rewrite (proj2 (Z.ltb_lt 0 n)) by lia.
Qed.

Lemma seconds_text_read n :
  0 < n <= 2 ^ 53 -> parsePostgresIntervalTime (secondsToPgInterval n) = Some (Fin n).
Proof.
  intros Hn. unfold parsePostgresIntervalTime, secondsToPgInterval.
  change (" seconds") with (String " " "seconds"). unfold match_dayTime, match_seconds.
  rewrite !take_digits_number by (done || lia).
  change (is_space " ") with true. cbn iota.
  change (trimStart (String " " "seconds")) with "seconds".
  change (match_clock "seconds") with (@None (string * string * string)).
  cbn [fmap option_fmap option_map]. change (true && _) with true. cbn iota.
  rewrite Number_string_of_Z by lia. cbn [positive_num]. by rewrite (proj2 (Z.ltb_lt 0 n)) by lia.
Qed.

Lemma seconds_text_trimmed n :
  0 <= n -> trim (secondsToPgInterval n) = secondsToPgInterval n
  /\ (secondsToPgInterval n =? "")%string = false.
Proof.
  intros Hn. unfold secondsToPgInterval. destruct (string_of_Z_spec n Hn) as (c & ds & -> & Hd & _).
  pose proof (andb_prop _ _ Hd) as [Hc _]. split; [|done].
  apply trimmed_app; [by apply is_digit_not_sign|by apply trimEnd_no_space, digits_no_space|done].
Qed.

Lemma pad2_trimmed n : 0 <= n -> trimEnd (pad2 n) = pad2 n.
Proof. intros Hn. destruct (pad2_spec n Hn) as (c & ds & -> & Hd & _). by apply trimEnd_no_space, digits_no_space. Qed.

Lemma clock_text_trimmed n :
  0 <= n -> trim (clock_text n) = clock_text n /\ (clock_text n =? "")%string = false.
Proof.
  intros Hn. unfold clock_text.
  pose proof (Z.mod_pos_bound n 3600 ltac:(lia)). pose proof (Z.mod_pos_bound n 60 ltac:(lia)).
  assert (0 <= n mod 3600 / 60) by (apply Z.div_pos; lia). assert (0 <= n / 3600) as H3 by (apply Z.div_pos; lia).
  destruct (pad2_spec _ H3) as (c & ds & -> & Hd & _). pose proof (andb_prop _ _ Hd) as [Hc _].
  split; [|done].
  apply trimmed_app; [by apply is_digit_not_sign|by apply trimEnd_no_space, digits_no_space|].
  rewrite trimEnd_app by done. rewrite trimEnd_app by by apply pad2_trimmed.
  rewrite trimEnd_app by done. by rewrite pad2_trimmed by lia.
Qed.

Lemma join_length_bounds l (b : nat) :
  Forall (fun c => component_ok c /\ c.1 < 10 ^ Z.of_nat b) l -> (1 <= b)%nat ->
  (length l <= String.length (join "" (map component_text l)) <= S b * length l)%nat.
Proof.
  intros Hl Hb. induction Hl as [|c l [(Hk & _) Hlt] _ IH]; [cbn; lia|].
  cbn [map length]. rewrite join_empty_cons.
  assert (forall s t, String.length (s +:+ t) = (String.length s + String.length t)%nat) as Happ.
  { intros s t. induction s as [|x s IHs]; [done|]. rewrite app_String. cbn. by rewrite IHs. }
  rewrite Happ. unfold component_text at 1 3. rewrite Happ. cbn [String.length].
  pose proof (string_of_Z_length c.1 b ltac:(lia) Hb).
  rewrite Nat.mul_succ_r. lia.
Qed.

Lemma components_small n : 0 <= n <= 2 ^ 53 -> Forall (fun c => c.1 < 10 ^ Z.of_nat 11) (components n).
Proof.
  intros Hn. unfold components. apply list.Forall_forall. intros c [Hin _]%elem_of_filter_bool.
  change (10 ^ Z.of_nat 11) with 100000000000.
  pose proof (Z.mod_pos_bound n 604800 ltac:(lia)).
  pose proof (Z.mod_pos_bound (n mod 604800) 86400 ltac:(lia)).
  pose proof (Z.mod_pos_bound (n mod 604800 mod 86400) 3600 ltac:(lia)).
  pose proof (Z.mod_pos_bound (n mod 604800 mod 86400 mod 3600) 60 ltac:(lia)).
  repeat (apply elem_of_cons in Hin as [->|Hin];
    [cbn [fst]; first [lia | apply Z.div_lt_upper_bound; lia]|]).
  by apply elem_of_nil in Hin.
Qed.

Lemma compact_text_length n :
  0 < n <= 2 ^ 53 ->
  (0 < length (components n))%nat
  /\ (length (components n) <= String.length (join "" (map component_text (components n))) <= 64)%nat.
Proof.
  intros Hn. destruct (join_length_bounds (components n) 11) as [H1 H2]; [|lia|].
  { apply list.Forall_forall. intros c Hc. pose proof (components_ok n) as Ho. pose proof (components_small n ltac:(lia)) as Hs.
    rewrite list.Forall_forall in Ho, Hs. auto. }
  assert (length (components n) <= 5)%nat by apply List.filter_length_le.
  assert (components n <> []) as Hne.
  { intros E. pose proof (components_sum n ltac:(lia)) as Hs. rewrite E in Hs. cbn in Hs. lia. }
  destruct (components n); [done|]. cbn [length] in *. lia.
Qed.

(** ** Properties *)

(** A duration that is stored is read back as itself: from the interval text
    that is written, from the clock text PostgreSQL answers with, and from the
    compact form that is shown.  It holds for every positive number of seconds
    that a JavaScript number holds exactly. *)
Theorem duration_roundtrip (parse : string -> option (option Q)) (column : string -> string) (n : Z) :
  0 < n <= 2 ^ 53 ->
  (forall k, 0 < k -> column (secondsToPgInterval k) = clock_text k) ->
  pgIntervalToSeconds parse (secondsToPgInterval n) = Some (Fin n)
  /\ pgIntervalToSeconds parse (column (secondsToPgInterval n)) = Some (Fin n)
  /\ parseCompactDuration (formatDurationCompact n) = Some (Fin n).
Proof.
  intros Hn Hcol. rewrite Hcol by lia. split_and!.
  - unfold pgIntervalToSeconds. destruct (seconds_text_trimmed n) as [-> ->]; [lia|].
    by rewrite seconds_text_read.
  - unfold pgIntervalToSeconds. destruct (clock_text_trimmed n) as [-> ->]; [lia|].
    by rewrite clock_text_read.
  - unfold formatDurationCompact. rewrite (proj2 (Z.leb_gt n 0)), compact_parts by lia.
    pose proof (compact_text_length n ltac:(lia)) as Hlen. unfold parseCompactDuration.
    rewrite (proj2 (Nat.eqb_neq _ _)), (proj2 (Nat.ltb_ge _ _)) by lia. cbn [orb].
    assert (components n <> []) by (intros E; rewrite E in Hlen; cbn in Hlen; lia).
    rewrite compact_components; rewrite ?components_sum by lia; eauto using components_ok; lia.
Qed.

(** A duration below one second is accepted and becomes zero seconds. *)
Lemma subsecond_duration_is_zero (parse : string -> option (option Q)) (raw : string) (q : Q) :
  trim raw <> "" -> parse (trim raw) = Some (Some q) -> (0 < q < 1)%Q ->
  parseHumanDuration parse raw = Some 0.
Proof.
  intros Hne Hp [H0 H1]. unfold parseHumanDuration. rewrite (proj2 (String.eqb_neq _ _) Hne), Hp.
  destruct (Qle_bool q 0) eqn:E; [apply Qle_bool_iff in E; exfalso; by apply Qlt_not_le in H0|].
  f_equal. pose proof (Qfloor_le q). pose proof (Qlt_floor q).
  assert (inject_Z (Qfloor q) < inject_Z 1)%Q as Hl by (eapply Qle_lt_trans; eassumption).
  assert (inject_Z 0 < inject_Z (Qfloor q + 1))%Q as Hg by (eapply Qlt_trans; eassumption).
  rewrite <- Zlt_Qlt in Hl, Hg. lia.
Qed.

(** ** Witness *)
Definition sample_column (text : string) : string :=
  match parseInt text with Some n => clock_text n | None => text end.

Lemma duration_roundtrip_witness :
  pgIntervalToSeconds (fun _ => None) (sample_column (secondsToPgInterval 694861)) = Some (Fin 694861)
  /\ sample_column (secondsToPgInterval 694861) = "193:01:01"
  /\ formatDurationCompact 694861 = "1w1d1h1m1s".
Proof.
  split; [|split; reflexivity].
  apply (duration_roundtrip (fun _ => None) sample_column 694861).
  - split; [reflexivity|]. vm_compute. discriminate.
  - intros k Hk. unfold sample_column, secondsToPgInterval. rewrite parseInt_string_of_Z_app by reflexivity.
    reflexivity.
Defined.
