(* ===== verification/PolicyTypes.v ===== *)
(** * The policy document ([packages/policy-engine/src/types.ts])

    The data that the policy engine works on: the policy document with its
    rules, and the values its operations return.  Field names carry the
    record's prefix; enumerations of string literals are inductive types. *)
From S2P Require Import Prelude.

Inductive action := Allow | Deny.
Inductive rule_scope := Organization | Network.
Inductive icmp := IcmpAllow | IcmpAcl | IcmpDeny.

#[export] Instance action_eq_dec : EqDecision action.
Proof. solve_decision. Defined.
#[export] Instance rule_scope_eq_dec : EqDecision rule_scope.
Proof. solve_decision. Defined.
#[export] Instance icmp_eq_dec : EqDecision icmp.
Proof. solve_decision. Defined.

Record TagDefinition := mkTag { tag_name : string; tag_owners : list string }.

Record HostAlias := mkHostAlias { alias_name : string; alias_target : string }.

Record IpSet := mkIpSet { ipset_name : string; ipset_cidrs : list string }.

Record AclRule := mkAcl {
  acl_name : string;
  acl_slug : option string;
  acl_action : string;
  acl_src : list string;
  acl_dst : list string;
  acl_ports : list string;
  acl_protocol : nullish string;
  acl_priority : Z;
  acl_orderIndex : Z;
  acl_scope : rule_scope;
  acl_posture : list string;
  acl_labels : list (string * string);
  acl_enabled : bool
}.

Record Grant := mkGrant {
  grant_name : string;
  grant_principals : list string;
  grant_capability : string;
  grant_ports : list string;
  grant_protocol : nullish string
}.

Record SshRule := mkSshRule {
  ssh_name : string;
  ssh_src : list string;
  ssh_dst : list string;
  ssh_action : string;
  ssh_users : list string;
  ssh_priority : Z;
  ssh_enabled : bool
}.

Record PostureDefinition := mkPosture {
  posture_name : string;
  posture_assertions : list string
}.

Record AutoApprover := mkAutoApprover {
  approver_name : string;
  approver_route : string;
  approver_principals : list string
}.

Record NodeAttribute := mkNodeAttribute {
  attr_name : string;
  attr_value : string;
  attr_selectors : list string
}.

Record PolicyTest := mkPolicyTest {
  test_name : string;
  test_src : string;
  test_accept : list string;
  test_deny : list string
}.

Record PolicyDocument := mkDocument {
  tags : list TagDefinition;
  host_aliases : list HostAlias;
  ip_sets : list IpSet;
  acls : list AclRule;
  grants : list Grant;
  ssh_rules : list SshRule;
  postures : list PostureDefinition;
  auto_approvers : list AutoApprover;
  node_attributes : list NodeAttribute;
  tests : list PolicyTest;
  default_action : action;
  icmp_policy : icmp
}.

(** The schema's defaults, what [policyDocumentSchema.parse({})] returns. *)
Definition emptyDocument : PolicyDocument :=
  mkDocument [] [] [] [] [] [] [] [] [] [] Allow IcmpAllow.

Definition aclKey (acl : AclRule) : string := default (acl_name acl) (acl_slug acl).

Record ValidationIssue := mkIssue {
  issue_path : option string;
  issue_message : string
}.

Record ValidationResult := mkValidation {
  vr_valid : bool;
  vr_errors : list ValidationIssue;
  vr_warnings : list ValidationIssue
}.

Inductive DiffKind := DiffAdd | DiffChanged | DiffRemove.
#[export] Instance DiffKind_eq_dec : EqDecision DiffKind.
Proof. solve_decision. Defined.

Record DiffChange := mkDiffChange {
  dc_kind : DiffKind;
  dc_entity : string;
  dc_name : string;
  dc_summary : option string
}.

Inductive SimulateReason :=
| org_deny | network_deny | network_allow | default_allow | default_deny
| icmp_policy_reason | posture_skip.
#[export] Instance SimulateReason_eq_dec : EqDecision SimulateReason.
Proof. solve_decision. Defined.

Record SimulateResult := mkSimulateResult {
  sr_verdict : action;
  sr_reason : SimulateReason;
  sr_matchedRules : list string;
  sr_ruleSlug : option string;
  sr_scope : option rule_scope
}.

Record TestCaseResult := mkTestCaseResult {
  tc_name : string;
  tc_passed : bool;
  tc_message : option string
}.

Record TestResults := mkTestResults {
  tr_passed : Z;
  tr_failed : Z;
  tr_results : list TestCaseResult
}.
