(* ===== verification/Selector.v ===== *)
(** * Selectors ([packages/policy-engine/src/selector.ts])

    Parsing of the selector strings of policy rules, resolution of what a
    person types into the simulator, and matching of a parsed selector against
    an endpoint and its tags. *)
From S2P Require Import Prelude PolicyTypes.

Inductive ParsedSelector :=
| SelAny
| SelEndpoint (value : string)
| SelTag (value : string)
| SelNetwork (value : string)
| SelCidr (value : string)
| SelUser (value : string)
| SelHostAlias (value : string)
| SelIpSet (value : string).

#[export] Instance ParsedSelector_eq_dec : EqDecision ParsedSelector.
Proof. solve_decision. Defined.

(** [SelectorParseError], with its message. *)
Record SelectorParseError := mkSelectorParseError { spe_message : string }.

Record EndpointResolveEntry := mkEndpoint {
  ep_endpointId : string;
  ep_name : string
}.

(** [/^[0-9a-fA-F]+$/]. *)
Definition is_hex (c : ascii) : bool :=
  is_digit c || between 97 102 c || between 65 70 c.

Definition isEndpointHex (s : string) : bool :=
  (16 <=? String.length s)%nat && (String.length s <=? 64)%nat && all_units is_hex s.

(** The units of [/^[\d.:a-fA-F/]+$/]. *)
Definition is_cidr_unit (c : ascii) : bool :=
  is_hex c || Ascii.eqb c "."%char || Ascii.eqb c ":"%char || Ascii.eqb c "/"%char.

Definition looksLikeCidr (s : string) : bool :=
  negb (s =? "")%string && all_units is_cidr_unit s && includes s "/".

Definition hasKnownPrefix (s : string) : bool :=
  startsWith s "tag:" || startsWith s "user:" || startsWith s "host:"
  || startsWith s "ipset:" || startsWith s "network:" || startsWith s "machine:"
  || startsWith s "group:".

(** [token.split(/…|\.\.\./)]: below 256 only the three dots can occur. *)
Fixpoint split_ellipsis_aux (acc s : string) (fuel : nat) : list string :=
  match fuel with
  | O => [acc +:+ s]
  | S f =>
      if startsWith s "..." then acc :: split_ellipsis_aux "" (slice 3 s) f
      else match s with
           | EmptyString => [acc]
           | String c r => split_ellipsis_aux (acc +:+ String c "") r f
           end
  end.

Definition split_ellipsis (s : string) : list string :=
  split_ellipsis_aux "" s (S (String.length s)).

Definition matchesShortEndpointId (endpointId short : string) : bool :=
  let id := toLowerCase endpointId in
  let token := toLowerCase (trim short) in
  if (token =? "")%string then false
  else if (id =? token)%string then true
  else
    (match split_ellipsis token with
     | [prefix; suffix] =>
         negb (prefix =? "")%string && negb (suffix =? "")%string
         && startsWith id prefix && endsWith id suffix
     | _ => false
     end)
    || startsWith id token || endsWith id token.

Definition parseSelector (raw : string) : result SelectorParseError ParsedSelector :=
  let s := trim raw in
  if (s =? "")%string then Err (mkSelectorParseError "empty selector")
  else if (s =? "*")%string then Ok SelAny
  else if startsWith s "tag:" then Ok (SelTag (slice 4 s))
  else if startsWith s "user:" then Ok (SelUser (slice 5 s))
  else if startsWith s "network:" then Ok (SelNetwork (slice 8 s))
  else if startsWith s "group:user:" || startsWith s "group:device:" then
    Err (mkSelectorParseError ("unsupported group selector: " +:+ s))
  else if startsWith s "host:" then Ok (SelHostAlias (slice 5 s))
  else if startsWith s "ipset:" then Ok (SelIpSet (slice 6 s))
  else if looksLikeCidr s then Ok (SelCidr s)
  else if isEndpointHex s then Ok (SelEndpoint s)
  else Err (mkSelectorParseError ("invalid selector syntax: " +:+ s)).

(** The ellipsis of the message, a code unit above 255, is three dots here. *)
Definition unknown_selector_message (trimmed : string) : string :=
  "unknown selector " +:+ dquote +:+ trimmed +:+ dquote +:+
  ". Use a machine name, tag:..., network:..., user:..., CIDR, or endpoint id.".

Definition resolveSimulationSelector (raw : string)
    (endpoints : list EndpointResolveEntry) : result SelectorParseError string :=
  let trimmed := trim raw in
  if (trimmed =? "")%string || (trimmed =? "*")%string
     || (toLowerCase trimmed =? "any")%string then Ok "*"
  else if startsWith (toLowerCase trimmed) "machine:" then
    let short := slice (String.length "machine:") trimmed in
    match List.find (fun e => matchesShortEndpointId (ep_endpointId e) short) endpoints with
    | Some e => Ok (ep_endpointId e)
    | None => Err (mkSelectorParseError ("unknown machine selector: " +:+ trimmed))
    end
  else if hasKnownPrefix trimmed || looksLikeCidr trimmed || isEndpointHex trimmed then
    _ ← parseSelector trimmed; Ok trimmed
  else
    match List.find
            (fun e => (toLowerCase (ep_name e) =? toLowerCase trimmed)%string)
            endpoints with
    | Some e => Ok (ep_endpointId e)
    | None => Err (mkSelectorParseError (unknown_selector_message trimmed))
    end.

Definition simulationTags (parsed : ParsedSelector) : list string :=
  match parsed with
  | SelAny | SelEndpoint _ | SelCidr _ => []
  | SelTag v => [v]
  | SelNetwork v => ["network:" +:+ v; v]
  | SelUser v => ["user:" +:+ v; v]
  | SelHostAlias v => ["host:" +:+ v]
  | SelIpSet v => ["ipset:" +:+ v]
  end.

Definition simulationEndpoint (parsed : ParsedSelector) : option string :=
  match parsed with SelEndpoint v => Some v | _ => None end.

Definition includes_tag (tags : list string) (t : string) : bool :=
  bool_decide (t ∈ tags).

Definition selectorMatches (parsed : ParsedSelector) (endpointHex : string)
    (tags : list string) : bool :=
  match parsed with
  | SelAny => true
  | SelEndpoint v => (toLowerCase endpointHex =? toLowerCase v)%string
  | SelTag v => includes_tag tags v
  | SelNetwork v => includes_tag tags ("network:" +:+ v) || includes_tag tags v
  | SelUser v => includes_tag tags ("user:" +:+ v) || includes_tag tags v
  | SelHostAlias v => includes_tag tags ("host:" +:+ v)
  | SelIpSet v => includes_tag tags ("ipset:" +:+ v)
  | SelCidr _ => false
  end.

(** ** Lemmas *)
Lemma parseSelector_trim raw : parseSelector (trim raw) = parseSelector raw.
Proof. unfold parseSelector. by rewrite (trim_trimmed raw). Qed.

(** How a selector value is written. *)
Definition prefix_of (p : ParsedSelector) : string :=
  match p with
  | SelAny => "*" | SelEndpoint _ | SelCidr _ => ""
  | SelTag _ => "tag:" | SelNetwork _ => "network:" | SelUser _ => "user:"
  | SelHostAlias _ => "host:" | SelIpSet _ => "ipset:"
  end.

Definition value_of (p : ParsedSelector) : string :=
  match p with
  | SelAny => ""
  | SelEndpoint v | SelTag v | SelNetwork v | SelCidr v | SelUser v
  | SelHostAlias v | SelIpSet v => v
  end.

Definition print_selector (p : ParsedSelector) : string := prefix_of p +:+ value_of p.

(** A selector that can be the result of parsing. *)
Definition selector_wf (p : ParsedSelector) : bool :=
  match p with
  | SelAny => true
  | SelEndpoint v => isEndpointHex v
  | SelCidr v => looksLikeCidr v
  | _ => bool_decide (trimEnd (value_of p) = value_of p)
  end.

Lemma hex_cidr_unit c : is_hex c = true -> is_cidr_unit c = true.
Proof. unfold is_cidr_unit. by intros ->. Qed.

Lemma cidr_unit_not_space c : is_cidr_unit c = true -> is_space c = false.
Proof. by destruct c as [[] [] [] [] [] [] [] []]. Qed.

Lemma trimmed_all_units s : all_units is_cidr_unit s = true -> trimmed s.
Proof.
  intros H. unfold trimmed, trim.
  assert (trimStart s = s) as ->.
  { destruct s as [|c s]; [done|]. apply andb_prop in H as [H _]. cbn.
    by rewrite cidr_unit_not_space. }
  induction s as [|c s IH]; [done|]. cbn in *. apply andb_prop in H as [Hc H].
  rewrite IH by done. rewrite (cidr_unit_not_space c Hc). by destruct s.
Qed.

Lemma cidr_units_no_keyword s p :
  all_units is_cidr_unit p = false -> all_units is_cidr_unit s = true ->
  startsWith s p = false.
Proof.
  intros Hp Hs. destruct (startsWith s p) eqn:E; [|done].
  apply startsWith_iff in E as [r ->]. exfalso. revert Hp Hs.
  induction p as [|c p IH]; [done|]. rewrite app_String; cbn.
  destruct (is_cidr_unit c); cbn; [auto | done].
Qed.

Lemma parse_cidr_units s :
  all_units is_cidr_unit s = true -> s <> "" ->
  parseSelector s =
    if looksLikeCidr s then Ok (SelCidr s)
    else if isEndpointHex s then Ok (SelEndpoint s)
    else Err (mkSelectorParseError ("invalid selector syntax: " +:+ s)).
Proof.
  intros Hs Hne. unfold parseSelector. rewrite (trimmed_all_units s Hs).
  rewrite !(cidr_units_no_keyword s) by done.
  destruct (String.eqb_spec s ""); [done|]. by destruct (String.eqb_spec s "*") as [->|].
Qed.

Lemma looksLikeCidr_units s : looksLikeCidr s = true -> all_units is_cidr_unit s = true /\ s <> "".
Proof.
  unfold looksLikeCidr. intros [[Hne Hu]%andb_prop _]%andb_prop. split; [done|].
  by intros ->.
Qed.

Lemma isEndpointHex_units s : isEndpointHex s = true -> all_units is_hex s = true /\ s <> "".
Proof.
  unfold isEndpointHex. intros [[Hl _]%andb_prop Hu]%andb_prop. split; [done|].
  by intros ->.
Qed.

Lemma includes_slash s : all_units is_hex s = true -> includes s "/" = false.
Proof.
  induction s as [|c s IH]; [done|]. cbn. intros [Hc Hs]%andb_prop.
  destruct (Ascii.eqb_spec "/" c) as [<-|]; [done|]. by rewrite IH.
Qed.

Lemma hex_not_cidr s : all_units is_hex s = true -> looksLikeCidr s = false.
Proof. intros H. unfold looksLikeCidr. rewrite (includes_slash s H). by rewrite andb_false_r. Qed.

Lemma parse_endpoint v : isEndpointHex v = true -> parseSelector v = Ok (SelEndpoint v).
Proof.
  intros H. destruct (isEndpointHex_units v H) as [Hu Hne].
  rewrite parse_cidr_units by eauto using all_units_impl, hex_cidr_unit.
  by rewrite hex_not_cidr, H.
Qed.

Lemma parse_cidr v : looksLikeCidr v = true -> parseSelector v = Ok (SelCidr v).
Proof.
  intros H. destruct (looksLikeCidr_units v H) as [Hu Hne].
  rewrite parse_cidr_units by done. by rewrite H.
Qed.

Lemma trimmed_prefixed p v :
  match p with SelTag _ | SelNetwork _ | SelUser _ | SelHostAlias _ | SelIpSet _ => True
             | _ => False end ->
  trimEnd v = v -> trim (prefix_of p +:+ v) = prefix_of p +:+ v.
Proof. destruct p; cbn [prefix_of]; try done; intros _ Hv; by apply trimmed_app. Qed.

Lemma print_parse p : selector_wf p = true -> parseSelector (print_selector p) = Ok p.
Proof.
  unfold print_selector. destruct p as [|v|v|v|v|v|v|v]; cbn [selector_wf value_of];
    intros H; try (apply bool_decide_eq_true in H).
  1: done.
  1: { cbn [prefix_of]. rewrite app_Empty_l. by apply parse_endpoint. }
  3: { cbn [prefix_of]. rewrite app_Empty_l. by apply parse_cidr. }
  all: unfold parseSelector; rewrite trimmed_prefixed by done; cbn [prefix_of];
    rewrite !app_String, app_Empty_l; done.
Qed.

Lemma prefixed_slice k t (mk : string -> ParsedSelector) :
  trimEnd k = k -> trimEnd t = t -> startsWith t k = true ->
  (forall v, prefix_of (mk v) = k /\ value_of (mk v) = v
             /\ selector_wf (mk v) = bool_decide (trimEnd v = v)) ->
  selector_wf (mk (slice (String.length k) t)) = true
  /\ print_selector (mk (slice (String.length k) t)) = t.
Proof.
  intros Hk Ht [v ->]%startsWith_iff Hmk. rewrite slice_app.
  destruct (Hmk v) as (Hp & Hv & ->). unfold print_selector. rewrite Hp, Hv.
  split; [|done]. apply bool_decide_eq_true. rewrite trimEnd_app in Ht by done.
  by apply app_inj_l in Ht.
Qed.

(** Parsing only returns well-formed selectors, and what it returns prints
    back to the trimmed input. *)
Lemma parse_print s p :
  parseSelector s = Ok p -> selector_wf p = true /\ print_selector p = trim s.
Proof.
  intros H. unfold parseSelector in H.
  assert (trimEnd (trim s) = trim s) as Ht by apply trimEnd_idemp.
  destruct (String.eqb_spec (trim s) ""); [done|].
  destruct (String.eqb_spec (trim s) "*"); [by simplify_eq|].
  repeat match type of H with
  | (if startsWith ?t ?k then _ else _) = _ =>
      destruct (startsWith t k) eqn:E;
      [injection H as <-; by apply (prefixed_slice k)|]; clear E
  | (if ?b then _ else _) = _ => destruct b eqn:?
  end; simplify_eq; cbn; unfold print_selector; cbn; rewrite ?app_Empty_l; done.
Qed.

Lemma find_endpoint_hex f endpoints e :
  Forall (fun e => isEndpointHex (ep_endpointId e) = true) endpoints ->
  List.find f endpoints = Some e -> isEndpointHex (ep_endpointId e) = true.
Proof.
  intros Hall [Hin _]%List.find_some. rewrite List.Forall_forall in Hall. auto.
Qed.

(** ** Properties *)

(** the selector parser accepts exactly the well-formed selectors: it
    returns [p] on [s] if and only if [p] is well formed and its canonical
    text is [s] without the surrounding white space.  Parsing and printing are
    thus inverse to each other. *)
Theorem parseSelector_spec (s : string) (p : ParsedSelector) :
  parseSelector s = Ok p <-> selector_wf p = true /\ print_selector p = trim s.
Proof.
  split; [apply parse_print|].
  intros [Hwf Hp]. rewrite <- parseSelector_trim, <- Hp. by apply print_parse.
Qed.

(** whatever a person types into the simulator, what the resolver returns
    is a selector the parser accepts, provided the endpoint ids of the
    organization are hexadecimal ids. *)
Theorem resolveSimulationSelector_parses (raw s : string)
    (endpoints : list EndpointResolveEntry) :
  Forall (fun e => isEndpointHex (ep_endpointId e) = true) endpoints ->
  resolveSimulationSelector raw endpoints = Ok s ->
  exists p, parseSelector s = Ok p.
Proof.
  intros Hall H. unfold resolveSimulationSelector in H.
  repeat (case_match; simplify_eq); inv_ok;
    eauto using parse_endpoint, find_endpoint_hex.
Qed.

Definition sample_endpoints : list EndpointResolveEntry :=
  [mkEndpoint "aabbccddeeff00112233445566778899" "CTL";
   mkEndpoint "11223344556677889900aabbccddeeff" "DESKTOP-T85DJLS"].

Lemma resolveSimulationSelector_parses_witness :
  resolveSimulationSelector " desktop-t85djls" sample_endpoints
    = Ok "11223344556677889900aabbccddeeff"
  /\ exists p, parseSelector "11223344556677889900aabbccddeeff" = Ok p.
Proof.
  split; [reflexivity|].
  apply (resolveSimulationSelector_parses " desktop-t85djls" _ sample_endpoints).
  - repeat constructor.
  - reflexivity.
Defined.
