(* ===== verification/Simulate.v ===== *)
(** * Policy simulation ([packages/policy-engine/src/simulate.ts])

    A document is compiled to a list of rules with one source and one
    destination selector each; a scenario is decided by three phases in order
    (organization deny, network deny, network allow), each phase taking the
    first matching rule by order index and priority, and by the document's
    default action when no phase decides.  A rule that requires a posture the
    source device does not have is skipped; the first skipped rule is
    remembered in the [postureSkip] cell, which the model threads through the
    phases. *)
From S2P Require Import Prelude PolicyTypes Selector.

Record port_range := mkRange { range_start : Z; range_end : Z }.
#[export] Instance port_range_eq_dec : EqDecision port_range.
Proof. solve_decision. Defined.

Inductive protocol := ProtoTcp | ProtoUdp | ProtoIcmp | ProtoAny.
#[export] Instance protocol_eq_dec : EqDecision protocol.
Proof. solve_decision. Defined.

Record CompiledRule := mkRule {
  cr_name : string;
  cr_action : action;
  cr_scope : rule_scope;
  cr_srcSelectors : list ParsedSelector;
  cr_dstSelectors : list ParsedSelector;
  cr_ports : list port_range;
  cr_protocol : protocol;
  cr_priority : Z;
  cr_orderIndex : Z;
  cr_posture : list string;
  cr_enabled : bool
}.
#[export] Instance CompiledRule_eq_dec : EqDecision CompiledRule.
Proof. solve_decision. Defined.

(** One iteration of the loop of [parsePorts]. *)
Definition parsePort (spec : string) : list port_range :=
  match parseInt spec with
  | Some single => [mkRange single single]
  | None =>
      match split_unit "-"%char spec with
      | [a; b] =>
          match parseInt a, parseInt b with
          | Some start, Some end_ => [mkRange start end_]
          | _, _ => []
          end
      | _ => []
      end
  end.

Definition parsePorts (specs : list string) : list port_range :=
  concat (map parsePort specs).

Definition parseProtocol (proto : string) : protocol :=
  let p := toLowerCase proto in
  if (p =? "tcp")%string then ProtoTcp
  else if (p =? "udp")%string then ProtoUdp
  else if (p =? "icmp")%string then ProtoIcmp
  else ProtoAny.

(** [acl.protocol ? parseProtocol(acl.protocol) : "any"]: a missing, null or
    empty protocol is any. *)
Definition acl_parsed_protocol (acl : AclRule) : protocol :=
  match acl_protocol acl with
  | Value p => if (p =? "")%string then ProtoAny else parseProtocol p
  | _ => ProtoAny
  end.

Definition compileRule (acl : AclRule) (src dst : string)
    : result SelectorParseError CompiledRule :=
  s ← parseSelector src;
  d ← parseSelector dst;
  Ok (mkRule (aclKey acl)
        (if (acl_action acl =? "deny")%string then Deny else Allow)
        (acl_scope acl) [s] [d] (parsePorts (acl_ports acl))
        (acl_parsed_protocol acl) (acl_priority acl) (acl_orderIndex acl)
        (acl_posture acl) (acl_enabled acl)).

Definition or_any (l : list string) : list string :=
  match l with [] => ["*"] | _ => l end.

(** The nested loops over the sources and destinations of one rule. *)
Definition compileAcl (acl : AclRule) : result SelectorParseError (list CompiledRule) :=
  mapR (fun '(src, dst) => compileRule acl src dst)
    (concat (map (fun src => map (pair src) (or_any (acl_dst acl)))
       (or_any (acl_src acl)))).

Definition compileRules (doc : PolicyDocument)
    : result SelectorParseError (list CompiledRule) :=
  rss ← mapR compileAcl (List.filter acl_enabled (acls doc));
  Ok (concat rss).

Definition endpointForSelector (sel : ParsedSelector) : string :=
  default "aaaaaaaaaaaaaaaaaaaaaaaaaaaaaaaaaaaaaaaaaaaaaaaaaaaaaaaaaaaaaaaa"
    (simulationEndpoint sel).

Definition tagsForSelector (sel : ParsedSelector) : list string := simulationTags sel.

Definition in_range (port : Z) (r : port_range) : bool :=
  (range_start r <=? port)%Z && (port <=? range_end r)%Z.

Definition portMatches (ports : list port_range) (port : option Z) (proto : protocol) : bool :=
  match ports with
  | [] => true
  | _ =>
      if bool_decide (proto = ProtoIcmp) then true
      else match port with
           | None => false
           | Some p => existsb (in_range p) ports
           end
  end.

(** The traffic a scenario asks about, as [evaluateRules] passes it. *)
Record traffic := mkTraffic {
  tf_srcEndpoint : string;
  tf_srcTags : list string;
  tf_dstEndpoint : string;
  tf_dstTags : list string;
  tf_port : option Z;
  tf_proto : protocol
}.

Definition ruleMatches (rule : CompiledRule) (t : traffic) : bool :=
  let srcMatch :=
    existsb (fun sel => selectorMatches sel (tf_srcEndpoint t) (tf_srcTags t))
      (cr_srcSelectors rule) in
  let dstMatch :=
    existsb (fun sel => selectorMatches sel (tf_dstEndpoint t) (tf_dstTags t))
      (cr_dstSelectors rule) in
  if negb srcMatch || negb dstMatch then false
  else if bool_decide (cr_protocol rule <> ProtoAny)
          && bool_decide (cr_protocol rule <> tf_proto t) then false
  else portMatches (cr_ports rule) (tf_port t) (tf_proto t).

Definition phaseResult (rule : CompiledRule) (reason : SimulateReason) : SimulateResult :=
  mkSimulateResult (cr_action rule) reason [cr_name rule] (Some (cr_name rule))
    (Some (cr_scope rule)).

(** [a.orderIndex - b.orderIndex || a.priority - b.priority], as "[a] comes no
    later than [b]". *)
Definition rule_le (a b : CompiledRule) : bool :=
  (cr_orderIndex a <? cr_orderIndex b)%Z
  || ((cr_orderIndex a =? cr_orderIndex b)%Z && (cr_priority a <=? cr_priority b)%Z).

Definition needs_posture (r : CompiledRule) : bool :=
  match cr_posture r with [] => false | _ => true end.

Definition in_phase (scope : rule_scope) (act : action) (r : CompiledRule) : bool :=
  cr_enabled r && bool_decide (cr_scope r = scope) && bool_decide (cr_action r = act).

(** The loop of [firstInPhase] over the sorted candidates: the rule found, and
    the [postureSkip] cell after the loop. *)
Fixpoint firstInPhase_loop (candidates : list CompiledRule) (matches : CompiledRule -> bool)
    (srcPostureOk : bool) (skip : option CompiledRule)
    : option CompiledRule * option CompiledRule :=
  match candidates with
  | [] => (None, skip)
  | rule :: rest =>
      if negb (matches rule) then firstInPhase_loop rest matches srcPostureOk skip
      else if needs_posture rule && negb srcPostureOk then
        firstInPhase_loop rest matches srcPostureOk
          (match skip with None => Some rule | Some _ => skip end)
      else (Some rule, skip)
  end.

Definition firstInPhase (rules : list CompiledRule) (scope : rule_scope) (act : action)
    (matches : CompiledRule -> bool) (srcPostureOk : bool) (skip : option CompiledRule)
    : option CompiledRule * option CompiledRule :=
  firstInPhase_loop (sort_by rule_le (List.filter (in_phase scope act) rules))
    matches srcPostureOk skip.

Definition default_result (defaultAction : action) : SimulateResult :=
  mkSimulateResult defaultAction
    (match defaultAction with Allow => default_allow | Deny => default_deny end)
    [] None None.

Definition icmp_result (verdict : action) : SimulateResult :=
  mkSimulateResult verdict icmp_policy_reason ["builtin:icmp"] None None.

(** The phases of [evaluateRules], after the ICMP shortcut. *)
Definition evaluatePhases (rules : list CompiledRule) (matches : CompiledRule -> bool)
    (defaultAction : action) (srcPostureOk : bool) : SimulateResult :=
  let '(orgDeny, skip1) := firstInPhase rules Organization Deny matches srcPostureOk None in
  match orgDeny with
  | Some r => phaseResult r org_deny
  | None =>
  let '(netDeny, skip2) := firstInPhase rules Network Deny matches srcPostureOk skip1 in
  match netDeny with
  | Some r => phaseResult r network_deny
  | None =>
  let '(netAllow, skip3) := firstInPhase rules Network Allow matches srcPostureOk skip2 in
  match netAllow with
  | Some r => phaseResult r network_allow
  | None =>
  match skip3 with
  | Some r =>
      mkSimulateResult defaultAction posture_skip [cr_name r] (Some (cr_name r))
        (Some (cr_scope r))
  | None => default_result defaultAction
  end end end end.

Definition evaluateRules (rules : list CompiledRule)
    (srcEndpoint : string) (srcTags : list string)
    (dstEndpoint : string) (dstTags : list string)
    (port : option Z) (proto : string) (defaultAction : action)
    (icmpPolicy : icmp) (srcPostureOk : bool) : SimulateResult :=
  let parsedProto := parseProtocol proto in
  let t := mkTraffic srcEndpoint srcTags dstEndpoint dstTags port parsedProto in
  let phases := evaluatePhases rules (fun rule => ruleMatches rule t)
                  defaultAction srcPostureOk in
  match parsedProto, icmpPolicy with
  | ProtoIcmp, IcmpAllow => icmp_result Allow
  | ProtoIcmp, IcmpDeny => icmp_result Deny
  | _, _ => phases
  end.

Record scenario := mkScenario {
  sc_src : string;
  sc_dst : string;
  sc_port : option Z;
  sc_protocol : option string;
  sc_srcPostureOk : option bool
}.

Definition simulateDocument (doc : PolicyDocument) (sc : scenario)
    : result SelectorParseError SimulateResult :=
  rules ← compileRules doc;
  srcSel ← parseSelector (sc_src sc);
  dstSel ← parseSelector (sc_dst sc);
  Ok (evaluateRules rules
        (endpointForSelector srcSel) (tagsForSelector srcSel)
        (endpointForSelector dstSel) (tagsForSelector dstSel)
        (sc_port sc) (default "tcp" (sc_protocol sc))
        (default_action doc) (icmp_policy doc)
        (default true (sc_srcPostureOk sc))).

(** ** The phases, declaratively *)

(** A rule takes effect when no posture is required or the source has it. *)
Definition effective (srcPostureOk : bool) (r : CompiledRule) : bool :=
  negb (needs_posture r) || srcPostureOk.

Section Phases.
Context (rules : list CompiledRule) (matches : CompiledRule -> bool).
Context (srcPostureOk : bool) (defaultAction : action).

(** Some rule of the scope and action matches and takes effect. *)
Definition decided (scope : rule_scope) (act : action) : Prop :=
  exists r, r ∈ rules /\ in_phase scope act r = true /\ matches r = true
            /\ effective srcPostureOk r = true.

(** Some rule of the scope and action matches, whether or not the posture it
    requires is met. *)
Definition mentioned (scope : rule_scope) (act : action) : Prop :=
  exists r, r ∈ rules /\ in_phase scope act r = true /\ matches r = true.

(** What the phases promise: the strongest phase with an effective match
    decides, and the default action otherwise. *)
Inductive verdict_spec : action -> SimulateReason -> Prop :=
| verdict_org_deny :
    decided Organization Deny -> verdict_spec Deny org_deny
| verdict_network_deny :
    ~ decided Organization Deny -> decided Network Deny ->
    verdict_spec Deny network_deny
| verdict_network_allow :
    ~ decided Organization Deny -> ~ decided Network Deny -> decided Network Allow ->
    verdict_spec Allow network_allow
| verdict_posture_skip :
    ~ decided Organization Deny -> ~ decided Network Deny -> ~ decided Network Allow ->
    (mentioned Organization Deny \/ mentioned Network Deny \/ mentioned Network Allow) ->
    verdict_spec defaultAction posture_skip
| verdict_default :
    ~ mentioned Organization Deny -> ~ mentioned Network Deny -> ~ mentioned Network Allow ->
    verdict_spec defaultAction (sr_reason (default_result defaultAction)).

Lemma decided_mentioned scope act : decided scope act -> mentioned scope act.
Proof. unfold decided, mentioned. naive_solver. Qed.

Lemma verdict_spec_functional a1 r1 a2 r2 :
  verdict_spec a1 r1 -> verdict_spec a2 r2 -> a1 = a2 /\ r1 = r2.
Proof.
  pose proof decided_mentioned. destruct 1, 1; try done; naive_solver.
Qed.
End Phases.

Lemma firstInPhase_loop_found c m ok skip :
  fst (firstInPhase_loop c m ok skip) = List.find (fun r => m r && effective ok r) c.
Proof.
  revert skip; induction c as [|r c IH]; intros skip; cbn; [done|].
  unfold effective in *. destruct (m r); cbn; [|done].
  destruct (needs_posture r), ok; cbn; done.
Qed.

Lemma firstInPhase_loop_skip c m ok skip :
  fst (firstInPhase_loop c m ok skip) = None ->
  snd (firstInPhase_loop c m ok skip)
    = match skip with Some _ => skip | None => List.find m c end.
Proof.
  revert skip; induction c as [|r c IH]; intros skip; cbn; [by destruct skip|].
  destruct (m r); cbn; [|auto].
  destruct (needs_posture r && negb ok); cbn; [|done].
  intros H. rewrite (IH _ H). by destruct skip.
Qed.

Lemma rule_le_total x y : rule_le x y = true \/ rule_le y x = true.
Proof. unfold rule_le. lia. Qed.

Lemma rule_le_trans x y z : rule_le x y = true -> rule_le y z = true -> rule_le x z = true.
Proof. unfold rule_le. lia. Qed.

Section FirstInPhase.
Context (rules : list CompiledRule) (scope : rule_scope) (act : action).
Context (m : CompiledRule -> bool) (ok : bool) (skip : option CompiledRule).

Lemma elem_of_candidates r :
  r ∈ sort_by rule_le (List.filter (in_phase scope act) rules)
  <-> r ∈ rules /\ in_phase scope act r = true.
Proof. by rewrite elem_of_sort_by, list_elem_of_In, List.filter_In, <- list_elem_of_In. Qed.

Lemma firstInPhase_Some r :
  fst (firstInPhase rules scope act m ok skip) = Some r ->
  r ∈ rules /\ in_phase scope act r = true /\ m r = true /\ effective ok r = true
  /\ forall r', r' ∈ rules -> in_phase scope act r' = true -> m r' = true ->
       effective ok r' = true -> rule_le r r' = true.
Proof.
  unfold firstInPhase. rewrite firstInPhase_loop_found. intros Hf.
  apply (find_sort_by _ rule_le_total rule_le_trans) in Hf as (Hin & Hp & Hmin & _).
  rewrite list_elem_of_In, List.filter_In, <- list_elem_of_In in Hin.
  apply andb_prop in Hp as [Hm He]. destruct Hin as [Hin Hph]. split_and!; try done.
  intros r' Hin' Hph' Hm' He'. apply Hmin; [|by rewrite Hm', He'].
  by rewrite list_elem_of_In, List.filter_In, <- list_elem_of_In.
Qed.

Lemma firstInPhase_decided :
  is_Some (fst (firstInPhase rules scope act m ok skip)) <-> decided rules m ok scope act.
Proof.
  unfold firstInPhase. rewrite firstInPhase_loop_found, find_is_Some.
  unfold decided. setoid_rewrite elem_of_candidates. setoid_rewrite andb_true_iff.
  naive_solver.
Qed.

Lemma firstInPhase_None :
  fst (firstInPhase rules scope act m ok skip) = None <-> ~ decided rules m ok scope act.
Proof. rewrite <- firstInPhase_decided. by rewrite <- eq_None_not_Some. Qed.

Lemma firstInPhase_skip :
  fst (firstInPhase rules scope act m ok skip) = None ->
  is_Some (snd (firstInPhase rules scope act m ok skip))
    <-> is_Some skip \/ mentioned rules m scope act.
Proof.
  unfold firstInPhase. intros H. rewrite firstInPhase_loop_skip by done.
  destruct skip; [naive_solver|]. rewrite find_is_Some.
  setoid_rewrite elem_of_candidates. unfold mentioned.
  split; [naive_solver|]. intros [[? ?]|]; naive_solver.
Qed.
End FirstInPhase.

Lemma in_phase_action scope act r : in_phase scope act r = true -> cr_action r = act.
Proof. unfold in_phase. rewrite !andb_true_iff, !bool_decide_eq_true. naive_solver. Qed.

Lemma firstInPhase_action rules scope act m ok skip r :
  fst (firstInPhase rules scope act m ok skip) = Some r -> cr_action r = act.
Proof. intros (_ & H & _)%firstInPhase_Some. by eapply in_phase_action. Qed.

Lemma firstInPhase_Some_decided rules scope act m ok skip r :
  fst (firstInPhase rules scope act m ok skip) = Some r -> decided rules m ok scope act.
Proof. intros H. apply (firstInPhase_decided _ _ _ _ _ skip). by rewrite H. Qed.

Lemma evaluatePhases_verdict rules m da ok :
  verdict_spec rules m ok da
    (sr_verdict (evaluatePhases rules m da ok)) (sr_reason (evaluatePhases rules m da ok)).
Proof.
  unfold evaluatePhases.
  destruct (firstInPhase rules Organization Deny m ok None) as [o1 s1] eqn:E1.
  destruct (firstInPhase rules Network Deny m ok s1) as [o2 s2] eqn:E2.
  destruct (firstInPhase rules Network Allow m ok s2) as [o3 s3] eqn:E3.
  pose proof (firstInPhase_skip rules Organization Deny m ok None) as K1.
  pose proof (firstInPhase_skip rules Network Deny m ok s1) as K2.
  pose proof (firstInPhase_skip rules Network Allow m ok s2) as K3.
  pose proof (firstInPhase_None rules Organization Deny m ok None) as N1.
  pose proof (firstInPhase_None rules Network Deny m ok s1) as N2.
  pose proof (firstInPhase_None rules Network Allow m ok s2) as N3.
  rewrite E1 in K1, N1. rewrite E2 in K2, N2. rewrite E3 in K3, N3. cbn in *.
  destruct o1 as [r1|]; cbn.
  { apply (f_equal fst) in E1; cbn in E1. rewrite (firstInPhase_action _ _ _ _ _ _ _ E1).
    eauto using verdict_org_deny, firstInPhase_Some_decided. }
  apply proj1 in N1. specialize (N1 eq_refl). specialize (K1 eq_refl).
  destruct o2 as [r2|]; cbn.
  { apply (f_equal fst) in E2; cbn in E2. rewrite (firstInPhase_action _ _ _ _ _ _ _ E2).
    eauto using verdict_network_deny, firstInPhase_Some_decided. }
  apply proj1 in N2. specialize (N2 eq_refl). specialize (K2 eq_refl).
  destruct o3 as [r3|]; cbn.
  { apply (f_equal fst) in E3; cbn in E3. rewrite (firstInPhase_action _ _ _ _ _ _ _ E3).
    eauto using verdict_network_allow, firstInPhase_Some_decided. }
  apply proj1 in N3. specialize (N3 eq_refl). specialize (K3 eq_refl).
  rewrite K2, K1 in K3. destruct s3 as [r|]; cbn.
  - apply verdict_posture_skip; try done. destruct (proj1 K3) as [[[[? ?]|]|]|]; eauto.
    done.
  - assert (~ is_Some (None : option CompiledRule)) as Hn by (by intros []).
    destruct da; apply verdict_default; rewrite K3 in Hn; tauto.
Qed.

(** Verdict and reason depend only on which rules decide and are mentioned. *)
Lemma evaluatePhases_unique rules m da ok a r :
  verdict_spec rules m ok da a r ->
  sr_verdict (evaluatePhases rules m da ok) = a
  /\ sr_reason (evaluatePhases rules m da ok) = r.
Proof. intros H. eapply verdict_spec_functional; [apply evaluatePhases_verdict | done]. Qed.

Lemma verdict_spec_ext rules rules' m ok da a r :
  (forall scope act, (scope, act) <> (Organization, Allow) ->
     (mentioned rules m scope act <-> mentioned rules' m scope act)
     /\ (decided rules m ok scope act <-> decided rules' m ok scope act)) ->
  verdict_spec rules m ok da a r -> verdict_spec rules' m ok da a r.
Proof.
  intros H.
  destruct (H Organization Deny) as [M1 D1]; [done|].
  destruct (H Network Deny) as [M2 D2]; [done|].
  destruct (H Network Allow) as [M3 D3]; [done|].
  destruct 1; rewrite ?M1, ?M2, ?M3, ?D1, ?D2, ?D3 in *; by econstructor.
Qed.

(** ** Compilation *)
Lemma elem_of_pairs (acl : AclRule) s d :
  (s, d) ∈ concat (map (fun src => map (pair src) (or_any (acl_dst acl))) (or_any (acl_src acl)))
  <-> s ∈ or_any (acl_src acl) /\ d ∈ or_any (acl_dst acl).
Proof.
  rewrite elem_of_concat_map. setoid_rewrite list_elem_of_In. setoid_rewrite List.in_map_iff.
  naive_solver.
Qed.

(** The compiled rules: one per enabled rule, source and destination. *)
Lemma elem_of_compileRules doc rules r :
  compileRules doc = Ok rules ->
  r ∈ rules <->
  exists acl src dst, acl ∈ acls doc /\ acl_enabled acl = true
    /\ src ∈ or_any (acl_src acl) /\ dst ∈ or_any (acl_dst acl)
    /\ compileRule acl src dst = Ok r.
Proof.
  unfold compileRules. intros H. inv_ok. rename select (mapR _ _ = _) into Hm.
  rewrite <- (map_id x), elem_of_concat_map. unfold id. split.
  - intros (rs & (acl & [Hacl Hen]%elem_of_filter_bool & Hc)%(mapR_elem _ _ _ _ Hm) & Hr).
    apply (mapR_elem _ _ _ _ Hc) in Hr as ([src dst] & [??]%elem_of_pairs & Hr).
    naive_solver.
  - intros (acl & src & dst & Hacl & Hen & Hs & Hd & Hr).
    destruct (mapR_elem_Ok _ _ _ acl Hm) as [rs Hrs]; [by apply elem_of_filter_bool|].
    exists rs. split.
    + apply (mapR_elem _ _ _ _ Hm). exists acl. by rewrite elem_of_filter_bool.
    + apply (mapR_elem _ _ _ _ Hrs). exists (src, dst). by rewrite elem_of_pairs.
Qed.

Lemma compileRule_Ok_iff acl src dst :
  (exists r, compileRule acl src dst = Ok r)
  <-> (exists p, parseSelector src = Ok p) /\ (exists p, parseSelector dst = Ok p).
Proof.
  unfold compileRule. split.
  - intros [r H]. inv_ok. eauto.
  - intros [[p ->] [q ->]]. cbn. eauto.
Qed.

Lemma or_any_cons l : exists x r, or_any l = x :: r.
Proof. destruct l; cbn; eauto. Qed.

Lemma compileAcl_Ok_iff acl :
  (exists rs, compileAcl acl = Ok rs)
  <-> forall s, s ∈ or_any (acl_src acl) ++ or_any (acl_dst acl) ->
        exists p, parseSelector s = Ok p.
Proof.
  unfold compileAcl. rewrite mapR_Ok_iff, List.Forall_forall.
  setoid_rewrite <- list_elem_of_In. setoid_rewrite elem_of_app. split.
  - intros H s Hs.
    destruct (or_any_cons (acl_src acl)) as (s0 & ss & Es).
    destruct (or_any_cons (acl_dst acl)) as (d0 & ds & Ed).
    assert (s0 ∈ or_any (acl_src acl)) as H1 by (rewrite Es; left).
    assert (d0 ∈ or_any (acl_dst acl)) as H2 by (rewrite Ed; left).
    destruct Hs as [Hs|Hs].
    + specialize (H (s, d0)). cbn in H. rewrite elem_of_pairs, compileRule_Ok_iff in H. naive_solver.
    + specialize (H (s0, s)). cbn in H. rewrite elem_of_pairs, compileRule_Ok_iff in H. naive_solver.
  - intros H [s d] [??]%elem_of_pairs. apply compileRule_Ok_iff. split; apply H; auto.
Qed.

(** Every selector of an enabled rule of the document parses. *)
Definition enabled_selectors_parse (doc : PolicyDocument) : Prop :=
  forall acl s, acl ∈ acls doc -> acl_enabled acl = true ->
    s ∈ or_any (acl_src acl) ++ or_any (acl_dst acl) -> exists p, parseSelector s = Ok p.

Lemma compileRules_Ok_iff doc :
  (exists rules, compileRules doc = Ok rules) <-> enabled_selectors_parse doc.
Proof.
  unfold compileRules, enabled_selectors_parse.
  transitivity (exists rss, mapR compileAcl (List.filter acl_enabled (acls doc)) = Ok rss).
  { split; [intros [rules H]; inv_ok; eauto | intros [rss ->]; cbn; eauto]. }
  rewrite mapR_Ok_iff, List.Forall_forall. setoid_rewrite <- list_elem_of_In.
  setoid_rewrite elem_of_filter_bool. setoid_rewrite compileAcl_Ok_iff. naive_solver.
Qed.

Lemma simulateDocument_Ok_inv doc sc res :
  simulateDocument doc sc = Ok res ->
  exists rules src dst,
    compileRules doc = Ok rules /\ parseSelector (sc_src sc) = Ok src
    /\ parseSelector (sc_dst sc) = Ok dst
    /\ res = evaluateRules rules (endpointForSelector src) (tagsForSelector src)
               (endpointForSelector dst) (tagsForSelector dst) (sc_port sc)
               (default "tcp" (sc_protocol sc)) (default_action doc) (icmp_policy doc)
               (default true (sc_srcPostureOk sc)).
Proof. unfold simulateDocument. intros H. inv_ok. naive_solver. Qed.

(** The ICMP policy answers before the rules are looked at. *)
Definition icmp_shortcut (proto : string) (ip : icmp) : bool :=
  bool_decide (parseProtocol proto = ProtoIcmp) && negb (bool_decide (ip = IcmpAcl)).

Lemma evaluateRules_phases rules se st de dt port proto da ip ok :
  icmp_shortcut proto ip = false ->
  evaluateRules rules se st de dt port proto da ip ok
  = evaluatePhases rules
      (fun rule => ruleMatches rule (mkTraffic se st de dt port (parseProtocol proto))) da ok.
Proof. unfold icmp_shortcut, evaluateRules. by destruct (parseProtocol proto), ip. Qed.

Lemma evaluateRules_shortcut rules rules' se st de dt port proto da ip ok :
  icmp_shortcut proto ip = true ->
  evaluateRules rules se st de dt port proto da ip ok
  = evaluateRules rules' se st de dt port proto da ip ok.
Proof. unfold icmp_shortcut, evaluateRules. by destruct (parseProtocol proto), ip. Qed.

(** The rules only matter through which of the three phases they decide and
    mention. *)
Lemma evaluateRules_ext rules rules' se st de dt port proto da ip ok :
  (forall m scope act, (scope, act) <> (Organization, Allow) ->
     (mentioned rules m scope act <-> mentioned rules' m scope act)
     /\ (decided rules m ok scope act <-> decided rules' m ok scope act)) ->
  sr_verdict (evaluateRules rules se st de dt port proto da ip ok)
    = sr_verdict (evaluateRules rules' se st de dt port proto da ip ok)
  /\ sr_reason (evaluateRules rules se st de dt port proto da ip ok)
    = sr_reason (evaluateRules rules' se st de dt port proto da ip ok).
Proof.
  intros H. destruct (icmp_shortcut proto ip) eqn:E.
  - by rewrite (evaluateRules_shortcut rules rules').
  - rewrite !evaluateRules_phases by done. apply evaluatePhases_unique.
    eapply verdict_spec_ext; [|apply evaluatePhases_verdict].
    intros. edestruct H; [done|]. split; by symmetry.
Qed.

(** A document with other access rules. *)
Definition with_acls (doc : PolicyDocument) (l : list AclRule) : PolicyDocument :=
  mkDocument (tags doc) (host_aliases doc) (ip_sets doc) l (grants doc) (ssh_rules doc)
    (postures doc) (auto_approvers doc) (node_attributes doc) (tests doc)
    (default_action doc) (icmp_policy doc).

Lemma compileRule_fields acl src dst r :
  compileRule acl src dst = Ok r ->
  cr_name r = aclKey acl /\ cr_scope r = acl_scope acl
  /\ cr_action r = (if (acl_action acl =? "deny")%string then Deny else Allow)
  /\ cr_enabled r = acl_enabled acl /\ cr_posture r = acl_posture acl.
Proof. unfold compileRule. intros H. inv_ok. done. Qed.

(** Adding one rule to a document: what it can decide. *)
Lemma decided_insert doc l1 acl l2 rules rules' m ok scope act :
  compileRules (with_acls doc (l1 ++ l2)) = Ok rules ->
  compileRules (with_acls doc (l1 ++ acl :: l2)) = Ok rules' ->
  decided rules m ok scope act -> decided rules' m ok scope act.
Proof.
  intros H H' (r & Hr & Hrest). exists r. split; [|done].
  rewrite (elem_of_compileRules _ _ _ H) in Hr. rewrite (elem_of_compileRules _ _ _ H').
  destruct Hr as (a & s & d & Ha & Hr). exists a, s, d. split; [|done].
  cbn in *. set_solver.
Qed.

Lemma decided_insert_other doc l1 acl l2 rules rules' m ok scope act :
  compileRules (with_acls doc (l1 ++ l2)) = Ok rules ->
  compileRules (with_acls doc (l1 ++ acl :: l2)) = Ok rules' ->
  act <> (if (acl_action acl =? "deny")%string then Deny else Allow) ->
  decided rules' m ok scope act -> decided rules m ok scope act.
Proof.
  intros H H' Hact (r & Hr & Hph & Hrest). exists r. split; [|done].
  rewrite (elem_of_compileRules _ _ _ H') in Hr. rewrite (elem_of_compileRules _ _ _ H).
  destruct Hr as (a & s & d & Ha & Hen & Hs & Hd & Hc). exists a, s, d.
  split; [|done]. cbn in *. rewrite elem_of_app, elem_of_cons in Ha.
  destruct Ha as [?|[->|?]]; [set_solver| |set_solver].
  exfalso. apply in_phase_action in Hph. apply compileRule_fields in Hc. naive_solver.
Qed.


(** When the phases deny. *)
Lemma evaluatePhases_deny_iff rules m da ok :
  sr_verdict (evaluatePhases rules m da ok) = Deny <->
  decided rules m ok Organization Deny \/ decided rules m ok Network Deny
  \/ (da = Deny /\ ~ decided rules m ok Network Allow).
Proof.
  pose proof (decided_mentioned rules m ok).
  pose proof (evaluatePhases_verdict rules m da ok) as V.
  destruct V; split; intros; try tauto; try done; naive_solver.
Qed.

Lemma evaluatePhases_deny_mono rules rules' m da ok :
  (forall scope, decided rules m ok scope Deny -> decided rules' m ok scope Deny) ->
  (decided rules' m ok Network Allow -> decided rules m ok Network Allow) ->
  sr_verdict (evaluatePhases rules m da ok) = Deny ->
  sr_verdict (evaluatePhases rules' m da ok) = Deny.
Proof. intros HD HA. rewrite !evaluatePhases_deny_iff. naive_solver. Qed.

Lemma verdict_not_allow a : a <> Allow <-> a = Deny.
Proof. by destruct a. Qed.

Lemma parsePort_range a b :
  parsePort (string_of_Z a +:+ "-" +:+ string_of_Z b) = [mkRange a a].
Proof. unfold parsePort. by rewrite parseInt_string_of_Z_app. Qed.

(** ** Properties *)

(** C11: the evaluator implements its declarative specification.  With the ICMP
    policy "allow" or "deny" an ICMP scenario gets that verdict whatever the
    rules say; in every other case an effective matching organization deny
    rule gives deny, else a network deny rule gives deny, else a network allow
    rule gives allow, else the default action applies, with the reason
    "posture_skip" exactly when some matching rule was skipped for posture. *)
Theorem evaluateRules_spec (rules : list CompiledRule) (se : string) (st : list string)
    (de : string) (dt : list string) (port : option Z) (proto : string) (da : action)
    (ip : icmp) (ok : bool) :
  let res := evaluateRules rules se st de dt port proto da ip ok in
  let m := fun rule => ruleMatches rule (mkTraffic se st de dt port (parseProtocol proto)) in
  match parseProtocol proto, ip with
  | ProtoIcmp, IcmpAllow => res = icmp_result Allow
  | ProtoIcmp, IcmpDeny => res = icmp_result Deny
  | _, _ => verdict_spec rules m ok da (sr_verdict res) (sr_reason res)
  end.
Proof.
  cbn zeta. unfold evaluateRules.
  destruct (parseProtocol proto), ip; try done; apply evaluatePhases_verdict.
Qed.

(** the order in which the rules of a document are listed does not change
    the verdict nor its reason. *)
Theorem evaluateRules_order_independent (rules rules' : list CompiledRule)
    (se : string) (st : list string) (de : string) (dt : list string) (port : option Z)
    (proto : string) (da : action) (ip : icmp) (ok : bool) :
  rules ≡ₚ rules' ->
  let res := evaluateRules rules se st de dt port proto da ip ok in
  let res' := evaluateRules rules' se st de dt port proto da ip ok in
  sr_verdict res = sr_verdict res' /\ sr_reason res = sr_reason res'.
Proof.
  intros Hp. apply evaluateRules_ext. intros m scope act _.
  unfold mentioned, decided. by setoid_rewrite Hp.
Qed.

(** when a phase decides, the rule the result names is an enabled matching
    rule of that phase whose posture requirement is met, and no other such rule
    has a smaller order index, nor the same order index and a smaller
    priority. *)
Theorem evaluatePhases_reports_first (rules : list CompiledRule)
    (m : CompiledRule -> bool) (da : action) (ok : bool) (scope : rule_scope)
    (act : action) :
  (scope, act, sr_reason (evaluatePhases rules m da ok))
    ∈ [(Organization, Deny, org_deny); (Network, Deny, network_deny);
       (Network, Allow, network_allow)] ->
  exists r, evaluatePhases rules m da ok
              = phaseResult r (sr_reason (evaluatePhases rules m da ok))
    /\ r ∈ rules /\ in_phase scope act r = true /\ m r = true /\ effective ok r = true
    /\ forall r', r' ∈ rules -> in_phase scope act r' = true -> m r' = true ->
         effective ok r' = true ->
         (cr_orderIndex r < cr_orderIndex r'
          \/ cr_orderIndex r = cr_orderIndex r' /\ cr_priority r <= cr_priority r')%Z.
Proof.
  intros H.
  enough (exists r skip, evaluatePhases rules m da ok
              = phaseResult r (sr_reason (evaluatePhases rules m da ok))
            /\ fst (firstInPhase rules scope act m ok skip) = Some r) as (r & skip & Hr & Hf).
  { exists r. apply firstInPhase_Some in Hf as (? & ? & ? & ? & Hmin).
    split_and!; try done. intros r' A1 A2 A3 A4. specialize (Hmin r' A1 A2 A3 A4).
    unfold rule_le in Hmin. lia. }
  rewrite !elem_of_cons, elem_of_nil in H. revert H. unfold evaluatePhases.
  destruct (firstInPhase rules Organization Deny m ok None) as [[r1|] s1] eqn:E1; cbn.
  { intros [?|[?|[?|[]]]]; simplify_eq. exists r1, None. by rewrite E1. }
  destruct (firstInPhase rules Network Deny m ok s1) as [[r2|] s2] eqn:E2; cbn.
  { intros [?|[?|[?|[]]]]; simplify_eq. exists r2, s1. by rewrite E2. }
  destruct (firstInPhase rules Network Allow m ok s2) as [[r3|] s3] eqn:E3; cbn.
  { intros [?|[?|[?|[]]]]; simplify_eq. exists r3, s2. by rewrite E3. }
  destruct s3; [|destruct da]; cbn; intros [?|[?|[?|[]]]]; simplify_eq.
Qed.

(** C12: rules are monotone.  Adding a deny rule anywhere in a document never
    turns a denied scenario into an allowed one, and adding a rule of any other
    action never turns an allowed scenario into a denied one. *)
Theorem simulateDocument_monotone (doc : PolicyDocument) (l1 l2 : list AclRule)
    (acl : AclRule) (sc : scenario) (res res' : SimulateResult) :
  simulateDocument (with_acls doc (l1 ++ l2)) sc = Ok res ->
  simulateDocument (with_acls doc (l1 ++ acl :: l2)) sc = Ok res' ->
  if (acl_action acl =? "deny")%string
  then sr_verdict res = Deny -> sr_verdict res' = Deny
  else sr_verdict res = Allow -> sr_verdict res' = Allow.
Proof.
  intros H H'.
  apply simulateDocument_Ok_inv in H as (rules & src & dst & Hc & Hs & Hd & ->).
  apply simulateDocument_Ok_inv in H' as (rules' & src' & dst' & Hc' & Hs' & Hd' & ->).
  ok_eq. cbn [default_action icmp_policy with_acls].
  destruct (icmp_shortcut (default "tcp" (sc_protocol sc)) (icmp_policy doc)) eqn:E.
  { rewrite (evaluateRules_shortcut rules rules') by done. by destruct (acl_action acl =? "deny")%string. }
  rewrite !evaluateRules_phases by done.
  destruct (acl_action acl =? "deny")%string eqn:Ea.
  - apply evaluatePhases_deny_mono.
    + intros scope. by eapply decided_insert.
    + eapply decided_insert_other; [done..|]. by rewrite Ea.
  - intros HA. destruct (sr_verdict (evaluatePhases rules' _ _ _)) eqn:E'; [done|].
    enough (Deny = Allow) by done. rewrite <- HA. symmetry. revert E'.
    apply evaluatePhases_deny_mono.
    + intros scope. eapply decided_insert_other; [done..|]. by rewrite Ea.
    + by eapply decided_insert.
Qed.

(** organization-scoped rules whose action is not deny have no effect: no
    scenario gets another verdict or reason when they are removed from the
    compiled rules. *)
Theorem evaluateRules_org_allow_inert (rules : list CompiledRule)
    (se : string) (st : list string) (de : string) (dt : list string) (port : option Z)
    (proto : string) (da : action) (ip : icmp) (ok : bool) :
  let live := List.filter (fun r => negb (in_phase Organization Allow r)) rules in
  let res := evaluateRules rules se st de dt port proto da ip ok in
  let res' := evaluateRules live se st de dt port proto da ip ok in
  sr_verdict res = sr_verdict res' /\ sr_reason res = sr_reason res'.
Proof.
  cbn zeta. apply evaluateRules_ext. intros m scope act Hne.
  assert (forall r, in_phase scope act r = true ->
            r ∈ rules <-> r ∈ List.filter (fun r => negb (in_phase Organization Allow r)) rules)
    as Hin.
  { intros r Hr. rewrite elem_of_filter_bool. split; [|by intros [??]].
    intros ?. split; [done|]. apply negb_true_iff, not_true_iff_false. intros Hr'.
    unfold in_phase in Hr, Hr'. rewrite !andb_true_iff, !bool_decide_eq_true in *.
    destruct Hr as [[_ <-] <-], Hr' as [[_ Es] Ea]. apply Hne. by rewrite Es, Ea. }
  unfold mentioned, decided. split; split; intros (r & Hr & Hph & Hrest); exists r;
    (split; [by apply Hin | done]).
Qed.

(** a rule without sources applies to every source, and one without
    destinations to every destination: the compiler reads an empty list as the
    selector "*". *)
Theorem compileAcl_empty_is_any (acl : AclRule) :
  compileAcl acl
  = compileAcl (mkAcl (acl_name acl) (acl_slug acl) (acl_action acl)
      (or_any (acl_src acl)) (or_any (acl_dst acl)) (acl_ports acl) (acl_protocol acl)
      (acl_priority acl) (acl_orderIndex acl) (acl_scope acl) (acl_posture acl)
      (acl_labels acl) (acl_enabled acl)).
Proof. unfold compileAcl, compileRule. by destruct (acl_src acl), (acl_dst acl). Qed.

(** a port range written "a-b" is read as the single port "a": the rule
    matches TCP and UDP traffic to port [a] only, whatever [b] is. *)
Theorem parsePorts_range_is_start (a b p : Z) (proto : protocol) :
  proto <> ProtoIcmp ->
  portMatches (parsePorts [string_of_Z a +:+ "-" +:+ string_of_Z b]) (Some p) proto
  = (p =? a)%Z.
Proof.
  intros Hne. unfold parsePorts. cbn [map concat]. rewrite parsePort_range.
  cbn. rewrite bool_decide_eq_false_2 by done. unfold in_range. cbn. lia.
Qed.

(** the simulator returns a verdict exactly when the selectors of all
    enabled rules and of the scenario parse; otherwise it throws. *)
Theorem simulateDocument_total (doc : PolicyDocument) (sc : scenario) :
  (exists res, simulateDocument doc sc = Ok res)
  <-> enabled_selectors_parse doc
      /\ (exists p, parseSelector (sc_src sc) = Ok p)
      /\ (exists p, parseSelector (sc_dst sc) = Ok p).
Proof.
  rewrite <- compileRules_Ok_iff. unfold simulateDocument. split.
  - intros [res H]. inv_ok. split_and!; eauto.
  - intros ([rules ->] & [p ->] & [q ->]). cbn. eauto.
Qed.

(** traffic described by a selector matches a rule with that selector,
    except for CIDR selectors, which match no simulated traffic at all. *)
Theorem selectorMatches_self (sel : ParsedSelector) (endpoint : string) (ts : list string) :
  selectorMatches sel (endpointForSelector sel) (tagsForSelector sel)
    = negb (bool_decide (sel = SelCidr (value_of sel)))
  /\ selectorMatches (SelCidr (value_of sel)) endpoint ts = false.
Proof.
  split; [|done].
  destruct sel; cbn -[bool_decide decide]; unfold includes_tag;
    rewrite ?(bool_decide_eq_false_2 (_ = _)) by done;
    rewrite ?String.eqb_refl, ?bool_decide_eq_true_2 by set_solver; done.
Qed.

(** ** Witnesses, on the documents of the engine's own tests *)
Definition sample_acl (name action_ : string) (src dst ports : list string)
    (proto : nullish string) (sc : rule_scope) : AclRule :=
  mkAcl name None action_ src dst ports proto 100 0 sc [] [] true.

Definition sample_doc : PolicyDocument :=
  mkDocument [mkTag "eng" ["a@x.com"]; mkTag "staging" []] [] []
    [sample_acl "allow-eng-staging" "allow" ["tag:eng"] ["tag:staging"] ["443"]
       (Value "tcp") Network]
    [] [] [] [] [] [] Deny IcmpAllow.

Definition sample_scenario : scenario :=
  mkScenario "tag:eng" "tag:staging" (Some 443%Z) (Some "tcp") None.

Example simulate_sample :
  simulateDocument sample_doc sample_scenario
  = Ok (mkSimulateResult Allow network_allow ["allow-eng-staging"]
          (Some "allow-eng-staging") (Some Network)).
Proof. vm_compute. reflexivity. Qed.

Definition sample_rules : list CompiledRule :=
  [mkRule "deny-ssh" Deny Network [SelAny] [SelTag "db"] [mkRange 22 22] ProtoTcp 5 1 [] true;
   mkRule "deny-all" Deny Network [SelAny] [SelAny] [] ProtoAny 1 2 [] true;
   mkRule "allow-all" Allow Network [SelAny] [SelAny] [] ProtoAny 0 0 [] true].

Definition sample_matches (r : CompiledRule) : bool :=
  ruleMatches r (mkTraffic "aa" ["eng"] "bb" ["db"] (Some 22%Z) ProtoTcp).

Lemma evaluateRules_order_independent_witness :
  sr_reason (evaluateRules sample_rules "aa" ["eng"] "bb" ["db"] (Some 22%Z) "tcp" Allow
               IcmpAllow true) = network_deny
  /\ sr_reason (evaluateRules (rev sample_rules) "aa" ["eng"] "bb" ["db"] (Some 22%Z) "tcp"
               Allow IcmpAllow true) = network_deny.
Proof.
  pose proof (evaluateRules_order_independent sample_rules (rev sample_rules) "aa" ["eng"]
    "bb" ["db"] (Some 22%Z) "tcp" Allow IcmpAllow true (Permutation_rev _)) as [_ <-].
  split; vm_compute; reflexivity.
Defined.

Lemma evaluatePhases_reports_first_witness :
  exists r, evaluatePhases sample_rules sample_matches Allow true = phaseResult r network_deny
    /\ cr_name r = "deny-ssh".
Proof.
  destruct (evaluatePhases_reports_first sample_rules sample_matches Allow true Network Deny)
    as (r & Hr & _).
  - apply (bool_decide_eq_true_1 _). vm_compute. reflexivity.
  - exists r. split; [exact Hr|]. apply (f_equal sr_ruleSlug) in Hr.
    change (Some "deny-ssh" = Some (cr_name r)) in Hr. congruence.
Defined.

Lemma simulateDocument_monotone_witness :
  simulateDocument (with_acls sample_doc []) sample_scenario
    = Ok (default_result Deny)
  /\ exists res, simulateDocument
       (with_acls sample_doc [sample_acl "no-udp" "deny" ["*"] ["*"] [] (Value "udp") Network])
       sample_scenario = Ok res /\ sr_verdict res = Deny.
Proof.
  split; [vm_compute; reflexivity|]. eexists. split; [vm_compute; reflexivity|].
  refine (simulateDocument_monotone sample_doc [] [] (sample_acl "no-udp" "deny" ["*"] ["*"] []
    (Value "udp") Network) sample_scenario (default_result Deny) _ _ _ _);
    vm_compute; reflexivity.
Defined.

Lemma parsePorts_range_is_start_witness :
  portMatches (parsePorts ["8000-9000"]) (Some 8080%Z) ProtoTcp = false.
Proof. apply (parsePorts_range_is_start 8000 9000 8080 ProtoTcp). done. Defined.
