(* ===== verification/Validate.v ===== *)
(** * Policy validation ([packages/policy-engine/src/validate.ts])

    The checks run in the order of the source and push onto the list of
    errors; here each returns the issues it pushes. *)
From S2P Require Import Prelude PolicyTypes Selector Simulate.

Definition issue (path : option string) (message : string) : ValidationIssue :=
  mkIssue path message.

(** The loop of [checkUnique], with the names already seen. *)
Fixpoint checkUnique_loop (seen : list string) (names : list string) (entity : string)
    : list ValidationIssue :=
  match names with
  | [] => []
  | name :: rest =>
      (if bool_decide (name ∈ seen)
       then [issue (Some entity) ("duplicate name '" +:+ name +:+ "'")] else [])
      ++ checkUnique_loop (name :: seen) rest entity
  end.

Definition checkUnique (names : list string) (entity : string) : list ValidationIssue :=
  checkUnique_loop [] names entity.

Definition isValidPortSpec (spec : string) : bool :=
  let single_ok :=
    match parseInt spec with
    | Some single => (0 <? single)%Z && (single <=? 65535)%Z
    | None => false
    end in
  if single_ok then true
  else match split_unit "-"%char spec with
       | [a; b] =>
           match parseInt a, parseInt b with
           | Some start, Some end_ =>
               (0 <? start)%Z && (0 <? end_)%Z && (start <=? end_)%Z
           | _, _ => false
           end
       | _ => false
       end.

(** The names the selectors of a document can refer to. *)
Record selector_refs := mkRefs {
  refs_tags : list string;
  refs_hostAliases : list string;
  refs_ipSets : list string
}.

Definition checkSelectorRefs (sel path : string) (refs : selector_refs)
    : list ValidationIssue :=
  match parseSelector sel with
  | Err e => [issue (Some path) (spe_message e)]
  | Ok (SelTag v) =>
      if bool_decide (v ∈ refs_tags refs) then []
      else [issue (Some path) ("unknown tag '" +:+ v +:+ "'")]
  | Ok (SelHostAlias v) =>
      if bool_decide (v ∈ refs_hostAliases refs) then []
      else [issue (Some path) ("unknown host alias '" +:+ v +:+ "'")]
  | Ok (SelIpSet v) =>
      if bool_decide (v ∈ refs_ipSets refs) then []
      else [issue (Some path) ("unknown ip set '" +:+ v +:+ "'")]
  | Ok _ => []
  end.

Definition acl_action_errors (acl : AclRule) : list ValidationIssue :=
  if negb (acl_action acl =? "allow")%string && negb (acl_action acl =? "deny")%string
  then [issue (Some ("acls." +:+ acl_name acl))
          ("invalid action '" +:+ acl_action acl +:+ "', expected allow or deny")]
  else [].

Definition acl_warnings (acl : AclRule) : list ValidationIssue :=
  (match acl_src acl with
   | [] => [issue (Some ("acls." +:+ acl_name acl +:+ ".src")) "empty src matches nothing"]
   | _ => [] end)
  ++ (match acl_dst acl with
      | [] => [issue (Some ("acls." +:+ acl_name acl +:+ ".dst")) "empty dst matches nothing"]
      | _ => [] end).

Definition acl_posture_errors (postures : list string) (acl : AclRule) : list ValidationIssue :=
  concat (map (fun posture =>
    if bool_decide (posture ∈ postures) then []
    else [issue (Some ("acls." +:+ acl_name acl +:+ ".posture"))
            ("unknown posture '" +:+ posture +:+ "'")]) (acl_posture acl)).

Definition acl_port_errors (acl : AclRule) : list ValidationIssue :=
  concat (map (fun port =>
    if isValidPortSpec port then []
    else [issue (Some ("acls." +:+ acl_name acl +:+ ".ports"))
            ("invalid port spec '" +:+ port +:+ "'")]) (acl_ports acl)).

Definition validateAcl (refs : selector_refs) (postures : list string) (acl : AclRule)
    : list ValidationIssue :=
  acl_action_errors acl
  ++ concat (map (fun sel => checkSelectorRefs sel ("acls." +:+ acl_name acl) refs)
               (acl_src acl ++ acl_dst acl))
  ++ acl_posture_errors postures acl
  ++ acl_port_errors acl.

(** [dst.replace(/:[^:]*$/, "")]. *)
Fixpoint strip_last_colon (s : string) : string :=
  match s with
  | EmptyString => EmptyString
  | String c r =>
      if Ascii.eqb c ":"%char && lacks ":"%char r then EmptyString
      else String c (strip_last_colon r)
  end.

Definition test_dst_errors (name dst : string) : list ValidationIssue :=
  let selectorPart :=
    if includes dst ":" then default "" (head (split_unit ":"%char dst)) else dst in
  match parseSelector (if (selectorPart =? dst)%string then dst else strip_last_colon dst) with
  | Ok _ => []
  | Err _ =>
      match parseSelector dst with
      | Ok _ => []
      | Err e => [issue (Some ("tests." +:+ name +:+ ".dst")) (spe_message e)]
      end
  end.

Definition validateTest (test : PolicyTest) : list ValidationIssue :=
  (match parseSelector (test_src test) with
   | Ok _ => []
   | Err e => [issue (Some ("tests." +:+ test_name test +:+ ".src")) (spe_message e)]
   end)
  ++ concat (map (test_dst_errors (test_name test)) (test_accept test ++ test_deny test)).

Definition document_refs (doc : PolicyDocument) : selector_refs :=
  mkRefs (map tag_name (tags doc)) (map alias_name (host_aliases doc))
    (map ipset_name (ip_sets doc)).

Definition validation_errors (doc : PolicyDocument) : list ValidationIssue :=
  checkUnique (map tag_name (tags doc)) "tags"
  ++ checkUnique (map aclKey (acls doc)) "acls"
  ++ concat (map (validateAcl (document_refs doc) (map posture_name (postures doc))) (acls doc))
  ++ concat (map validateTest (tests doc)).

Definition validateDocument (doc : PolicyDocument) : ValidationResult :=
  let errors := validation_errors doc in
  mkValidation (match errors with [] => true | _ => false end) errors
    (concat (map acl_warnings (acls doc))).

(** ** What a valid document is *)

(** The references of a parsed selector resolve. *)
Definition resolves (refs : selector_refs) (p : ParsedSelector) : Prop :=
  match p with
  | SelTag v => v ∈ refs_tags refs
  | SelHostAlias v => v ∈ refs_hostAliases refs
  | SelIpSet v => v ∈ refs_ipSets refs
  | _ => True
  end.

Record acl_wf (refs : selector_refs) (postures : list string) (acl : AclRule) : Prop := {
  acl_wf_action : acl_action acl = "allow" \/ acl_action acl = "deny";
  acl_wf_selectors : forall s, s ∈ acl_src acl ++ acl_dst acl ->
    exists p, parseSelector s = Ok p /\ resolves refs p;
  acl_wf_posture : forall s, s ∈ acl_posture acl -> s ∈ postures;
  acl_wf_ports : forall s, s ∈ acl_ports acl -> isValidPortSpec s = true
}.

Definition parses (s : string) : Prop := exists p, parseSelector s = Ok p.

Record test_wf (test : PolicyTest) : Prop := {
  test_wf_src : parses (test_src test);
  test_wf_dst : forall dst, dst ∈ test_accept test ++ test_deny test ->
    parses dst \/ (includes dst ":" = true /\ parses (strip_last_colon dst))
}.

Record document_wf (doc : PolicyDocument) : Prop := {
  doc_wf_tags : NoDup (map tag_name (tags doc));
  doc_wf_keys : NoDup (map aclKey (acls doc));
  doc_wf_acls : forall acl, acl ∈ acls doc ->
    acl_wf (document_refs doc) (map posture_name (postures doc)) acl;
  doc_wf_tests : forall test, test ∈ tests doc -> test_wf test
}.

(** ** Lemmas *)
Lemma concat_map_nil {A B} (f : A -> list B) l :
  concat (map f l) = [] <-> forall x, x ∈ l -> f x = [].
Proof.
  induction l as [|a l IH]; cbn; [split; [by intros _ ? ?%elem_of_nil | done]|].
  rewrite app_nil, IH. setoid_rewrite elem_of_cons. naive_solver.
Qed.

Lemma checkUnique_loop_nil seen names entity :
  checkUnique_loop seen names entity = []
  <-> NoDup names /\ forall x, x ∈ names -> x ∉ seen.
Proof.
  revert seen; induction names as [|n names IH]; intros seen; cbn.
  - split; [intros _; split; [constructor | by intros ? ?%elem_of_nil] | done].
  - rewrite app_nil, IH, list.NoDup_cons. case_bool_decide as Hn.
    + split; [by intros [? _]|]. intros [_ H]. exfalso. apply (H n); [left | done].
    + setoid_rewrite elem_of_cons. split; [|naive_solver].
      intros (_ & Hnd & Hs). split_and!; [|done|]; naive_solver.
Qed.

Lemma checkUnique_nil names entity : checkUnique names entity = [] <-> NoDup names.
Proof.
  unfold checkUnique. rewrite checkUnique_loop_nil. split; [by intros [? _]|].
  intros ?. split; [done|]. intros ? _ ?%elem_of_nil. done.
Qed.

Lemma if_nil_iff {A} (b : bool) (x : A) : (if b then [] else [x]) = [] <-> b = true.
Proof. by destruct b. Qed.

Lemma checkSelectorRefs_nil sel path refs :
  checkSelectorRefs sel path refs = []
  <-> exists p, parseSelector sel = Ok p /\ resolves refs p.
Proof.
  unfold checkSelectorRefs. destruct (parseSelector sel) as [p|e].
  - transitivity (resolves refs p).
    + destruct p; cbn; rewrite ?if_nil_iff, ?bool_decide_eq_true; done.
    + split; [eauto | by intros (q & [= ->] & ?)].
  - split; [done | by intros (q & ? & _)].
Qed.

Lemma acl_action_errors_nil acl :
  acl_action_errors acl = [] <-> acl_action acl = "allow" \/ acl_action acl = "deny".
Proof.
  unfold acl_action_errors.
  destruct (String.eqb_spec (acl_action acl) "allow"),
    (String.eqb_spec (acl_action acl) "deny"); naive_solver.
Qed.

Lemma validateAcl_nil refs ps acl : validateAcl refs ps acl = [] <-> acl_wf refs ps acl.
Proof.
  unfold validateAcl, acl_posture_errors, acl_port_errors.
  rewrite !app_nil, !concat_map_nil, acl_action_errors_nil.
  setoid_rewrite checkSelectorRefs_nil. setoid_rewrite if_nil_iff.
  setoid_rewrite bool_decide_eq_true.
  split; [intros (?&?&?&?); by constructor | by intros []].
Qed.

Lemma lacks_includes sep s : lacks sep s = negb (includes s (String sep "")).
Proof.
  unfold lacks. induction s as [|c s IH]; [done|]. cbn.
  rewrite IH, Ascii.eqb_sym. destruct (Ascii.eqb sep c); cbn; [by destruct s | done].
Qed.

Lemma head_split_neq sep s : lacks sep s = false -> default "" (head (split_unit sep s)) <> s.
Proof.
  unfold lacks. induction s as [|c s IH]; [done|]. cbn.
  destruct (Ascii.eqb c sep) eqn:E; cbn; [done|]. intros H%IH.
  destruct (split_unit_cons sep s) as (w & ws & Ew). rewrite Ew in *. cbn in *. congruence.
Qed.

Lemma test_dst_errors_nil name dst :
  test_dst_errors name dst = []
  <-> parses dst \/ (includes dst ":" = true /\ parses (strip_last_colon dst)).
Proof.
  unfold test_dst_errors, parses.
  destruct (includes dst ":") eqn:Ei.
  - destruct (String.eqb_spec (default "" (head (split_unit ":"%char dst))) dst) as [E|_].
    { exfalso. revert E. apply head_split_neq. by rewrite lacks_includes, Ei. }
    destruct (parseSelector (strip_last_colon dst)), (parseSelector dst); naive_solver.
  - rewrite String.eqb_refl. destruct (parseSelector dst); naive_solver.
Qed.

Lemma validateTest_nil test : validateTest test = [] <-> test_wf test.
Proof.
  unfold validateTest. rewrite app_nil, concat_map_nil.
  setoid_rewrite test_dst_errors_nil.
  assert ((match parseSelector (test_src test) with Ok _ => []
           | Err e => [issue (Some ("tests." +:+ test_name test +:+ ".src")) (spe_message e)]
           end) = [] <-> parses (test_src test)) as ->.
  { unfold parses. destruct (parseSelector (test_src test)); naive_solver. }
  split; [intros [??]; by constructor | by intros []].
Qed.

Lemma validation_errors_nil doc : validation_errors doc = [] <-> document_wf doc.
Proof.
  unfold validation_errors. rewrite !app_nil, !concat_map_nil, !checkUnique_nil.
  setoid_rewrite validateAcl_nil. setoid_rewrite validateTest_nil.
  split; [intros (?&?&?&?); by constructor | by intros []].
Qed.

Lemma parsePort_valid spec : isValidPortSpec spec = true -> parsePort spec <> [].
Proof.
  unfold isValidPortSpec, parsePort. destruct (parseInt spec); [done|].
  destruct (split_unit "-"%char spec) as [|a [|b [|? ?]]]; try done.
  destruct (parseInt a), (parseInt b); done.
Qed.

Lemma document_wf_selectors doc : document_wf doc -> enabled_selectors_parse doc.
Proof.
  intros Hwf acl s Hacl _ Hs. pose proof (doc_wf_acls doc Hwf acl Hacl) as Ha.
  assert (s = "*" \/ s ∈ acl_src acl ++ acl_dst acl) as [->|Hin].
  { revert Hs. unfold or_any. destruct (acl_src acl), (acl_dst acl); set_solver. }
  - by exists SelAny.
  - destruct (acl_wf_selectors _ _ _ Ha s Hin) as (p & Hp & _). eauto.
Qed.

Lemma valid_iff doc : vr_valid (validateDocument doc) = true <-> document_wf doc.
Proof. rewrite <- validation_errors_nil. cbn. by destruct (validation_errors doc). Qed.

(** ** Properties *)

(** C13: validation is sound and complete: a document is reported valid exactly
    when its tag names and rule keys are unique, every rule has action allow or
    deny, selectors that parse and refer to tags, host aliases and IP sets the
    document defines, known postures and valid port specifications, and every
    test has selectors that parse. *)
Theorem validateDocument_valid_iff (doc : PolicyDocument) :
  vr_valid (validateDocument doc) = true <-> document_wf doc.
Proof. apply valid_iff. Qed.

(** C14: validation protects the simulator: on a valid document a simulation
    throws only when the scenario's own source or destination does not parse. *)
Theorem valid_document_simulates (doc : PolicyDocument) (sc : scenario) :
  vr_valid (validateDocument doc) = true ->
  (exists res, simulateDocument doc sc = Ok res)
  <-> parses (sc_src sc) /\ parses (sc_dst sc).
Proof.
  intros Hv%valid_iff%document_wf_selectors. unfold parses. split.
  - intros [res (rules & src & dst & _ & Hs & Hd & _)%simulateDocument_Ok_inv]. eauto.
  - intros [[p Hp] [q Hq]]. apply compileRules_Ok_iff in Hv as [rules Hr].
    unfold simulateDocument. rewrite Hr, Hp, Hq. cbn. eauto.
Qed.

Lemma valid_document_simulates_witness :
  exists res, simulateDocument sample_doc sample_scenario = Ok res.
Proof.
  apply (valid_document_simulates sample_doc sample_scenario).
  - vm_compute. reflexivity.
  - split; [exists (SelTag "eng") | exists (SelTag "staging")]; reflexivity.
Defined.

(** in a valid document a rule that lists ports never compiles to the empty
    port list, which would match every port. *)
Theorem valid_document_ports (doc : PolicyDocument) (acl : AclRule) :
  vr_valid (validateDocument doc) = true -> acl ∈ acls doc -> acl_ports acl <> [] ->
  parsePorts (acl_ports acl) <> [].
Proof.
  intros Hv%valid_iff Hacl. pose proof (acl_wf_ports _ _ _ (doc_wf_acls _ Hv _ Hacl)) as Hp.
  unfold parsePorts. destruct (acl_ports acl) as [|s l]; [done|]. intros _. cbn.
  rewrite app_nil. intros [Hs _]. revert Hs. apply parsePort_valid, Hp. left.
Qed.

Lemma valid_document_ports_witness : parsePorts ["443"] <> [].
Proof.
  apply (valid_document_ports sample_doc
    (sample_acl "allow-eng-staging" "allow" ["tag:eng"] ["tag:staging"] ["443"]
       (Value "tcp") Network)).
  - vm_compute. reflexivity.
  - left.
  - done.
Defined.

(** without that validation an unreadable port specification opens the
    rule to all ports: if no specification contains a number, the compiled rule
    has no port condition. *)
Theorem unreadable_ports_match_all (specs : list string) (port : option Z) (proto : protocol) :
  Forall (fun s => parseInt s = None /\ lacks "-"%char s = true) specs ->
  portMatches (parsePorts specs) port proto = true.
Proof.
  intros H. assert (parsePorts specs = []) as ->; [|done]. unfold parsePorts.
  apply concat_map_nil. intros s Hs. rewrite List.Forall_forall in H.
  apply list_elem_of_In in Hs. destruct (H s Hs) as [Hn Hl].
  unfold parsePort. by rewrite Hn, split_unit_lacks.
Qed.

Lemma unreadable_ports_match_all_witness :
  portMatches (parsePorts ["https"]) (Some 22%Z) ProtoTcp = true.
Proof. apply (unreadable_ports_match_all ["https"]). by repeat constructor. Defined.
