(* ===== verification/TestRunner.v ===== *)
(** * Policy tests ([packages/policy-engine/src/test-runner.ts])

    The tests written in a policy document are run through the simulator; a
    selector that does not parse makes the whole run throw. *)
From S2P Require Import Prelude PolicyTypes Selector Simulate Validate.

Record dst_parts := mkDst {
  dst_selector : string;
  dst_port : option Z;
  dst_protocol : string
}.

Definition splitDst (dst : string) : dst_parts :=
  let whole := mkDst dst None "tcp" in
  let parts := split_unit ":"%char dst in
  if (2 <=? length parts)%nat then
    let last_part := List.last parts "" in
    let portPart := default "" (head (split_unit "/"%char last_part)) in
    match parseInt portPart with
    | Some port =>
        if (0 <? port)%Z then
          mkDst (join ":" (removelast parts)) (Some port)
            (default "tcp" (split_unit "/"%char last_part !! 1%nat))
        else whole
    | None => whole
    end
  else whole.

Definition action_string (a : action) : string :=
  match a with Allow => "allow" | Deny => "deny" end.

(** One iteration of the loops over [test.accept] and [test.deny]: the message
    pushed, if any. *)
Definition checkDst (doc : PolicyDocument) (src : string) (expected : action) (dst : string)
    : result SelectorParseError (list string) :=
  let parts := splitDst dst in
  res ← simulateDocument doc
          (mkScenario src (dst_selector parts) (dst_port parts) (Some (dst_protocol parts)) None);
  Ok (if bool_decide (sr_verdict res = expected) then []
      else ["expected " +:+ action_string expected +:+ " for dst '" +:+ dst +:+ "', got "
            +:+ action_string (sr_verdict res) +:+ " (rules: "
            +:+ join ", " (sr_matchedRules res) +:+ ")"]).

Definition runTest (doc : PolicyDocument) (test : PolicyTest)
    : result SelectorParseError TestCaseResult :=
  accepts ← mapR (checkDst doc (test_src test) Allow) (test_accept test);
  denies ← mapR (checkDst doc (test_src test) Deny) (test_deny test);
  let messages := concat accepts ++ concat denies in
  let ok := match messages with [] => true | _ => false end in
  Ok (mkTestCaseResult (test_name test) ok
        (if ok then None else Some (join "; " messages))).

Definition count_passed (p : bool) (rs : list TestCaseResult) : Z :=
  Z.of_nat (length (List.filter (fun r => Bool.eqb (tc_passed r) p) rs)).

Definition runTests (doc : PolicyDocument) : result SelectorParseError TestResults :=
  results ← mapR (runTest doc) (tests doc);
  Ok (mkTestResults (count_passed true results) (count_passed false results) results).

(** ** What a test asks *)
Definition dst_scenario (src dst : string) : scenario :=
  let parts := splitDst dst in
  mkScenario src (dst_selector parts) (dst_port parts) (Some (dst_protocol parts)) None.

Definition gets (doc : PolicyDocument) (src : string) (expected : action) (dst : string) : Prop :=
  exists res, simulateDocument doc (dst_scenario src dst) = Ok res
              /\ sr_verdict res = expected.

Definition test_holds (doc : PolicyDocument) (test : PolicyTest) : Prop :=
  (forall dst, dst ∈ test_accept test -> gets doc (test_src test) Allow dst)
  /\ (forall dst, dst ∈ test_deny test -> gets doc (test_src test) Deny dst).

Lemma checkDst_nil doc src e dst ms :
  checkDst doc src e dst = Ok ms -> ms = [] <-> gets doc src e dst.
Proof.
  unfold checkDst, gets. intros H. inv_ok. rename select (simulateDocument _ _ = _) into Hs.
  change (mkScenario _ _ _ _ _) with (dst_scenario src dst) in Hs.
  case_bool_decide as Hv.
  - split; eauto.
  - split; [done|]. intros (res & Hs' & Hv'). ok_eq. done.
Qed.

Lemma checks_nil doc src e dsts mss :
  mapR (checkDst doc src e) dsts = Ok mss ->
  concat mss = [] <-> forall dst, dst ∈ dsts -> gets doc src e dst.
Proof.
  intros H%mapR_Forall2. induction H as [|dst ms dsts mss Hd H IH]; cbn.
  - split; [by intros _ ? ?%elem_of_nil | done].
  - rewrite app_nil, IH, (checkDst_nil _ _ _ _ _ Hd).
    setoid_rewrite elem_of_cons. naive_solver.
Qed.

Lemma runTest_spec doc test r :
  runTest doc test = Ok r ->
  tc_name r = test_name test /\ (tc_passed r = true <-> test_holds doc test)
  /\ (tc_message r = None <-> tc_passed r = true).
Proof.
  unfold runTest. intros H. inv_ok. cbn. split; [done|].
  split; [|by case_match].
  unfold test_holds. erewrite <- !checks_nil by eassumption. rewrite <- app_nil.
  by destruct (concat x ++ concat x0).
Qed.

Lemma count_passed_total rs : (count_passed true rs + count_passed false rs)%Z = Z.of_nat (length rs).
Proof.
  unfold count_passed. induction rs as [|r rs IH]; cbn; [done|].
  destruct (tc_passed r); cbn; lia.
Qed.

Lemma splitDst_snoc sel t port :
  lacks ":"%char t = true ->
  parseInt (default "" (head (split_unit "/"%char t))) = Some port -> (0 < port)%Z ->
  splitDst (sel +:+ ":" +:+ t)
  = mkDst sel (Some port) (default "tcp" (split_unit "/"%char t !! 1%nat)).
Proof.
  intros Ht Hp Hpos. unfold splitDst. rewrite app_String, app_Empty_l.
  rewrite split_unit_snoc by done. rewrite List.last_last, removelast_last, join_split.
  rewrite Hp. destruct (split_unit_cons ":"%char sel) as (w & ws & ->).
  rewrite length_app. cbn -[Nat.leb]. rewrite (proj2 (Nat.leb_le _ _)) by lia.
  by rewrite (proj2 (Z.ltb_lt 0 port)).
Qed.

Lemma not_gets_throws doc test dst :
  test ∈ tests doc -> dst ∈ test_accept test ++ test_deny test ->
  ~ parses (dst_selector (splitDst dst)) -> ~ exists res, runTests doc = Ok res.
Proof.
  intros Ht Hd Hn [res H]. unfold runTests in H. inv_ok.
  destruct (mapR_elem_Ok _ _ _ test ltac:(eassumption) Ht) as [r Hr].
  unfold runTest in Hr. inv_ok. apply elem_of_app in Hd.
  assert (exists e ms, checkDst doc (test_src test) e dst = Ok ms) as (e & ms & Hms).
  { destruct Hd; [exists Allow | exists Deny]; eapply mapR_elem_Ok; eauto. }
  unfold checkDst in Hms. inv_ok.
  rename select (simulateDocument _ _ = _) into Hs.
  apply simulateDocument_Ok_inv in Hs as (_ & _ & p & _ & _ & Hp & _). apply Hn. by exists p.
Qed.

(** ** Properties *)

(** when the test run returns, every test of the document has one result,
    in order; a test passes exactly when all its accept destinations are
    allowed and all its deny destinations denied, and the counters add up. *)
Theorem runTests_spec (doc : PolicyDocument) (res : TestResults) :
  runTests doc = Ok res ->
  map tc_name (tr_results res) = map test_name (tests doc)
  /\ Forall2 (fun test r => tc_passed r = true <-> test_holds doc test)
       (tests doc) (tr_results res)
  /\ (tr_passed res + tr_failed res = Z.of_nat (length (tests doc)))%Z
  /\ (tr_failed res = 0%Z <-> forall test, test ∈ tests doc -> test_holds doc test).
Proof.
  unfold runTests. intros H. inv_ok. rename select (mapR _ _ = _) into Hm.
  apply mapR_Forall2 in Hm. cbn. rewrite count_passed_total.
  assert (Forall2 (fun test r => tc_passed r = true <-> test_holds doc test) (tests doc) x) as HF.
  { eapply Forall2_impl; [|exact Hm]. cbn. intros ?? (_ & Hr & _)%runTest_spec. done. }
  split_and!; [|done|..].
  - clear HF. induction Hm as [|t r ts rs Hr Hm IH]; cbn; [done|].
    apply runTest_spec in Hr as (-> & _). by rewrite IH.
  - by rewrite (Forall2_length HF).
  - clear Hm. unfold count_passed. induction HF as [|t r ts rs Hr HF IH]; cbn.
    + split; [by intros _ ? ?%elem_of_nil | done].
    + setoid_rewrite elem_of_cons. destruct (tc_passed r); cbn.
      * rewrite IH. naive_solver.
      * split; [lia|]. intros Hall. assert (false = true) by (apply Hr; auto). done.
Qed.

(** a destination written "selector:port/protocol" is split into exactly
    those parts. *)
Theorem splitDst_roundtrip (sel proto : string) (port : Z) :
  (0 < port)%Z -> lacks ":"%char proto = true -> lacks "/"%char proto = true ->
  splitDst (sel +:+ ":" +:+ string_of_Z port +:+ "/" +:+ proto) = mkDst sel (Some port) proto.
Proof.
  intros Hp Hc Hs.
  assert (split_unit "/"%char (string_of_Z port +:+ "/" +:+ proto) = [string_of_Z port; proto]) as E.
  { rewrite app_String, app_Empty_l, split_unit_app by (apply lacks_string_of_Z; [done|lia]).
    by rewrite split_unit_lacks. }
  rewrite (splitDst_snoc _ _ port); [by rewrite E | | |done].
  - rewrite !lacks_app, Hc, lacks_string_of_Z by (done || lia). done.
  - rewrite E. cbn. by rewrite parseInt_string_of_Z.
Qed.

Lemma splitDst_roundtrip_witness :
  splitDst "tag:web:443/udp" = mkDst "tag:web" (Some 443%Z) "udp".
Proof. apply (splitDst_roundtrip "tag:web" "udp" 443); reflexivity. Defined.

(** a tag whose name reads as a number breaks the test run: if a test names
    the destination "tag:v" and [v] starts with a positive number, the run
    throws, whatever the rest of the document says. *)
Theorem runTests_numeric_tag_throws (doc : PolicyDocument) (test : PolicyTest)
    (v : string) (n : Z) :
  test ∈ tests doc -> ("tag:" +:+ v) ∈ test_accept test ++ test_deny test ->
  lacks ":"%char v = true -> lacks "/"%char v = true ->
  parseInt v = Some n -> (0 < n)%Z ->
  ~ exists res, runTests doc = Ok res.
Proof.
  intros Ht Hd Hc Hs Hn Hpos. eapply not_gets_throws; [done..|].
  change ("tag:" +:+ v) with ("tag" +:+ ":" +:+ v).
  rewrite (splitDst_snoc _ _ n) by (try rewrite split_unit_lacks; done).
  cbn. intros [p Hp]. vm_compute in Hp. done.
Qed.

Definition numeric_tag_doc : PolicyDocument :=
  mkDocument [mkTag "2fa" []] [] []
    [sample_acl "allow-2fa" "allow" ["*"] ["tag:2fa"] [] Null Network]
    [] [] [] [] [] [mkPolicyTest "reach 2fa" "*" ["tag:2fa"] []] Deny IcmpAllow.

Lemma runTests_numeric_tag_throws_witness :
  vr_valid (validateDocument numeric_tag_doc) = true
  /\ ~ exists res, runTests numeric_tag_doc = Ok res.
Proof.
  split; [vm_compute; reflexivity|].
  apply (runTests_numeric_tag_throws numeric_tag_doc
           (mkPolicyTest "reach 2fa" "*" ["tag:2fa"] []) "2fa" 2); try done; left.
Defined.

Definition sample_test_doc : PolicyDocument :=
  mkDocument (tags sample_doc) [] [] (acls sample_doc) [] [] [] [] []
    [mkPolicyTest "staging" "tag:eng" ["tag:staging:443"] ["tag:staging:22"]] Deny IcmpAllow.

Lemma runTests_spec_witness :
  test_holds sample_test_doc
    (mkPolicyTest "staging" "tag:eng" ["tag:staging:443"] ["tag:staging:22"]).
Proof.
  destruct (runTests_spec sample_test_doc
    (mkTestResults 1 0 [mkTestCaseResult "staging" true None])) as (_ & _ & _ & H).
  - vm_compute. reflexivity.
  - apply H; [reflexivity | left].
Defined.
