(* ===== verification/Merge.v ===== *)
(** * Merging policy documents ([packages/policy-engine/src/merge.ts])

    The documents of a policy repository are merged into one; two entities of
    the same kind and name are a conflict, and the merge throws. *)
From S2P Require Import Prelude PolicyTypes.

Record MergeConflictError := mkConflict { conflict_entity : string; conflict_name : string }.

Section MergeVec.
Context {A : Type} (entity : string) (nameFn : A -> string).

Fixpoint mergeVec (dest src : list A) : result MergeConflictError (list A) :=
  match src with
  | [] => Ok dest
  | item :: rest =>
      let name := nameFn item in
      if existsb (fun existing => (nameFn existing =? name)%string) dest
      then Err (mkConflict entity name)
      else mergeVec (dest ++ [item]) rest
  end.

Lemma existsb_name dest name :
  existsb (fun existing => (nameFn existing =? name)%string) dest = true
  <-> name ∈ map nameFn dest.
Proof.
  rewrite List.existsb_exists, list_elem_of_In, List.in_map_iff.
  setoid_rewrite String.eqb_eq. naive_solver.
Qed.

(** The names of [src] are distinct, and none is already in [dest]. *)
Definition fresh_names (dest src : list A) : Prop :=
  NoDup (map nameFn src) /\ forall n, n ∈ map nameFn src -> n ∉ map nameFn dest.

Lemma mergeVec_Ok dest src out :
  mergeVec dest src = Ok out <-> fresh_names dest src /\ out = dest ++ src.
Proof.
  unfold fresh_names. revert dest; induction src as [|x src IH]; intros dest; cbn.
  - rewrite app_nil_r. split; [|naive_solver]. intros [= <-].
    split_and!; [constructor | by intros ? ?%elem_of_nil | done].
  - rewrite list.NoDup_cons. destruct (existsb _ dest) eqn:E.
    + apply existsb_name in E. split; [done|]. intros [[_ H] _]. exfalso.
      apply (H (nameFn x)); [left | done].
    + apply not_true_iff_false in E. rewrite existsb_name in E.
      rewrite IH, map_app, <- app_assoc. cbn. setoid_rewrite elem_of_app.
      setoid_rewrite elem_of_cons. setoid_rewrite elem_of_nil. naive_solver.
Qed.

Lemma mergeVec_Err dest src e :
  mergeVec dest src = Err e ->
  conflict_entity e = entity
  /\ exists item, item ∈ src /\ nameFn item = conflict_name e
  /\ exists l1 l2, src = l1 ++ item :: l2 /\ conflict_name e ∈ map nameFn (dest ++ l1).
Proof.
  revert dest; induction src as [|x src IH]; intros dest; cbn; [done|].
  destruct (existsb _ dest) eqn:E.
  - intros [= <-]. apply existsb_name in E. cbn. split; [done|].
    exists x. split_and!; [left | done |]. exists [], src. by rewrite app_nil_r.
  - intros (He & item & Hin & Hn & l1 & l2 & -> & Hd)%IH. split; [done|].
    exists item. split_and!; [by right | done |]. exists (x :: l1), l2.
    by rewrite <- app_assoc in Hd.
Qed.
End MergeVec.

(** One iteration of the loop of [mergeDocuments].  A parsed document always
    has its two scalar fields, which replace those of the result. *)
Definition mergeInto (out doc : PolicyDocument) : result MergeConflictError PolicyDocument :=
  tags' ← mergeVec "tag" tag_name (tags out) (tags doc);
  aliases' ← mergeVec "host_alias" alias_name (host_aliases out) (host_aliases doc);
  sets' ← mergeVec "ip_set" ipset_name (ip_sets out) (ip_sets doc);
  acls' ← mergeVec "acl" aclKey (acls out) (acls doc);
  grants' ← mergeVec "grant" grant_name (grants out) (grants doc);
  ssh' ← mergeVec "ssh_rule" ssh_name (ssh_rules out) (ssh_rules doc);
  postures' ← mergeVec "posture" posture_name (postures out) (postures doc);
  approvers' ← mergeVec "auto_approver" approver_name (auto_approvers out) (auto_approvers doc);
  attrs' ← mergeVec "node_attribute" attr_name (node_attributes out) (node_attributes doc);
  tests' ← mergeVec "test" test_name (tests out) (tests doc);
  Ok (mkDocument tags' aliases' sets' acls' grants' ssh' postures' approvers' attrs' tests'
        (default_action doc) (icmp_policy doc)).

Fixpoint mergeLoop (out : PolicyDocument) (docs : list PolicyDocument)
    : result MergeConflictError PolicyDocument :=
  match docs with
  | [] => Ok out
  | doc :: rest => out' ← mergeInto out doc; mergeLoop out' rest
  end.

Definition mergeDocuments (docs : list PolicyDocument)
    : result MergeConflictError PolicyDocument := mergeLoop emptyDocument docs.

(** ** What a merge promises *)

(** Entity by entity concatenation; the scalar fields are the second
    document's. *)
Definition doc_app (a b : PolicyDocument) : PolicyDocument :=
  mkDocument (tags a ++ tags b) (host_aliases a ++ host_aliases b) (ip_sets a ++ ip_sets b)
    (acls a ++ acls b) (grants a ++ grants b) (ssh_rules a ++ ssh_rules b)
    (postures a ++ postures b) (auto_approvers a ++ auto_approvers b)
    (node_attributes a ++ node_attributes b) (tests a ++ tests b)
    (default_action b) (icmp_policy b).

Definition doc_concat (docs : list PolicyDocument) : PolicyDocument :=
  foldl doc_app emptyDocument docs.

(** Within each kind of entity, names are unique. *)
Record unique_names (doc : PolicyDocument) : Prop := {
  un_tags : NoDup (map tag_name (tags doc));
  un_aliases : NoDup (map alias_name (host_aliases doc));
  un_ipsets : NoDup (map ipset_name (ip_sets doc));
  un_acls : NoDup (map aclKey (acls doc));
  un_grants : NoDup (map grant_name (grants doc));
  un_ssh : NoDup (map ssh_name (ssh_rules doc));
  un_postures : NoDup (map posture_name (postures doc));
  un_approvers : NoDup (map approver_name (auto_approvers doc));
  un_attrs : NoDup (map attr_name (node_attributes doc));
  un_tests : NoDup (map test_name (tests doc))
}.

Lemma NoDup_map_app {A} (f : A -> string) l1 l2 :
  NoDup (map f (l1 ++ l2)) <-> NoDup (map f l1) /\ fresh_names f l1 l2.
Proof.
  unfold fresh_names. rewrite map_app, list.NoDup_app. naive_solver.
Qed.

Lemma mergeInto_Ok out doc r :
  unique_names out ->
  mergeInto out doc = Ok r <-> unique_names (doc_app out doc) /\ r = doc_app out doc.
Proof.
  intros Hu. split.
  - unfold mergeInto. intros H. inv_ok.
    repeat match goal with H : mergeVec _ _ _ _ = Ok _ |- _ => apply mergeVec_Ok in H as [? ->] end.
    split; [|done]. destruct Hu. constructor; cbn; rewrite NoDup_map_app; done.
  - intros [[] ->]. cbn in *. rewrite !NoDup_map_app in *. destruct_and!.
    unfold mergeInto.
    repeat match goal with
    | H : fresh_names ?f ?d ?s |- context [mergeVec ?e ?f ?d ?s] =>
        rewrite (proj2 (mergeVec_Ok e f d s (d ++ s)) (conj H eq_refl)); cbn
    end. done.
Qed.

Lemma unique_app_l out doc : unique_names (doc_app out doc) -> unique_names out.
Proof. intros []. cbn in *. rewrite !NoDup_map_app in *. constructor; naive_solver. Qed.

Lemma unique_foldl docs out : unique_names (foldl doc_app out docs) -> unique_names out.
Proof.
  revert out; induction docs as [|d docs IH]; intros out; cbn; [done|].
  intros H%IH. by eapply unique_app_l.
Qed.

Lemma mergeLoop_Ok out docs r :
  unique_names out ->
  mergeLoop out docs = Ok r
  <-> unique_names (foldl doc_app out docs) /\ r = foldl doc_app out docs.
Proof.
  revert out; induction docs as [|d docs IH]; intros out Hu; cbn; [naive_solver|].
  split.
  - intros H. inv_ok. rename select (mergeInto _ _ = _) into Hm.
    apply mergeInto_Ok in Hm as [? ->]; [|done]. by apply IH.
  - intros [H ->]. pose proof (unique_foldl _ _ H) as Hd.
    rewrite (proj2 (mergeInto_Ok out d (doc_app out d) Hu)) by done. cbn.
    by apply IH.
Qed.

Lemma unique_empty : unique_names emptyDocument.
Proof. constructor; constructor. Qed.

(** ** Properties *)

(** merging succeeds exactly when entity names are unique over all the
    documents, kind by kind; the result then is the concatenation of the
    documents in order, with the scalar settings of the last one.  So nothing
    is dropped, duplicated or reordered, and the result has unique names. *)
Theorem mergeDocuments_spec (docs : list PolicyDocument) (out : PolicyDocument) :
  mergeDocuments docs = Ok out <-> unique_names (doc_concat docs) /\ out = doc_concat docs.
Proof. apply mergeLoop_Ok, unique_empty. Qed.

(** the default action of the last document wins, even when that document
    does not set one: appending a document without settings makes the merged
    policy allow by default whatever the earlier documents say. *)
Theorem merge_last_default_wins (docs : list PolicyDocument) (doc out : PolicyDocument) :
  mergeDocuments (docs ++ [doc]) = Ok out ->
  default_action out = default_action doc /\ icmp_policy out = icmp_policy doc.
Proof.
  intros [_ ->]%mergeLoop_Ok; [|apply unique_empty]. by rewrite foldl_app.
Qed.

Definition strict_doc : PolicyDocument :=
  mkDocument [] [] [] [] [] [] [] [] [] [] Deny IcmpDeny.

Lemma merge_last_default_wins_witness :
  exists out, mergeDocuments ([strict_doc] ++ [emptyDocument]) = Ok out
              /\ default_action out = Allow.
Proof.
  eexists. split; [reflexivity|].
  apply (merge_last_default_wins [strict_doc] emptyDocument). reflexivity.
Defined.
