(* ===== verification/Diff.v ===== *)
(** * Documents as JSON and their diff ([packages/policy-engine/src/diff.ts])

    The entities of a policy document as the JSON values [JSON.stringify]
    prints, and the diff of two documents: entities are matched by name and
    compared by their JSON text. *)
From S2P Require Import Prelude Json PolicyTypes Merge.

(** ** Entities as JSON values

    Object literals list their fields in the order of the schemas; fields that
    are [undefined] are not printed. *)
Definition js (s : string) : json := JStr (units s).
Definition strs (l : list string) : json := JArr (map js l).

Definition obj (fields : list (string * option json)) : json :=
  JObj (omap (fun kv => (fun j => (units kv.1, j)) <$> kv.2) fields).

Definition nullish_json (x : nullish string) : option json :=
  match x with
  | Undefined => None
  | Null => Some JNull
  | Value s => Some (js s)
  end.

Definition scope_text (s : rule_scope) : string :=
  match s with Organization => "organization" | Network => "network" end.

Definition tag_json (t : TagDefinition) : json :=
  obj [("name", Some (js (tag_name t))); ("owners", Some (strs (tag_owners t)))].

Definition alias_json (h : HostAlias) : json :=
  obj [("name", Some (js (alias_name h))); ("target", Some (js (alias_target h)))].

Definition ipset_json (s : IpSet) : json :=
  obj [("name", Some (js (ipset_name s))); ("cidrs", Some (strs (ipset_cidrs s)))].

Definition labels_json (l : list (string * string)) : json :=
  JObj (map (fun kv => (units kv.1, js kv.2)) l).
Arguments labels_json : simpl never.

Definition acl_json (a : AclRule) : json :=
  obj [("name", Some (js (acl_name a)));
       ("slug", js <$> acl_slug a);
       ("action", Some (js (acl_action a)));
       ("src", Some (strs (acl_src a)));
       ("dst", Some (strs (acl_dst a)));
       ("ports", Some (strs (acl_ports a)));
       ("protocol", nullish_json (acl_protocol a));
       ("priority", Some (JInt (acl_priority a)));
       ("orderIndex", Some (JInt (acl_orderIndex a)));
       ("scope", Some (js (scope_text (acl_scope a))));
       ("posture", Some (strs (acl_posture a)));
       ("labels", Some (labels_json (acl_labels a)));
       ("enabled", Some (JBool (acl_enabled a)))].

Definition grant_json (g : Grant) : json :=
  obj [("name", Some (js (grant_name g)));
       ("principals", Some (strs (grant_principals g)));
       ("capability", Some (js (grant_capability g)));
       ("ports", Some (strs (grant_ports g)));
       ("protocol", nullish_json (grant_protocol g))].

Definition ssh_json (r : SshRule) : json :=
  obj [("name", Some (js (ssh_name r)));
       ("src", Some (strs (ssh_src r)));
       ("dst", Some (strs (ssh_dst r)));
       ("action", Some (js (ssh_action r)));
       ("users", Some (strs (ssh_users r)));
       ("priority", Some (JInt (ssh_priority r)));
       ("enabled", Some (JBool (ssh_enabled r)))].

Definition posture_json (p : PostureDefinition) : json :=
  obj [("name", Some (js (posture_name p))); ("assertions", Some (strs (posture_assertions p)))].

Definition approver_json (a : AutoApprover) : json :=
  obj [("name", Some (js (approver_name a)));
       ("route", Some (js (approver_route a)));
       ("principals", Some (strs (approver_principals a)))].

Definition attr_json (n : NodeAttribute) : json :=
  obj [("name", Some (js (attr_name n)));
       ("value", Some (js (attr_value n)));
       ("selectors", Some (strs (attr_selectors n)))].

Definition test_json (t : PolicyTest) : json :=
  obj [("name", Some (js (test_name t)));
       ("src", Some (js (test_src t)));
       ("accept", Some (strs (test_accept t)));
       ("deny", Some (strs (test_deny t)))].

(** ** The kinds of entities

    What the diff needs of a kind: its label, the name entities are matched
    by and their JSON; the laws say that the JSON of an entity within the
    schema's bounds is printable and determines the entity. *)
Class Entity (A : Type) := {
  entity_kind : string;
  entity_name : A -> string;
  entity_json : A -> json;
  entity_ok : A -> Prop;
  entity_json_wf (x : A) : entity_ok x -> json_wf (entity_json x) = true;
  entity_json_inj (x y : A) : entity_json x = entity_json y -> x = y
}.

Definition stableJson (value : json) : jstr := stringify value.

Section DiffEntities.
Context {A : Type} `{Entity A}.

(** The [Map] from names to entities. *)
Definition by_name (l : list A) : list (string * A) :=
  map_of (map (fun item => (entity_name item, item)) l).

Definition diff_new (leftMap : list (string * A)) (entry : string * A) : list DiffChange :=
  match map_get leftMap entry.1 with
  | None => [mkDiffChange DiffAdd entity_kind entry.1 None]
  | Some old =>
      if bool_decide (stableJson (entity_json old) <> stableJson (entity_json entry.2))
      then [mkDiffChange DiffChanged entity_kind entry.1 (Some "fields changed")]
      else []
  end.

Definition diff_gone (rightMap : list (string * A)) (name : string) : list DiffChange :=
  match map_get rightMap name with
  | Some _ => []
  | None => [mkDiffChange DiffRemove entity_kind name None]
  end.

Definition diffEntities (left right : list A) : list DiffChange :=
  let leftMap := by_name left in
  let rightMap := by_name right in
  concat (map (diff_new leftMap) rightMap) ++ concat (map (diff_gone rightMap) leftMap.*1).
End DiffEntities.

(** ** Instances *)
#[export] Instance js_Inj : Inj (=) (=) js.
Proof. intros s s' [= E]. by apply units_inj. Qed.
#[export] Instance strs_Inj : Inj (=) (=) strs.
Proof. intros l l' [= E]. exact (inj (fmap js) _ _ E). Qed.
#[export] Instance labels_json_Inj : Inj (=) (=) labels_json.
Proof.
  intros l l' [= E]. revert l' E. induction l as [|[k v] l IH]; intros [|[k' v'] l']; cbn; try done.
  intros [= Hk Hv Hl]. f_equal; [|by apply IH]. f_equal; by apply units_inj.
Qed.
#[export] Instance scope_text_Inj : Inj (=) (=) scope_text.
Proof. by intros [] []. Qed.

Lemma js_wf s : json_wf (js s) = true.
Proof. apply units_wf. Qed.

Lemma strs_wf l : json_wf (strs l) = true.
Proof. cbn. apply forallb_forall. intros j (s & <- & _)%in_map_iff. apply js_wf. Qed.

Lemma labels_wf l : NoDup l.*1 -> json_wf (labels_json l) = true.
Proof.
  intros Hn. unfold labels_json. cbn. apply andb_true_intro. split.
  - apply bool_decide_eq_true.
    replace (map (fun kv : string * string => (units kv.1, js kv.2)) l).*1 with (units <$> l.*1).
    + by apply (NoDup_fmap_2 units).
    + clear. induction l as [|kv l IH]; cbn; [done|]. by f_equal.
  - apply forallb_forall. intros kv (x & <- & _)%in_map_iff. cbn. by rewrite !units_wf.
Qed.

Lemma nullish_json_wf x j : nullish_json x = Some j -> json_wf j = true.
Proof. destruct x; cbn; intros [= <-]; [done|]. apply js_wf. Qed.

Lemma obj_wf fields :
  bool_decide (NoDup fields.*1) = true ->
  Forall (fun kv => forall j, kv.2 = Some j -> json_wf j = true) fields ->
  json_wf (obj fields) = true.
Proof.
  intros Hn%bool_decide_eq_true Hf. unfold obj. cbn. apply andb_true_intro. split.
  - apply bool_decide_eq_true. clear Hf. induction fields as [|[k [j|]] fields IH]; cbn in *.
    + constructor.
    + apply list.NoDup_cons in Hn as [Hk Hn]. apply list.NoDup_cons. split; [|auto].
      intros (kv & E & (y & Hy & Ey)%list_elem_of_omap)%list_elem_of_fmap.
      destruct y as [k' [j'|]]; cbn in Ey; simplify_eq. cbn in E. apply units_inj in E as ->.
      apply Hk, list_elem_of_fmap. by exists (k', Some j').
    + apply list.NoDup_cons in Hn as [_ Hn]. auto.
  - apply forallb_forall. intros kv (y & Hy & Ey)%list_elem_of_In%list_elem_of_omap.
    rewrite List.Forall_forall in Hf. specialize (Hf y (proj1 (list_elem_of_In _ _) Hy)).
    destruct y as [k [j|]]; cbn in *; simplify_eq. cbn. rewrite units_wf. cbn. auto.
Qed.

Lemma option_js_wf x j : js <$> x = Some j -> json_wf j = true.
Proof. destruct x; cbn; intros [= <-]. apply js_wf. Qed.

Create HintDb document_json.
#[export] Hint Resolve units_wf js_wf strs_wf labels_wf nullish_json_wf option_js_wf : document_json.

(** Solves [json_wf] of an object literal. *)
Ltac obj_wf :=
  intros; apply obj_wf; [reflexivity|];
  repeat (apply Forall_cons_2; [intros ? Hj; cbn in Hj; try (injection Hj as <-); eauto with document_json|]);
  apply Forall_nil_2.

(** Solves injectivity of an object literal. *)
Ltac obj_inj :=
  let x := fresh in let y := fresh in let E := fresh in
  intros x y E; destruct x, y; unfold obj in E; cbn in E;
  repeat match goal with
  | o : option string |- _ => destruct o
  | o : nullish string |- _ => destruct o
  end; cbn in E; injection E; intros;
  repeat match goal with
  | H : js _ = JNull |- _ => discriminate H
  | H : JNull = js _ |- _ => discriminate H
  | H : units _ = units _ |- _ => apply units_inj in H
  | H : map js _ = map js _ |- _ => apply (inj (fmap js)) in H
  | H : map _ ?l = map _ ?l' |- _ => apply (f_equal JObj), (inj labels_json l l') in H
  | H : scope_text _ = scope_text _ |- _ => apply (inj scope_text) in H
  end; congruence.

#[export] Program Instance tag_entity : Entity TagDefinition :=
  {| entity_kind := "tag"; entity_name := tag_name; entity_json := tag_json; entity_ok _ := True |}.
Next Obligation. obj_wf. Qed.
Next Obligation. obj_inj. Qed.

#[export] Program Instance alias_entity : Entity HostAlias :=
  {| entity_kind := "host_alias"; entity_name := alias_name; entity_json := alias_json;
     entity_ok _ := True |}.
Next Obligation. obj_wf. Qed.
Next Obligation. obj_inj. Qed.

#[export] Program Instance ipset_entity : Entity IpSet :=
  {| entity_kind := "ip_set"; entity_name := ipset_name; entity_json := ipset_json;
     entity_ok _ := True |}.
Next Obligation. obj_wf. Qed.
Next Obligation. obj_inj. Qed.

#[export] Program Instance acl_entity : Entity AclRule :=
  {| entity_kind := "acl"; entity_name := aclKey; entity_json := acl_json;
     entity_ok a := safe_int (acl_priority a) = true /\ safe_int (acl_orderIndex a) = true
                   /\ NoDup (acl_labels a).*1 |}.
Next Obligation. intros a (? & ? & ?). obj_wf. Qed.
Next Obligation. obj_inj. Qed.

#[export] Program Instance grant_entity : Entity Grant :=
  {| entity_kind := "grant"; entity_name := grant_name; entity_json := grant_json;
     entity_ok _ := True |}.
Next Obligation. obj_wf. Qed.
Next Obligation. obj_inj. Qed.

#[export] Program Instance ssh_entity : Entity SshRule :=
  {| entity_kind := "ssh_rule"; entity_name := ssh_name; entity_json := ssh_json;
     entity_ok r := safe_int (ssh_priority r) = true |}.
Next Obligation. obj_wf. Qed.
Next Obligation. obj_inj. Qed.

#[export] Program Instance posture_entity : Entity PostureDefinition :=
  {| entity_kind := "posture"; entity_name := posture_name; entity_json := posture_json;
     entity_ok _ := True |}.
Next Obligation. obj_wf. Qed.
Next Obligation. obj_inj. Qed.

#[export] Program Instance approver_entity : Entity AutoApprover :=
  {| entity_kind := "auto_approver"; entity_name := approver_name; entity_json := approver_json;
     entity_ok _ := True |}.
Next Obligation. obj_wf. Qed.
Next Obligation. obj_inj. Qed.

#[export] Program Instance attr_entity : Entity NodeAttribute :=
  {| entity_kind := "node_attribute"; entity_name := attr_name; entity_json := attr_json;
     entity_ok _ := True |}.
Next Obligation. obj_wf. Qed.
Next Obligation. obj_inj. Qed.

#[export] Program Instance test_entity : Entity PolicyTest :=
  {| entity_kind := "test"; entity_name := test_name; entity_json := test_json;
     entity_ok _ := True |}.
Next Obligation. obj_wf. Qed.
Next Obligation. obj_inj. Qed.

Definition diffDocuments (a b : PolicyDocument) : list DiffChange :=
  diffEntities (tags a) (tags b)
  ++ diffEntities (host_aliases a) (host_aliases b)
  ++ diffEntities (ip_sets a) (ip_sets b)
  ++ diffEntities (acls a) (acls b)
  ++ diffEntities (grants a) (grants b)
  ++ diffEntities (ssh_rules a) (ssh_rules b)
  ++ diffEntities (postures a) (postures b)
  ++ diffEntities (auto_approvers a) (auto_approvers b)
  ++ diffEntities (node_attributes a) (node_attributes b)
  ++ diffEntities (tests a) (tests b).

(** ** The diff of one kind *)
Section DiffSpec.
Context {A : Type} `{Entity A}.
Implicit Types (l left right : list A) (x y : A).

(** The entity of name [n]: the last one, as in a [Map] built from the list. *)
Definition named l (n : string) : option A := map_get (by_name l) n.

Lemma by_name_keys l n : n ∈ (by_name l).*1 <-> n ∈ map entity_name l.
Proof.
  unfold by_name. rewrite map_of_keys. replace (map _ l).*1 with (map entity_name l); [done|].
  induction l; cbn; [done|]. by f_equal.
Qed.

Lemma named_None l n : named l n = None <-> n ∉ map entity_name l.
Proof. unfold named. by rewrite map_get_None, by_name_keys. Qed.

Lemma by_name_entries l n x : (n, x) ∈ by_name l <-> named l n = Some x.
Proof. symmetry. apply map_get_Some, NoDup_map_of. Qed.

Lemma by_name_unique l :
  NoDup (map entity_name l) -> by_name l = map (fun item => (entity_name item, item)) l.
Proof.
  intros Hn. apply map_of_NoDup. replace (map _ l).*1 with (map entity_name l); [done|].
  clear. induction l; cbn; [done|]. by f_equal.
Qed.

Lemma named_Some l n x :
  NoDup (map entity_name l) -> named l n = Some x <-> x ∈ l /\ entity_name x = n.
Proof.
  intros Hn. rewrite <- by_name_entries, by_name_unique, list_elem_of_In, in_map_iff by done.
  setoid_rewrite <- list_elem_of_In. split; [intros (y & [= <- <-] & ?); done|].
  intros [? <-]. eauto.
Qed.

Lemma stableJson_inj x y :
  entity_ok x -> entity_ok y -> stableJson (entity_json x) = stableJson (entity_json y) -> x = y.
Proof.
  intros Hx Hy E. apply entity_json_inj, stringify_inj; auto using entity_json_wf.
Qed.

(** The changes between two lists, in terms of their named entities. *)
Inductive change_spec left right : DiffChange -> Prop :=
| change_add n y :
    named left n = None -> named right n = Some y ->
    change_spec left right (mkDiffChange DiffAdd entity_kind n None)
| change_fields n x y :
    named left n = Some x -> named right n = Some y -> x <> y ->
    change_spec left right (mkDiffChange DiffChanged entity_kind n (Some "fields changed"))
| change_remove n x :
    named left n = Some x -> named right n = None ->
    change_spec left right (mkDiffChange DiffRemove entity_kind n None).

Lemma elem_of_by_name l n x : named l n = Some x -> x ∈ l.
Proof.
  unfold named, by_name. revert n x. induction l as [|y l IH] using rev_ind; [done|].
  intros n x. rewrite map_app. cbn. rewrite map_of_snoc, map_get_set. cbn.
  destruct (decide _); [intros [= ->]; set_solver|]. intros E%IH. set_solver.
Qed.

Lemma diffEntities_elem left right c :
  Forall entity_ok left -> Forall entity_ok right ->
  c ∈ diffEntities left right <-> change_spec left right c.
Proof.
  rewrite !Forall_forall. intros Hl Hr. unfold diffEntities.
  rewrite elem_of_app, !elem_of_concat_map. split.
  - intros [([n y] & Hy & Hc)|(n & Hn & Hc)].
    + apply by_name_entries in Hy. unfold diff_new in Hc. cbn in Hc. fold (named left n) in Hc.
      destruct (named left n) as [x|] eqn:Ex.
      * destruct (bool_decide _) eqn:Eb; [|by apply elem_of_nil in Hc].
        apply list_elem_of_singleton in Hc as ->. apply bool_decide_eq_true in Eb.
        eapply change_fields; [done..|]. by intros ->.
      * apply list_elem_of_singleton in Hc as ->. by eapply change_add.
    + unfold diff_gone in Hc. fold (named right n) in Hc.
      destruct (named right n) as [y|] eqn:Ey; [by apply elem_of_nil in Hc|].
      apply list_elem_of_singleton in Hc as ->.
      apply list_elem_of_fmap in Hn as ([n' x] & -> & Hx%by_name_entries). by eapply change_remove.
  - intros [n y Hx Hy|n x y Hx Hy Hne|n x Hx Hy].
    + left. exists (n, y). split; [by apply by_name_entries|]. unfold diff_new. cbn.
      unfold named in Hx. rewrite Hx. left.
    + left. exists (n, y). split; [by apply by_name_entries|]. unfold diff_new. cbn.
      unfold named in Hx. rewrite Hx. rewrite bool_decide_true; [left|].
      intros E. apply Hne, stableJson_inj; [| |done].
      * apply Hl, list_elem_of_In. by eapply elem_of_by_name.
      * apply Hr, list_elem_of_In. by eapply elem_of_by_name.
    + right. exists n. split; [apply list_elem_of_fmap; exists (n, x); by rewrite by_name_entries|].
      unfold diff_gone. unfold named in Hy. rewrite Hy. left.
Qed.

(** No change means the same entities, up to order. *)
Lemma diffEntities_nil left right :
  Forall entity_ok left -> Forall entity_ok right ->
  NoDup (map entity_name left) -> NoDup (map entity_name right) ->
  diffEntities left right = [] <-> Permutation left right.
Proof.
  intros Hl Hr Nl Nr. split.
  - intros E. assert (forall c, ~ change_spec left right c) as Hno.
    { intros c Hc. apply diffEntities_elem in Hc; [|done..]. rewrite E in Hc. by apply elem_of_nil in Hc. }
    assert (forall n, named left n = named right n) as Hsame.
    { intros n. destruct (named left n) as [x|] eqn:Ex, (named right n) as [y|] eqn:Ey; [| | |done].
      - f_equal. destruct (decide (stableJson (entity_json x) = stableJson (entity_json y))) as [e|ne].
        + apply stableJson_inj; [| |done].
          * rewrite List.Forall_forall in Hl. apply Hl, list_elem_of_In. by eapply elem_of_by_name.
          * rewrite List.Forall_forall in Hr. apply Hr, list_elem_of_In. by eapply elem_of_by_name.
        + exfalso. eapply Hno, change_fields; [done..|]. by intros ->.
      - exfalso. by eapply Hno, change_remove.
      - exfalso. by eapply Hno, change_add. }
    apply NoDup_Permutation; [by eapply NoDup_fmap_1|by eapply NoDup_fmap_1|].
    intros x. rewrite <- (and_True (x ∈ left)), <- (and_True (x ∈ right)).
    transitivity (named left (entity_name x) = Some x); [rewrite named_Some by done; tauto|].
    rewrite Hsame, named_Some by done. tauto.
  - intros Hp. destruct (diffEntities left right) as [|c cs] eqn:E; [done|].
    assert (c ∈ diffEntities left right) as Hc by (rewrite E; left).
    apply diffEntities_elem in Hc; [|done..].
    assert (forall n x, named left n = Some x <-> named right n = Some x) as Hsame.
    { intros n x. rewrite !named_Some by done. by rewrite Hp. }
    exfalso. destruct Hc as [n y Hx Hy|n x y Hx Hy Hne|n x Hx Hy].
    + apply Hsame in Hy. congruence.
    + apply Hsame in Hx. congruence.
    + apply Hsame in Hx. congruence.
Qed.
End DiffSpec.

(** ** Documents *)
(** The numbers of the document are safe integers and its labels are keyed
    uniquely, what the schema and the object type guarantee. *)
Definition document_ok (doc : PolicyDocument) : Prop :=
  Forall entity_ok (acls doc) /\ Forall entity_ok (ssh_rules doc).

(** The same entities of every kind, up to order. *)
Record same_entities (a b : PolicyDocument) : Prop := {
  same_tags : Permutation (tags a) (tags b);
  same_host_aliases : Permutation (host_aliases a) (host_aliases b);
  same_ip_sets : Permutation (ip_sets a) (ip_sets b);
  same_acls : Permutation (acls a) (acls b);
  same_grants : Permutation (grants a) (grants b);
  same_ssh_rules : Permutation (ssh_rules a) (ssh_rules b);
  same_postures : Permutation (postures a) (postures b);
  same_auto_approvers : Permutation (auto_approvers a) (auto_approvers b);
  same_node_attributes : Permutation (node_attributes a) (node_attributes b);
  same_tests : Permutation (tests a) (tests b)
}.

Lemma Forall_True {A} (l : list A) : Forall (fun _ => True) l.
Proof. by induction l; constructor. Qed.
#[export] Hint Resolve Forall_True : document_json.

Lemma diff_nil_iff a b :
  document_ok a -> document_ok b -> unique_names a -> unique_names b ->
  diffDocuments a b = [] <-> same_entities a b.
Proof.
  intros [Aa As] [Ba Bs] Ua Ub. destruct Ua, Ub. unfold diffDocuments.
  rewrite !app_nil, !diffEntities_nil by (done || apply Forall_True).
  split; [intros; by destruct_and!; constructor | by intros []].
Qed.

(** the diff reports every difference between the entities of two
    documents, and nothing else: a change is listed exactly when an entity of
    its kind and name was added, removed, or has other fields. *)
Theorem diffDocuments_spec (a b : PolicyDocument) (c : DiffChange) :
  document_ok a -> document_ok b ->
  c ∈ diffDocuments a b <->
  change_spec (tags a) (tags b) c
  \/ change_spec (host_aliases a) (host_aliases b) c
  \/ change_spec (ip_sets a) (ip_sets b) c
  \/ change_spec (acls a) (acls b) c
  \/ change_spec (grants a) (grants b) c
  \/ change_spec (ssh_rules a) (ssh_rules b) c
  \/ change_spec (postures a) (postures b) c
  \/ change_spec (auto_approvers a) (auto_approvers b) c
  \/ change_spec (node_attributes a) (node_attributes b) c
  \/ change_spec (tests a) (tests b) c.
Proof.
  intros [Aa As] [Ba Bs]. unfold diffDocuments.
  by rewrite !elem_of_app, !diffEntities_elem by (done || apply Forall_True).
Qed.

(** for documents with unique names the diff is empty exactly when both
    have the same entities, in any order; the default action and the ICMP
    policy are not compared. *)
Theorem diffDocuments_nil_iff (a b : PolicyDocument) :
  document_ok a -> document_ok b -> unique_names a -> unique_names b ->
  diffDocuments a b = [] <-> same_entities a b.
Proof. apply diff_nil_iff. Qed.

(** The diff between a default-deny document and the same document with the
    default action turned to allow is empty. *)
Theorem diff_misses_default_action :
  diffDocuments (mkDocument [] [] [] [] [] [] [] [] [] [] Deny IcmpDeny) emptyDocument = [].
Proof. reflexivity. Qed.

Definition tagged_doc (l : list TagDefinition) : PolicyDocument :=
  mkDocument l [] [] [] [] [] [] [] [] [] Allow IcmpAllow.

Lemma diffDocuments_spec_witness :
  mkDiffChange DiffChanged "tag" "web" (Some "fields changed")
  ∈ diffDocuments (tagged_doc [mkTag "web" ["alice"]]) (tagged_doc [mkTag "web" []]).
Proof.
  apply (diffDocuments_spec (tagged_doc [mkTag "web" ["alice"]]) (tagged_doc [mkTag "web" []])).
  - split; constructor.
  - split; constructor.
  - left. exact (change_fields [mkTag "web" ["alice"]] [mkTag "web" []] "web" _ _
                   eq_refl eq_refl ltac:(done)).
Defined.

Lemma diffDocuments_nil_iff_witness :
  diffDocuments (tagged_doc [mkTag "web" []; mkTag "db" []])
                (tagged_doc [mkTag "db" []; mkTag "web" []]) = [].
Proof.
  apply (diffDocuments_nil_iff (tagged_doc [mkTag "web" []; mkTag "db" []])
                               (tagged_doc [mkTag "db" []; mkTag "web" []])).
  - split; constructor.
  - split; constructor.
  - constructor; cbn; refine (bool_decide_eq_true_1 _ _); reflexivity.
  - constructor; cbn; refine (bool_decide_eq_true_1 _ _); reflexivity.
  - constructor; cbn; try constructor.
Defined.
