(* ===== verification/Hash.v ===== *)
(** * Canonical form and content hash ([packages/policy-engine/src/hash.ts])

    The hash that identifies a policy document: SHA-256, a parameter, of the
    text of its canonical JSON.  Property names that are array indices, which
    engines list before all others, are outside the model. *)
From stdpp Require Import sorting.
From S2P Require Import Prelude Json Codec PolicyTypes Merge Diff.
Local Open Scope N_scope.

(** The order of [sort()]: lexicographic on code units. *)
Fixpoint units_le (a b : jstr) : bool :=
  match a, b with
  | [], _ => true
  | _ :: _, [] => false
  | x :: a', y :: b' => (x <? y) || ((x =? y) && units_le a' b')
  end.

Definition key_le (a b : jstr * json) : bool := units_le a.1 b.1.

(** The children [canonicalize] leaves out. *)
Definition empty_child (child : json) : bool :=
  match child with JArr [] | JObj [] => true | _ => false end.

Fixpoint canonicalize (value : json) : json :=
  match value with
  | JArr l => JArr (map canonicalize l)
  | JObj l =>
      JObj (sort_by key_le
              (omap (fun kv => if empty_child kv.2 then None
                               else Some (kv.1, canonicalize kv.2)) l))
  | v => v
  end.

Definition action_text (a : action) : string := match a with Allow => "allow" | Deny => "deny" end.
Definition icmp_text (i : icmp) : string :=
  match i with IcmpAllow => "allow" | IcmpAcl => "acl" | IcmpDeny => "deny" end.

Definition document_json (doc : PolicyDocument) : json :=
  obj [("tags", Some (JArr (map tag_json (tags doc))));
       ("host_aliases", Some (JArr (map alias_json (host_aliases doc))));
       ("ip_sets", Some (JArr (map ipset_json (ip_sets doc))));
       ("acls", Some (JArr (map acl_json (acls doc))));
       ("grants", Some (JArr (map grant_json (grants doc))));
       ("ssh_rules", Some (JArr (map ssh_json (ssh_rules doc))));
       ("postures", Some (JArr (map posture_json (postures doc))));
       ("auto_approvers", Some (JArr (map approver_json (auto_approvers doc))));
       ("node_attributes", Some (JArr (map attr_json (node_attributes doc))));
       ("tests", Some (JArr (map test_json (tests doc))));
       ("default_action", Some (js (action_text (default_action doc))));
       ("icmp_policy", Some (js (icmp_text (icmp_policy doc))))].

(** [b.toString(16).padStart(2, "0")]. *)
Definition hex_byte (b : N) : jstr := [hex_digit (b / 16); hex_digit (b mod 16)].

Section Hash.
Context (sha256 : bytes -> bytes).

Definition contentHash (doc : PolicyDocument) : jstr :=
  concat (map hex_byte (sha256 (utf8 (stringify (canonicalize (document_json doc)))))).
End Hash.

(** ** Canonical objects *)
(** The property [k] of the canonical form of an object. *)
Definition canon_prop (l : list (jstr * json)) (k : jstr) : option json :=
  match prop l k with
  | Some v => if empty_child v then None else Some (canonicalize v)
  | None => None
  end.

Definition canon_fields (l : list (jstr * json)) : list (jstr * json) :=
  omap (fun kv => if empty_child kv.2 then None else Some (kv.1, canonicalize kv.2)) l.

Lemma canon_fields_keys l k : k ∈ (canon_fields l).*1 -> k ∈ l.*1.
Proof.
  intros (kv & -> & ([k' v] & Hin & E)%list_elem_of_omap)%list_elem_of_fmap. cbn in E.
  destruct (empty_child v); [done|]. injection E as <-. apply list_elem_of_fmap. by exists (k', v).
Qed.

Lemma canon_fields_NoDup l : NoDup l.*1 -> NoDup (canon_fields l).*1.
Proof.
  induction l as [|[k v] l IH]; cbn; [done|]. intros [Hk Hn]%list.NoDup_cons.
  unfold canon_fields. cbn. destruct (empty_child v); [by apply IH|]. cbn.
  apply list.NoDup_cons. split; [|by apply IH]. intros Hin. by apply Hk, canon_fields_keys.
Qed.

Lemma canon_fields_get l k : NoDup l.*1 -> map_get (canon_fields l) k = canon_prop l k.
Proof.
  unfold canon_prop, prop. induction l as [|[k' v] l IH]; cbn; [done|].
  intros [Hk Hn]%list.NoDup_cons. unfold canon_fields. cbn.
  destruct (decide (k' = k)) as [->|Hne]; destruct (empty_child v).
  - apply map_get_None. intros Hin. by apply Hk, canon_fields_keys.
  - cbn. by rewrite decide_True.
  - by apply IH.
  - cbn. rewrite decide_False by done. by apply IH.
Qed.

Lemma map_get_perm {V} (l l' : list (jstr * V)) k :
  NoDup l.*1 -> Permutation l l' -> map_get l k = map_get l' k.
Proof.
  intros Hn Hp. assert (NoDup l'.*1) by (by rewrite <- Hp).
  destruct (map_get l k) as [v|] eqn:E.
  - symmetry. apply map_get_Some; [done|]. rewrite <- Hp. by apply map_get_Some.
  - symmetry. apply map_get_None. rewrite <- Hp. by apply map_get_None.
Qed.

(** Objects with the same canonical form have the same canonical properties. *)
Lemma canonicalize_obj l l' k :
  NoDup l.*1 -> NoDup l'.*1 ->
  canonicalize (JObj l) = canonicalize (JObj l') -> canon_prop l k = canon_prop l' k.
Proof.
  intros Hn Hn' [= E]. rewrite <- !canon_fields_get by done.
  rewrite (map_get_perm _ _ k (canon_fields_NoDup l Hn) (symmetry (sort_by_perm key_le _))).
  rewrite (map_get_perm _ _ k (canon_fields_NoDup l' Hn') (symmetry (sort_by_perm key_le _))).
  f_equal. exact E.
Qed.

(** ** Canonical object literals *)
(** The value of the field [k] of an object literal, if it is defined. *)
Definition field_of (fields : list (string * option json)) (k : string) : option json :=
  map_get fields k ≫= id.

Definition canon_value (v : option json) : option json :=
  v ≫= fun v => if empty_child v then None else Some (canonicalize v).

Definition obj_list (fields : list (string * option json)) : list (jstr * json) :=
  omap (fun kv => (fun j => (units kv.1, j)) <$> kv.2) fields.

Lemma obj_list_keys fields k : units k ∈ (obj_list fields).*1 -> k ∈ fields.*1.
Proof.
  intros ([u j] & Hu & ([k' [j'|]] & Hin & E)%list_elem_of_omap)%list_elem_of_fmap; [|done].
  cbn in *. injection E as <- <-. apply (inj units) in Hu as ->.
  apply list_elem_of_fmap. by exists (k', Some j').
Qed.

Lemma obj_list_NoDup fields : NoDup fields.*1 -> NoDup (obj_list fields).*1.
Proof.
  induction fields as [|[k [j|]] fields IH]; cbn; [constructor|..]; intros [Hk Hn]%list.NoDup_cons.
  - unfold obj_list. cbn. apply list.NoDup_cons. split; [|by apply IH].
    intros Hin. by apply Hk, obj_list_keys.
  - by apply IH.
Qed.

Lemma prop_obj_list fields k :
  NoDup fields.*1 -> prop (obj_list fields) (units k) = field_of fields k.
Proof.
  unfold prop, field_of. induction fields as [|[k' [j|]] fields IH]; cbn; [done|..];
    intros [Hk Hn]%list.NoDup_cons; unfold obj_list; cbn.
  - destruct (decide (k' = k)) as [->|Hne]; [by rewrite decide_True|].
    rewrite decide_False by (intros E; by apply Hne, (inj units)). by apply IH.
  - destruct (decide (k' = k)) as [->|Hne]; [|by apply IH].
    apply map_get_None. intros Hin. by apply Hk, obj_list_keys.
Qed.

Lemma canonicalize_fields fields fields' k :
  NoDup fields.*1 -> NoDup fields'.*1 ->
  canonicalize (obj fields) = canonicalize (obj fields') ->
  canon_value (field_of fields k) = canon_value (field_of fields' k).
Proof.
  intros Hn Hn' E.
  apply (canonicalize_obj _ _ (units k) (obj_list_NoDup _ Hn) (obj_list_NoDup _ Hn')) in E.
  unfold canon_prop in E. rewrite !prop_obj_list in E by done. unfold canon_value.
  by destruct (field_of fields k), (field_of fields' k).
Qed.

Lemma canonicalize_js_list l : map canonicalize (map js l) = map js l.
Proof. induction l as [|s l IH]; cbn; [done|]. by rewrite IH. Qed.

Lemma canon_strs_inj l l' : canon_value (Some (strs l)) = canon_value (Some (strs l')) -> l = l'.
Proof.
  destruct l as [|x l], l' as [|x' l']; [done..|]. cbn [canon_value mbind option_bind strs empty_child map].
  intros [= E1 E2]. rewrite !canonicalize_js_list in E2. apply units_inj in E1 as ->.
  f_equal. exact (inj (fmap js) _ _ E2).
Qed.

Lemma canon_js_inj s s' : canon_value (Some (js s)) = canon_value (Some (js s')) -> s = s'.
Proof. cbn. intros [= E]. by apply units_inj. Qed.

Lemma canon_nullish_inj x y : canon_value (nullish_json x) = canon_value (nullish_json y) -> x = y.
Proof. destruct x, y; cbn; try done. intros [= E]. f_equal. by apply units_inj. Qed.

Lemma canon_option_inj x y : canon_value (js <$> x) = canon_value (js <$> y) -> x = y.
Proof. destruct x, y; cbn; try done. intros [= E]. f_equal. by apply units_inj. Qed.

Lemma canon_int_inj z z' : canon_value (Some (JInt z)) = canon_value (Some (JInt z')) -> z = z'.
Proof. cbn. congruence. Qed.

Lemma canon_bool_inj b b' : canon_value (Some (JBool b)) = canon_value (Some (JBool b')) -> b = b'.
Proof. cbn. congruence. Qed.

Lemma canon_labels_inj l l' :
  NoDup l.*1 -> NoDup l'.*1 ->
  canon_value (Some (labels_json l)) = canon_value (Some (labels_json l')) -> Permutation l l'.
Proof.
  intros Hn Hn' E.
  assert (forall l : list (string * string),
    labels_json l = obj (map (fun kv => (kv.1, Some (js kv.2))) l)) as Hobj.
  { clear. intros l. unfold labels_json, obj. f_equal. induction l as [|kv l IH]; cbn; [done|]. by f_equal. }
  assert (forall l : list (string * string), (map (fun kv => (kv.1, Some (js kv.2))) l).*1 = l.*1) as Hkeys.
  { clear. intros l. induction l as [|kv l IH]; cbn; [done|]. by f_equal. }
  assert (forall (l : list (string * string)) k,
    field_of (map (fun kv => (kv.1, Some (js kv.2))) l) k = js <$> map_get l k) as Hf.
  { clear. intros l k. unfold field_of. induction l as [|[a b] l IH]; cbn; [done|].
    by destruct (decide (a = k)). }
  assert (canonicalize (labels_json l) = canonicalize (labels_json l')) as E'.
  { destruct l, l'; [done|discriminate E..|]. exact (inj Some _ _ E). }
  rewrite !Hobj in E'.
  assert (forall k, map_get l k = map_get l' k) as Hget.
  { intros k. apply (canonicalize_fields _ _ k) in E'; [|by rewrite Hkeys..].
    rewrite !Hf in E'. by apply canon_option_inj in E'. }
  apply NoDup_Permutation; [by eapply NoDup_fmap_1|by eapply NoDup_fmap_1|].
  intros [k v]. by rewrite <- !map_get_Some, Hget by done.
Qed.

(** ** The canonical form determines the entity *)
(** The field [k] of two object literals with the same canonical form [E]. *)
Ltac canon_field k E :=
  refine (canonicalize_fields _ _ k _ _ E); refine (bool_decide_eq_true_1 _ _); reflexivity.
Ltac canon_js k E := apply canon_js_inj; canon_field k E.
Ltac canon_strs k E := apply canon_strs_inj; canon_field k E.

Lemma tag_canon_inj x y : canonicalize (tag_json x) = canonicalize (tag_json y) -> x = y.
Proof. intros E. destruct x, y. f_equal; [canon_js "name" E|canon_strs "owners" E]. Qed.

Lemma alias_canon_inj x y : canonicalize (alias_json x) = canonicalize (alias_json y) -> x = y.
Proof. intros E. destruct x, y. f_equal; [canon_js "name" E|canon_js "target" E]. Qed.

Lemma ipset_canon_inj x y : canonicalize (ipset_json x) = canonicalize (ipset_json y) -> x = y.
Proof. intros E. destruct x, y. f_equal; [canon_js "name" E|canon_strs "cidrs" E]. Qed.

Lemma grant_canon_inj x y : canonicalize (grant_json x) = canonicalize (grant_json y) -> x = y.
Proof.
  intros E. destruct x, y. f_equal; [canon_js "name" E|canon_strs "principals" E|
    canon_js "capability" E|canon_strs "ports" E|].
  apply canon_nullish_inj. canon_field "protocol" E.
Qed.

Lemma ssh_canon_inj x y : canonicalize (ssh_json x) = canonicalize (ssh_json y) -> x = y.
Proof.
  intros E. destruct x, y. f_equal; [canon_js "name" E|canon_strs "src" E|canon_strs "dst" E|
    canon_js "action" E|canon_strs "users" E| |].
  - apply canon_int_inj. canon_field "priority" E.
  - apply canon_bool_inj. canon_field "enabled" E.
Qed.

Lemma posture_canon_inj x y : canonicalize (posture_json x) = canonicalize (posture_json y) -> x = y.
Proof. intros E. destruct x, y. f_equal; [canon_js "name" E|canon_strs "assertions" E]. Qed.

Lemma approver_canon_inj x y : canonicalize (approver_json x) = canonicalize (approver_json y) -> x = y.
Proof.
  intros E. destruct x, y. f_equal; [canon_js "name" E|canon_js "route" E|canon_strs "principals" E].
Qed.

Lemma attr_canon_inj x y : canonicalize (attr_json x) = canonicalize (attr_json y) -> x = y.
Proof.
  intros E. destruct x, y. f_equal; [canon_js "name" E|canon_js "value" E|canon_strs "selectors" E].
Qed.

Lemma test_canon_inj x y : canonicalize (test_json x) = canonicalize (test_json y) -> x = y.
Proof.
  intros E. destruct x, y. f_equal; [canon_js "name" E|canon_js "src" E|canon_strs "accept" E|
    canon_strs "deny" E].
Qed.

(** Rules that differ at most in the order of their labels. *)
Definition with_labels (a : AclRule) (l : list (string * string)) : AclRule :=
  mkAcl (acl_name a) (acl_slug a) (acl_action a) (acl_src a) (acl_dst a) (acl_ports a)
    (acl_protocol a) (acl_priority a) (acl_orderIndex a) (acl_scope a) (acl_posture a) l
    (acl_enabled a).

Definition acl_equiv (a b : AclRule) : Prop :=
  Permutation (acl_labels a) (acl_labels b) /\ b = with_labels a (acl_labels b).

Lemma acl_canon_inj x y :
  NoDup (acl_labels x).*1 -> NoDup (acl_labels y).*1 ->
  canonicalize (acl_json x) = canonicalize (acl_json y) -> acl_equiv x y.
Proof.
  intros Hx Hy E. split; [apply canon_labels_inj; [done..|]; canon_field "labels" E|].
  destruct x, y. unfold with_labels. cbn. symmetry. f_equal.
  - canon_js "name" E.
  - apply canon_option_inj. canon_field "slug" E.
  - canon_js "action" E.
  - canon_strs "src" E.
  - canon_strs "dst" E.
  - canon_strs "ports" E.
  - apply canon_nullish_inj. canon_field "protocol" E.
  - apply canon_int_inj. canon_field "priority" E.
  - apply canon_int_inj. canon_field "orderIndex" E.
  - apply (inj scope_text). canon_js "scope" E.
  - canon_strs "posture" E.
  - apply canon_bool_inj. canon_field "enabled" E.
Qed.

(** Documents that differ at most in the order of labels. *)
Record doc_equiv (a b : PolicyDocument) : Prop := {
  de_tags : tags a = tags b;
  de_aliases : host_aliases a = host_aliases b;
  de_ip_sets : ip_sets a = ip_sets b;
  de_acls : Forall2 acl_equiv (acls a) (acls b);
  de_grants : grants a = grants b;
  de_ssh : ssh_rules a = ssh_rules b;
  de_postures : postures a = postures b;
  de_approvers : auto_approvers a = auto_approvers b;
  de_attrs : node_attributes a = node_attributes b;
  de_tests : tests a = tests b;
  de_action : default_action a = default_action b;
  de_icmp : icmp_policy a = icmp_policy b
}.

Lemma canon_list_Forall2 {A} (f : A -> json) (R : A -> A -> Prop) (P : A -> Prop) l l' :
  (forall x y, P x -> P y -> canonicalize (f x) = canonicalize (f y) -> R x y) ->
  Forall P l -> Forall P l' ->
  canon_value (Some (JArr (map f l))) = canon_value (Some (JArr (map f l'))) -> Forall2 R l l'.
Proof.
  intros Hinj Hl Hl' E.
  assert (map canonicalize (map f l) = map canonicalize (map f l')) as E'.
  { destruct l, l'; [done|discriminate E..|]. cbn in E |- *. congruence. }
  clear E. revert l' Hl' E'. induction Hl as [|x l Hx Hl IH]; intros [|y l'] Hl' E'; try done.
  apply Forall_cons_1 in Hl' as [Hy Hl']. injection E' as E1 E2. constructor; [by apply Hinj|by apply IH].
Qed.

Lemma canon_list_inj {A} (f : A -> json) l l' :
  (forall x y, canonicalize (f x) = canonicalize (f y) -> x = y) ->
  canon_value (Some (JArr (map f l))) = canon_value (Some (JArr (map f l'))) -> l = l'.
Proof.
  intros Hinj E. apply (canon_list_Forall2 f eq (fun _ => True)) in E; [|by auto|apply Forall_True..].
  clear -E. by induction E; subst.
Qed.

Lemma action_text_inj a b : action_text a = action_text b -> a = b.
Proof. by destruct a, b. Qed.
Lemma icmp_text_inj a b : icmp_text a = icmp_text b -> a = b.
Proof. by destruct a, b. Qed.

Definition labels_ok (a : AclRule) : Prop := NoDup (acl_labels a).*1.

Lemma document_canon_inj a b :
  Forall labels_ok (acls a) -> Forall labels_ok (acls b) ->
  canonicalize (document_json a) = canonicalize (document_json b) -> doc_equiv a b.
Proof.
  intros Ha Hb E. constructor.
  - apply (canon_list_inj _ _ _ tag_canon_inj). canon_field "tags" E.
  - apply (canon_list_inj _ _ _ alias_canon_inj). canon_field "host_aliases" E.
  - apply (canon_list_inj _ _ _ ipset_canon_inj). canon_field "ip_sets" E.
  - apply (canon_list_Forall2 _ _ labels_ok _ _ acl_canon_inj Ha Hb). canon_field "acls" E.
  - apply (canon_list_inj _ _ _ grant_canon_inj). canon_field "grants" E.
  - apply (canon_list_inj _ _ _ ssh_canon_inj). canon_field "ssh_rules" E.
  - apply (canon_list_inj _ _ _ posture_canon_inj). canon_field "postures" E.
  - apply (canon_list_inj _ _ _ approver_canon_inj). canon_field "auto_approvers" E.
  - apply (canon_list_inj _ _ _ attr_canon_inj). canon_field "node_attributes" E.
  - apply (canon_list_inj _ _ _ test_canon_inj). canon_field "tests" E.
  - apply action_text_inj. canon_js "default_action" E.
  - apply icmp_text_inj. canon_js "icmp_policy" E.
Qed.

(** ** The order of labels does not matter *)
Lemma units_le_total a b : units_le a b = true \/ units_le b a = true.
Proof.
  revert b. induction a as [|x a IH]; intros [|y b]; cbn; auto.
  destruct (N.lt_total x y) as [H|[->|H]].
  - left. by rewrite (proj2 (N.ltb_lt _ _)).
  - rewrite N.ltb_irrefl, N.eqb_refl. cbn. apply IH.
  - right. by rewrite (proj2 (N.ltb_lt _ _)).
Qed.

Lemma units_le_cons x a y b :
  units_le (x :: a) (y :: b) = true <-> x < y \/ (x = y /\ units_le a b = true).
Proof. cbn. by rewrite orb_true_iff, andb_true_iff, N.ltb_lt, N.eqb_eq. Qed.

Lemma units_le_trans a b c : units_le a b = true -> units_le b c = true -> units_le a c = true.
Proof.
  revert b c. induction a as [|x a IH]; intros [|y b] [|z c]; try done.
  rewrite !units_le_cons. intros [?|[-> Hab]] [?|[-> Hbc]]; [left; lia|left; done|left; done|].
  right. split; [done|]. by eapply IH.
Qed.

Lemma units_le_antisym a b : units_le a b = true -> units_le b a = true -> a = b.
Proof.
  revert b. induction a as [|x a IH]; intros [|y b]; try done.
  rewrite !units_le_cons. intros [?|[-> Hab]] [?|[? Hba]]; try lia. f_equal. by apply IH.
Qed.

Lemma sort_by_keys_perm (l l' : list (jstr * json)) :
  NoDup l.*1 -> Permutation l l' -> sort_by key_le l = sort_by key_le l'.
Proof.
  intros Hn Hp. assert (NoDup l'.*1) as Hn' by (by rewrite <- Hp).
  apply (StronglySorted_unique_strong (fun a b => key_le a b = true)).
  - intros [k v] [k' v'] Hx Hy H1 H2. rewrite elem_of_sort_by in Hx. rewrite elem_of_sort_by in Hy.
    unfold key_le in *. cbn in *.
    assert (k = k') as <- by (by apply units_le_antisym). f_equal.
    rewrite <- Hp in Hy. apply map_get_Some in Hx; [|done]. apply map_get_Some in Hy; [|done]. congruence.
  - apply sort_by_sorted; [intros; apply units_le_total|intros x y z; apply units_le_trans].
  - apply sort_by_sorted; [intros; apply units_le_total|intros x y z; apply units_le_trans].
  - by rewrite !sort_by_perm.
Qed.

Lemma canonicalize_perm l l' :
  NoDup l.*1 -> Permutation l l' -> canonicalize (JObj l) = canonicalize (JObj l').
Proof.
  intros Hn Hp. cbn. f_equal. apply sort_by_keys_perm; [by apply canon_fields_NoDup|].
  change (Permutation (canon_fields l) (canon_fields l')). unfold canon_fields. by rewrite Hp.
Qed.

Lemma labels_canon_perm l l' :
  NoDup l.*1 -> Permutation l l' ->
  canonicalize (labels_json l) = canonicalize (labels_json l')
  /\ empty_child (labels_json l) = empty_child (labels_json l').
Proof.
  intros Hn Hp. split.
  - apply canonicalize_perm; [|by apply Permutation_map].
    replace (map _ l).*1 with (units <$> l.*1); [by apply (NoDup_fmap_2 units)|].
    clear. induction l as [|kv l IH]; cbn; [done|]. by f_equal.
  - apply Permutation_length in Hp. by destruct l, l'.
Qed.

Lemma acl_equiv_canon a b :
  labels_ok a -> acl_equiv a b -> canonicalize (acl_json a) = canonicalize (acl_json b).
Proof.
  intros Ha [Hp ->]. destruct (labels_canon_perm _ _ Ha Hp) as [Hc He].
  destruct a as [n slug act src dst ports proto pr oi sc post labels en]. cbn in *.
  unfold acl_json, obj. cbn [acl_name acl_slug acl_action acl_src acl_dst acl_ports acl_protocol
    acl_priority acl_orderIndex acl_scope acl_posture acl_labels acl_enabled with_labels] in *.
  cbn [canonicalize]. do 2 f_equal.
  destruct slug, proto; cbn [omap list_omap fmap option_fmap option_map fst snd nullish_json];
    rewrite He, Hc; reflexivity.
Qed.

Lemma doc_equiv_canon a b :
  Forall labels_ok (acls a) -> doc_equiv a b ->
  canonicalize (document_json a) = canonicalize (document_json b).
Proof.
  intros Ha [-> -> -> Hacl -> -> -> -> -> -> -> ->] || intros Ha [E1 E2 E3 Hacl E5 E6 E7 E8 E9 E10 E11 E12].
  assert (map canonicalize (map acl_json (acls a)) = map canonicalize (map acl_json (acls b))) as Em.
  { clear -Ha Hacl. induction Hacl as [|x y l l' Hxy Hl IH]; cbn; [done|].
    apply Forall_cons_1 in Ha as [Hx Ha]. f_equal; [by apply acl_equiv_canon|by apply IH]. }
  assert (empty_child (JArr (map acl_json (acls a))) = empty_child (JArr (map acl_json (acls b)))) as Ee.
  { by destruct Hacl. }
  unfold document_json. rewrite E1, E2, E3, E5, E6, E7, E8, E9, E10, E11, E12.
  unfold obj. cbn [canonicalize]. do 2 f_equal.
  cbn [omap list_omap fmap option_fmap option_map fst snd canonicalize]. by rewrite Ee, Em.
Qed.

(** ** The hash *)
Lemma canonicalize_wf j : json_wf j = true -> json_wf (canonicalize j) = true.
Proof.
  induction j as [|b|z|s|s|l IH|l IH] using json_nested_ind; intros W; try done.
  - cbn in *. rewrite forallb_forall in W. rewrite List.Forall_forall in IH.
    apply forallb_forall. intros x (y & <- & Hy)%in_map_iff. auto.
  - cbn in W. apply andb_prop in W as [Wn%bool_decide_eq_true Wl].
    rewrite forallb_forall in Wl. rewrite List.Forall_forall in IH.
    change (canonicalize (JObj l)) with (JObj (sort_by key_le (canon_fields l))).
    cbn [json_wf]. apply andb_true_intro. split.
    + apply bool_decide_eq_true. rewrite sort_by_perm. by apply canon_fields_NoDup.
    + apply forallb_forall. intros kv Hkv%list_elem_of_In. rewrite elem_of_sort_by in Hkv.
      apply list_elem_of_omap in Hkv as ([k v] & Hin & E). cbn in E.
      destruct (empty_child v); [done|]. injection E as <-. cbn.
      apply list_elem_of_In in Hin. specialize (Wl _ Hin). specialize (IH _ Hin). cbn in Wl, IH.
      apply andb_prop in Wl as [Wk Wv]. rewrite Wk. cbn. auto.
Qed.

Lemma entity_list_wf {A} `{Entity A} (l : list A) :
  Forall entity_ok l -> json_wf (JArr (map entity_json l)) = true.
Proof.
  intros Hl. cbn. apply forallb_forall. intros j (x & <- & Hx)%in_map_iff.
  rewrite List.Forall_forall in Hl. by apply entity_json_wf, Hl.
Qed.

Lemma document_wf_json doc : document_ok doc -> json_wf (document_json doc) = true.
Proof.
  intros [Ha Hs]. apply obj_wf; [reflexivity|].
  repeat apply Forall_cons_2; try apply Forall_nil_2; cbn [snd]; intros j [= <-].
  - exact (entity_list_wf (tags doc) (Forall_True _)).
  - exact (entity_list_wf (host_aliases doc) (Forall_True _)).
  - exact (entity_list_wf (ip_sets doc) (Forall_True _)).
  - exact (entity_list_wf (acls doc) Ha).
  - exact (entity_list_wf (grants doc) (Forall_True _)).
  - exact (entity_list_wf (ssh_rules doc) Hs).
  - exact (entity_list_wf (postures doc) (Forall_True _)).
  - exact (entity_list_wf (auto_approvers doc) (Forall_True _)).
  - exact (entity_list_wf (node_attributes doc) (Forall_True _)).
  - exact (entity_list_wf (tests doc) (Forall_True _)).
  - apply js_wf.
  - apply js_wf.
Qed.

Lemma hex_byte_inj l l' :
  Forall is_byte l -> Forall is_byte l' ->
  concat (map hex_byte l) = concat (map hex_byte l') -> l = l'.
Proof.
  assert (forall d d', d < 16 -> d' < 16 -> hex_digit d = hex_digit d' -> d = d') as Hd.
  { intros d d' H H' E. apply (f_equal hex_value) in E. rewrite !hex_value_digit in E by done. congruence. }
  intros Hl. revert l'. induction Hl as [|b l Hb Hl IH]; intros l' Hl'; destruct Hl' as [|b' l' Hb' Hl']; try done.
  intros [= E1 E2 E3]. unfold is_byte in *.
  apply Hd in E1; [|apply N.Div0.div_lt_upper_bound; lia..].
  apply Hd in E2; [|apply N.mod_lt; done..]. f_equal; [|by apply IH].
  rewrite (N.div_mod b 16), (N.div_mod b' 16) by done. by rewrite E1, E2.
Qed.

(** C40: the content hash identifies a document.  Two documents have the same
    hash exactly when they agree in everything but the order of labels,
    provided SHA-256 does not collide on their canonical texts. *)
Theorem contentHash_iff (sha256 : bytes -> bytes) (a b : PolicyDocument) :
  (forall m, Forall is_byte (sha256 m)) ->
  (let text doc := utf8 (stringify (canonicalize (document_json doc))) in
   sha256 (text a) = sha256 (text b) -> text a = text b) ->
  document_ok a -> document_ok b ->
  contentHash sha256 a = contentHash sha256 b <-> doc_equiv a b.
Proof.
  cbn zeta. intros Hbytes Hcoll Ha Hb.
  assert (forall doc, document_ok doc -> Forall labels_ok (acls doc)) as Hlab.
  { intros doc [H _]. eapply List.Forall_impl; [|exact H]. by intros r (_ & _ & ?). }
  split.
  - intros E%hex_byte_inj%Hcoll; [|done..].
    pose proof (canonicalize_wf _ (document_wf_json a Ha)) as Wa.
    pose proof (canonicalize_wf _ (document_wf_json b Hb)) as Wb.
    apply document_canon_inj; [auto..|]. apply stringify_inj; [done..|].
    destruct (stringify_ok _ Wa) as [Ua Fa], (stringify_ok _ Wb) as [Ub Fb].
    apply (f_equal utf8_decode) in E. rewrite !utf8_decode_encode in E by done. congruence.
  - intros E. unfold contentHash. by rewrite (doc_equiv_canon a b) by auto.
Qed.

(** A hash for the example: the sum of the bytes. *)
Definition sum_hash (m : bytes) : bytes := [foldl N.add 0 m mod 256].

Lemma contentHash_iff_witness :
  contentHash sum_hash strict_doc <> contentHash sum_hash emptyDocument.
Proof.
  assert (document_ok strict_doc) as H1 by (split; constructor).
  assert (document_ok emptyDocument) as H2 by (split; constructor).
  intros E. apply (contentHash_iff sum_hash strict_doc emptyDocument) in E; [|..|done|done].
  - by destruct E.
  - intros m. apply Forall_cons_2; [by apply N.mod_lt|constructor].
  - intros text Hc. vm_compute in Hc. discriminate Hc.
Defined.
