(* ===== verification/ApiKeys.v ===== *)
(** * API keys ([apps/management/src/lib/api-key-secret.ts], [lib/api-key-auth.ts])

    How a secret is made, and how a presented secret is matched with the rows
    of [api_keys] and [oauth_access_tokens].  The argon2 hash and SHA-256 are
    parameters; the bytes of the random generator are arguments. *)
From S2P Require Import Prelude Json Codec Hash.
Local Open Scope N_scope.

Definition API_KEY_PREFIX : jstr := units "tt_".
Definition PREFIX_SEGMENT_LEN : nat := 8.
Definition underscore : N := 95.

Record GeneratedKey := mkGenerated { gk_secret : jstr; gk_secretPrefix : jstr }.

(** [six] and [twentyfour] are the results of [randomBytes(6)] and
    [randomBytes(24)]. *)
Definition generateApiKeySecret (six twentyfour : bytes) : GeneratedKey :=
  let segment := take PREFIX_SEGMENT_LEN (b64uEncode six) in
  let body := b64uEncode twentyfour in
  mkGenerated (API_KEY_PREFIX ++ segment ++ [underscore] ++ body) segment.

(** [s.startsWith(p)] and [s.indexOf("_")], [None] for -1. *)
Definition starts_with (s p : jstr) : bool := bool_decide (take (length p) s = p).
Fixpoint index_of (c : N) (s : jstr) : option nat :=
  match s with
  | [] => None
  | x :: r => if x =? c then Some O else S <$> index_of c r
  end.

Definition parseApiKeyPrefix (secret : jstr) : option jstr :=
  if negb (starts_with secret API_KEY_PREFIX) then None
  else
    let rest := drop (length API_KEY_PREFIX) secret in
    match index_of underscore rest with
    | None | Some O => None
    | Some i => Some (take i rest)
    end.

(** ** Rows *)
Record ApiKeyRow := mkApiKey {
  ak_id : string; ak_org : string; ak_secretPrefix : option jstr; ak_hashedSecret : jstr;
  ak_scopes : list string; ak_networkIds : option (list string);
  ak_expiresAt : option Z; ak_revokedAt : option Z }.
Record OauthTokenRow := mkOauthToken {
  ot_id : string; ot_clientId : string; ot_org : string; ot_tokenHash : jstr;
  ot_scopes : list string; ot_expiresAt : Z }.
Record OauthClientRow := mkOauthClient {
  oc_id : string; oc_org : string; oc_clientId : string; oc_hashedSecret : jstr; oc_scopes : list string;
  oc_networkIds : option (list string); oc_revokedAt : option Z }.

Record KeyDb := mkKeyDb {
  kd_apiKeys : list ApiKeyRow;
  kd_tokens : list OauthTokenRow;
  kd_clients : list OauthClientRow
}.

Record VerifiedApiKey := mkVerifiedKey {
  vk_id : string; vk_org : string; vk_scopes : list string; vk_networkIds : option (list string) }.

Definition hasScope (scopes : list string) (required : string) : bool :=
  existsb (String.eqb required) scopes.

Definition canAccessNetwork (networkIds : option (list string)) (networkId : string) : bool :=
  match networkIds with None => true | Some ids => existsb (String.eqb networkId) ids end.

(** [organizationId ? eq(...) : undefined] *)
Definition in_org (organizationId : option string) (org : string) : bool :=
  match organizationId with
  | Some o => (o =? "")%string || (org =? o)%string
  | None => true
  end.

Section Verify.
Context (sha256 : bytes -> bytes) (argon2_verify : jstr -> jstr -> bool).

Definition hashToken (token : jstr) : jstr := concat (map hex_byte (sha256 (utf8 token))).

Definition verifyOauthAccessToken (db : KeyDb) (secret : jstr) (organizationId : option string)
    (now : Z) : option VerifiedApiKey :=
  if negb (starts_with secret (units "tt_oauth_")) then None
  else
    let tokenHash := hashToken secret in
    let rows := concat (map (fun t =>
      if bool_decide (ot_tokenHash t = tokenHash) && (now <? ot_expiresAt t)%Z
         && in_org organizationId (ot_org t)
      then map (fun c => mkVerifiedKey (ot_id t) (ot_org t) (ot_scopes t) (oc_networkIds c))
             (List.filter (fun c => (oc_id c =? ot_clientId t)%string
                && match oc_revokedAt c with None => true | Some _ => false end) (kd_clients db))
      else []) (kd_tokens db)) in
    head rows.

Definition not_revoked (r : ApiKeyRow) : bool :=
  match ak_revokedAt r with None => true | Some _ => false end.

(** The loop over the candidate rows. *)
Fixpoint first_verified (rows : list ApiKeyRow) (secret : jstr) (now : Z) : option VerifiedApiKey :=
  match rows with
  | [] => None
  | row :: rest =>
      if match ak_expiresAt row with Some e => (e <=? now)%Z | None => false end
      then first_verified rest secret now
      else if negb (argon2_verify (ak_hashedSecret row) secret) then first_verified rest secret now
      else Some (mkVerifiedKey (ak_id row) (ak_org row) (ak_scopes row) (ak_networkIds row))
  end.

Definition candidate (prefix : option jstr) (organizationId : option string) (r : ApiKeyRow) : bool :=
  not_revoked r && in_org organizationId (ak_org r)
  && match prefix with
     | Some p => bool_decide (ak_secretPrefix r = Some p)
     | None => match ak_secretPrefix r with None | Some [] => true | Some _ => false end
     end.

Definition legacy (organizationId : string) (r : ApiKeyRow) : bool :=
  (ak_org r =? organizationId)%string && not_revoked r
  && match ak_secretPrefix r with None => true | Some _ => false end.

Definition verifyApiKeySecret (db : KeyDb) (secret : jstr) (organizationId : option string)
    (now : Z) : option VerifiedApiKey :=
  match verifyOauthAccessToken db secret organizationId now with
  | Some k => Some k
  | None =>
      let prefix := parseApiKeyPrefix secret in
      match first_verified (List.filter (candidate prefix organizationId) (kd_apiKeys db)) secret now with
      | Some k => Some k
      | None =>
          match prefix, organizationId with
          | Some _, Some org =>
              if (org =? "")%string then None
              else first_verified (List.filter (legacy org) (kd_apiKeys db)) secret now
          | _, _ => None
          end
      end
  end.
End Verify.

(** ** Lemmas *)
Lemma index_of_lacks c s rest : c ∉ s -> index_of c (s ++ c :: rest) = Some (length s).
Proof.
  induction s as [|x s IH]; cbn; intros Hc; [by rewrite N.eqb_refl|].
  apply not_elem_of_cons in Hc as [Hx Hs]. rewrite (proj2 (N.eqb_neq x c)) by congruence.
  by rewrite IH.
Qed.

Lemma index_of_before c s rest i : index_of c (s ++ c :: rest) = Some i -> c ∈ s -> (i < length s)%nat.
Proof.
  revert i. induction s as [|x s IH]; cbn; intros i Hi Hc; [by apply elem_of_nil in Hc|].
  destruct (N.eqb_spec x c) as [->|Hne]; [injection Hi as <-; lia|].
  apply elem_of_cons in Hc as [->|Hc]; [done|].
  destruct (index_of c (s ++ c :: rest)) as [j|]; [|done]. injection Hi as <-.
  specialize (IH j eq_refl Hc). lia.
Qed.

Lemma starts_with_app p s : starts_with (p ++ s) p = true.
Proof. unfold starts_with. apply bool_decide_eq_true. by rewrite take_app_length. Qed.

Lemma parse_generated segment body :
  underscore ∉ segment -> segment <> [] ->
  parseApiKeyPrefix (API_KEY_PREFIX ++ segment ++ [underscore] ++ body) = Some segment.
Proof.
  intros Hu Hne. unfold parseApiKeyPrefix. rewrite starts_with_app. cbn [negb].
  rewrite drop_app_length. cbn [app]. rewrite index_of_lacks by done.
  destruct segment as [|x s]; [done|]. cbn [length]. f_equal. apply (take_app_length (x :: s)).
Qed.

Lemma parse_not_segment segment body :
  underscore ∈ segment ->
  parseApiKeyPrefix (API_KEY_PREFIX ++ segment ++ [underscore] ++ body) <> Some segment.
Proof.
  intros Hu. unfold parseApiKeyPrefix. rewrite starts_with_app. cbn [negb].
  rewrite drop_app_length. cbn [app].
  destruct (index_of underscore _) as [[|i]|] eqn:E; [done| |done].
  apply index_of_before in E; [|done]. intros [= H]. apply (f_equal length) in H.
  rewrite length_take, length_app in H. lia.
Qed.

Lemma first_verified_unexpired argon rows secret now k :
  first_verified argon rows secret now = Some k ->
  exists r, r ∈ rows /\ argon (ak_hashedSecret r) secret = true
    /\ (forall e, ak_expiresAt r = Some e -> (now < e)%Z)
    /\ k = mkVerifiedKey (ak_id r) (ak_org r) (ak_scopes r) (ak_networkIds r).
Proof.
  induction rows as [|r rows IH]; cbn; [done|].
  destruct (match ak_expiresAt r with Some _ => _ | None => _ end) eqn:Ee;
    [intros H; destruct (IH H) as (x & ? & ?); exists x; split; [by right|done]|].
  destruct (argon (ak_hashedSecret r) secret) eqn:E; cbn [negb].
  - intros [= <-]. exists r. split_and!; [by left|done|intros e He|done]. rewrite He in Ee. lia.
  - intros H; destruct (IH H) as (x & ? & ?); exists x; split; [by right|done].
Qed.

(** The credential a secret stands for: a key that verifies it, or an access
    token with its hash, neither revoked nor expired. *)
Inductive live_credential (sha256 : bytes -> bytes) (argon2_verify : jstr -> jstr -> bool)
    (db : KeyDb) (secret : jstr) (now : Z) : VerifiedApiKey -> Prop :=
| live_key r :
    r ∈ kd_apiKeys db -> argon2_verify (ak_hashedSecret r) secret = true -> ak_revokedAt r = None ->
    (forall e, ak_expiresAt r = Some e -> (now < e)%Z) ->
    live_credential sha256 argon2_verify db secret now
      (mkVerifiedKey (ak_id r) (ak_org r) (ak_scopes r) (ak_networkIds r))
| live_token tok client :
    tok ∈ kd_tokens db -> ot_tokenHash tok = hashToken sha256 secret -> (now < ot_expiresAt tok)%Z ->
    client ∈ kd_clients db -> oc_id client = ot_clientId tok -> oc_revokedAt client = None ->
    live_credential sha256 argon2_verify db secret now
      (mkVerifiedKey (ot_id tok) (ot_org tok) (ot_scopes tok) (oc_networkIds client)).

Lemma not_revoked_iff r : not_revoked r = true <-> ak_revokedAt r = None.
Proof. unfold not_revoked. by destruct (ak_revokedAt r). Qed.

Lemma verifyApiKeySecret_sound sha256 argon2_verify db secret organizationId now k :
  verifyApiKeySecret sha256 argon2_verify db secret organizationId now = Some k ->
  live_credential sha256 argon2_verify db secret now k.
Proof.
  unfold verifyApiKeySecret. destruct (verifyOauthAccessToken _ _ _ _ _) as [k'|] eqn:Eo.
  { intros [= ->]. unfold verifyOauthAccessToken in Eo. destruct (negb _); [done|].
    apply list.head_Some_elem_of, elem_of_concat_map in Eo as (tok & Ht & Hk).
    destruct (bool_decide _ && _ && _) eqn:Et; [|by apply elem_of_nil in Hk].
    apply andb_prop in Et as [[Hh%bool_decide_eq_true He%Z.ltb_lt]%andb_prop _].
    apply list_elem_of_fmap in Hk as (c & -> & [Hc Hr]%elem_of_filter_bool).
    apply andb_prop in Hr as [Hid%String.eqb_eq Hrev].
    eapply live_token; eauto. by destruct (oc_revokedAt c). }
  assert (forall p rows, (forall r, p r = true -> not_revoked r = true) ->
    first_verified argon2_verify (List.filter p rows) secret now = Some k -> rows = kd_apiKeys db ->
    live_credential sha256 argon2_verify db secret now k) as Hrows.
  { intros p rows Hp (r & [Hr Hpr]%elem_of_filter_bool & Ha & He & ->)%first_verified_unexpired ->.
    apply live_key; eauto. by apply not_revoked_iff, Hp. }
  destruct (first_verified _ _ _ _) as [k'|] eqn:Ef.
  { intros [= ->]. eapply Hrows; [|exact Ef|done]. intros r. unfold candidate.
    by intros [[? _]%andb_prop _]%andb_prop. }
  destruct (parseApiKeyPrefix secret); [|done]. destruct organizationId as [org|]; [|done].
  destruct (org =? "")%string; [done|]. intros El. eapply Hrows; [|exact El|done].
  intros r. unfold legacy. by intros [[_ ?]%andb_prop _]%andb_prop.
Qed.

Lemma first_verified_found argon rows secret now r :
  r ∈ rows -> argon (ak_hashedSecret r) secret = true -> ak_expiresAt r = None ->
  exists k, first_verified argon rows secret now = Some k.
Proof.
  intros Hr Ha He. induction rows as [|x rows IH]; cbn; [by apply elem_of_nil in Hr|].
  apply elem_of_cons in Hr as [<-|Hr].
  - rewrite He, Ha. cbn. by eexists.
  - destruct (match ak_expiresAt x with Some _ => _ | None => _ end); [auto|].
    destruct (argon (ak_hashedSecret x) secret); cbn; [by eexists|auto].
Qed.

Lemma generated_not_oauth segment body :
  length segment = 8%nat -> underscore ∉ segment ->
  starts_with (API_KEY_PREFIX ++ segment ++ [underscore] ++ body) (units "tt_oauth_") = false.
Proof.
  intros Hl Hu. unfold starts_with. apply bool_decide_eq_false. intros H.
  do 8 (destruct segment as [|? segment]; [done|]). vm_compute in H. injection H as -> -> -> -> -> ->.
  apply Hu. rewrite !elem_of_cons. vm_compute. tauto.
Qed.

Lemma underscore_key_never_matches
    (six twentyfour : bytes) (row : ApiKeyRow) (organizationId : option string) :
  let key := generateApiKeySecret six twentyfour in
  underscore ∈ gk_secretPrefix key -> ak_secretPrefix row = Some (gk_secretPrefix key) ->
  candidate (parseApiKeyPrefix (gk_secret key)) organizationId row = false
  /\ forall org, legacy org row = false.
Proof.
  cbn zeta. unfold generateApiKeySecret. set (segment := take _ _). cbn [gk_secretPrefix gk_secret].
  intros Hu Hp. unfold candidate, legacy. rewrite Hp. split; [|intros org; apply andb_false_r].
  destruct (parseApiKeyPrefix _) as [p|] eqn:E.
  - rewrite bool_decide_eq_false_2; [apply andb_false_r|]. intros [= <-].
    by eapply parse_not_segment.
  - destruct segment; [by apply elem_of_nil in Hu|]. apply andb_false_r.
Qed.

(** ** Properties *)
(** a key whose random segment has no underscore authenticates: the row
    stored for it is found by its prefix, so that a live key of the
    organization that verifies is returned. *)
Theorem generated_key_authenticates (sha256 : bytes -> bytes) (argon2_verify : jstr -> jstr -> bool)
    (db : KeyDb) (six twentyfour : bytes) (row : ApiKeyRow) (org : string) (now : Z) :
  let key := generateApiKeySecret six twentyfour in
  length (gk_secretPrefix key) = 8%nat -> underscore ∉ gk_secretPrefix key ->
  row ∈ kd_apiKeys db -> ak_secretPrefix row = Some (gk_secretPrefix key) -> ak_org row = org ->
  ak_revokedAt row = None -> ak_expiresAt row = None ->
  argon2_verify (ak_hashedSecret row) (gk_secret key) = true ->
  exists k r, verifyApiKeySecret sha256 argon2_verify db (gk_secret key) (Some org) now = Some k
    /\ r ∈ kd_apiKeys db /\ ak_secretPrefix r = Some (gk_secretPrefix key) /\ vk_id k = ak_id r
    /\ argon2_verify (ak_hashedSecret r) (gk_secret key) = true.
Proof.
  cbn zeta. unfold generateApiKeySecret. set (segment := take _ _). cbn [gk_secretPrefix gk_secret].
  intros Hl Hu Hr Hp Ho Hrev Hexp Ha.
  unfold verifyApiKeySecret, verifyOauthAccessToken. rewrite generated_not_oauth by done. cbn [negb].
  rewrite parse_generated by (done || by intros E; rewrite E in Hl).
  set (cand := List.filter _ _).
  assert (row ∈ cand) as Hin.
  { apply elem_of_filter_bool. split; [done|]. unfold candidate, not_revoked, in_org.
    rewrite Hrev, Ho, String.eqb_refl, orb_true_r, Hp. cbn. by apply bool_decide_eq_true. }
  destruct (first_verified_found _ _ _ now row Hin Ha Hexp) as [k Hk].
  exists k. destruct (first_verified_unexpired _ _ _ _ _ Hk) as (r & Hrc & Hra & _ & ->).
  exists r. rewrite Hk. apply elem_of_filter_bool in Hrc as [Hr1 Hc].
  unfold candidate in Hc. apply andb_prop in Hc as [_ Hc%bool_decide_eq_true]. by split_and!.
Qed.

(** a key whose random segment contains an underscore, about one in eight of the
    keys handed out, never authenticates: the prefix read back from the secret
    ends at that underscore, so the row stored with the whole segment is not
    looked at. *)
Theorem underscore_key_rejected (sha256 : bytes -> bytes) (argon2_verify : jstr -> jstr -> bool)
    (db : KeyDb) (six twentyfour : bytes) (organizationId : option string) (now : Z) :
  let key := generateApiKeySecret six twentyfour in
  underscore ∈ gk_secretPrefix key ->
  (forall r, r ∈ kd_apiKeys db -> argon2_verify (ak_hashedSecret r) (gk_secret key) = true ->
     ak_secretPrefix r = Some (gk_secretPrefix key)) ->
  verifyOauthAccessToken sha256 db (gk_secret key) organizationId now = None ->
  verifyApiKeySecret sha256 argon2_verify db (gk_secret key) organizationId now = None.
Proof.
  cbn zeta. intros Hu Hall Ho. unfold verifyApiKeySecret. rewrite Ho.
  set (key := generateApiKeySecret six twentyfour) in *.
  assert (forall p, (forall r, ak_secretPrefix r = Some (gk_secretPrefix key) -> p r = false) ->
    first_verified argon2_verify (List.filter p (kd_apiKeys db)) (gk_secret key) now = None) as Hnone.
  { intros p Hp. destruct (first_verified _ _ _ _) as [k|] eqn:E; [|done].
    apply first_verified_unexpired in E as (r & [Hr Hpr]%elem_of_filter_bool & Ha & _).
    rewrite (Hp r) in Hpr by auto. done. }
  rewrite Hnone.
  - destruct (parseApiKeyPrefix _); [|done]. destruct organizationId as [org|]; [|done].
    destruct (org =? "")%string; [done|]. apply Hnone. intros r Hr.
    by apply (underscore_key_never_matches six twentyfour r None).
  - intros r Hr. by apply (underscore_key_never_matches six twentyfour r).
Qed.

(** ** Witnesses *)
Definition sample_generated : GeneratedKey := generateApiKeySecret [1; 2; 3; 4; 5; 6] (replicate 24 7).
Definition sample_key_row : ApiKeyRow :=
  mkApiKey "k1" "acme" (Some (gk_secretPrefix sample_generated)) (gk_secret sample_generated) [] None None None.

Lemma generated_key_authenticates_witness :
  exists k r, verifyApiKeySecret (fun m => m) (fun h s => bool_decide (h = s))
      (mkKeyDb [sample_key_row] [] []) (gk_secret sample_generated) (Some "acme") 0 = Some k
    /\ r ∈ [sample_key_row] /\ ak_secretPrefix r = Some (gk_secretPrefix sample_generated)
    /\ vk_id k = ak_id r /\ bool_decide (ak_hashedSecret r = gk_secret sample_generated) = true.
Proof.
  apply (generated_key_authenticates (fun m => m) (fun h s => bool_decide (h = s))
    (mkKeyDb [sample_key_row] [] []) [1; 2; 3; 4; 5; 6] (replicate 24 7) sample_key_row "acme" 0);
    try reflexivity.
  - refine (bool_decide_eq_true_1 _ _). vm_compute. reflexivity.
  - apply list_elem_of_singleton. reflexivity.
Defined.

Definition unlucky_key : GeneratedKey :=
  generateApiKeySecret [255; 255; 255; 255; 255; 255] (replicate 24 7).
Definition unlucky_row : ApiKeyRow :=
  mkApiKey "k2" "acme" (Some (gk_secretPrefix unlucky_key)) (gk_secret unlucky_key) [] None None None.

Lemma underscore_key_rejected_witness :
  verifyApiKeySecret (fun m => m) (fun h s => bool_decide (h = s)) (mkKeyDb [unlucky_row] [] [])
    (gk_secret unlucky_key) (Some "acme") 0 = None.
Proof.
  apply (underscore_key_rejected (fun m => m) (fun h s => bool_decide (h = s))
    (mkKeyDb [unlucky_row] [] []) [255; 255; 255; 255; 255; 255] (replicate 24 7) (Some "acme") 0).
  - refine (bool_decide_eq_true_1 _ _). vm_compute. reflexivity.
  - intros r Hr _. apply list_elem_of_singleton in Hr. subst r. reflexivity.
  - vm_compute. reflexivity.
Defined.
