(* ===== verification/Access.v ===== *)
(** * Access to the management API ([apps/management/src/api/v1/middleware])

    How a request is given a session or an API key ([session.ts],
    [api-key-auth.ts]) and the checks the routes put in front of their handlers
    ([authz.ts], [tag-auth.ts]).  better-auth is the interface [AuthApi]; what
    is relied on of it is [AuthLaws], that it reports the sessions, members and
    organizations of the database. *)
From S2P Require Import Prelude Json Codec License Manager Plans OrgBilling Hierarchy TagOwnership ApiKeys.

(** ** Requests *)
(** [headers.get(name)]. *)
Definition Headers := string -> option string.

(** Path parameters; [None] when there are none. *)
Definition Params := option (list (string * js_value)).

Record Request := mkRequest {
  req_headers : Headers;
  req_url : string;
  req_params : Params
}.

Inductive access := Granted | Unauthorized | Forbidden | PaymentRequired.

(** Hooks run in their order; the first one that answers ends the request. *)
Fixpoint before_handle (hooks : list access) : access :=
  match hooks with
  | [] => Granted
  | Granted :: rest => before_handle rest
  | answer :: _ => answer
  end.

(** ** The authentication server *)
Record User := mkUser { u_id : string; u_name : string; u_email : string }.
Record Session := mkUserSession { ss_id : string; ss_activeOrganizationId : option string }.
Record FullOrganization := mkFullOrganization {
  fo_deletedAt : option Z; fo_members : option (list MemberRow) }.

(** [auth.api]; an exception is [Err tt]. *)
Class AuthApi := {
  getSession : Headers -> option (option User * option Session);
  getActiveMember : Headers -> result unit (option MemberRow);
  getFullOrganization : Headers -> string -> result unit (option FullOrganization);
  hasPermission : Headers -> string -> list (string * list string) -> bool;
  userHasPermission : string -> list (string * list string) -> bool
}.

(** ** Sessions ([session.ts]) *)
Record AuthContext := mkAuthContext {
  ac_user : User;
  ac_session : Session;
  ac_organizationId : string;
  ac_memberRole : string
}.

Record SessionUserContext := mkSessionUser { su_user : User; su_sessionId : string }.

Definition orgIdFromParams (params : Params) : string :=
  match params with
  | Some l => match map_get l "orgId" with Some (JsString s) => s | _ => "" end
  | None => ""
  end.

(** [[^/?#]] *)
Definition is_segment_unit (c : ascii) : bool :=
  negb (Ascii.eqb c "/"%char || Ascii.eqb c "?"%char || Ascii.eqb c "#"%char).

Fixpoint segment (s : string) : string :=
  match s with
  | String c rest => if is_segment_unit c then String c (segment rest) else ""
  | EmptyString => ""
  end.

(** The leftmost match of the pattern in a path. *)
Fixpoint match_organization (path : string) : string :=
  let id := if startsWith path "/organizations/" then segment (slice 15 path) else "" in
  if negb (id =? "")%string then id
  else match path with String _ rest => match_organization rest | EmptyString => "" end.

(** [a || b] on texts. *)
Definition or_text (a b : string) : string := if (a =? "")%string then b else a.

Section Sessions.
Context {A : AuthApi}.
(** [new URL(url).pathname] *)
Context (pathname : string -> string).

Definition orgIdFromPath (url : string) : string := match_organization (pathname url).

(** The role of the active membership, if that is the one asked for. *)
Definition active_role (headers : Headers) (session : Session) (organizationId : string) : string :=
  if bool_decide (ss_activeOrganizationId session = Some organizationId) then
    match getActiveMember headers with
    | Ok (Some member) => if (me_org member =? organizationId)%string then me_role member else ""
    | Ok None | Err _ => ""
    end
  else "".

(** The role by the members of the organization. *)
Definition listed_role (headers : Headers) (user : User) (organizationId : string) : string :=
  match getFullOrganization headers organizationId with
  | Ok (Some organization) =>
      match fo_deletedAt organization with
      | Some _ => ""
      | None =>
          match List.find (fun member => (me_user member =? u_id user)%string)
                  (default [] (fo_members organization)) with
          | Some member => me_role member
          | None => ""
          end
      end
  | Ok None | Err _ => ""
  end.

Definition resolveOrgContext (headers : Headers) (orgIdParam : string) : option AuthContext :=
  match getSession headers with
  | Some (Some user, Some session) =>
      let organizationId :=
        or_text orgIdParam
          (or_text (default "" (headers "x-organization-id"))
             (default "" (ss_activeOrganizationId session))) in
      if (organizationId =? "")%string then None
      else
        let memberRole := or_text (active_role headers session organizationId)
                            (listed_role headers user organizationId) in
        if (memberRole =? "")%string then None
        else Some (mkAuthContext user (mkUserSession (ss_id session) (Some organizationId))
                     organizationId memberRole)
  | _ => None
  end.

Definition sessionPlugin (req : Request) : option AuthContext :=
  resolveOrgContext (req_headers req)
    (or_text (orgIdFromParams (req_params req)) (or_text (orgIdFromPath (req_url req)) "")).

Definition requireAuth (req : Request) : option AuthContext * access :=
  let authContext := sessionPlugin req in
  (authContext, match authContext with None => Unauthorized | Some _ => Granted end).

Definition resolveSessionUser (headers : Headers) : option SessionUserContext :=
  match getSession headers with
  | Some (Some user, Some session) => Some (mkSessionUser user (ss_id session))
  | _ => None
  end.

(** ** Permissions ([authz.ts]) *)
Definition requireSessionAuth (sessionUser : option SessionUserContext) : access :=
  match sessionUser with None => Unauthorized | Some _ => Granted end.

Definition requireCloudAccess (sessionUser : option SessionUserContext) : access :=
  match sessionUser with
  | None => Unauthorized
  | Some user =>
      if userHasPermission (u_id (su_user user)) [("cloud", ["access"])] then Granted else Forbidden
  end.

Definition requireCloudInfrastructure (license : LicenseManager) : access :=
  match require_ license cloudInfrastructure with Ok _ => Granted | Err _ => PaymentRequired end.

Definition requirePermission (permissions : list (string * list string)) (req : Request)
    (authContext : option AuthContext) : access :=
  match authContext with
  | None => Unauthorized
  | Some auth =>
      if hasPermission (req_headers req) (ac_organizationId auth) permissions then Granted
      else Forbidden
  end.

(** The routes of an organization: a session, then the permission. *)
Definition org_route (permissions : list (string * list string)) (req : Request)
    : option AuthContext * access :=
  let '(authContext, a) := requireAuth req in
  (authContext, before_handle [a; requirePermission permissions req authContext]).

(** The routes of the cloud operator ([cloud-relays.ts]). *)
Definition cloud_route (license : LicenseManager) (req : Request) : access :=
  let sessionUser := resolveSessionUser (req_headers req) in
  before_handle [requireSessionAuth sessionUser; requireCloudInfrastructure license;
                 requireCloudAccess sessionUser].
End Sessions.

(** ** API keys ([api-key-auth.ts]) *)
(** The text after ["Bearer "]. *)
Definition bearer (headers : Headers) : option string :=
  match headers "authorization" with
  | Some authHeader =>
      if startsWith authHeader "Bearer " then Some (trim (slice 7 authHeader)) else None
  | None => None
  end.

Section Keys.
Context {A : AuthApi} (pathname : string -> string).
Context (sha256 : bytes -> bytes) (argon2_verify : jstr -> jstr -> bool).
Context (keys : KeyDb) (now : Z).

Definition verify_secret (secret : string) (organizationId : option string) : option VerifiedApiKey :=
  verifyApiKeySecret sha256 argon2_verify keys (units secret) organizationId now.

Definition apiKeyAuthPlugin (req : Request) : option VerifiedApiKey :=
  match bearer (req_headers req) with
  | None => None
  | Some secret =>
      if (secret =? "")%string then None
      else verify_secret secret
             (match req_params req with
              | Some l => match map_get l "orgId" with Some (JsString s) => Some s | _ => None end
              | None => None
              end)
  end.

Definition requireApiKey (apiKeyAuth : option VerifiedApiKey) : access :=
  match apiKeyAuth with None => Unauthorized | Some _ => Granted end.

Definition requireApiKeyScope (scope : string) (apiKeyAuth : option VerifiedApiKey) : access :=
  match apiKeyAuth with
  | None => Unauthorized
  | Some key => if hasScope (vk_scopes key) scope then Granted else Forbidden
  end.

(** What the policy routes know of a request ([policyAuthPlugin]). *)
Definition policyAuthPlugin (req : Request) : option AuthContext * option VerifiedApiKey :=
  (sessionPlugin pathname req, apiKeyAuthPlugin req).

(** ** Tag routes ([tag-auth.ts]) *)
Inductive TagAuthMode := tag_read | tag_write | tag_assign.

Definition TAG_READ_SCOPE : string := "tag:read".
Definition TAG_WRITE_SCOPE : string := "tag:write".
Definition TAG_ASSIGN_SCOPE : string := "tag:assign".

Definition tag_scope (mode : TagAuthMode) : string :=
  match mode with
  | tag_read => TAG_READ_SCOPE | tag_write => TAG_WRITE_SCOPE | tag_assign => TAG_ASSIGN_SCOPE
  end.

Definition tag_permissions (mode : TagAuthMode) : list string :=
  match mode with
  | tag_read => ["read"]
  | tag_write => ["create"; "update"; "delete"]
  | tag_assign => ["assign"; "update"; "create"]
  end.

(** The [derive] of [requireTagAccess]: a bearer token hides the session. *)
Definition tagAuth (req : Request) : option AuthContext * option VerifiedApiKey :=
  let orgId := orgIdFromParams (req_params req) in
  match bearer (req_headers req) with
  | Some secret =>
      (None, if (secret =? "")%string then None
             else verify_secret secret (if (orgId =? "")%string then None else Some orgId))
  | None => (resolveOrgContext (req_headers req) orgId, None)
  end.

Definition key_has_tag_scope (mode : TagAuthMode) (scopes : list string) : bool :=
  hasScope scopes (tag_scope mode)
  || match mode with
     | tag_read => hasScope scopes TAG_WRITE_SCOPE || hasScope scopes TAG_ASSIGN_SCOPE
     | tag_assign => hasScope scopes TAG_WRITE_SCOPE
     | tag_write => false
     end.

(** Its [onBeforeHandle]. *)
Definition tagAccess (mode : TagAuthMode) (req : Request) (authContext : option AuthContext)
    (apiKeyAuth : option VerifiedApiKey) : access :=
  let orgId := orgIdFromParams (req_params req) in
  match apiKeyAuth with
  | Some key =>
      if (orgId =? "")%string || negb (vk_org key =? orgId)%string then Forbidden
      else if negb (key_has_tag_scope mode (vk_scopes key)) then Forbidden
      else Granted
  | None =>
      match authContext with
      | None => Unauthorized
      | Some auth =>
          if (orgId =? "")%string || negb (ac_organizationId auth =? orgId)%string then Forbidden
          else if hasPermission (req_headers req) (ac_organizationId auth)
                    [("tag", tag_permissions mode)] then Granted
          else match mode with tag_assign => Granted | _ => Forbidden end
      end
  end.

Definition requireTagAccess (mode : TagAuthMode) (req : Request)
    : option AuthContext * option VerifiedApiKey * access :=
  let '(authContext, apiKeyAuth) := tagAuth req in
  (authContext, apiKeyAuth, tagAccess mode req authContext apiKeyAuth).
End Keys.

Definition isOrgAdminRole (memberRole : string) : bool :=
  let names := parseRoleNames memberRole in
  existsb (String.eqb "owner") names || existsb (String.eqb "admin") names.

Record TagRouteActor := mkTagRouteActor { tr_actor : RouteActor; tr_apiKeyId : option string }.

(** [None]: "Tag auth context missing" is thrown. *)
Definition getTagActor (authContext : option AuthContext) (apiKeyAuth : option VerifiedApiKey)
    (endpointId : option string) : option TagRouteActor :=
  match apiKeyAuth, authContext with
  | Some key, _ =>
      Some (mkTagRouteActor (mkRouteActor (vk_org key) (mkTagActor None None true endpointId))
              (Some (vk_id key)))
  | None, Some auth =>
      Some (mkTagRouteActor
              (mkRouteActor (ac_organizationId auth)
                 (mkTagActor (Some (u_id (ac_user auth))) (Some (u_email (ac_user auth)))
                    (isOrgAdminRole (ac_memberRole auth)) endpointId)) None)
  | None, None => None
  end.

(** ** The tag routes of devices, with their checks ([devices.ts]) *)
Inductive outcome (R : Type) := Refused (a : access) | Threw | Answered (r : R).
Arguments Refused {R}. Arguments Threw {R}. Arguments Answered {R}.

Section TagRoutes.
Context {A : AuthApi} (pathname : string -> string).
Context (sha256 : bytes -> bytes) (argon2_verify : jstr -> jstr -> bool).
Context (keys : KeyDb) (now : Z).

(** [requireAuth] of all device routes, [requireTagAccess("assign")] of the
    group, then the handler, which reads the actor from the session only. *)
Definition device_tags_route {R} (req : Request) (db : TagDb)
    (handler : RouteActor -> TagDb * R) : TagDb * outcome R :=
  let '(_, a) := requireAuth pathname req in
  let '(authContext, apiKeyAuth, b) := requireTagAccess sha256 argon2_verify keys now tag_assign req in
  match before_handle [a; b] with
  | Granted =>
      match getTagActor authContext None None with
      | None => (db, Threw)
      | Some actor => let '(db', r) := handler (tr_actor actor) in (db', Answered r)
      end
  | refusal => (db, Refused refusal)
  end.

Definition patch_tags_request (req : Request) (db : TagDb) (endpoint : string)
    (add remove : list string) : TagDb * outcome route_response :=
  device_tags_route req db (fun actor => patchDeviceTags db actor endpoint add remove).

Definition put_tags_request (req : Request) (db : TagDb) (endpoint : string) (tags : list string)
    : TagDb * outcome route_response :=
  device_tags_route req db (fun actor => putDeviceTags db actor endpoint tags).

Definition bulk_tags_request (req : Request) (db : TagDb) (endpointIds add remove : list string)
    : TagDb * outcome (route_response + list (string * list string)) :=
  device_tags_route req db (fun actor => bulkDeviceTags db actor endpointIds add remove).
End TagRoutes.

(** ** What is relied on of the authentication server *)
(** Sessions, members and organizations are those of the database; a listed
    member belongs to the organization, and the active member is the user of
    the session. *)
Record AuthLaws {A : AuthApi} (db : BillingDb) : Prop := mkAuthLaws {
  session_stored : forall h u s, getSession h = Some (u, Some s) ->
    mkSession (ss_id s) (ss_activeOrganizationId s) ∈ bd_sessions db;
  active_member_stored : forall h m, getActiveMember h = Ok (Some m) -> m ∈ bd_members db;
  active_member_user : forall h m u s, getActiveMember h = Ok (Some m) ->
    getSession h = Some (Some u, s) -> me_user m = u_id u;
  organization_stored : forall h org o, getFullOrganization h org = Ok (Some o) ->
    exists row, find_org db org = Some row /\ fo_deletedAt o = ob_deletedAt row;
  listed_member_stored : forall h org o m, getFullOrganization h org = Ok (Some o) ->
    m ∈ default [] (fo_members o) -> m ∈ bd_members db /\ me_org m = org
}.

(** ** Lemmas *)
Lemma before_handle_granted hooks : before_handle hooks = Granted <-> Forall (eq Granted) hooks.
Proof.
  induction hooks as [|a hooks IH]; cbn; [by split; [constructor|]|].
  rewrite list.Forall_cons, <- IH. destruct a; naive_solver.
Qed.

Lemma or_text_nonempty a b : or_text a b <> "" -> or_text a b = a /\ a <> "" \/ a = "" /\ or_text a b = b.
Proof. unfold or_text. destruct (String.eqb_spec a ""); naive_solver. Qed.

Section Lemmas.
Context {A : AuthApi} (db : BillingDb) (Laws : AuthLaws db).

Lemma active_role_spec h u s org :
  getSession h = Some (Some u, Some s) -> active_role h s org <> "" ->
  ss_activeOrganizationId s = Some org /\ mkMember org (u_id u) (active_role h s org) ∈ bd_members db.
Proof.
  unfold active_role. intros Hs. case_bool_decide as E; [|done].
  destruct (getActiveMember h) as [[m|]|] eqn:Em; [|done..].
  destruct (String.eqb_spec (me_org m) org) as [<-|]; [|done]. intros _. split; [done|].
  rewrite <- (active_member_user db Laws h m u (Some s) Em Hs).
  pose proof (active_member_stored db Laws h m Em). by destruct m.
Qed.

Lemma listed_role_spec h u org :
  listed_role h u org <> "" ->
  mkMember org (u_id u) (listed_role h u org) ∈ bd_members db
  /\ exists row, find_org db org = Some row /\ ob_deletedAt row = None.
Proof.
  unfold listed_role. destruct (getFullOrganization h org) as [[o|]|] eqn:Eo; [|done..].
  destruct (organization_stored db Laws h org o Eo) as (row & Hrow & Hdel).
  destruct (fo_deletedAt o); [done|].
  destruct (List.find _ _) as [m|] eqn:Ef; [|done]. intros _.
  apply List.find_some in Ef as [Hin Hu%String.eqb_eq]. apply list_elem_of_In in Hin.
  destruct (listed_member_stored db Laws h org o m Eo Hin) as [Hm <-].
  split; [|by eauto]. rewrite <- Hu. by destruct m.
Qed.

(** What a resolved context says about the database. *)
Lemma resolveOrgContext_spec h param c :
  resolveOrgContext h param = Some c ->
  (exists s, getSession h = Some (Some (ac_user c), Some s)
     /\ (param = "" \/ ac_organizationId c = param)
     /\ (ss_activeOrganizationId s = Some (ac_organizationId c)
         \/ exists row, find_org db (ac_organizationId c) = Some row /\ ob_deletedAt row = None))
  /\ mkMember (ac_organizationId c) (u_id (ac_user c)) (ac_memberRole c) ∈ bd_members db.
Proof.
  unfold resolveOrgContext. destruct (getSession h) as [[[u|] [s|]]|] eqn:Hs; [|done..]. cbn zeta.
  set (org := or_text param _). destruct (String.eqb_spec org "") as [|Horg]; [done|].
  destruct (String.eqb_spec (or_text (active_role h s org) (listed_role h u org)) "") as [|Hr]; [done|].
  intros [= <-]. cbn [ac_user ac_organizationId ac_memberRole].
  assert (param = "" \/ org = param) as Hp.
  { unfold org, or_text. destruct (String.eqb_spec param ""); auto. }
  destruct (or_text_nonempty _ _ Hr) as [[-> Ha]|[Ha Hl]].
  - destruct (active_role_spec h u s org Hs Ha) as [Hact Hm]. split; [|done]. exists s. auto.
  - rewrite Hl in Hr |- *. destruct (listed_role_spec h u org Hr) as (Hm & row & Hrow & Hdel).
    split; [|done]. exists s. split_and!; [done..|]. right. eauto.
Qed.
End Lemmas.

(** A request on the tags of devices. *)
Inductive tag_request :=
| PatchTags (endpoint : string) (add remove : list string)
| PutTags (endpoint : string) (tags : list string)
| BulkTags (endpointIds add remove : list string).

Definition requested_devices (q : tag_request) : list string :=
  match q with PatchTags e _ _ | PutTags e _ => [e] | BulkTags es _ _ => es end.

Section Requests.
Context {A : AuthApi} (pathname : string -> string).
Context (sha256 : bytes -> bytes) (argon2_verify : jstr -> jstr -> bool).
Context (keys : KeyDb) (now : Z).

(** The tags after a request. *)
Definition tags_after (req : Request) (db : TagDb) (q : tag_request) : TagDb :=
  match q with
  | PatchTags e add remove => (patch_tags_request pathname sha256 argon2_verify keys now req db e add remove).1
  | PutTags e tags => (put_tags_request pathname sha256 argon2_verify keys now req db e tags).1
  | BulkTags es add remove => (bulk_tags_request pathname sha256 argon2_verify keys now req db es add remove).1
  end.

(** A route runs its handler for the user of the request's session, a member of
    the organization of the path. *)
Lemma device_tags_route_actor {R} (bdb : BillingDb) req db (handler : RouteActor -> TagDb * R) :
  AuthLaws bdb ->
  (device_tags_route pathname sha256 argon2_verify keys now req db handler).1 = db
  \/ exists user role,
       (exists session, getSession (req_headers req) = Some (Some user, Some session))
       /\ mkMember (orgIdFromParams (req_params req)) (u_id user) role ∈ bd_members bdb
       /\ (device_tags_route pathname sha256 argon2_verify keys now req db handler).1
          = (handler (mkRouteActor (orgIdFromParams (req_params req))
              (mkTagActor (Some (u_id user)) (Some (u_email user)) (isOrgAdminRole role) None))).1.
Proof.
  intros Laws. unfold device_tags_route, requireAuth, requireTagAccess.
  destruct (tagAuth sha256 argon2_verify keys now req) as [ctx key] eqn:Et.
  set (a := match sessionPlugin pathname req with None => _ | Some _ => _ end).
  destruct (before_handle [a; tagAccess tag_assign req ctx key]) eqn:Eh; [|by left..].
  apply before_handle_granted in Eh. apply list.Forall_cons in Eh as [_ Eh].
  apply list.Forall_cons in Eh as [Eb _]. destruct ctx as [c|]; [|by left]. right.
  unfold tagAuth in Et. destruct (bearer (req_headers req)); [done|]. injection Et as Hc <-.
  destruct (resolveOrgContext_spec bdb Laws _ _ _ Hc) as [(session & Hs & _) Hm].
  unfold tagAccess in Eb. destruct (_ || _) eqn:Eo; [done|]. apply orb_false_elim in Eo as [_ Eo].
  apply negb_false_iff, String.eqb_eq in Eo. rewrite Eo in Hm. exists (ac_user c), (ac_memberRole c).
  split; [by exists session|]. split; [done|]. cbn [getTagActor tr_actor]. rewrite Eo. by destruct (handler _).
Qed.
End Requests.

(** Replacing tags changes only the device named, and a tag that disappears is
    one the request leaves out. *)
Lemma put_touches (db db' : TagDb) (actor : RouteActor) (endpoint : string) (tags : list string)
    (response : route_response) (e t : string) :
  putDeviceTags db actor endpoint tags = (db', response) -> has_tag db' e t <> has_tag db e t ->
  e = endpoint /\ has_device db (ra_organizationId actor) e = true
  /\ (has_tag db e t = true /\ t ∉ tags \/ may_assign db (ra_organizationId actor) (ra_actor actor) t).
Proof.
  unfold putDeviceTags. intros H Hne.
  destruct (forallb tagNameSchema tags) eqn:Hv; cbn [negb] in H; [|by simplify_eq].
  destruct (has_device _ _ _) eqn:Hd; cbn [negb] in H; [|by simplify_eq].
  destruct (check_touched _ _ _) as [r|] eqn:Hc; [by simplify_eq|].
  cbn [replaceDeviceTags] in H. injection H as <- <-. rewrite has_tag_bump in Hne.
  apply check_touched_None in Hc. rewrite list.Forall_forall in Hc. unfold has_tag in *. cbn in Hne.
  destruct (decide (e = endpoint)) as [->|He].
  - split; [done|]. split; [done|]. destruct (decide (t ∈ tags)) as [Ht|Ht]; [right|left].
    { apply Hc. by rewrite unique_tags_valid. }
    split; [|done]. apply bool_decide_eq_true. apply dec_stable. intros Hn. apply Hne.
    rewrite !bool_decide_eq_false_2; [done|done|]. rewrite elem_of_app, elem_of_filter_bool.
    intros [[? _]|(x & [= ->] & Hx)%list_elem_of_fmap]; [done|]. by rewrite unique_tags_valid in Hx.
  - destruct Hne. apply bool_decide_ext. rewrite elem_of_app, elem_of_filter_bool. cbn.
    rewrite (proj2 (String.eqb_neq e endpoint) He). split; [|by left].
    by intros [[? _]|(x & [= ? ->] & Hx)%list_elem_of_fmap].
Qed.

(** ** Properties *)

(** C23: A deleted organization is closed to every session: after the deletion no
    request is given a context in it, whatever organization its path or headers
    name and whatever organization its session had active. *)
Theorem deleted_organization_closed {A : AuthApi} (db db' : BillingDb) (org : string) (now : Z)
    (headers : Headers) (param : string) (c : AuthContext) :
  softDeleteOrganization db org now = Ok db' -> AuthLaws db' ->
  resolveOrgContext headers param = Some c ->
  ac_organizationId c <> org.
Proof.
  intros Hdel Laws Hc <-. destruct (softDelete_spec _ _ _ _ Hdel) as (Hact & Hses & _).
  destruct (resolveOrgContext_spec db' Laws _ _ _ Hc) as [(s & Hs & _ & [Ha|(row & Hrow & Hd)]) _].
  - pose proof (session_stored db' Laws _ _ _ Hs) as Hin. by destruct (Hses _ Hin).
  - unfold requireActiveOrganization in Hact. unfold find_org in Hrow.
    apply List.find_some in Hrow as [Hin Hid].
    destruct (List.find _ _) eqn:Ef; [done|]. apply List.find_none with (x := row) in Ef; [|done].
    by rewrite Hid, Hd in Ef.
Qed.


(** ** Witnesses *)
(** A server that reads the tables; the cookie is the session's id and every
    session is one user's. *)
Definition table_session (db : BillingDb) (h : Headers) : option SessionRow :=
  match h "cookie" with
  | Some id => List.find (fun s => (se_id s =? id)%string) (bd_sessions db)
  | None => None
  end.

Definition table_auth (db : BillingDb) (user : User) (permitted : bool) : AuthApi :=
  {| getSession h :=
       (fun s => (Some user, Some (mkUserSession (se_id s) (se_activeOrg s)))) <$> table_session db h;
     getActiveMember h :=
       Ok (List.find (fun m => (me_user m =? u_id user)%string
                               && bool_decide (Some (Some (me_org m)) = se_activeOrg <$> table_session db h))
             (bd_members db));
     getFullOrganization _ org :=
       Ok ((fun o => mkFullOrganization (ob_deletedAt o)
              (Some (List.filter (fun m => (me_org m =? org)%string) (bd_members db))))
           <$> find_org db org);
     hasPermission _ _ _ := permitted;
     userHasPermission _ _ := permitted |}.

Lemma table_auth_laws db user permitted : @AuthLaws (table_auth db user permitted) db.
Proof.
  split; cbn [getSession getActiveMember getFullOrganization table_auth].
  - intros h u s. unfold table_session. destruct (h "cookie"); [|done].
    destruct (List.find _ _) as [r|] eqn:E; [|done]. intros [= <- <-].
    apply List.find_some in E as [E _]. apply list_elem_of_In in E. by destruct r.
  - intros h m [= E]. apply List.find_some in E as [E _]. by apply list_elem_of_In.
  - intros h m u s [= E] Hs. apply List.find_some in E as [_ [Hu _]%andb_prop].
    apply String.eqb_eq in Hu. rewrite Hu. destruct (table_session db h); [|done]. by injection Hs as <- _.
  - intros h org o [= E]. destruct (find_org db org) as [row|]; [|done]. injection E as <-. eauto.
  - intros h org o m [= E] Hm. destruct (find_org db org) as [row|]; [|done]. injection E as <-.
    cbn in Hm. apply elem_of_filter_bool in Hm as [Hin Ho%String.eqb_eq]. done.
Qed.

Definition bob : User := mkUser "bob" "Bob" "bob@acme.test".
Definition bob_headers : Headers := fun name => if (name =? "cookie")%string then Some "s1" else None.
Definition two_orgs : BillingDb :=
  mkBillingDb [mkOrganization "acme" "acme" None 0 None; mkOrganization "beta" "beta" None 0 None] []
    [mkMember "acme" "bob" "member"; mkMember "beta" "bob" "owner"] [] [] [] [] []
    [mkSession "s1" (Some "acme")] [].
Definition acme_deleted : BillingDb :=
  match softDeleteOrganization two_orgs "acme" 5 with Ok db => db | Err _ => two_orgs end.

(** The session worked in "acme"; after the deletion it is refused there and
    still resolves in "beta". *)
Lemma deleted_organization_closed_witness :
  ac_organizationId <$> @resolveOrgContext (table_auth two_orgs bob false) bob_headers "acme" = Some "acme"
  /\ @resolveOrgContext (table_auth acme_deleted bob false) bob_headers "acme" = None
  /\ "beta" <> "acme".
Proof.
  split; [reflexivity|]. split; [reflexivity|].
  refine (@deleted_organization_closed (table_auth acme_deleted bob false) two_orgs acme_deleted "acme" 5
    bob_headers "beta" (mkAuthContext bob (mkUserSession "s1" (Some "beta")) "beta" "owner") _ _ _).
  - reflexivity.
  - apply table_auth_laws.
  - reflexivity.
Defined.

Definition bob_request : Request := mkRequest bob_headers "/" (Some [("orgId", JsString "acme")]).
Definition no_keys : KeyDb := mkKeyDb [] [] [].
Definition no_hash (b : bytes) : bytes := b.


(** A bearer token hides the session from the handler: with a key that the
    check accepts, the request ends in an exception. *)
Lemma tag_route_throws_for_keys {A : AuthApi} pathname sha256 argon2_verify keys now req
    (db : TagDb) (key : VerifiedApiKey) endpoint add remove :
  (requireAuth pathname req).2 = Granted ->
  tagAuth sha256 argon2_verify keys now req = (None, Some key) ->
  tagAccess tag_assign req None (Some key) = Granted ->
  patch_tags_request pathname sha256 argon2_verify keys now req db endpoint add remove = (db, Threw).
Proof.
  intros Ha Ht Hg. unfold patch_tags_request, device_tags_route, requireTagAccess. rewrite Ht.
  destruct (requireAuth pathname req) as [c a]. cbn [snd] in Ha. rewrite Ha, Hg. reflexivity.
Qed.
