(* ===== verification/PostureEval.v ===== *)
(** * Evaluating device posture ([apps/management/src/lib/posture-eval.ts])

    Assertions over the attributes of a device: their syntax, down to the
    regular expressions that read it, and their evaluation on strings, numbers,
    booleans and lists.  Numbers are doubles.  [localeCompare], the text of a
    number and user-written regular expressions are parameters. *)
From Stdlib Require Import QArith Qpower.
From S2P Require Import Prelude Json.
Local Open Scope Z_scope.

(** ** Doubles *)
(** A finite double is [m * 2^k]. *)
Inductive double := DNaN | DInf (neg : bool) | DFin (m k : Z).

(** The double nearest to [num / den], which are non-negative. *)
Definition round_double (neg : bool) (num den : Z) : double :=
  if num =? 0 then DFin 0 0
  else let '(m, k) := nearest_double num den in
       if 971 <? k + (Z.log2 m - 52) then DInf neg else DFin (if neg then - m else m) k.

(** The sign of [a - b]; [None] is NaN. *)
Definition double_compare (a b : double) : option comparison :=
  match a, b with
  | DNaN, _ | _, DNaN => None
  | DInf x, DInf y => if Bool.eqb x y then None else Some (if x then Lt else Gt)
  | DInf x, DFin _ _ => Some (if x then Lt else Gt)
  | DFin _ _, DInf y => Some (if y then Gt else Lt)
  | DFin m k, DFin m' k' =>
      let low := Z.min k k' in Some (m * 2 ^ (k - low) ?= m' * 2 ^ (k' - low))
  end.

Definition is_nan (d : double) : bool := match d with DNaN => true | _ => false end.
Definition double_truthy (d : double) : bool :=
  match d with DNaN => false | DInf _ => true | DFin m _ => negb (m =? 0) end.

(** *** [Number(text)] *)
Definition hex_digit (c : ascii) : option Z :=
  if is_digit c then Some (Z.of_N (code c) - 48)
  else if between 97 102 c then Some (Z.of_N (code c) - 87)
  else if between 65 70 c then Some (Z.of_N (code c) - 55)
  else None.

(** A non-empty run of digits in a radix. *)
Fixpoint radix_value (radix acc : Z) (s : string) : option Z :=
  match s with
  | EmptyString => Some acc
  | String c rest =>
      match hex_digit c with
      | Some d => if d <? radix then radix_value radix (radix * acc + d) rest else None
      | None => None
      end
  end.
Definition radix_literal (radix : Z) (s : string) : double :=
  match s with
  | EmptyString => DNaN
  | _ => match radix_value radix 0 s with Some v => round_double false v 1 | None => DNaN end
  end.

(** The exponent at the end of a decimal literal. *)
Definition exponent_end (s : string) : option Z :=
  match s with
  | EmptyString => Some 0
  | String c rest =>
      if Ascii.eqb (lower_unit c) "e"%char then
        let '(neg, ds) := split_sign rest in
        if negb (ds =? "")%string && all_units is_digit ds
        then Some (if neg then - digits_value ds else digits_value ds) else None
      else None
  end.

(** The value of [ip.fp] times a power of ten. *)
Definition decimal_value (neg : bool) (ip fp : string) (e : Z) : double :=
  let e' := e - Z.of_nat (String.length fp) in
  round_double neg (digits_value (ip +:+ fp) * 10 ^ Z.max 0 e') (10 ^ Z.max 0 (- e')).

Definition decimal_literal (neg : bool) (s : string) : double :=
  let ip := digits_prefix s in
  let r := slice (String.length ip) s in
  let '(fp, r) := match r with
                  | String c r' =>
                      if Ascii.eqb c "."%char
                      then (digits_prefix r', slice (String.length (digits_prefix r')) r') else ("", r)
                  | EmptyString => ("", r)
                  end in
  if (ip =? "")%string && (fp =? "")%string then DNaN
  else match exponent_end r with Some e => decimal_value neg ip fp e | None => DNaN end.

Definition to_Number (s : string) : double :=
  let t := trim s in
  let head2 := toLowerCase (String.substring 0 2 t) in
  if (t =? "")%string then DFin 0 0
  else if (head2 =? "0x")%string then radix_literal 16 (slice 2 t)
  else if (head2 =? "0o")%string then radix_literal 8 (slice 2 t)
  else if (head2 =? "0b")%string then radix_literal 2 (slice 2 t)
  else let '(neg, u) := split_sign t in
       if (u =? "Infinity")%string then DInf neg else decimal_literal neg u.

(** ** Values and assertions *)
Inductive PostureValue :=
| PvString (s : string)
| PvNumber (n : double)
| PvBool (b : bool)
| PvList (l : list string).

Inductive PostureOp :=
| eq_ | neq_ | in_ | not_in | gte | gt_ | lte | lt_ | is_set | not_set | matches_ | contains_.

Record ParsedAssertion := mkAssertion {
  pa_attribute : string; pa_operator : PostureOp; pa_expected : option PostureValue }.

(** *** Syntax *)
(** [[a-zA-Z0-9_:.-]] *)
Definition is_attribute_unit (c : ascii) : bool :=
  is_digit c || between 97 122 c || between 65 90 c
  || existsb (Ascii.eqb c) ["_"%char; ":"%char; "."%char; "-"%char].

Fixpoint attribute_prefix (s : string) : string :=
  match s with
  | String c rest => if is_attribute_unit c then String c (attribute_prefix rest) else ""
  | EmptyString => ""
  end.

(** The alternatives of the pattern, in their order. *)
Definition OPERATORS : list (string * PostureOp) :=
  [("==", eq_); ("!=", neq_); (">=", gte); ("<=", lte); (">", gt_); ("<", lt_); ("in", in_);
   ("not in", not_in); ("is set", is_set); ("is not set", not_set); ("not set", not_set);
   ("matches", matches_); ("contains", contains_)].

Definition is_line_end (c : ascii) : bool := (code c =? 10)%N || (code c =? 13)%N.

(** [ASSERTION_RE] on a trimmed text: attribute, operator and the rest. *)
Definition match_assertion (trimmed : string) : option (string * PostureOp * string) :=
  let attribute := attribute_prefix trimmed in
  let after := slice (String.length attribute) trimmed in
  let body := trimStart after in
  if (attribute =? "")%string || (body =? after)%string then None
  else match List.find (fun o => startsWith (toLowerCase body) o.1) OPERATORS with
       | Some (text, op) =>
           let value := trimStart (slice (String.length text) body) in
           if all_units (fun c => negb (is_line_end c)) value then Some (attribute, op, value) else None
       | None => None
       end.

(** What is before the next [quote], and what is after it. *)
Fixpoint until_unit (quote : ascii) (s : string) : option (string * string) :=
  match s with
  | EmptyString => None
  | String c rest =>
      if Ascii.eqb c quote then Some ("", rest)
      else (fun p => (String c p.1, p.2)) <$> until_unit quote rest
  end.

(** [[^,\s]+] *)
Fixpoint word_prefix (s : string) : string :=
  match s with
  | String c rest => if Ascii.eqb c ","%char || is_space c then "" else String c (word_prefix rest)
  | EmptyString => ""
  end.

(** The matches of the item pattern; every turn consumes a unit, so that the
    length is enough fuel. *)
Fixpoint list_items (fuel : nat) (s : string) : list string :=
  match fuel, s with
  | O, _ | _, EmptyString => []
  | S fuel', String c rest =>
      let word := word_prefix s in
      let plain := if (word =? "")%string then list_items fuel' rest
                   else word :: list_items fuel' (slice (String.length word) s) in
      if Ascii.eqb c "'"%char || Ascii.eqb c "034"%char then
        match until_unit c rest with
        | Some (item, r) => item :: list_items fuel' r
        | None => plain
        end
      else plain
  end.

(** [slice(1, -1)] of a text that starts and ends with a unit each. *)
Definition inner (s : string) : string := String.substring 1 (String.length s - 2) s.

Definition parseListValue (raw : string) : option (list string) :=
  let trimmed := trim raw in
  if negb (startsWith trimmed "[" && endsWith trimmed "]" && (2 <=? String.length trimmed)%nat) then None
  else let body := trim (inner trimmed) in Some (list_items (String.length body) body).

(** [^-?\d+(\.\d+)?$] *)
Definition is_number_text (s : string) : bool :=
  let u := if startsWith s "-" then slice 1 s else s in
  let ip := digits_prefix u in
  negb (ip =? "")%string
  && match slice (String.length ip) u with
     | EmptyString => true
     | String c fp => Ascii.eqb c "."%char && negb (fp =? "")%string && all_units is_digit fp
     end.

Definition quoted_by (q : string) (s : string) : bool := startsWith s q && endsWith s q.

Definition parseScalarValue (raw : string) : PostureValue :=
  let trimmed := trim raw in
  if (trimmed =? "true")%string then PvBool true
  else if (trimmed =? "false")%string then PvBool false
  else if is_number_text trimmed then PvNumber (to_Number trimmed)
  else if quoted_by "'" trimmed || quoted_by dquote trimmed then PvString (inner trimmed)
  else PvString trimmed.

Definition parseAssertion (expression : string) : option ParsedAssertion :=
  match match_assertion (trim expression) with
  | None => None
  | Some (attribute, operator, rest) =>
      match operator with
      | is_set | not_set => Some (mkAssertion attribute operator None)
      | _ =>
          let valueRaw := trim rest in
          Some (mkAssertion attribute operator
            (Some (match parseListValue valueRaw with
                   | Some l => PvList l
                   | None => parseScalarValue valueRaw
                   end)))
      end
  end.

(** ** Evaluation *)
Section Eval.
(** [String(n)], [a.localeCompare(b, undefined, { numeric: true, sensitivity:
    "base" })], and [new RegExp(pattern).test(text)], where [None] is an invalid
    pattern. *)
Context (number_text : double -> string) (localeCompare : string -> string -> comparison)
  (regexp_test : string -> string -> option bool).

Definition to_String (v : PostureValue) : string :=
  match v with
  | PvString s => s
  | PvNumber n => number_text n
  | PvBool true => "true"
  | PvBool false => "false"
  | PvList l => join "," l
  end.

Definition to_Boolean (v : PostureValue) : bool :=
  match v with
  | PvString s => negb (s =? "")%string
  | PvNumber n => double_truthy n
  | PvBool b => b
  | PvList _ => true
  end.

Definition as_number (v : PostureValue) : option double :=
  match v with
  | PvNumber n => Some n
  | PvString s => Some (to_Number s)
  | _ => None
  end.

(** The sign of the result; [None] is NaN. *)
Definition compareScalars (actual expected : PostureValue) : option comparison :=
  match as_number actual, as_number expected with
  | Some a, Some e =>
      if negb (is_nan a) && negb (is_nan e) then double_compare a e
      else Some (localeCompare (to_String actual) (to_String expected))
  | _, _ => Some (localeCompare (to_String actual) (to_String expected))
  end.

Definition valuesEqual (actual expected : PostureValue) : bool :=
  match actual, expected with
  | PvBool _, _ | _, PvBool _ => Bool.eqb (to_Boolean actual) (to_Boolean expected)
  | PvNumber _, _ | _, PvNumber _ => bool_decide (compareScalars actual expected = Some Eq)
  | PvList a, PvList e => bool_decide (a = e)
  | _, _ => (to_String actual =? to_String expected)%string
  end.

Definition expected_list (expected : PostureValue) : option (list string) :=
  match expected with PvList l => Some l | v => parseListValue (to_String v) end.

Definition ordered (op : PostureOp) (c : comparison) : bool :=
  match op, c with
  | gte, (Gt | Eq) | gt_, Gt | lte, (Lt | Eq) | lt_, Lt => true
  | _, _ => false
  end.

Definition evaluateParsedAssertion (parsed : ParsedAssertion) (attributes : list (string * PostureValue))
    : bool :=
  let actual := map_get attributes (pa_attribute parsed) in
  match pa_operator parsed, actual, pa_expected parsed with
  | is_set, Some _, _ => true
  | is_set, None, _ => false
  | not_set, Some _, _ => false
  | not_set, None, _ => true
  | eq_, Some a, Some e => valuesEqual a e
  | eq_, _, _ => false
  | neq_, Some a, Some e => negb (valuesEqual a e)
  | neq_, _, _ => false
  | in_, Some a, Some e =>
      match expected_list e with
      | Some l => existsb (fun item => valuesEqual a (PvString item)) l
      | None => false
      end
  | in_, _, _ => false
  | not_in, Some a, Some e =>
      match expected_list e with
      | Some l => negb (existsb (fun item => valuesEqual a (PvString item)) l)
      | None => true
      end
  | not_in, _, _ => true
  | matches_, Some a, Some e => default false (regexp_test (to_String e) (to_String a))
  | matches_, _, _ => false
  | contains_, Some (PvList l), Some e =>
      existsb (fun item => valuesEqual (PvString item) (PvString (to_String e))) l
  | contains_, Some a, Some e => includes (to_String a) (to_String e)
  | contains_, _, _ => false
  | op, Some a, Some e => match compareScalars a e with Some c => ordered op c | None => false end
  | _, _, _ => false
  end.

Definition evaluateAssertion (expression : string) (attributes : list (string * PostureValue)) : bool :=
  match parseAssertion expression with
  | None => false
  | Some parsed => evaluateParsedAssertion parsed attributes
  end.

Record PostureEvalResult := mkPostureResult {
  pe_name : string; pe_passed : bool; pe_failingAssertions : list string; pe_score : option Z }.

(** [Math.round] of a non-negative double. *)
Definition math_round (d : double) : Z :=
  match d with
  | DFin m k => if 0 <=? k then m * 2 ^ k else (2 * m + 2 ^ (- k)) / (2 * 2 ^ (- k))
  | _ => 0
  end.

(** [(a / b) * 100] in doubles. *)
Definition percentage (a b : Z) : double :=
  match round_double false a b with
  | DFin m k => round_double false (m * 100 * 2 ^ Z.max 0 k) (2 ^ Z.max 0 (- k))
  | d => d
  end.

Definition evaluatePostureDefinition (name : string) (assertions : list string)
    (attributes : list (string * PostureValue)) : PostureEvalResult :=
  let failing := List.filter (fun a => negb (evaluateAssertion a attributes)) assertions in
  let total := Z.of_nat (length assertions) in
  match failing with
  | [] => mkPostureResult name true failing (Some 100)
  | _ => mkPostureResult name false failing
           (if 0 <? total
            then Some (math_round (percentage (total - Z.of_nat (length failing)) total)) else None)
  end.
End Eval.

(** Rows are namespace, key and value. *)
Definition buildAttributeMap (rows : list (string * string * PostureValue)) : list (string * PostureValue) :=
  foldl (fun m r => map_set m (r.1.1 +:+ ":" +:+ r.1.2) r.2) [] rows.

Definition computeOverallScore (results : list PostureEvalResult) : option Z :=
  match results with
  | [] => None
  | _ =>
      let total := foldl (fun sum r => sum + default 0 (pe_score r)) 0 results in
      Some (math_round (round_double false total (Z.of_nat (length results))))
  end.

(** ** What assertions mean *)
(** The number a finite double stands for. *)
Definition double_value (m k : Z) : Q := (inject_Z m * Qpower (inject_Z 2) k)%Q.

Definition is_bool (v : PostureValue) : bool := match v with PvBool _ => true | _ => false end.
Definition is_number (v : PostureValue) : bool := match v with PvNumber _ => true | _ => false end.
Definition is_list (v : PostureValue) : bool := match v with PvList _ => true | _ => false end.

Section Meaning.
Context (number_text : double -> string) (localeCompare : string -> string -> comparison)
  (regexp_test : string -> string -> option bool).
Notation text := (to_String number_text).

(** A number, or a text that reads as one. *)
Definition numeric (v : PostureValue) : Prop := exists d, as_number v = Some d /\ d <> DNaN.

(** Numbers are compared by value, everything else by its text.  Two equal
    infinities do not compare: their difference is not a number. *)
Inductive compares (a e : PostureValue) : comparison -> Prop :=
| compares_finite m k m' k' :
    as_number a = Some (DFin m k) -> as_number e = Some (DFin m' k') ->
    compares a e (double_value m k ?= double_value m' k')%Q
| compares_left x m k :
    as_number a = Some (DInf x) -> as_number e = Some (DFin m k) -> compares a e (if x then Lt else Gt)
| compares_right x m k :
    as_number a = Some (DFin m k) -> as_number e = Some (DInf x) -> compares a e (if x then Gt else Lt)
| compares_opposite x :
    as_number a = Some (DInf x) -> as_number e = Some (DInf (negb x)) -> compares a e (if x then Lt else Gt)
| compares_texts :
    ~ (numeric a /\ numeric e) -> compares a e (localeCompare (text a) (text e)).

(** Equality goes by truth when one side is a boolean, by number when one is a
    number, by items for two lists and by text otherwise. *)
Inductive same_value (a e : PostureValue) : Prop :=
| same_truth : is_bool a || is_bool e = true -> to_Boolean a = to_Boolean e -> same_value a e
| same_number : is_bool a || is_bool e = false -> is_number a || is_number e = true -> compares a e Eq ->
    same_value a e
| same_items l : a = PvList l -> e = PvList l -> same_value a e
| same_text : is_bool a || is_bool e = false -> is_number a || is_number e = false -> is_list a && is_list e = false ->
    text a = text e -> same_value a e.

(** The items of the right side of [IN]: a list, or a text that reads as one. *)
Definition items (e : PostureValue) (l : list string) : Prop :=
  e = PvList l \/ (is_list e = false /\ parseListValue (text e) = Some l).

Definition is_item (a e : PostureValue) : Prop :=
  exists l item, items e l /\ item ∈ l /\ same_value a (PvString item).

(** When an assertion is satisfied by the attributes of a device. *)
Definition satisfied (attributes : list (string * PostureValue)) (p : ParsedAssertion) : Prop :=
  let present a e := map_get attributes (pa_attribute p) = Some a /\ pa_expected p = Some e in
  match pa_operator p with
  | is_set => exists a, map_get attributes (pa_attribute p) = Some a
  | not_set => map_get attributes (pa_attribute p) = None
  | eq_ => exists a e, present a e /\ same_value a e
  | neq_ => exists a e, present a e /\ ~ same_value a e
  | in_ => exists a e, present a e /\ is_item a e
  | not_in => forall a e, present a e -> ~ is_item a e
  | gte => exists a e c, present a e /\ compares a e c /\ c <> Lt
  | gt_ => exists a e, present a e /\ compares a e Gt
  | lte => exists a e c, present a e /\ compares a e c /\ c <> Gt
  | lt_ => exists a e, present a e /\ compares a e Lt
  | matches_ => exists a e, present a e /\ regexp_test (text e) (text a) = Some true
  | contains_ => exists a e, present a e
      /\ match a with
         | PvList l => text e ∈ l
         | _ => includes (text a) (text e) = true
         end
  end.

(** An assertion holds when it can be read and is satisfied. *)
Definition holds (attributes : list (string * PostureValue)) (expression : string) : Prop :=
  exists p, parseAssertion expression = Some p /\ satisfied attributes p.

Lemma double_compare_value m k m' k' :
  double_compare (DFin m k) (DFin m' k') = Some (double_value m k ?= double_value m' k')%Q.
Proof.
  cbn [double_compare]. f_equal. set (low := Z.min k k').
  assert (forall m k, low <= k ->
            (double_value m k == inject_Z (m * 2 ^ (k - low)) * Qpower (inject_Z 2) low)%Q) as Hv.
  { generalize low. clear. intros low m k Hk. unfold double_value. rewrite inject_Z_mult.
    replace k with ((k - low) + low) at 1 by lia. rewrite Qpower_plus by done.
    rewrite <- Zpower_Qpower by lia. ring. }
  rewrite (Hv m k), (Hv m' k') by lia. set (x := m * _). set (y := m' * _).
  assert (0 < Qpower (inject_Z 2) low)%Q as Hp by (apply Qpower_0_lt; reflexivity).
  destruct (Z.compare_spec x y) as [->|Hlt|Hgt]; symmetry.
  - by apply Qeq_alt.
  - apply Qlt_alt, Qmult_lt_r; [done|]. by rewrite <- Zlt_Qlt.
  - apply Qgt_alt, Qmult_lt_r; [done|]. by rewrite <- Zlt_Qlt.
Qed.

Lemma compareScalars_spec a e c :
  compareScalars number_text localeCompare a e = Some c <-> compares a e c.
Proof.
  unfold compareScalars. split.
  - destruct (as_number a) as [x|] eqn:Ea.
    2: { intros [= <-]. apply compares_texts. intros [(d & Hd & _) _]. congruence. }
    destruct (as_number e) as [y|] eqn:Ee.
    2: { intros [= <-]. apply compares_texts. intros [_ (d & Hd & _)]. congruence. }
    destruct x as [|x|m k].
    { intros [= <-]. apply compares_texts. intros [(d & Hd & Hn) _]. congruence. }
    all: destruct y as [|y|m' k'].
    1, 4: intros [= <-]; apply compares_texts; intros [_ (d & Hd & Hn)]; congruence.
    + cbn. destruct (Bool.eqb x y) eqn:E; [done|]. intros [= <-]. apply compares_opposite; [done|].
      rewrite Ee. by destruct x, y.
    + intros [= <-]. by eapply compares_left.
    + intros [= <-]. by eapply compares_right.
    + cbn [is_nan negb andb]. rewrite double_compare_value. intros [= <-]. by apply compares_finite.
  - destruct 1 as [m k m' k' -> ->|x m k -> ->|x m k -> ->|x -> ->|Hn].
    + cbn [is_nan negb andb]. apply double_compare_value.
    + done.
    + done.
    + cbn. by destruct x.
    + destruct (as_number a) as [x|] eqn:Ea; [|done]. destruct (as_number e) as [y|] eqn:Ee; [|done].
      destruct (is_nan x) eqn:Ex; [done|]. destruct (is_nan y) eqn:Ey; [done|]. destruct Hn.
      split; [exists x|exists y]; (split; [done|]); by intros ->.
Qed.

Lemma valuesEqual_spec a e : valuesEqual number_text localeCompare a e = true <-> same_value a e.
Proof.
  split.
  - intros H. destruct (is_bool a || is_bool e) eqn:Eb.
    { apply same_truth; [done|]. destruct a, e; try done; by apply Bool.eqb_prop. }
    destruct (is_number a || is_number e) eqn:En.
    { apply same_number; [done..|]. apply compareScalars_spec.
      destruct a, e; try done; by apply bool_decide_eq_true in H. }
    destruct (is_list a && is_list e) eqn:El.
    + destruct a, e; try done. apply bool_decide_eq_true in H as ->. by eapply same_items.
    + apply same_text; [done..|]. destruct a, e; try done; by apply String.eqb_eq in H.
  - destruct 1 as [Eb Ht|Eb En Hc|l -> ->|Eb En El Ht].
    + destruct a, e; try done; cbn [valuesEqual]; rewrite Ht; apply Bool.eqb_reflx.
    + apply compareScalars_spec in Hc. destruct a, e; try done; by apply bool_decide_eq_true.
    + by apply bool_decide_eq_true.
    + destruct a, e; try done; by apply String.eqb_eq.
Qed.

Lemma expected_list_spec e l : expected_list number_text e = Some l <-> items e l.
Proof. unfold items. destruct e; cbn [expected_list is_list]; naive_solver. Qed.

Lemma in_list_spec a l :
  existsb (fun item => valuesEqual number_text localeCompare a (PvString item)) l = true
  <-> exists item, item ∈ l /\ same_value a (PvString item).
Proof.
  rewrite existsb_exists. setoid_rewrite valuesEqual_spec. setoid_rewrite list_elem_of_In. done.
Qed.

Lemma is_item_spec a e :
  match expected_list number_text e with
  | Some l => existsb (fun item => valuesEqual number_text localeCompare a (PvString item)) l
  | None => false
  end = true <-> is_item a e.
Proof.
  unfold is_item. setoid_rewrite <- expected_list_spec. destruct (expected_list _ e) as [l|].
  - rewrite in_list_spec. naive_solver.
  - naive_solver.
Qed.

Lemma contains_item e l :
  existsb (fun item => valuesEqual number_text localeCompare (PvString item) (PvString (text e))) l = true
  <-> text e ∈ l.
Proof.
  rewrite existsb_exists, list_elem_of_In. cbn [valuesEqual to_String]. setoid_rewrite String.eqb_eq. naive_solver.
Qed.

Lemma ordered_spec op a e :
  match compareScalars number_text localeCompare a e with Some c => ordered op c | None => false end = true
  <-> exists c, compares a e c /\ ordered op c = true.
Proof. setoid_rewrite <- compareScalars_spec. destruct (compareScalars _ _ a e); naive_solver. Qed.

Lemma evaluateParsedAssertion_spec attributes p :
  evaluateParsedAssertion number_text localeCompare regexp_test p attributes = true <-> satisfied attributes p.
Proof.
  unfold evaluateParsedAssertion, satisfied. cbn zeta.
  destruct (map_get attributes (pa_attribute p)) as [a|]; destruct (pa_operator p);
    try (destruct (pa_expected p) as [e|]); try naive_solver.
  - rewrite valuesEqual_spec. naive_solver.
  - rewrite negb_true_iff, <- not_true_iff_false, valuesEqual_spec. naive_solver.
  - rewrite is_item_spec. naive_solver.
  - transitivity (~ is_item a e); [|naive_solver]. rewrite <- is_item_spec.
    destruct (expected_list _ e); [|naive_solver]. by rewrite negb_true_iff, not_true_iff_false.
  - rewrite ordered_spec. split.
    + intros (c & Hc & Ho). exists a, e, c. split; [done|]. split; [done|]. by destruct c.
    + intros (? & ? & c & [[= <-] [= <-]] & Hc & Hn). exists c. by destruct c.
  - rewrite ordered_spec. split.
    + intros ([] & Hc & Ho); try done. by exists a, e.
    + intros (? & ? & [[= <-] [= <-]] & Hc). by exists Gt.
  - rewrite ordered_spec. split.
    + intros (c & Hc & Ho). exists a, e, c. split; [done|]. split; [done|]. by destruct c.
    + intros (? & ? & c & [[= <-] [= <-]] & Hc & Hn). exists c. by destruct c.
  - rewrite ordered_spec. split.
    + intros ([] & Hc & Ho); try done. by exists a, e.
    + intros (? & ? & [[= <-] [= <-]] & Hc). by exists Lt.
  - destruct (regexp_test _ _) as [[]|] eqn:E; naive_solver.
  - transitivity (match a with PvList l => text e ∈ l | _ => includes (text a) (text e) = true end);
      [destruct a; try done; apply contains_item|naive_solver].
  - destruct a; naive_solver.
Qed.

Lemma evaluateAssertion_spec attributes expression :
  evaluateAssertion number_text localeCompare regexp_test expression attributes = true
  <-> holds attributes expression.
Proof.
  unfold evaluateAssertion, holds. destruct (parseAssertion expression) as [p|]; [|naive_solver].
  rewrite evaluateParsedAssertion_spec. naive_solver.
Qed.
End Meaning.

(** ** Scores *)
(** The exponent chosen by the rounding is not too large. *)
Lemma nearest_exponent num den :
  0 < num -> 0 < den ->
  let a := Z.log2 num - Z.log2 den in
  let e := if den * 2 ^ Z.max 0 a <=? num * 2 ^ Z.max 0 (- a) then a else a - 1 in
  den * 2 ^ Z.max 0 e <= num * 2 ^ Z.max 0 (- e).
Proof.
  intros Hn Hd a e. subst e. destruct (Z.leb_spec (den * 2 ^ Z.max 0 a) (num * 2 ^ Z.max 0 (- a))); [done|].
  pose proof (Z.log2_spec num Hn) as [Hl _]. pose proof (Z.log2_spec den Hd) as [_ Hu].
  pose proof (Z.log2_nonneg num). pose proof (Z.log2_nonneg den).
  destruct (Z.le_gt_cases 0 (a - 1)) as [Ha|Ha].
  - rewrite Z.max_r, (Z.max_l 0) by lia. rewrite Z.pow_0_r, Z.mul_1_r.
    transitivity (2 ^ Z.succ (Z.log2 den) * 2 ^ (a - 1)).
    + apply Z.mul_le_mono_nonneg_r; [apply Z.pow_nonneg|]; lia.
    + rewrite <- Z.pow_add_r by lia. etransitivity; [|exact Hl]. apply Z.pow_le_mono_r; lia.
  - rewrite Z.max_l, (Z.max_r 0) by lia. rewrite Z.pow_0_r, Z.mul_1_r.
    transitivity (2 ^ Z.log2 num * 2 ^ (- (a - 1))).
    + rewrite <- Z.pow_add_r by lia. etransitivity; [apply Z.lt_le_incl, Hu|]. apply Z.pow_le_mono_r; lia.
    + apply Z.mul_le_mono_nonneg_r; [apply Z.pow_nonneg|]; lia.
Qed.

(** Rounding does not pass an integer bound, and is off by at most half of the
    last place. *)
Lemma nearest_double_near num den c m k :
  0 < num -> 0 < den -> 0 < c <= 2 ^ 52 -> num <= c * den -> nearest_double num den = (m, k) ->
  k <= 0 /\ 0 <= m <= c * 2 ^ (- k) /\ - den <= 2 * (m * den - num * 2 ^ (- k)) <= den
  /\ 2 ^ 52 <= c * 2 ^ (- k).
Proof.
  intros Hn Hd Hc Hle. unfold nearest_double. pose proof (nearest_exponent num den Hn Hd) as He.
  cbn zeta in He |- *. set (a := Z.log2 num - Z.log2 den) in *. set (e := if _ <=? _ then _ else _) in *.
  assert (2 ^ Z.max 0 e <= c * 2 ^ Z.max 0 (- e)) as Hec.
  { assert (0 < 2 ^ Z.max 0 (- e)) by (apply Z.pow_pos_nonneg; lia).
    assert (0 < 2 ^ Z.max 0 e) by (apply Z.pow_pos_nonneg; lia). nia. }
  assert (e <= 52) as He52.
  { destruct (Z.le_gt_cases e 52) as [|Hgt]; [done|exfalso].
    rewrite Z.max_r, (Z.max_l 0) in Hec by lia. rewrite Z.pow_0_r, Z.mul_1_r in Hec.
    assert (2 ^ 53 <= 2 ^ e) by (apply Z.pow_le_mono_r; lia). lia. }
  set (k0 := Z.max (-1074) (e - 52)). assert (k0 <= 0) as Hk by lia.
  rewrite (Z.max_r 0 (- k0)), (Z.max_l 0 k0) by lia. rewrite Z.pow_0_r, Z.mul_1_r.
  set (n := num * 2 ^ (- k0)). intros [= <- <-]. split; [done|].
  assert (0 < 2 ^ (- k0)) as Hp by (apply Z.pow_pos_nonneg; lia).
  assert (n <= c * 2 ^ (- k0) * den) as Hnb by (unfold n; nia).
  pose proof (Z.div_mod n den ltac:(lia)) as Hdm. pose proof (Z.mod_pos_bound n den Hd) as Hr.
  assert (0 <= n / den) as Hq by (apply Z.div_pos; [unfold n; nia|lia]).
  set (q := n / den) in *. set (r := n mod den) in *.
  assert (q <= c * 2 ^ (- k0) /\ (0 < r -> q + 1 <= c * 2 ^ (- k0))) as [H1 H2] by (split; [|intros]; nia).
  assert (2 ^ 52 <= c * 2 ^ (- k0)) as Hbig.
  { destruct (Z.le_gt_cases 0 e) as [Hpos|Hneg].
    - rewrite Z.max_r, (Z.max_l 0) in Hec by lia. rewrite Z.pow_0_r, Z.mul_1_r in Hec.
      replace (2 ^ 52) with (2 ^ e * 2 ^ (52 - e)) by (rewrite <- Z.pow_add_r by lia; f_equal; lia).
      replace (- k0) with (52 - e) by lia. apply Z.mul_le_mono_nonneg_r; [apply Z.pow_nonneg; lia|done].
    - assert (2 ^ 52 <= 2 ^ (- k0)) by (apply Z.pow_le_mono_r; lia). nia. }
  destruct (2 * r <? den) eqn:E1; [split_and!; [lia..|nia|nia|done]|]. apply Z.ltb_ge in E1.
  destruct (den <? 2 * r) eqn:E2; [split_and!; [lia..|nia|nia|done]|]. apply Z.ltb_ge in E2.
  destruct (Z.even q); split_and!; try lia; nia.
Qed.

Lemma round_double_near num den c :
  0 < num -> 0 < den -> 0 < c <= 2 ^ 52 -> num <= c * den ->
  exists m k, round_double false num den = DFin m k /\ k <= 0 /\ 0 <= m <= c * 2 ^ (- k)
    /\ - den <= 2 * (m * den - num * 2 ^ (- k)) <= den /\ 2 ^ 52 <= c * 2 ^ (- k).
Proof.
  intros Hn Hd Hc Hle. unfold round_double. rewrite (proj2 (Z.eqb_neq num 0)) by lia.
  destruct (nearest_double num den) as [m k] eqn:E.
  destruct (nearest_double_near num den c m k) as (Hk & Hm & Hr); try lia; [done|].
  rewrite (proj2 (Z.ltb_ge _ _)); [by exists m, k|].
  assert (m <= 2 ^ (52 - k)) as Hm2.
  { transitivity (2 ^ 52 * 2 ^ (- k)); [|rewrite <- Z.pow_add_r by lia; apply Z.pow_le_mono_r; lia].
    etransitivity; [apply Hm|]. apply Z.mul_le_mono_nonneg_r; [apply Z.pow_nonneg; lia|lia]. }
  apply Z.log2_le_mono in Hm2. rewrite Z.log2_pow2 in Hm2 by lia. lia.
Qed.

(** [Math.round] is off by at most a half. *)
Lemma math_round_near m k c :
  k <= 0 -> 0 <= m <= c * 2 ^ (- k) ->
  0 <= math_round (DFin m k) <= c
  /\ - 2 ^ (- k) <= 2 * (math_round (DFin m k) * 2 ^ (- k) - m) <= 2 ^ (- k).
Proof.
  intros Hk Hm. cbn [math_round]. assert (0 < 2 ^ (- k)) as Hp by (apply Z.pow_pos_nonneg; lia).
  destruct (Z.leb_spec 0 k).
  - assert (k = 0) as -> by lia. change (- 0) with 0 in *. rewrite Z.pow_0_r in *. lia.
  - set (B := 2 ^ (- k)) in *. pose proof (Z.div_mod (2 * m + B) (2 * B) ltac:(lia)) as Hdm.
    pose proof (Z.mod_pos_bound (2 * m + B) (2 * B) ltac:(lia)) as Hr.
    set (q := (2 * m + B) / (2 * B)) in *. set (r := (2 * m + B) mod (2 * B)) in *.
    split_and!; nia.
Qed.

(** [near n a b]: [n] is an integer nearest to [a / b]. *)
Definition near (n a b : Z) : Prop := 2 * Z.abs (b * n - a) <= b.

(** The two roundings of a percentage and the last one, combined. *)
Lemma combined_error a b A B m m' s :
  0 < b < 2 ^ 32 -> 2 ^ 52 <= A -> 2 ^ 52 <= 100 * B ->
  - b <= 2 * (m * b - a * A) <= b -> - A <= 2 * (m' * A - m * 100 * B) <= A ->
  - B <= 2 * (s * B - m') <= B -> near s (100 * a) b.
Proof.
  intros Hb HA HB H1 H2 H3. unfold near.
  assert (0 < A) as HA0 by lia. assert (0 < B) as HB0 by lia.
  assert ((b * s - 100 * a) * (A * B)
          = b * A * (s * B - m') + b * (m' * A - m * 100 * B) + 100 * B * (m * b - a * A)) as E by ring.
  assert (- (b * A * B) <= 2 * (b * A * (s * B - m')) <= b * A * B) as E1 by nia.
  assert (- (b * A) <= 2 * (b * (m' * A - m * 100 * B)) <= b * A) as E2 by nia.
  assert (- (100 * B * b) <= 2 * (100 * B * (m * b - a * A)) <= 100 * B * b) as E3 by nia.
  assert (b * A + 100 * B * b < A * B) as Hsmall.
  { assert (2 * (b * A) < A * B) by nia. assert (2 * (100 * B * b) < A * B) by nia. lia. }
  set (x := b * s - 100 * a) in *.
  assert (- ((b + 1) * (A * B)) < 2 * x * (A * B) < (b + 1) * (A * B)) as [L U] by (split; nia).
  assert (0 < A * B) by nia. apply Z.mul_lt_mono_pos_r in U; [|done].
  assert (- (b + 1) < 2 * x) by nia. lia.
Qed.

(** The score of [a] assertions of [b]. *)
Lemma percentage_near a b :
  0 <= a <= b -> 0 < b < 2 ^ 32 ->
  0 <= math_round (percentage a b) <= 100 /\ near (math_round (percentage a b)) (100 * a) b.
Proof.
  intros Ha Hb. destruct (Z.eq_dec a 0) as [->|Hne].
  { change (percentage 0 b) with (DFin 0 0). cbn. unfold near. lia. }
  unfold percentage. destruct (round_double_near a b 1) as (m & k & -> & Hk & Hm & Hr & HA); try lia.
  rewrite (Z.max_l 0 k), (Z.max_r 0 (- k)) by lia. rewrite Z.pow_0_r, Z.mul_1_r. rewrite Z.mul_1_l in HA, Hm.
  assert (0 < m) as Hpos by nia.
  destruct (round_double_near (m * 100) (2 ^ (- k)) 100) as (m' & k' & -> & Hk' & Hm' & Hr' & HB); try lia.
  destruct (math_round_near m' k' 100) as [Hs Hr'']; [done|lia|]. split; [done|].
  by apply (combined_error a b (2 ^ (- k)) (2 ^ (- k')) m m').
Qed.

(** The average of scores. *)
Lemma average_near total n :
  0 <= total <= 100 * n -> 0 < n < 2 ^ 32 ->
  0 <= math_round (round_double false total n) <= 100 /\ near (math_round (round_double false total n)) total n.
Proof.
  intros Ht Hn. destruct (Z.eq_dec total 0) as [->|Hne].
  { change (round_double false 0 n) with (DFin 0 0). cbn. unfold near. lia. }
  destruct (round_double_near total n 100) as (m & k & -> & Hk & Hm & Hr & HB); try lia.
  destruct (math_round_near m k 100) as [Hs Hr']; [done|lia|]. split; [done|]. unfold near.
  set (s := math_round _) in *. set (B := 2 ^ (- k)) in *. assert (0 < B) by lia.
  assert ((n * s - total) * B = n * (s * B - m) + (m * n - total * B)) as E by ring.
  set (x := n * s - total) in *.
  assert (- (n * B) <= 2 * (n * (s * B - m)) <= n * B) by nia.
  assert (- ((n + 1) * B) < 2 * x * B < (n + 1) * B) as [L U] by (split; nia).
  apply Z.mul_lt_mono_pos_r in U; [|done]. assert (- (n + 1) < 2 * x) by nia. lia.
Qed.

Lemma filter_nil_Forall {A} (p : A -> bool) l : List.filter (fun x => negb (p x)) l = [] <-> Forall (fun x => p x = true) l.
Proof.
  induction l as [|x l IH]; cbn; [split; [constructor|done]|]. rewrite list.Forall_cons, <- IH.
  destruct (p x); cbn; naive_solver.
Qed.

Lemma filter_split {A} (p : A -> bool) l :
  (length (List.filter p l) + length (List.filter (fun x => negb (p x)) l) = length l)%nat.
Proof. induction l as [|x l IH]; cbn; [done|]. destruct (p x); cbn; lia. Qed.

(** What the result for one definition is. *)
Definition definition_ok number_text localeCompare regexp_test (attributes : list (string * PostureValue))
    (assertions : list string) (r : PostureEvalResult) : Prop :=
  let holding := evaluateAssertion number_text localeCompare regexp_test in
  (pe_passed r = true <-> Forall (holds number_text localeCompare regexp_test attributes) assertions)
  /\ pe_failingAssertions r = List.filter (fun a => negb (holding a attributes)) assertions
  /\ exists score, pe_score r = Some score /\ 0 <= score <= 100 /\ (pe_passed r = true -> score = 100)
     /\ near score (100 * Z.of_nat (length (List.filter (fun a => holding a attributes) assertions)))
          (Z.of_nat (length assertions)).

Lemma one_definition number_text localeCompare regexp_test name assertions attributes :
  Z.of_nat (length assertions) < 2 ^ 32 ->
  definition_ok number_text localeCompare regexp_test attributes assertions
    (evaluatePostureDefinition number_text localeCompare regexp_test name assertions attributes).
Proof.
  intros Hlen. unfold definition_ok, evaluatePostureDefinition. cbn zeta.
  set (holding a := evaluateAssertion number_text localeCompare regexp_test a attributes).
  assert (Forall (holds number_text localeCompare regexp_test attributes) assertions
          <-> List.filter (fun a => negb (holding a)) assertions = []) as ->.
  { rewrite filter_nil_Forall, !list.Forall_forall. by setoid_rewrite <- evaluateAssertion_spec. }
  pose proof (filter_split holding assertions) as Hsplit.
  change (fun a => negb (evaluateAssertion number_text localeCompare regexp_test a attributes))
    with (fun a => negb (holding a)).
  destruct (List.filter (fun a => negb (holding a)) assertions) as [|f fs] eqn:E.
  { cbn [length pe_passed pe_failingAssertions pe_score] in *. split_and!; [done..|]. exists 100.
    split_and!; [done|lia|lia|done|]. unfold near. rewrite <- Hsplit. lia. }
  cbn [pe_passed pe_failingAssertions pe_score]. split; [done|]. split; [done|].
  cbn [length] in *. rewrite (proj2 (Z.ltb_lt 0 _)) by lia.
  destruct (percentage_near (Z.of_nat (length (List.filter holding assertions))) (Z.of_nat (length assertions)))
    as [Hb Hn]; [lia|lia|].
  replace (Z.of_nat (length assertions) - Z.of_nat (S (length fs)))
    with (Z.of_nat (length (List.filter holding assertions))) by lia.
  eexists. split; [done|]. by split_and!; [apply Hb|apply Hb| |].
Qed.

Definition score_sum (results : list PostureEvalResult) : Z :=
  foldl (fun sum r => sum + default 0 (pe_score r)) 0 results.

Lemma score_sum_bound rs acc :
  (forall r, r ∈ rs -> exists score, pe_score r = Some score /\ 0 <= score <= 100) ->
  acc <= foldl (fun sum r => sum + default 0 (pe_score r)) acc rs <= acc + 100 * Z.of_nat (length rs).
Proof.
  revert acc. induction rs as [|r rs IH]; intros acc Hrs; cbn [foldl length]; [lia|].
  destruct (Hrs r ltac:(by left)) as (score & -> & Hs). change (default 0 (Some score)) with score.
  specialize (IH (acc + score)). rewrite Nat2Z.inj_succ.
  assert (forall r', r' ∈ rs -> exists score, pe_score r' = Some score /\ 0 <= score <= 100) as Hrs'
    by (intros r' Hr'; apply Hrs; by right).
  specialize (IH Hrs'). lia.
Qed.

Lemma overall_score_near results :
  Z.of_nat (length results) < 2 ^ 32 ->
  (forall r, r ∈ results -> exists score, pe_score r = Some score /\ 0 <= score <= 100) ->
  match computeOverallScore results with
  | Some score => 0 <= score <= 100 /\ near score (score_sum results) (Z.of_nat (length results))
  | None => results = []
  end.
Proof.
  intros Hlen Hr. pose proof (score_sum_bound results 0 Hr) as Hs. destruct results as [|r rs]; [done|].
  cbn [computeOverallScore]. apply average_near; [|cbn in *; lia]. unfold score_sum in *. lia.
Qed.

(** ** Reading what is written *)
Definition op_text (op : PostureOp) : string :=
  match op with
  | eq_ => "==" | neq_ => "!=" | in_ => "IN" | not_in => "NOT IN" | gte => ">=" | gt_ => ">"
  | lte => "<=" | lt_ => "<" | is_set => "IS SET" | not_set => "IS NOT SET"
  | matches_ => "MATCHES" | contains_ => "CONTAINS"
  end.

Definition one_line (s : string) : bool := all_units (fun c => negb (is_line_end c)) s.
Definition quoted_item (s : string) : string := "'" +:+ s +:+ "'".

(** How a value is written: booleans and numbers plainly, texts in quotes, lists
    of quoted texts in brackets. *)
Inductive written : PostureValue -> string -> Prop :=
| written_bool b : written (PvBool b) (if b then "true" else "false")
| written_number text : is_number_text text = true -> written (PvNumber (to_Number text)) text
| written_string s : one_line s = true -> written (PvString s) (quoted_item s)
| written_list l :
    Forall (fun s => one_line s = true /\ lacks "'"%char s = true) l ->
    written (PvList l) ("[" +:+ join ", " (map quoted_item l) +:+ "]").

Lemma all_units_app p s t : all_units p (s +:+ t) = all_units p s && all_units p t.
Proof. induction s as [|c s IH]; [done|]. rewrite app_String. cbn. by rewrite IH, andb_assoc. Qed.

Lemma length_append s t : String.length (s +:+ t) = (String.length s + String.length t)%nat.
Proof. induction s as [|c s IH]; [done|]. rewrite app_String. cbn. by rewrite IH. Qed.

Lemma endsWith_snoc s c : endsWith (s +:+ String c "") (String c "") = true.
Proof.
  induction s as [|d s IH]; rewrite ?app_Empty_l, ?app_String; cbn [endsWith].
  - by rewrite String.eqb_refl.
  - by rewrite IH, orb_true_r.
Qed.

Lemma inner_wrap c s d : inner (String c (s +:+ String d "")) = s.
Proof.
  unfold inner. cbn [String.length]. rewrite length_append. cbn [String.length String.substring].
  replace (S (String.length s + 1) - 2)%nat with (String.length s) by lia.
  induction s as [|x s IH]; [done|]. rewrite app_String. cbn. by rewrite IH.
Qed.

Lemma until_unit_lacks q s rest : lacks q s = true -> until_unit q (s +:+ String q rest) = Some (s, rest).
Proof.
  induction s as [|c s IH]; rewrite ?app_Empty_l, ?app_String; cbn [until_unit].
  - by rewrite Ascii.eqb_refl.
  - unfold lacks. cbn. intros [Hc%negb_true_iff Hs]%andb_prop. rewrite Hc, IH by done. done.
Qed.

Lemma length_quoted s : String.length (quoted_item s) = S (S (String.length s)).
Proof. unfold quoted_item. rewrite !length_append. cbn [String.length]. lia. Qed.

(** A quoted item at the start of the list. *)
Lemma list_items_quoted fuel s rest :
  lacks "'"%char s = true ->
  list_items (S fuel) (quoted_item s +:+ rest) = s :: list_items fuel rest.
Proof.
  intros Hs. unfold quoted_item. rewrite !app_assoc_str, !app_String, !app_Empty_l. cbn [list_items].
  change (Ascii.eqb "'" "'" || _) with true. cbn iota. by rewrite until_unit_lacks.
Qed.

Lemma list_items_separator fuel rest : list_items (S (S fuel)) (", " +:+ rest) = list_items fuel rest.
Proof. reflexivity. Qed.

Lemma list_items_written l fuel :
  Forall (fun s => lacks "'"%char s = true) l ->
  (String.length (join ", " (map quoted_item l)) <= fuel)%nat ->
  list_items fuel (join ", " (map quoted_item l)) = l.
Proof.
  intros Hl. revert fuel. induction Hl as [|s l Hs Hl IH]; intros fuel Hf; [by destruct fuel|].
  destruct l as [|s' l].
  - cbn [map join] in *. rewrite length_quoted in Hf. destruct fuel as [|fuel]; [lia|].
    rewrite <- (app_Empty_r (quoted_item s)), list_items_quoted by done. by destruct fuel.
  - cbn [map] in *. rewrite join_cons2 in *. rewrite !length_append, length_quoted in Hf.
    change (String.length ", ") with 2%nat in Hf.
    destruct fuel as [|[|[|fuel]]]; [lia..|].
    rewrite list_items_quoted by done. f_equal.
    rewrite list_items_separator. apply IH. lia.
Qed.

Lemma trimEnd_snoc s c : is_space c = false -> trimEnd (s +:+ String c "") = s +:+ String c "".
Proof.
  intros Hc. induction s as [|d s IH]; rewrite ?app_Empty_l, ?app_String; cbn [trimEnd]; [by rewrite Hc|].
  rewrite IH. by destruct s.
Qed.

(** A text whose first and last units are not spaces. *)
Lemma trim_wrap c s d :
  is_space c = false -> is_space d = false -> trim (String c (s +:+ String d "")) = String c (s +:+ String d "").
Proof.
  intros Hc Hd. unfold trim. cbn [trimStart]. rewrite Hc.
  rewrite <- (app_String c s), trimEnd_snoc by done. done.
Qed.

(** The units of numbers. *)
Definition number_unit (c : ascii) : bool := is_digit c || Ascii.eqb c "-"%char || Ascii.eqb c "."%char.

Lemma number_unit_plain c :
  number_unit c = true ->
  is_space c = false /\ is_line_end c = false
  /\ existsb (Ascii.eqb c) ["["%char; "'"%char; "034"%char; "t"%char; "f"%char] = false.
Proof. by destruct c as [[] [] [] [] [] [] [] []]. Qed.

Lemma digits_split u :
  u = digits_prefix u +:+ slice (String.length (digits_prefix u)) u /\ all_units is_digit (digits_prefix u) = true.
Proof.
  induction u as [|c u [IH1 IH2]]; [done|]. cbn [digits_prefix]. destruct (is_digit c) eqn:Hc; [|done].
  cbn [String.length slice all_units]. rewrite app_String, <- IH1, Hc. done.
Qed.

Lemma number_text_units s :
  is_number_text s = true -> all_units number_unit s = true /\ exists c r, s = String c r.
Proof.
  unfold is_number_text. set (u := if startsWith s "-" then slice 1 s else s).
  intros [Hip Hend]%andb_prop. destruct (digits_split u) as [Hu Hd].
  assert (forall x, all_units is_digit x = true -> all_units number_unit x = true) as Hdig
    by (intros x; apply all_units_impl; intros c Hc; unfold number_unit; by rewrite Hc).
  assert (all_units number_unit u = true /\ u <> "") as [Hun Hne].
  { rewrite Hu, all_units_app, (Hdig _ Hd). cbn [andb]. split.
    - destruct (slice _ u) as [|c fp]; [done|].
      apply andb_prop in Hend as [[Hc%Ascii.eqb_eq _]%andb_prop Hfp]. subst c. cbn. by apply Hdig.
    - intros E. destruct (digits_prefix u); [done|]. by rewrite app_String in E. }
  subst u. destruct (startsWith s "-") eqn:Em.
  - apply startsWith_iff in Em as [r ->]. rewrite app_String, app_Empty_l in *. cbn in Hun |- *. eauto.
  - split; [done|]. destruct s; [done|eauto].
Qed.

Lemma trim_no_space s : all_units (fun c => negb (is_space c)) s = true -> trim s = s.
Proof.
  intros H. unfold trim. assert (trimStart s = s) as ->.
  { destruct s as [|c s]; [done|]. cbn in *. apply andb_prop in H as [Hc _]. by rewrite (proj1 (negb_true_iff _) Hc). }
  induction s as [|c s IH]; [done|]. cbn in H |- *. apply andb_prop in H as [Hc Hs]. rewrite IH by done.
  destruct s; [|done]. by rewrite (proj1 (negb_true_iff _) Hc).
Qed.

Lemma starts_other c r d q : Ascii.eqb c d = false -> startsWith (String c r) (String d q) = false.
Proof.
  intros H. apply not_true_is_false. intros [x E]%startsWith_iff. rewrite app_String in E. injection E as E _.
  subst d. by rewrite Ascii.eqb_refl in H.
Qed.

Lemma starts_unit c r : startsWith (String c r) (String c "") = true.
Proof. change (String c r) with (String c "" +:+ r). apply startsWith_app. Qed.

(** What is read back from a written value. *)
Definition read_value (text : string) : PostureValue :=
  match parseListValue text with Some l => PvList l | None => parseScalarValue text end.

Lemma written_number_read text :
  is_number_text text = true ->
  read_value text = PvNumber (to_Number text) /\ trim text = text /\ one_line text = true /\ text <> "".
Proof.
  intros Hn. destruct (number_text_units text Hn) as [Hu (c & r & ->)].
  assert (trim (String c r) = String c r) as Ht.
  { apply trim_no_space. eapply all_units_impl; [|exact Hu]. intros x Hx.
    by destruct (number_unit_plain x Hx) as [-> _]. }
  assert (one_line (String c r) = true) as Hl.
  { eapply all_units_impl; [|exact Hu]. intros x Hx. by destruct (number_unit_plain x Hx) as (_ & -> & _). }
  split_and!; [|done..]. pose proof (andb_prop _ _ Hu) as [Hc _]. apply number_unit_plain in Hc as (_ & _ & Hc).
  cbn [existsb] in Hc. apply orb_false_elim in Hc as [H1 Hc]. apply orb_false_elim in Hc as [H2 Hc].
  apply orb_false_elim in Hc as [H3 Hc]. apply orb_false_elim in Hc as [H4 Hc]. apply orb_false_elim in Hc as [H5 _].
  unfold read_value, parseListValue. rewrite Ht, (starts_other c r "[" "") by done. cbn [andb negb].
  unfold parseScalarValue. rewrite Ht, Hn.
  assert ((String c r =? "true")%string = false /\ (String c r =? "false")%string = false) as [-> ->]; [|done].
  split; apply String.eqb_neq; intros [= -> _]; done.
Qed.

Lemma join_quoted_shape s l :
  exists x, join ", " (map quoted_item (s :: l)) = String "'" (x +:+ "'").
Proof.
  revert s. induction l as [|s' l IH]; intros s.
  - exists s. cbn [map join]. unfold quoted_item. by rewrite app_String, app_Empty_l.
  - destruct (IH s') as [x Hx]. cbn [map] in *. rewrite join_cons2, Hx. unfold quoted_item at 1.
    exists (s +:+ "'" +:+ ", " +:+ "'" +:+ x). by rewrite !app_assoc_str, !app_String, !app_Empty_l.
Qed.

Lemma join_quoted_one_line l :
  Forall (fun s => one_line s = true) l -> one_line (join ", " (map quoted_item l)) = true.
Proof.
  induction 1 as [|s l Hs Hl IH]; [done|].
  assert (one_line (quoted_item s) = true) as Hq
    by (unfold one_line, quoted_item in *; rewrite !all_units_app, Hs; done).
  destruct l as [|s' l]; [done|]. cbn [map] in *. rewrite join_cons2.
  unfold one_line in *. by rewrite !all_units_app, Hq, IH.
Qed.

Lemma written_list_read l :
  Forall (fun s => one_line s = true /\ lacks "'"%char s = true) l ->
  read_value ("[" +:+ join ", " (map quoted_item l) +:+ "]") = PvList l
  /\ trim ("[" +:+ join ", " (map quoted_item l) +:+ "]") = "[" +:+ join ", " (map quoted_item l) +:+ "]"
  /\ one_line ("[" +:+ join ", " (map quoted_item l) +:+ "]") = true
  /\ "[" +:+ join ", " (map quoted_item l) +:+ "]" <> "".
Proof.
  intros [Hl Hq]%list.Forall_and. set (body := join ", " (map quoted_item l)).
  assert (trim body = body) as Hb.
  { subst body. destruct l as [|s l]; [done|]. destruct (join_quoted_shape s l) as [x ->]. by apply trim_wrap. }
  rewrite app_String, app_Empty_l. split_and!; [|by apply trim_wrap| |done].
  - unfold read_value, parseListValue. rewrite trim_wrap by done.
    rewrite (starts_unit "["). rewrite <- (app_String "[" body), endsWith_snoc, app_String.
    rewrite inner_wrap, Hb. cbn [String.length]. rewrite length_append. cbn [String.length].
    rewrite (proj2 (Nat.leb_le 2 _)) by lia. cbn [andb negb]. subst body.
    by rewrite list_items_written.
  - unfold one_line in *. cbn. rewrite all_units_app.
    pose proof (join_quoted_one_line l Hl) as Ho. unfold one_line in Ho. fold body in Ho. by rewrite Ho.
Qed.

Lemma written_read v text :
  written v text -> read_value text = v /\ trim text = text /\ one_line text = true /\ text <> "".
Proof.
  destruct 1 as [b|text Hn|s Hs|l Hl].
  - by destruct b.
  - by apply written_number_read.
  - unfold quoted_item. rewrite app_String, app_Empty_l.
    split_and!; [|by apply trim_wrap| |done].
    + unfold read_value, parseListValue. rewrite trim_wrap by done. rewrite starts_other by done.
      cbn [andb negb]. unfold parseScalarValue. rewrite trim_wrap by done.
      unfold quoted_by. rewrite (starts_unit "'"), <- (app_String "'" s), endsWith_snoc, app_String. cbn [andb orb].
      change (String.eqb (String "'" _) _) with false. cbn iota.
      change (String.eqb (String "'" _) _) with false. cbn iota.
      change (is_number_text _) with false. cbn iota. by rewrite inner_wrap.
    + unfold one_line in *. cbn. rewrite all_units_app, Hs. done.
  - by apply written_list_read.
Qed.

(** ** Assertions *)
Definition attribute_ok (a : string) : bool := negb (a =? "")%string && all_units is_attribute_unit a.

Lemma attribute_unit_plain c : is_attribute_unit c = true -> is_space c = false.
Proof. by destruct c as [[] [] [] [] [] [] [] []]. Qed.

Lemma attribute_prefix_app a c rest :
  all_units is_attribute_unit a = true -> is_attribute_unit c = false ->
  attribute_prefix (a +:+ String c rest) = a.
Proof.
  intros Ha Hc. induction a as [|x a IH]; rewrite ?app_Empty_l, ?app_String; cbn [attribute_prefix].
  - by rewrite Hc.
  - cbn in Ha. apply andb_prop in Ha as [-> Ha]. by rewrite IH.
Qed.

Lemma find_operator op text :
  exists o, List.find (fun o => startsWith (toLowerCase (op_text op +:+ " " +:+ text)) o.1) OPERATORS = Some o
    /\ o.2 = op /\ slice (String.length o.1) (op_text op +:+ " " +:+ text) = " " +:+ text.
Proof. destruct op; eexists; (split; [reflexivity|split; reflexivity]). Qed.

Lemma trimEnd_length s : (String.length (trimEnd s) <= String.length s)%nat.
Proof.
  induction s as [|c s IH]; cbn; [done|]. destruct (trimEnd s); [destruct (is_space c)|]; cbn in *; lia.
Qed.

Lemma trimStart_length s : (String.length (trimStart s) <= String.length s)%nat.
Proof. induction s as [|c s IH]; cbn; [done|]. destruct (is_space c); cbn; lia. Qed.

Lemma trimmed_both s : trim s = s -> trimStart s = s /\ trimEnd s = s.
Proof.
  intros H. assert (trimStart s = s) as Hs.
  { destruct s as [|c s]; [done|]. cbn [trimStart]. destruct (is_space c) eqn:Hc; [|done].
    apply (f_equal String.length) in H. unfold trim in H. cbn [trimStart] in H. rewrite Hc in H.
    pose proof (trimEnd_length (trimStart s)). pose proof (trimStart_length s). cbn in H. lia. }
  split; [done|]. unfold trim in H. by rewrite Hs in H.
Qed.

Lemma trimEnd_tail p v : v <> "" -> trimEnd v = v -> trimEnd (p +:+ v) = p +:+ v.
Proof.
  intros Hne Hv. induction p as [|c p IH]; rewrite ?app_Empty_l, ?app_String; [done|]. cbn [trimEnd].
  rewrite IH. destruct (p +:+ v) eqn:E; [|done]. destruct p; rewrite ?app_Empty_l, ?app_String in E; done.
Qed.

Lemma assertion_text_trim attribute rest text :
  attribute_ok attribute = true -> trim text = text -> text <> "" ->
  trim (attribute +:+ rest +:+ text) = attribute +:+ rest +:+ text.
Proof.
  intros [Hne Hu]%andb_prop [_ Ht]%trimmed_both Htne. destruct attribute as [|c a]; [done|].
  cbn in Hu. apply andb_prop in Hu as [Hc%attribute_unit_plain _]. unfold trim.
  rewrite app_String. cbn [trimStart]. rewrite Hc, <- app_String, <- app_assoc_str. by rewrite trimEnd_tail.
Qed.

(** ** Properties *)
Section Properties.
Context (number_text : double -> string) (localeCompare : string -> string -> comparison)
  (regexp_test : string -> string -> option bool).

(** C35: A posture passes exactly when each of its assertions can be read and is
    satisfied by the attributes of the device, with every operator given its
    meaning; otherwise it lists exactly the assertions that fail.  Its score is
    an integer nearest to the percentage of the assertions that hold, 100 when
    it passes, and the overall score is an integer nearest to the average of
    the scores, in spite of the arithmetic in doubles.  Arrays have fewer than
    2^32 items. *)
Theorem posture_evaluation_spec (attributes : list (string * PostureValue))
    (definitions : list (string * list string)) (results : list PostureEvalResult) :
  Z.of_nat (length definitions) < 2 ^ 32 ->
  Forall (fun d => Z.of_nat (length d.2) < 2 ^ 32) definitions ->
  results = map (fun d => evaluatePostureDefinition number_text localeCompare regexp_test d.1 d.2 attributes)
              definitions ->
  Forall2 (fun d r =>
      (pe_passed r = true <-> Forall (holds number_text localeCompare regexp_test attributes) d.2)
      /\ (forall a, a ∈ pe_failingAssertions r
           <-> a ∈ d.2 /\ ~ holds number_text localeCompare regexp_test attributes a)
      /\ pe_failingAssertions r
         = List.filter (fun a => negb (evaluateAssertion number_text localeCompare regexp_test a attributes)) d.2
      /\ exists score, pe_score r = Some score /\ 0 <= score <= 100 /\ (pe_passed r = true -> score = 100)
         /\ near score
              (100 * (Z.of_nat (length d.2) - Z.of_nat (length (pe_failingAssertions r))))
              (Z.of_nat (length d.2))) definitions results
  /\ match computeOverallScore results with
     | Some score => 0 <= score <= 100 /\ near score (score_sum results) (Z.of_nat (length definitions))
     | None => definitions = []
     end.
Proof.
  intros Hlen Hall Hres.
  assert (Forall2 (fun d r => definition_ok number_text localeCompare regexp_test attributes d.2 r)
            definitions results) as Hok.
  { subst results. clear Hlen. induction Hall as [|d ds Hd Hds IH]; constructor; [by apply one_definition|done]. }
  split.
  - eapply Forall2_impl; [|exact Hok]. intros d r (Hpass & Hfail & score & Hs & Hb & Hp & Hn).
    split; [done|]. split; [|split; [done|]].
    + intros a. rewrite Hfail, elem_of_filter_bool, negb_true_iff, <- not_true_iff_false, evaluateAssertion_spec. done.
    + exists score. split; [done|]. split; [done|]. split; [done|].
      pose proof (filter_split (fun a => evaluateAssertion number_text localeCompare regexp_test a attributes) d.2).
      rewrite Hfail. by replace (_ - _) with (Z.of_nat (length (List.filter
        (fun a => evaluateAssertion number_text localeCompare regexp_test a attributes) d.2))) by lia.
  - pose proof (Forall2_length Hok) as Hl. rewrite Hl in Hlen |- *.
    pose proof (overall_score_near results Hlen) as Ho.
    assert (forall r, r ∈ results -> exists score, pe_score r = Some score /\ 0 <= score <= 100) as Hr.
    { intros r Hr. apply list_elem_of_lookup in Hr as [i Hi].
      destruct (Forall2_lookup_r _ _ _ _ _ Hok Hi) as (d & _ & (_ & _ & score & ? & ? & _)). eauto. }
    specialize (Ho Hr). destruct (computeOverallScore results); [done|]. subst results. by destruct definitions.
Qed.

(** An assertion is read as it is written: attribute, operator and value come
    back, for every operator and every boolean, number, text and list. *)
Theorem assertion_roundtrip (attribute : string) (op : PostureOp) (v : PostureValue) (text : string) :
  attribute_ok attribute = true -> written v text ->
  parseAssertion (attribute +:+ " " +:+ op_text op +:+ " " +:+ text)
  = Some (mkAssertion attribute op (match op with is_set | not_set => None | _ => Some v end)).
Proof.
  intros [Hne Hu]%andb_prop Hw. destruct (written_read v text Hw) as (Hread & Htrim & Hline & Hnonempty).
  unfold parseAssertion.
  assert (trim (attribute +:+ " " +:+ op_text op +:+ " " +:+ text) = attribute +:+ " " +:+ op_text op +:+ " " +:+ text)
    as ->.
  { rewrite <- (app_assoc_str (op_text op)), <- (app_assoc_str " "). apply assertion_text_trim; [|done..].
    unfold attribute_ok. by rewrite Hne. }
  unfold match_assertion.
  rewrite (app_String " "), app_Empty_l, attribute_prefix_app, slice_app by done.
  rewrite (proj1 (negb_true_iff _) Hne). destruct (find_operator op text) as (o & Ho & <- & Hs).
  assert (trimStart (String " " (op_text o.2 +:+ " " +:+ text)) = op_text o.2 +:+ " " +:+ text) as ->
    by (by destruct o.2).
  rewrite (proj2 (String.eqb_neq _ _)) by (intros E; apply (f_equal String.length) in E; cbn in E; lia).
  cbn [orb]. rewrite Ho. destruct o as [otext op']. cbn [fst snd] in *. rewrite Hs.
  assert (trimStart (" " +:+ text) = text) as -> by (by destruct (trimmed_both text Htrim)).
  unfold one_line in Hline. rewrite Hline. cbn [fst snd]. rewrite Htrim. fold (read_value text). rewrite Hread.
  by destruct op'.
Qed.
End Properties.

(** A device that runs Linux, has 2 GiB free and no firewall entry, against two
    definitions; the number printing, collation and patterns are not reached. *)
Definition sample_attributes : list (string * PostureValue) :=
  [("os.platform", PvString "linux"); ("disk.free", PvNumber (DFin 2048 0))].

Definition sample_definitions : list (string * list string) :=
  [("platform", ["os.platform IN ['linux', 'macos']"; "disk.free >= 1024"]);
   ("firewall", ["firewall.enabled IS SET"; "os.platform == 'linux'"])].

Lemma posture_evaluation_spec_witness :
  map pe_passed (map (fun d => evaluatePostureDefinition (fun _ => "") (fun _ _ => Eq) (fun _ _ => None)
    d.1 d.2 sample_attributes) sample_definitions) = [true; false]
  /\ match computeOverallScore (map (fun d => evaluatePostureDefinition (fun _ => "") (fun _ _ => Eq)
       (fun _ _ => None) d.1 d.2 sample_attributes) sample_definitions) with
     | Some score => 0 <= score <= 100 /\ near score 150 2
     | None => sample_definitions = []
     end.
Proof.
  split; [vm_compute; reflexivity|].
  refine (proj2 (posture_evaluation_spec (fun _ => "") (fun _ _ => Eq) (fun _ _ => None) sample_attributes
    sample_definitions _ _ _ eq_refl)).
  - reflexivity.
  - repeat constructor.
Defined.

Lemma assertion_roundtrip_witness :
  parseAssertion "os.platform NOT IN ['linux', 'macos']"
  = Some (mkAssertion "os.platform" not_in (Some (PvList ["linux"; "macos"]))).
Proof.
  apply (assertion_roundtrip "os.platform" not_in (PvList ["linux"; "macos"]) "['linux', 'macos']"); [reflexivity|].
  apply (written_list ["linux"; "macos"]). repeat constructor.
Defined.
