(* ===== verification/Ip.v ===== *)
(** * IP addresses and address blocks ([packages/ip/src/index.ts])

    The classes [Address4] and [Address6] of the ip-address package are an
    interface: parsing, the correct form, the prefix length, the address as a
    number, and [isInSubnet].  [IpLaws] states what the package documents of
    them.  [dotted] is an implementation for dotted IPv4 texts, for which the
    laws are proved. *)
From S2P Require Import Prelude.
Local Open Scope Z_scope.

Class IpAddress := {
  Address4 : Type;
  (** [new Address4(text)]; [None] when it is not valid *)
  address4 : string -> option Address4;
  correctForm : Address4 -> string;
  subnetMask : Address4 -> Z;
  bigInt : Address4 -> Z;
  isInSubnet : Address4 -> Address4 -> bool;
  (** [new Address6(text).correctForm()]; [None] when it is not valid *)
  correctForm6 : string -> option string
}.

Section Ip.
Context `{IpAddress}.

Definition valid4 (value : string) : bool := match address4 value with Some _ => true | None => false end.
Definition valid6 (value : string) : bool := match correctForm6 value with Some _ => true | None => false end.

Definition isIpv4 (value : string) : bool := valid4 value && negb (includes value "/").
Definition isIpv6 (value : string) : bool := valid6 value && negb (includes value "/").
Definition isIp (value : string) : bool := isIpv4 value || isIpv6 value.
Definition isIpv4Cidr (value : string) : bool := valid4 value.
Definition isIpv6Cidr (value : string) : bool := valid6 value.
Definition isIpCidr (value : string) : bool := isIpv4Cidr value || isIpv6Cidr value.

(** [None]: an error is thrown, here and below. *)
Definition formatIp (value : string) : option string :=
  match address4 value with Some a => Some (correctForm a) | None => correctForm6 value end.

Definition cidr_text (a : Address4) : string := correctForm a +:+ "/" +:+ string_of_Z (subnetMask a).
Definition formatIpv4Cidr (value : string) : option string := cidr_text <$> address4 value.

Definition overlap (left right : Address4) : bool := isInSubnet left right || isInSubnet right left.
Definition ipv4CidrsOverlap (a b : string) : option bool :=
  left ← address4 a; right ← address4 b; Some (overlap left right).
Definition overlapsMeshCidr (candidate meshCidr : string) : option bool := ipv4CidrsOverlap candidate meshCidr.

(** ** What the package documents *)
Definition block_size (a : Address4) : Z := 2 ^ (32 - subnetMask a).
(** An address lies in the block when it has its first [subnetMask] bits. *)
Definition in_block (a : Address4) (ip : Z) : Prop :=
  0 <= ip < 2 ^ 32 /\ ip / block_size a = bigInt a / block_size a.

Record IpLaws : Prop := mkIpLaws {
  mask_range : forall a, 0 <= subnetMask a <= 32;
  address_range : forall a, 0 <= bigInt a < 2 ^ 32;
  isInSubnet_spec : forall a b,
    isInSubnet a b = true <-> subnetMask b <= subnetMask a /\ bigInt a / block_size b = bigInt b / block_size b;
  cidr_text_parses : forall a, exists a', address4 (cidr_text a) = Some a'
    /\ bigInt a' = bigInt a /\ subnetMask a' = subnetMask a
}.

Context (Laws : IpLaws).

Lemma in_block_self a : in_block a (bigInt a).
Proof. split; [by apply (address_range Laws)|done]. Qed.

(** A longer prefix is a smaller block: the first bits of the address are those
    of the larger block. *)
Lemma block_div a b ip :
  subnetMask b <= subnetMask a -> ip / block_size a = bigInt a / block_size a ->
  ip / block_size b = bigInt a / block_size b.
Proof.
  intros Hle Hip. pose proof (mask_range Laws a). pose proof (mask_range Laws b).
  assert (block_size b = block_size a * 2 ^ (subnetMask a - subnetMask b)) as ->.
  { unfold block_size. rewrite <- Z.pow_add_r by lia. f_equal. lia. }
  assert (0 < block_size a) by (apply Z.pow_pos_nonneg; lia).
  assert (0 < 2 ^ (subnetMask a - subnetMask b)) by (apply Z.pow_pos_nonneg; lia).
  by rewrite <- !Z.div_div, Hip by lia.
Qed.

Lemma subnet_in_block a b ip : isInSubnet a b = true -> in_block a ip -> in_block b ip.
Proof.
  intros [Hm Hb]%(isInSubnet_spec Laws) [Hr Hip]. split; [done|]. by rewrite (block_div a b).
Qed.

(** Two blocks overlap exactly when they share an address. *)
Lemma overlap_spec a b : overlap a b = true <-> exists ip, in_block a ip /\ in_block b ip.
Proof.
  unfold overlap. rewrite orb_true_iff. split.
  - intros [Hs|Hs].
    + exists (bigInt a). split; [apply in_block_self|]. eapply subnet_in_block; [done|apply in_block_self].
    + exists (bigInt b). split; [|apply in_block_self]. eapply subnet_in_block; [done|apply in_block_self].
  - intros (ip & [_ Ha] & [_ Hb]). destruct (Z.le_ge_cases (subnetMask b) (subnetMask a)).
    + left. apply (isInSubnet_spec Laws). split; [done|]. rewrite <- Hb. symmetry. by apply (block_div a b).
    + right. apply (isInSubnet_spec Laws). split; [done|]. rewrite <- Ha. symmetry. by apply (block_div b a).
Qed.

(** A block is what its text says, whatever text it was given as. *)
Definition same_block (a b : Address4) : Prop := bigInt a = bigInt b /\ subnetMask a = subnetMask b.
Lemma same_block_in a b ip : same_block a b -> in_block a ip <-> in_block b ip.
Proof. intros [E1 E2]. unfold in_block, block_size. by rewrite E1, E2. Qed.
End Ip.

(** ** Dotted texts *)
Definition octet_ok (o : Z) : bool := (0 <=? o) && (o <=? 255).
Definition parse_octet (s : string) : option Z :=
  match parseInt s with
  | Some o => if octet_ok o && (string_of_Z o =? s)%string then Some o else None
  | None => None
  end.
Definition parse_quad (s : string) : option Z :=
  match mapM parse_octet (split_unit "."%char s) with
  | Some [a; b; c; d] => Some (((a * 256 + b) * 256 + c) * 256 + d)
  | _ => None
  end.
Definition parse_cidr (s : string) : option (Z * Z) :=
  match split_unit "/"%char s with
  | [q] => (fun v => (v, 32)) <$> parse_quad q
  | [q; m] =>
      v ← parse_quad q; n ← parse_octet m;
      if n <=? 32 then Some (v, n) else None
  | _ => None
  end.

Definition quad_text (v : Z) : string :=
  join "." (string_of_Z <$> [v / 16777216; v / 65536 mod 256; v / 256 mod 256; v mod 256]).

(** Pairs of an address and a prefix length within their ranges. *)
Definition dotted_ok (a : Z * Z) : bool :=
  (0 <=? a.1) && (a.1 <? 2 ^ 32) && (0 <=? a.2) && (a.2 <=? 32).
Definition dotted_address := { a : Z * Z | dotted_ok a = true }.

Definition dotted_parse (s : string) : option dotted_address :=
  match parse_cidr s with
  | Some a => match decide (dotted_ok a = true) with left H => Some (exist _ a H) | right _ => None end
  | None => None
  end.

#[export] Instance dotted : IpAddress := {|
  Address4 := dotted_address;
  address4 := dotted_parse;
  correctForm a := quad_text (proj1_sig a).1;
  subnetMask a := (proj1_sig a).2;
  bigInt a := (proj1_sig a).1;
  isInSubnet a b :=
    ((proj1_sig b).2 <=? (proj1_sig a).2)
    && ((proj1_sig a).1 / 2 ^ (32 - (proj1_sig b).2) =? (proj1_sig b).1 / 2 ^ (32 - (proj1_sig b).2));
  correctForm6 _ := None
|}.

Lemma parse_octet_text o : 0 <= o <= 255 -> parse_octet (string_of_Z o) = Some o.
Proof.
  intros Ho. unfold parse_octet. rewrite parseInt_string_of_Z.
  unfold octet_ok. rewrite !(proj2 (Z.leb_le _ _)) by lia. by rewrite String.eqb_refl.
Qed.

Lemma parse_quad_text v : 0 <= v < 2 ^ 32 -> parse_quad (quad_text v) = Some v.
Proof.
  intros Hv. unfold parse_quad, quad_text.
  assert (0 <= v / 16777216 <= 255) as H1 by (split; [apply Z.div_pos; lia|];
    apply Z.lt_succ_r, Z.div_lt_upper_bound; lia).
  assert (forall x, 0 <= x mod 256 <= 255) as H2 by (intros x; pose proof (Z.mod_pos_bound x 256); lia).
  rewrite split_join; [|done|repeat constructor; apply lacks_string_of_Z; try done; first [apply H1|apply H2]].
  cbn [fmap list_fmap mapM]. rewrite !parse_octet_text by first [apply H1|apply H2]. cbn. f_equal.
  replace (v / 16777216) with (v / 256 / 256 / 256) by (by rewrite !Z.div_div by lia).
  replace (v / 65536) with (v / 256 / 256) by (by rewrite !Z.div_div by lia).
  pose proof (Z.div_mod v 256). pose proof (Z.div_mod (v / 256) 256). pose proof (Z.div_mod (v / 256 / 256) 256).
  lia.
Qed.

Lemma quad_text_lacks v : 0 <= v < 2 ^ 32 -> lacks "/"%char (quad_text v) = true.
Proof.
  intros Hv. unfold quad_text. cbn [fmap list_fmap join].
  assert (0 <= v / 16777216) by (apply Z.div_pos; lia).
  assert (forall x, 0 <= x mod 256) by (intros x; pose proof (Z.mod_pos_bound x 256); lia).
  rewrite !lacks_app, !lacks_string_of_Z by (done || lia || auto). done.
Qed.

Lemma dotted_laws : IpLaws.
Proof.
  constructor.
  - intros [[v m] H]. cbn. unfold dotted_ok in H. cbn [fst snd] in H. lia.
  - intros [[v m] H]. cbn. unfold dotted_ok in H. cbn [fst snd] in H. lia.
  - intros [[v m] H] [[v' m'] H']. unfold block_size. cbn [isInSubnet dotted subnetMask bigInt proj1_sig fst snd].
    rewrite andb_true_iff, Z.leb_le, Z.eqb_eq. done.
  - intros [[v m] H]. unfold dotted_ok in H. cbn [fst snd] in H.
    assert (parse_cidr (cidr_text (exist _ (v, m) H : @Address4 dotted)) = Some (v, m)) as E.
    { unfold parse_cidr, cidr_text. cbn [correctForm subnetMask dotted proj1_sig fst snd].
      rewrite app_String, app_Empty_l, split_unit_app by (apply quad_text_lacks; lia).
      rewrite split_unit_lacks by (apply lacks_string_of_Z; [done|lia]).
      rewrite parse_quad_text by lia. cbn -[Z.leb]. rewrite parse_octet_text by lia. cbn -[Z.leb].
      by rewrite (proj2 (Z.leb_le m 32)) by lia. }
    assert (dotted_ok (v, m) = true) as Hok by (unfold dotted_ok; cbn [fst snd]; done).
    exists (exist _ (v, m) Hok). cbn [address4 dotted]. unfold dotted_parse. rewrite E.
    destruct (decide _) as [H'|]; [|done]. split; [|done]. f_equal. f_equal. apply (proof_irrel H' Hok).
Qed.
