(* ===== verification/Settings.v ===== *)
(** * Settings of organizations and networks
      ([packages/api/src/management/org-settings.ts],
      [apps/management/src/lib/agent-policy.ts],
      [apps/management/src/api/v1/org-settings.ts])

    The settings are JSON columns that are read through schemas.  The schemas are
    translated with combinators that do what the zod package documents of the
    ones they are named after: an object is read property by property, unknown
    properties are dropped, defaults stand for absent ones, texts are trimmed.
    [parse] of the parse-duration package is a parameter. *)
From Stdlib Require Import QArith.
From S2P Require Import Prelude AuditEvent Notify Tx Duration.
Local Open Scope Z_scope.

(** ** JSON values *)
Inductive jsv :=
| VNull
| VBool (b : bool)
| VNum (z : Z)
| VFrac
| VStr (s : string)
| VArr (l : list jsv)
| VObj (l : list (string * jsv)).

(** An object of the properties that are not undefined. *)
Definition object (l : list (string * option jsv)) : jsv :=
  VObj (omap (fun kv => (fun v => (kv.1, v)) <$> kv.2) l).

(** ** Schemas *)
(** [None] is undefined; a schema answers the parsed value or fails. *)
Definition zod (A : Type) := option jsv -> option A.

Definition z_boolean : zod bool :=
  fun v => match v with Some (VBool b) => Some b | _ => None end.
Definition z_int (lo hi : Z) : zod Z :=
  fun v => match v with
           | Some (VNum z) => if (lo <=? z) && (z <=? hi) then Some z else None
           | _ => None
           end.
Definition z_trimmed (lo hi : nat) : zod string :=
  fun v => match v with
           | Some (VStr s) =>
               let t := trim s in
               if (lo <=? String.length t)%nat && (String.length t <=? hi)%nat then Some t else None
           | _ => None
           end.
Definition z_enum {A} (cases : list (string * A)) : zod A :=
  fun v => match v with Some (VStr s) => map_get cases s | _ => None end.
Definition z_array {A} (item : zod A) (max : option nat) : zod (list A) :=
  fun v => match v with
           | Some (VArr l) =>
               l' ← mapM (fun x => item (Some x)) l;
               if match max with Some n => (length l' <=? n)%nat | None => true end then Some l' else None
           | _ => None
           end.
Definition z_optional {A} (s : zod A) : zod (option A) :=
  fun v => match v with None => Some None | Some _ => Some <$> s v end.
Definition z_nullable {A} (s : zod A) : zod (option A) :=
  fun v => match v with Some VNull => Some None | _ => Some <$> s v end.
Definition z_default {A} (d : A) (s : zod A) : zod A :=
  fun v => match v with None => Some d | Some _ => s v end.
Definition z_object {A} (body : (string -> option jsv) -> option A) : zod A :=
  fun v => match v with Some (VObj l) => body (map_get l) | _ => None end.
(** [superRefine] and [refine] *)
Definition z_refine {A} (ok : A -> bool) (s : zod A) : zod A :=
  fun v => x ← s v; if ok x then Some x else None.

(** ** The policy of agents *)
Record CustomScript := mkScript { cs_name : string; cs_path : string; cs_timeout_secs : Z }.
Record AutoUpdatePolicy := mkAutoUpdate { au_enabled : bool; au_checkIntervalHours : Z }.
Record DnsPolicy := mkDnsPolicy {
  dns_suffix : option string; dns_upstream : list string; dns_dnssec : option bool }.
Inductive RelayPolicy := relay_inherit | relay_augment | relay_exclusive.
Record ExitNodesPolicy := mkExitNodes { xn_allowAdvertise : bool; xn_allowUse : bool }.
Record PosturePolicy := mkPosturePolicy {
  pp_intervalSecs : Z; pp_enabledCollectors : list string; pp_customScripts : list CustomScript }.

Record RemoteAgentPolicy := mkAgentPolicy {
  ap_mdns : option bool;
  ap_lanDiscovery : option bool;
  ap_tunnelMtu : option Z;
  ap_autoUpdate : option AutoUpdatePolicy;
  ap_dns : option DnsPolicy;
  ap_relay : option RelayPolicy;
  ap_exitNodes : option ExitNodesPolicy;
  ap_posture : option PosturePolicy
}.

Definition empty_policy : RemoteAgentPolicy := mkAgentPolicy None None None None None None None None.

Definition remoteCustomScriptSchema : zod CustomScript :=
  z_object (fun o =>
    name ← z_trimmed 1 128 (o "name");
    path ← z_trimmed 1 512 (o "path");
    timeout ← z_int 1 600 (o "timeout_secs");
    Some (mkScript name path timeout)).

Definition remoteAutoUpdatePolicySchema : zod AutoUpdatePolicy :=
  z_object (fun o =>
    enabled ← z_boolean (o "enabled");
    hours ← z_default 6 (z_int 1 168) (o "checkIntervalHours");
    Some (mkAutoUpdate enabled hours)).

Definition remoteDnsPolicySchema : zod DnsPolicy :=
  z_object (fun o =>
    suffix ← z_optional (z_trimmed 1 63) (o "suffix");
    upstream ← z_default [] (z_array (z_trimmed 1 256) (Some 8%nat)) (o "upstream");
    dnssec ← z_optional z_boolean (o "dnssec");
    Some (mkDnsPolicy suffix upstream dnssec)).

Definition relayPolicySchema : zod RelayPolicy :=
  z_enum [("inherit", relay_inherit); ("augment", relay_augment); ("exclusive", relay_exclusive)].
Definition remoteRelayPolicySchema : zod RelayPolicy :=
  z_object (fun o => z_default relay_inherit relayPolicySchema (o "policy")).

Definition remoteExitNodesPolicySchema : zod ExitNodesPolicy :=
  z_object (fun o =>
    advertise ← z_default false z_boolean (o "allowAdvertise");
    use ← z_default true z_boolean (o "allowUse");
    Some (mkExitNodes advertise use)).

Definition remotePostureCollectorPolicySchema : zod PosturePolicy :=
  z_object (fun o =>
    interval ← z_default 300 (z_int 30 86400) (o "intervalSecs");
    collectors ← z_default [] (z_array (z_trimmed 1 64) None) (o "enabledCollectors");
    scripts ← z_default [] (z_array remoteCustomScriptSchema None) (o "customScripts");
    Some (mkPosturePolicy interval collectors scripts)).

Definition remoteAgentPolicySchema : zod RemoteAgentPolicy :=
  z_object (fun o =>
    mdns ← z_optional z_boolean (o "mdns");
    lan ← z_optional z_boolean (o "lanDiscovery");
    mtu ← z_optional (z_int 576 9000) (o "tunnelMtu");
    autoUpdate ← z_optional remoteAutoUpdatePolicySchema (o "autoUpdate");
    dns ← z_optional remoteDnsPolicySchema (o "dns");
    relay ← z_optional remoteRelayPolicySchema (o "relay");
    exitNodes ← z_optional remoteExitNodesPolicySchema (o "exitNodes");
    posture ← z_optional remotePostureCollectorPolicySchema (o "posture");
    Some (mkAgentPolicy mdns lan mtu autoUpdate dns relay exitNodes posture)).

(** The values as they are stored: undefined properties are left out. *)
Definition script_value (s : CustomScript) : jsv :=
  object [("name", Some (VStr (cs_name s))); ("path", Some (VStr (cs_path s)));
          ("timeout_secs", Some (VNum (cs_timeout_secs s)))].
Definition autoUpdate_value (p : AutoUpdatePolicy) : jsv :=
  object [("enabled", Some (VBool (au_enabled p))); ("checkIntervalHours", Some (VNum (au_checkIntervalHours p)))].
Definition dns_value (p : DnsPolicy) : jsv :=
  object [("suffix", VStr <$> dns_suffix p); ("upstream", Some (VArr (VStr <$> dns_upstream p)));
          ("dnssec", VBool <$> dns_dnssec p)].
Definition relay_text (p : RelayPolicy) : string :=
  match p with relay_inherit => "inherit" | relay_augment => "augment" | relay_exclusive => "exclusive" end.
Definition relay_value (p : RelayPolicy) : jsv := object [("policy", Some (VStr (relay_text p)))].
Definition exitNodes_value (p : ExitNodesPolicy) : jsv :=
  object [("allowAdvertise", Some (VBool (xn_allowAdvertise p))); ("allowUse", Some (VBool (xn_allowUse p)))].
Definition posture_value (p : PosturePolicy) : jsv :=
  object [("intervalSecs", Some (VNum (pp_intervalSecs p)));
          ("enabledCollectors", Some (VArr (VStr <$> pp_enabledCollectors p)));
          ("customScripts", Some (VArr (script_value <$> pp_customScripts p)))].
Definition policy_value (p : RemoteAgentPolicy) : jsv :=
  object [("mdns", VBool <$> ap_mdns p); ("lanDiscovery", VBool <$> ap_lanDiscovery p);
          ("tunnelMtu", VNum <$> ap_tunnelMtu p); ("autoUpdate", autoUpdate_value <$> ap_autoUpdate p);
          ("dns", dns_value <$> ap_dns p); ("relay", relay_value <$> ap_relay p);
          ("exitNodes", exitNodes_value <$> ap_exitNodes p); ("posture", posture_value <$> ap_posture p)].

(** [patch ?? current] *)
Definition or_else {A} (a b : option A) : option A := match a with Some _ => a | None => b end.

(** *** [agent-policy.ts] *)
Definition merge_dns (current : option DnsPolicy) (patch : DnsPolicy) : DnsPolicy :=
  mkDnsPolicy (or_else (dns_suffix patch) (c ← current; dns_suffix c)) (dns_upstream patch)
    (or_else (dns_dnssec patch) (c ← current; dns_dnssec c)).

(** The other groups of properties have no optional ones, so the patch replaces
    them. *)
Definition mergeAgentPolicy (current patch : RemoteAgentPolicy) : option RemoteAgentPolicy :=
  remoteAgentPolicySchema (Some (policy_value (mkAgentPolicy
    (or_else (ap_mdns patch) (ap_mdns current))
    (or_else (ap_lanDiscovery patch) (ap_lanDiscovery current))
    (or_else (ap_tunnelMtu patch) (ap_tunnelMtu current))
    (or_else (ap_autoUpdate patch) (ap_autoUpdate current))
    (match ap_dns patch with Some p => Some (merge_dns (ap_dns current) p) | None => ap_dns current end)
    (or_else (ap_relay patch) (ap_relay current))
    (or_else (ap_exitNodes patch) (ap_exitNodes current))
    (or_else (ap_posture patch) (ap_posture current))))).

(** *** Settings of a network *)
Definition NetworkSettings := RemoteAgentPolicy.

Definition networkSettingsSchema : zod NetworkSettings :=
  z_object (fun o => z_default empty_policy remoteAgentPolicySchema (o "agentPolicy")).
Definition networkSettings_value (s : NetworkSettings) : jsv := object [("agentPolicy", Some (policy_value s))].

(** [typeof v === "object" && !Array.isArray(v)] of a truthy [v] *)
Definition properties (v : option jsv) : list (string * jsv) :=
  match v with Some (VObj l) => l | _ => [] end.

Definition normalizeNetworkSettings (raw : option jsv) : NetworkSettings :=
  match networkSettingsSchema raw with
  | Some s => s
  | None =>
      let agentPolicy := VObj (properties (map_get (properties raw) "agentPolicy")) in
      default empty_policy (networkSettingsSchema (Some (object [("agentPolicy", Some agentPolicy)])))
  end.

Definition mergeNetworkSettings (current : NetworkSettings) (agentPolicy : option RemoteAgentPolicy)
    : option NetworkSettings :=
  match agentPolicy with
  | None => Some current
  | Some p => remoteAgentPolicySchema (Some (policy_value p))
  end.

(** [a?.length > 0 ? a : b] *)
Definition nonempty_or {A} (a b : list A) : list A := match a with [] => b | _ => a end.

Definition inherit_dns (org network : option DnsPolicy) : option DnsPolicy :=
  match network, org with
  | None, None => None
  | _, _ =>
      Some (mkDnsPolicy (or_else (network ≫= dns_suffix) (org ≫= dns_suffix))
              (nonempty_or (from_option dns_upstream [] network) (from_option dns_upstream [] org))
              (or_else (network ≫= dns_dnssec) (org ≫= dns_dnssec)))
  end.

Definition inherit_posture (org network : option PosturePolicy) : option PosturePolicy :=
  match network, org with
  | None, None => None
  | _, _ =>
      Some (mkPosturePolicy
              (default 300 (or_else (pp_intervalSecs <$> network) (pp_intervalSecs <$> org)))
              (nonempty_or (from_option pp_enabledCollectors [] network) (from_option pp_enabledCollectors [] org))
              (nonempty_or (from_option pp_customScripts [] network) (from_option pp_customScripts [] org)))
  end.

Definition inherited (org network : RemoteAgentPolicy) : RemoteAgentPolicy :=
  mkAgentPolicy
    (or_else (ap_mdns network) (ap_mdns org))
    (or_else (ap_lanDiscovery network) (ap_lanDiscovery org))
    (or_else (ap_tunnelMtu network) (ap_tunnelMtu org))
    (or_else (ap_autoUpdate network) (ap_autoUpdate org))
    (inherit_dns (ap_dns org) (ap_dns network))
    (or_else (ap_relay network) (ap_relay org))
    (or_else (ap_exitNodes network) (ap_exitNodes org))
    (inherit_posture (ap_posture org) (ap_posture network)).

Definition inheritRemoteAgentPolicy (org network : RemoteAgentPolicy) : option RemoteAgentPolicy :=
  remoteAgentPolicySchema (Some (policy_value (inherited org network))).

(** ** Settings of an organization *)
Inductive AutoCleanupMode := mode_hard | mode_soft | mode_soft_then_hard.
#[export] Instance AutoCleanupMode_eq_dec : EqDecision AutoCleanupMode.
Proof. solve_decision. Defined.

Record AutoCleanup := mkAutoCleanup {
  ac_enabled : bool; ac_inactivityAfter : option string;
  ac_mode : AutoCleanupMode; ac_hardDeleteAfter : option string }.
Record OrganizationSettings := mkOrgSettings { os_autoCleanup : AutoCleanup; os_agentPolicy : RemoteAgentPolicy }.

Definition mode_text (m : AutoCleanupMode) : string :=
  match m with mode_hard => "hard" | mode_soft => "soft" | mode_soft_then_hard => "soft_then_hard" end.
Definition autoCleanupModeSchema : zod AutoCleanupMode :=
  z_enum [("hard", mode_hard); ("soft", mode_soft); ("soft_then_hard", mode_soft_then_hard)].

Definition nullable_text (s : option string) : jsv := match s with Some t => VStr t | None => VNull end.
Definition autoCleanup_value (a : AutoCleanup) : jsv :=
  object [("enabled", Some (VBool (ac_enabled a)));
          ("inactivityAfter", Some (nullable_text (ac_inactivityAfter a)));
          ("mode", Some (VStr (mode_text (ac_mode a))));
          ("hardDeleteAfter", Some (nullable_text (ac_hardDeleteAfter a)))].
Definition settings_value (s : OrganizationSettings) : jsv :=
  object [("machines", Some (object [("autoCleanup", Some (autoCleanup_value (os_autoCleanup s)))]));
          ("agentPolicy", Some (policy_value (os_agentPolicy s)))].

Definition DEFAULT_AUTO_CLEANUP : AutoCleanup := mkAutoCleanup false None mode_soft None.
Definition DEFAULT_ORGANIZATION_SETTINGS : OrganizationSettings := mkOrgSettings DEFAULT_AUTO_CLEANUP empty_policy.

(** A patch, as its schema leaves it. *)
Record AutoCleanupPatch := mkCleanupPatch {
  pc_enabled : option bool; pc_inactivityAfter : option (option string);
  pc_mode : option AutoCleanupMode; pc_hardDeleteAfter : option (option string) }.
Record PatchSettings := mkPatchSettings {
  ps_autoCleanup : option AutoCleanupPatch; ps_agentPolicy : option RemoteAgentPolicy }.

(** [organization.settings] and [organization.snapshotVersion] *)
Record SettingsDb := mkSettingsDb {
  sd_settings : list (string * jsv); sd_versions : list (string * Z); sd_notifications : list (string * string) }.
Definition SettingsTx := Tx SettingsDb string.

Definition bump_settings (org : string) (db : SettingsDb) : SettingsDb :=
  let '(versions, sent) := bumpOrgAndNotify org (sd_versions db, sd_notifications db) in
  mkSettingsDb (sd_settings db) versions sent.
(** [UPDATE organization SET settings = … WHERE id = …] *)
Definition set_settings (org : string) (v : jsv) (db : SettingsDb) : SettingsDb :=
  mkSettingsDb (map (fun kv => if (kv.1 =? org)%string then (kv.1, v) else kv) (sd_settings db))
    (sd_versions db) (sd_notifications db).

Section Organization.
Context (parse : string -> option (option Q)).

Definition durationStringSchema : zod string :=
  z_refine (fun s => match parseHumanDuration parse s with Some _ => true | None => false end) (z_trimmed 1 100).

Definition autoCleanupFieldsSchema : zod AutoCleanup :=
  z_object (fun o =>
    enabled ← z_boolean (o "enabled");
    inactivity ← z_nullable durationStringSchema (o "inactivityAfter");
    mode ← autoCleanupModeSchema (o "mode");
    hard ← z_nullable durationStringSchema (o "hardDeleteAfter");
    Some (mkAutoCleanup enabled inactivity mode hard)).

Definition autoCleanup_issues (a : AutoCleanup) : list string :=
  (if ac_enabled a && match ac_inactivityAfter a with None => true | Some _ => false end
   then ["inactivityAfter is required when auto-cleanup is enabled"] else [])
  ++ (if bool_decide (ac_mode a = mode_soft_then_hard) && ac_enabled a
         && match ac_hardDeleteAfter a with None => true | Some _ => false end
      then ["hardDeleteAfter is required for soft_then_hard mode"] else []).
Definition autoCleanupSettingsSchema : zod AutoCleanup :=
  z_refine (fun a => match autoCleanup_issues a with [] => true | _ => false end) autoCleanupFieldsSchema.

Definition organizationSettingsSchema : zod OrganizationSettings :=
  z_object (fun o =>
    cleanup ← z_object (fun m => autoCleanupSettingsSchema (m "autoCleanup")) (o "machines");
    policy ← z_default empty_policy remoteAgentPolicySchema (o "agentPolicy");
    Some (mkOrgSettings cleanup policy)).

Definition patchOrganizationSettingsBody : zod PatchSettings :=
  z_refine (fun p => match ps_autoCleanup p, ps_agentPolicy p with None, None => false | _, _ => true end)
    (z_object (fun o =>
       machines ← z_optional (z_object (fun m =>
         z_optional (z_object (fun a =>
           enabled ← z_optional z_boolean (a "enabled");
           inactivity ← z_optional (z_nullable durationStringSchema) (a "inactivityAfter");
           mode ← z_optional autoCleanupModeSchema (a "mode");
           hard ← z_optional (z_nullable durationStringSchema) (a "hardDeleteAfter");
           Some (mkCleanupPatch enabled inactivity mode hard))) (m "autoCleanup"))) (o "machines");
       policy ← z_optional remoteAgentPolicySchema (o "agentPolicy");
       Some (mkPatchSettings (mjoin machines) policy))).

(** [{ ...a, ...b }] *)
Definition spread (a b : list (string * jsv)) : list (string * jsv) :=
  foldl (fun m kv => map_set m kv.1 kv.2) a b.

Definition normalizeOrganizationSettings (raw : option jsv) : OrganizationSettings :=
  match organizationSettingsSchema raw with
  | Some s => s
  | None =>
      let partial := properties raw in
      let machines := properties (map_get partial "machines") in
      let autoCleanup := properties (map_get machines "autoCleanup") in
      let agentPolicy := VObj (properties (map_get partial "agentPolicy")) in
      let merged := spread (properties (Some (autoCleanup_value DEFAULT_AUTO_CLEANUP))) autoCleanup in
      default DEFAULT_ORGANIZATION_SETTINGS
        (organizationSettingsSchema
           (Some (object [("machines", Some (object [("autoCleanup", Some (VObj merged))]));
                          ("agentPolicy", Some agentPolicy)])))
  end.

Definition toStoredDuration (raw : option string) : option string :=
  match raw with
  | None => None
  | Some r => match parseHumanDuration parse r with
              | None => Some r
              | Some secs => Some (secondsToPgInterval secs)
              end
  end.

Definition patched_cleanup (current : AutoCleanup) (patch : AutoCleanupPatch) : AutoCleanup :=
  mkAutoCleanup (default (ac_enabled current) (pc_enabled patch))
    (match pc_inactivityAfter patch with Some r => toStoredDuration r | None => ac_inactivityAfter current end)
    (default (ac_mode current) (pc_mode patch))
    (match pc_hardDeleteAfter patch with Some r => toStoredDuration r | None => ac_hardDeleteAfter current end).

(** [error.issues[0].message]; issues of the fields come first. *)
Definition cleanup_message (a : AutoCleanup) : string :=
  match autoCleanupFieldsSchema (Some (autoCleanup_value a)) with
  | None => "Invalid duration (use e.g. 50s, 30m, 12h, 3d, 1w)"
  | Some a' => default "Invalid settings" (head (autoCleanup_issues a'))
  end.

Definition mergeSettings (current : OrganizationSettings) (patch : PatchSettings)
    : result string OrganizationSettings :=
  cleanup ← (match ps_autoCleanup patch with
             | None => Ok (os_autoCleanup current)
             | Some ac =>
                 let next := patched_cleanup (os_autoCleanup current) ac in
                 match autoCleanupSettingsSchema (Some (autoCleanup_value next)) with
                 | Some a => Ok a
                 | None => Err (cleanup_message next)
                 end
             end);
  policy ← (match ps_agentPolicy patch with
            | None => Ok (os_agentPolicy current)
            | Some p => match mergeAgentPolicy (os_agentPolicy current) p with
                        | Some q => Ok q
                        | None => Err "Invalid settings"
                        end
            end);
  Ok (mkOrgSettings cleanup policy).

(** [org?.settings ?? DEFAULT_ORGANIZATION_SETTINGS] *)
Definition stored_settings (org : string) (db : SettingsDb) : option jsv :=
  match map_get (sd_settings db) org with
  | None | Some VNull => Some (settings_value DEFAULT_ORGANIZATION_SETTINGS)
  | v => v
  end.

Definition getSettingsRoute (org : string) : SettingsTx OrganizationSettings :=
  raw ← query (stored_settings org);
  mret (normalizeOrganizationSettings raw).

(** [Err] is the message of the bad request. *)
Definition patchSettingsRoute (org user : string) (body : jsv)
    : SettingsTx (result string OrganizationSettings) :=
  parsed ← or_throw (patchOrganizationSettingsBody (Some body)) "ZodError";
  raw ← query (stored_settings org);
  match mergeSettings (normalizeOrganizationSettings raw) parsed with
  | Err message => mret (Err message)
  | Ok settings =>
      _ ← transaction (
        _ ← update (set_settings org (settings_value settings));
        match ps_agentPolicy parsed with Some _ => update (bump_settings org) | None => mret tt end);
      _ ← writeAudit (mkAuditInput org user "organization.settings.update" (Some org) [] None);
      mret (Ok settings)
  end.

(** The policy that a device of the organization is given
    ([devices.ts], [GET /devices/:endpointId/config]); [None]: it throws. *)
Definition remotePolicy (organization network : option jsv) : option RemoteAgentPolicy :=
  inheritRemoteAgentPolicy (os_agentPolicy (normalizeOrganizationSettings organization))
    (normalizeNetworkSettings network).
End Organization.

(** ** Reading back what was stored *)
(** [x] is read back when it is stored as [f x]. *)
Definition reads {A} (s : zod A) (f : A -> jsv) (x : A) : Prop := s (Some (f x)) = Some x.
(** What a schema answers is read back. *)
Definition stable {A} (s : zod A) (f : A -> jsv) : Prop := forall v x, s v = Some x -> reads s f x.

Definition all_given {A} (P : A -> Prop) (o : option A) : Prop := forall x, o = Some x -> P x.

Lemma object_get l k : NoDup l.*1 -> map_get (properties (Some (object l))) k = mjoin (map_get l k).
Proof.
  induction l as [|[k' [v|]] l IH]; [done|cbn..]; intros [Hk Hl]%list.NoDup_cons.
  - destruct (decide (k' = k)); [done|]. by apply IH.
  - destruct (decide (k' = k)) as [<-|]; [|by apply IH]. cbn. cbn in IH. rewrite IH by done.
    by rewrite (proj2 (map_get_None l k')).
Qed.

Lemma z_object_reads {A} (body : (string -> option jsv) -> option A) l :
  NoDup l.*1 -> (forall o o', (forall k, o k = o' k) -> body o = body o') ->
  z_object body (Some (object l)) = body (fun k => mjoin (map_get l k)).
Proof. intros Hl Hb. cbn. apply Hb. intros k. by apply object_get. Qed.

Lemma stable_boolean : stable z_boolean VBool.
Proof. done. Qed.

Lemma stable_int lo hi : stable (z_int lo hi) VNum.
Proof.
  intros [[| |z| | | |]|] x; cbn; try done. destruct (_ && _) eqn:E; [|done]. intros [= <-].
  unfold reads. cbn. by rewrite E.
Qed.

Lemma stable_trimmed lo hi : stable (z_trimmed lo hi) VStr.
Proof.
  intros [[| | | |s| |]|] x; cbn; try done. destruct (_ && _) eqn:E; [|done]. intros [= <-].
  unfold reads. cbn. by rewrite trim_trimmed, E.
Qed.

Lemma stable_array {A} (item : zod A) f max : stable item f -> stable (z_array item max) (fun l => VArr (f <$> l)).
Proof.
  intros Hi [[| | | | |l|]|] x H; cbn in H; try done. apply bind_Some in H as (l' & Hl & E).
  destruct (match max with Some n => _ | None => _ end) eqn:Em in E; [|done]. injection E as <-.
  unfold reads. cbn. apply bind_Some. exists l'. rewrite Em. split; [|done].
  apply mapM_Some. apply mapM_Some in Hl. clear Em.
  induction Hl as [|v y vs ys Hv _ IH]; cbn; [constructor|constructor; [by eapply Hi|done]].
Qed.

Lemma optional_reads {A} (s : zod A) f o : all_given (reads s f) o -> z_optional s (f <$> o) = Some o.
Proof. intros H. destruct o as [x|]; cbn; [|done]. by rewrite H. Qed.

Lemma optional_given {A} (s : zod A) f v o : stable s f -> z_optional s v = Some o -> all_given (reads s f) o.
Proof.
  intros Hs. destruct v as [v|]; cbn; [|intros [= <-]; done].
  intros (y & Hy & ->)%fmap_Some x [= <-]. by eapply Hs.
Qed.

Lemma default_given {A} (s : zod A) f d v x : stable s f -> reads s f d -> z_default d s v = Some x -> reads s f x.
Proof. intros Hs Hd. destruct v; cbn; [apply Hs|by intros [= <-]]. Qed.

Lemma default_reads {A} (s : zod A) f d x : reads s f x -> z_default d s (Some (f x)) = Some x.
Proof. done. Qed.

Lemma given_or {A} (P : A -> Prop) a b : all_given P a -> all_given P b -> all_given P (or_else a b).
Proof. intros Ha Hb. destruct a; [exact Ha|exact Hb]. Qed.

Lemma given_bind {A B} (P : B -> Prop) (f : A -> option B) (o : option A) :
  all_given (fun a => all_given P (f a)) o -> all_given P (o ≫= f).
Proof. intros H x (a & Ha & Hx)%bind_Some. by eapply H. Qed.

(** Steps through the fields of an object schema, and looks keys up. *)
Ltac fields H := repeat (let x := fresh "x" in let E := fresh "E" in apply bind_Some in H as (x & E & H)).
Ltac keys :=
  repeat match goal with
  | |- context [decide (?a = ?b)] =>
      first [rewrite (decide_True (P := a = b)) by reflexivity | rewrite (decide_False (P := a = b)) by discriminate]
  end.
(** Reads an object back that was stored with all its fields. *)
Ltac read_fields schema value :=
  unfold reads, schema, value, object;
  cbn -[z_trimmed z_int z_boolean z_array z_enum z_optional z_default z_nullable decide]; keys.

Lemma stable_script : stable remoteCustomScriptSchema script_value.
Proof.
  intros [[| | | | | |l]|] x H; cbn -[z_trimmed z_int] in H; try done. fields H. injection H as <-.
  apply stable_trimmed in E, E0. apply stable_int in E1.
  read_fields remoteCustomScriptSchema script_value. by rewrite E; cbn; rewrite E0; cbn; rewrite E1.
Qed.

Lemma stable_autoUpdate : stable remoteAutoUpdatePolicySchema autoUpdate_value.
Proof.
  intros [[| | | | | |l]|] x H; cbn -[z_boolean z_default z_int] in H; try done. fields H. injection H as <-.
  apply stable_boolean in E. apply (default_given _ VNum) in E0; [|apply stable_int|done].
  read_fields remoteAutoUpdatePolicySchema autoUpdate_value. rewrite E. cbn -[z_default z_int].
  by rewrite (default_reads _ VNum).
Qed.

Lemma stable_relay : stable remoteRelayPolicySchema relay_value.
Proof. intros v [] _; by vm_compute. Qed.

Lemma stable_exitNodes : stable remoteExitNodesPolicySchema exitNodes_value.
Proof. intros v [[] []] _; by vm_compute. Qed.

(** The parts of a policy can be read back one by one. *)
Definition dns_ok (d : DnsPolicy) : Prop :=
  all_given (reads (z_trimmed 1 63) VStr) (dns_suffix d)
  /\ reads (z_array (z_trimmed 1 256) (Some 8%nat)) (fun l => VArr (VStr <$> l)) (dns_upstream d).
Definition posture_ok (p : PosturePolicy) : Prop :=
  reads (z_int 30 86400) VNum (pp_intervalSecs p)
  /\ reads (z_array (z_trimmed 1 64) None) (fun l => VArr (VStr <$> l)) (pp_enabledCollectors p)
  /\ reads (z_array remoteCustomScriptSchema None) (fun l => VArr (script_value <$> l)) (pp_customScripts p).
Record policy_ok (p : RemoteAgentPolicy) : Prop := mkPolicyOk {
  ok_mtu : all_given (reads (z_int 576 9000) VNum) (ap_tunnelMtu p);
  ok_autoUpdate : all_given (reads remoteAutoUpdatePolicySchema autoUpdate_value) (ap_autoUpdate p);
  ok_dns : all_given dns_ok (ap_dns p);
  ok_posture : all_given posture_ok (ap_posture p)
}.

Lemma dns_schema_ok v d : remoteDnsPolicySchema v = Some d -> dns_ok d.
Proof.
  destruct v as [[| | | | | |l]|]; intros H;
    cbn -[z_optional z_default z_array z_trimmed z_boolean] in H; try done.
  fields H. injection H as <-. split; cbn [dns_suffix dns_upstream].
  - eapply optional_given; [apply stable_trimmed|done].
  - eapply default_given; [apply stable_array, stable_trimmed| |exact E0]. done.
Qed.

Lemma dns_ok_reads d : dns_ok d -> reads remoteDnsPolicySchema dns_value d.
Proof.
  intros [Hs Hu]. unfold reads, remoteDnsPolicySchema, dns_value.
  rewrite z_object_reads; [|by apply (bool_decide_unpack _); vm_compute|intros o o' Ho; by rewrite !Ho].
  cbn -[z_optional z_default z_array z_trimmed z_boolean decide]. keys. cbn [mjoin option_join].
  rewrite (optional_reads _ VStr) by done. cbn -[z_optional z_default z_array z_trimmed z_boolean].
  rewrite (default_reads _ (fun l => VArr (VStr <$> l))) by done. cbn -[z_optional z_boolean].
  rewrite (optional_reads _ VBool) by done. by destruct d.
Qed.

Lemma posture_schema_ok v p : remotePostureCollectorPolicySchema v = Some p -> posture_ok p.
Proof.
  destruct v as [[| | | | | |l]|]; intros H; cbn -[z_default z_array z_trimmed z_int] in H; try done.
  fields H. injection H as <-. unfold posture_ok. cbn [pp_intervalSecs pp_enabledCollectors pp_customScripts].
  split_and!.
  - eapply default_given; [apply stable_int| |exact E]. done.
  - eapply default_given; [apply stable_array, stable_trimmed| |exact E0]. done.
  - eapply default_given; [apply stable_array, stable_script| |exact E1]. done.
Qed.

Lemma posture_ok_reads p : posture_ok p -> reads remotePostureCollectorPolicySchema posture_value p.
Proof.
  intros (Hi & Hc & Hs). read_fields remotePostureCollectorPolicySchema posture_value.
  rewrite (default_reads _ VNum) by done. cbn -[z_default z_array z_trimmed].
  rewrite (default_reads _ (fun l => VArr (VStr <$> l))) by done. cbn -[z_default z_array].
  rewrite (default_reads _ (fun l => VArr (script_value <$> l))) by done. by destruct p.
Qed.

Lemma policy_schema_ok v p : remoteAgentPolicySchema v = Some p -> policy_ok p.
Proof.
  destruct v as [[| | | | | |l]|]; intros H; cbn -[z_optional] in H; try done. fields H. injection H as <-.
  constructor; cbn.
  - eapply optional_given; [apply stable_int|done].
  - eapply optional_given; [apply stable_autoUpdate|done].
  - intros d Hd. destruct (map_get l "dns") as [v|]; cbn [z_optional] in E3; [|congruence].
    apply fmap_Some in E3 as (d' & Hd' & ->). injection Hd as <-. by eapply dns_schema_ok.
  - intros d Hd. destruct (map_get l "posture") as [v|]; cbn [z_optional] in E6; [|congruence].
    apply fmap_Some in E6 as (d' & Hd' & ->). injection Hd as <-. by eapply posture_schema_ok.
Qed.

Lemma policy_ok_reads p : policy_ok p -> reads remoteAgentPolicySchema policy_value p.
Proof.
  intros Hok. unfold reads, remoteAgentPolicySchema, policy_value.
  rewrite z_object_reads; [|by apply (bool_decide_unpack _); vm_compute|intros o o' Ho; by rewrite !Ho].
  cbn -[z_optional decide]. keys. cbn [mjoin option_join].
  repeat (erewrite optional_reads; [cbn -[z_optional]|]); [by destruct p|..].
  - done.
  - done.
  - by apply ok_mtu.
  - by apply ok_autoUpdate.
  - intros x Hx. apply dns_ok_reads. by eapply ok_dns.
  - intros [] _; by vm_compute.
  - intros [[] []] _; by vm_compute.
  - intros x Hx. apply posture_ok_reads. by eapply ok_posture.
Qed.

Lemma empty_policy_ok : policy_ok empty_policy.
Proof. by constructor. Qed.

Lemma default_policy_ok v p : z_default empty_policy remoteAgentPolicySchema v = Some p -> policy_ok p.
Proof. destruct v; cbn [z_default]; [apply policy_schema_ok|intros [= <-]; apply empty_policy_ok]. Qed.

Lemma networkSettings_ok raw : policy_ok (normalizeNetworkSettings raw).
Proof.
  assert (forall v p, networkSettingsSchema v = Some p -> policy_ok p) as Hs.
  { intros [[| | | | | |l]|] p H; try done. by eapply default_policy_ok. }
  unfold normalizeNetworkSettings. destruct (networkSettingsSchema raw) eqn:E; [by eapply Hs|].
  destruct (networkSettingsSchema (Some _)) eqn:E'; [by eapply Hs|apply empty_policy_ok].
Qed.

Lemma inherited_ok org network : policy_ok org -> policy_ok network -> policy_ok (inherited org network).
Proof.
  intros Ho Hn. constructor; cbn.
  - apply given_or; [apply Hn|apply Ho].
  - apply given_or; [apply Hn|apply Ho].
  - intros d Hd. pose proof (ok_dns _ Ho) as Hod. pose proof (ok_dns _ Hn) as Hnd.
    assert (dns_ok d) as ?; [|done]. unfold inherit_dns in Hd.
    destruct (ap_dns network) as [x|], (ap_dns org) as [y|]; try done; injection Hd as <-;
      split; cbn [dns_suffix dns_upstream from_option mbind option_bind or_else].
    + apply given_or; [by apply Hnd|by apply Hod].
    + destruct (dns_upstream x) eqn:E; [by apply Hod|]. cbn. rewrite <- E. by apply Hnd.
    + apply given_or; [by apply Hnd|done].
    + destruct (dns_upstream x) eqn:E; [done|]. cbn. rewrite <- E. by apply Hnd.
    + by apply Hod.
    + by apply Hod.
  - intros p Hp. pose proof (ok_posture _ Ho) as Hod. pose proof (ok_posture _ Hn) as Hnd.
    unfold inherit_posture in Hp.
    destruct (ap_posture network) as [x|], (ap_posture org) as [y|]; try done; injection Hp as <-;
      unfold posture_ok; cbn [pp_intervalSecs pp_enabledCollectors pp_customScripts from_option fmap option_fmap
        option_map or_else default].
    + destruct (Hnd x eq_refl) as (Hi & Hc & Hs), (Hod y eq_refl) as (_ & Hc' & Hs'). split_and!; [done|..].
      * destruct (pp_enabledCollectors x) eqn:E; [done|]. cbn. by rewrite <- E in *.
      * destruct (pp_customScripts x) eqn:E; [done|]. cbn. by rewrite <- E in *.
    + destruct (Hnd x eq_refl) as (Hi & Hc & Hs). split_and!; [done|..].
      * destruct (pp_enabledCollectors x) eqn:E; [done|]. cbn. by rewrite <- E in *.
      * destruct (pp_customScripts x) eqn:E; [done|]. cbn. by rewrite <- E in *.
    + by apply Hod.
Qed.

Section Stored.
Context (parse : string -> option (option Q)).

Lemma stable_duration : stable (durationStringSchema parse) VStr.
Proof.
  intros v x (s & Hs & H)%bind_Some. destruct (match _ with Some _ => _ | None => _ end) eqn:E; [|done].
  injection H as <-. apply stable_trimmed in Hs. unfold reads, durationStringSchema, z_refine. rewrite Hs. cbn.
  by rewrite E.
Qed.

Lemma stable_nullable_duration : stable (z_nullable (durationStringSchema parse)) nullable_text.
Proof.
  intros v x H. assert (forall v, Some <$> durationStringSchema parse v = Some x ->
    reads (z_nullable (durationStringSchema parse)) nullable_text x) as Hd.
  { intros u (d & Hd%stable_duration & ->)%fmap_Some. unfold reads. cbn [nullable_text z_nullable].
    unfold reads in Hd. by rewrite Hd. }
  destruct v as [[]|]; cbn [z_nullable] in H; try by eapply Hd. by injection H as <-.
Qed.

Lemma stable_cleanup_fields : stable (autoCleanupFieldsSchema parse) autoCleanup_value.
Proof.
  intros [[| | | | | |l]|] x H; cbn -[z_nullable durationStringSchema] in H; try done.
  fields H. injection H as <-. apply stable_nullable_duration in E0, E2.
  read_fields autoCleanupFieldsSchema autoCleanup_value. cbn [z_boolean mbind option_bind].
  unfold reads in E0, E2. rewrite E0. cbn -[z_nullable durationStringSchema].
  destruct x2; cbn -[z_nullable durationStringSchema]; by rewrite E2.
Qed.

Lemma stable_cleanup : stable (autoCleanupSettingsSchema parse) autoCleanup_value.
Proof.
  intros v x (a & Ha & H)%bind_Some. destruct (match _ with [] => _ | _ => _ end) eqn:E; [|done].
  injection H as <-. apply stable_cleanup_fields in Ha. unfold reads, autoCleanupSettingsSchema, z_refine.
  rewrite Ha. cbn. by rewrite E.
Qed.

Record settings_ok (s : OrganizationSettings) : Prop := mkSettingsOk {
  ok_cleanup : reads (autoCleanupSettingsSchema parse) autoCleanup_value (os_autoCleanup s);
  ok_policy : policy_ok (os_agentPolicy s) }.

Lemma settings_ok_reads s : settings_ok s -> reads (organizationSettingsSchema parse) settings_value s.
Proof.
  intros [Hc Hp%policy_ok_reads]. unfold reads, organizationSettingsSchema, settings_value, object.
  cbn -[autoCleanupSettingsSchema z_default remoteAgentPolicySchema decide policy_value autoCleanup_value]. keys.
  cbn -[autoCleanupSettingsSchema z_default remoteAgentPolicySchema decide policy_value autoCleanup_value]. keys.
  unfold reads in Hc. rewrite Hc. cbn -[z_default remoteAgentPolicySchema policy_value].
  rewrite (default_reads _ policy_value) by done. by destruct s.
Qed.

Lemma settings_schema_ok v s : organizationSettingsSchema parse v = Some s -> settings_ok s.
Proof.
  destruct v as [[| | | | | |l]|]; intros H; try done.
  cbn -[z_object autoCleanupSettingsSchema z_default remoteAgentPolicySchema] in H. fields H. injection H as <-.
  constructor; cbn.
  - destruct (map_get l "machines") as [[]|]; try done. cbn -[autoCleanupSettingsSchema] in E.
    by eapply stable_cleanup.
  - by eapply default_policy_ok.
Qed.

Lemma normalized_ok raw : settings_ok (normalizeOrganizationSettings parse raw).
Proof.
  unfold normalizeOrganizationSettings. destruct (organizationSettingsSchema parse raw) eqn:E;
    [by eapply settings_schema_ok|].
  destruct (organizationSettingsSchema parse (Some _)) eqn:E'; [by eapply settings_schema_ok|].
  constructor; [by vm_compute|apply empty_policy_ok].
Qed.

Lemma mergeSettings_ok current patch s :
  settings_ok current -> mergeSettings parse current patch = Ok s -> settings_ok s.
Proof.
  intros [Hc Hp] H. unfold mergeSettings in H. inv_ok.
  constructor; cbn.
  - destruct (ps_autoCleanup patch); [|by simplify_eq].
    destruct (autoCleanupSettingsSchema parse _) eqn:E; [|done]. simplify_eq. by eapply stable_cleanup.
  - destruct (ps_agentPolicy patch); [|by simplify_eq].
    destruct (mergeAgentPolicy _ _) eqn:E; [|done]. simplify_eq. unfold mergeAgentPolicy in E.
    by eapply policy_schema_ok.
Qed.
End Stored.

Lemma cleanup_complete parse a :
  reads (autoCleanupSettingsSchema parse) autoCleanup_value a -> ac_enabled a = true ->
  ac_inactivityAfter a <> None /\ (ac_mode a = mode_soft_then_hard -> ac_hardDeleteAfter a <> None).
Proof.
  intros (a' & _ & H)%bind_Some He. destruct (autoCleanup_issues a') eqn:E; [|done]. injection H as ->.
  unfold autoCleanup_issues in E. rewrite He in E. apply app_eq_nil in E as [E1 E2].
  split; [by destruct (ac_inactivityAfter a)|]. intros Hm. rewrite Hm, bool_decide_eq_true_2 in E2 by done.
  by destruct (ac_hardDeleteAfter a).
Qed.

Lemma set_settings_get org v db org' :
  map_get (sd_settings (set_settings org v db)) org'
  = if decide (org' = org) then (if decide (org ∈ (sd_settings db).*1) then Some v else None)
    else map_get (sd_settings db) org'.
Proof.
  cbn. induction (sd_settings db) as [|[o x] l IH]; cbn; [by destruct (decide _)|].
  destruct (String.eqb_spec o org) as [->|Ho]; cbn.
  - destruct (decide (org = org')) as [<-|].
    + rewrite decide_True by done. by rewrite decide_True by set_solver.
    + rewrite IH, decide_False by done. by rewrite decide_False by done.
  - destruct (decide (o = org')) as [<-|].
    + by rewrite decide_False by done.
    + rewrite IH. destruct (decide (org' = org)) as [->|]; [|done].
      destruct (decide (org ∈ l.*1)); [by rewrite decide_True by set_solver|by rewrite decide_False by set_solver].
Qed.

Definition saved (org : string) (patch : PatchSettings) (settings : OrganizationSettings) (db : SettingsDb) :=
  let db' := set_settings org (settings_value settings) db in
  match ps_agentPolicy patch with Some _ => bump_settings org db' | None => db' end.

Lemma patchSettingsRoute_Ok parse org user body (s s' : state SettingsDb) settings :
  patchSettingsRoute parse org user body s = (s', Ok (Ok settings)) ->
  exists patch, patchOrganizationSettingsBody parse (Some body) = Some patch
    /\ mergeSettings parse (normalizeOrganizationSettings parse (stored_settings org s.1)) patch = Ok settings
    /\ s'.1 = saved org patch settings s.1.
Proof.
  unfold patchSettingsRoute, saved. intros H. tx_inv. rename H1 into Hp. exists x0. split; [done|].
  destruct (mergeSettings _ _ _) as [st|] eqn:E; tx_inv; [|done].
  unfold transaction, mbind, tx_mbind, tx_bind, update, mret, tx_mret, tx_ret in H.
  destruct (ps_agentPolicy x0); cbn in H; by simplify_eq.
Qed.

(** ** Properties *)

(** C36: What is changed is read back: after a change of an organization's settings
    that is accepted, reading them gives exactly the answer of the change, a
    cleanup that is enabled has its durations, the part that the request does
    not name is as before, and no other organization's settings or version
    change.  It holds for every text the column held before. *)
Theorem settings_roundtrip (parse : string -> option (option Q)) (org user : string) (body : jsv)
    (s s' : state SettingsDb) (settings : OrganizationSettings) :
  org ∈ (sd_settings s.1).*1 ->
  patchSettingsRoute parse org user body s = (s', Ok (Ok settings)) ->
  getSettingsRoute parse org s' = (s', Ok settings)
  /\ (ac_enabled (os_autoCleanup settings) = true ->
      ac_inactivityAfter (os_autoCleanup settings) <> None
      /\ (ac_mode (os_autoCleanup settings) = mode_soft_then_hard ->
          ac_hardDeleteAfter (os_autoCleanup settings) <> None))
  /\ (forall patch, patchOrganizationSettingsBody parse (Some body) = Some patch ->
      (ps_autoCleanup patch = None ->
       os_autoCleanup settings = os_autoCleanup (normalizeOrganizationSettings parse (stored_settings org s.1)))
      /\ (ps_agentPolicy patch = None ->
          os_agentPolicy settings = os_agentPolicy (normalizeOrganizationSettings parse (stored_settings org s.1))
          /\ sd_versions s'.1 = sd_versions s.1))
  /\ forall org', org' <> org ->
      map_get (sd_settings s'.1) org' = map_get (sd_settings s.1) org'
      /\ List.filter (fun v => (v.1 =? org')%string) (sd_versions s'.1)
         = List.filter (fun v => (v.1 =? org')%string) (sd_versions s.1).
Proof.
  intros Hin (patch & Hp & Hm & Hs)%patchSettingsRoute_Ok.
  pose proof (mergeSettings_ok parse _ _ _ (normalized_ok parse _) Hm) as Hok.
  assert (sd_settings s'.1 = sd_settings (set_settings org (settings_value settings) s.1)) as Hset
    by (rewrite Hs; unfold saved; by destruct (ps_agentPolicy patch)).
  split_and!.
  - unfold getSettingsRoute, mbind, tx_mbind, tx_bind, query.
    assert (stored_settings org s'.1 = Some (settings_value settings)) as ->.
    { unfold stored_settings. by rewrite Hset, set_settings_get, !decide_True by done. }
    unfold mret, tx_mret, tx_ret. f_equal. f_equal.
    unfold normalizeOrganizationSettings. pose proof (settings_ok_reads parse settings Hok) as Hr.
    unfold reads in Hr. by rewrite Hr.
  - apply (cleanup_complete parse), Hok.
  - intros patch' Hp'. rewrite Hp in Hp'. injection Hp' as <-. unfold mergeSettings in Hm. split.
    + intros E. rewrite E in Hm. cbn in Hm. inv_ok. done.
    + intros E. rewrite E in Hm. inv_ok. cbn. split; [done|]. rewrite Hs. unfold saved. by rewrite E.
  - intros org' Hne. rewrite Hset, set_settings_get, decide_False by done. split; [done|]. rewrite Hs. unfold saved.
    destruct (ps_agentPolicy patch); [|done]. cbn -[bumpOrgSnapshotVersion]. by rewrite bumpOrgSnapshotVersion_other.
Qed.

(** The policy of a device can always be computed, whatever the organization's
    and the network's columns hold; it is within the bounds of the schema, so it
    is read back by the agent's side of it, and what the network sets wins over
    what the organization sets. *)
Theorem remotePolicy_total (parse : string -> option (option Q)) (organization network : option jsv) :
  exists p, remotePolicy parse organization network = Some p
    /\ remoteAgentPolicySchema (Some (policy_value p)) = Some p
    /\ (forall mtu, ap_tunnelMtu p = Some mtu -> 576 <= mtu <= 9000)
    /\ (forall mtu, ap_tunnelMtu (normalizeNetworkSettings network) = Some mtu -> ap_tunnelMtu p = Some mtu)
    /\ (forall x, ap_exitNodes (normalizeNetworkSettings network) = Some x -> ap_exitNodes p = Some x)
    /\ (normalizeNetworkSettings network = empty_policy ->
        p = os_agentPolicy (normalizeOrganizationSettings parse organization)).
Proof.
  set (o := os_agentPolicy (normalizeOrganizationSettings parse organization)).
  set (n := normalizeNetworkSettings network).
  assert (policy_ok (inherited o n)) as Hok.
  { apply inherited_ok; [apply (ok_policy parse), normalized_ok|apply networkSettings_ok]. }
  exists (inherited o n). split_and!.
  - unfold remotePolicy, inheritRemoteAgentPolicy. by apply policy_ok_reads.
  - by apply policy_ok_reads.
  - intros mtu Hm. pose proof (ok_mtu _ Hok mtu Hm) as Hr. unfold reads in Hr. cbn in Hr.
    destruct (_ && _) eqn:E; [|done]. lia.
  - intros mtu Hm. cbn. by rewrite Hm.
  - intros x Hx. cbn. by rewrite Hx.
  - intros ->. unfold inherited. cbn. destruct o as [m l t a [[]|] r x [[]|]]; done.
Qed.

(** A change of the DNS suffix removes the upstream servers: the patch is read
    with the default of the absent property, which then replaces the servers. *)
Lemma dns_suffix_patch_clears_upstream :
  let current := mkAgentPolicy None None None None (Some (mkDnsPolicy None ["10.0.0.53"] None)) None None None in
  exists patch merged,
    remoteAgentPolicySchema (Some (VObj [("dns", VObj [("suffix", VStr "corp")])])) = Some patch
    /\ mergeAgentPolicy current patch = Some merged
    /\ ap_dns merged = Some (mkDnsPolicy (Some "corp") [] None).
Proof. do 2 eexists. split_and!; vm_compute; reflexivity. Qed.

(** ** A change of an organization's settings *)
Definition two_settings : SettingsDb := mkSettingsDb [("acme", VObj []); ("umbra", VNull)] [("acme", 1); ("umbra", 5)] [].
(** Durations are read as the number in front of them. *)
Definition seconds_parse (text : string) : option (option Q) := Some <$> (inject_Z <$> parseInt text).
Definition sample_patch : jsv :=
  VObj [("machines", VObj [("autoCleanup", VObj [("enabled", VBool true); ("inactivityAfter", VStr " 30s ")])]);
        ("agentPolicy", VObj [("tunnelMtu", VNum 1400)])].

Definition sample_settings : OrganizationSettings :=
  mkOrgSettings (mkAutoCleanup true (Some "30 seconds") mode_soft None)
    (mkAgentPolicy None None (Some 1400) None None None None None).
Definition sample_saved : state SettingsDb :=
  (patchSettingsRoute seconds_parse "acme" "bob" sample_patch (two_settings, [])).1.

Lemma settings_roundtrip_witness :
  getSettingsRoute seconds_parse "acme" sample_saved = (sample_saved, Ok sample_settings).
Proof.
  apply (settings_roundtrip seconds_parse "acme" "bob" sample_patch (two_settings, []) sample_saved sample_settings).
  - apply (bool_decide_unpack _). vm_compute. exact I.
  - vm_compute. reflexivity.
Defined.
