(* ===== verification/Devices.v ===== *)
(** * Devices and their network memberships
      ([apps/management/src/lib/remove-device-membership.ts],
      [lib/device-labels.ts], [lib/device.ts], [api/v1/devices.ts])

    Removing memberships one at a time and in bulk, approving, rejecting and
    suspending them, and changing devices and their labels.  The tables are
    lists of rows; deleting a device deletes its memberships and tags, as the
    foreign keys do.  [parse] of the parse-duration package is a parameter of the
    routes that read durations. *)
From Stdlib Require Import QArith.
From S2P Require Import Prelude AuditEvent Notify Tx TagOwnership Duration ApiKeys.
Local Open Scope Z_scope.

(** ** Tables *)
Record Device := mkDeviceRec {
  dv_endpointId : string;
  dv_organizationId : string;
  dv_name : string;
  dv_ipv6Enabled : bool;
  dv_ipv6EnabledAt : option Z;
  dv_labels : list (string * string);
  dv_inactivityTtl : option string;
  dv_expiredAt : option Z
}.

Inductive membership_status := ms_active | ms_suspended | ms_pending | ms_expired.
#[export] Instance membership_status_eq_dec : EqDecision membership_status.
Proof. solve_decision. Defined.

Record Membership := mkMembership {
  mb_endpointId : string; mb_networkId : string; mb_status : membership_status }.

Record DeviceDb := mkDeviceDb {
  dd_devices : list Device;
  dd_networks : list NetworkVersion;
  dd_memberships : list Membership;
  dd_deviceTags : list DeviceTagRow;
  dd_organizations : list (string * Z);
  dd_notifications : list (string * string)
}.

Definition with_devices (db : DeviceDb) (l : list Device) : DeviceDb :=
  mkDeviceDb l (dd_networks db) (dd_memberships db) (dd_deviceTags db) (dd_organizations db)
    (dd_notifications db).
Definition with_memberships (db : DeviceDb) (l : list Membership) : DeviceDb :=
  mkDeviceDb (dd_devices db) (dd_networks db) l (dd_deviceTags db) (dd_organizations db)
    (dd_notifications db).

Definition bump_org (organizationId : string) (db : DeviceDb) : DeviceDb :=
  let '(orgs, sent) := bumpOrgAndNotify organizationId (dd_organizations db, dd_notifications db) in
  mkDeviceDb (dd_devices db) (dd_networks db) (dd_memberships db) (dd_deviceTags db) orgs sent.
Definition bump_network (networkId organizationId : string) (db : DeviceDb) : DeviceDb :=
  let '(networks, sent) := bumpNetworkAndNotify networkId organizationId (dd_networks db, dd_notifications db) in
  mkDeviceDb (dd_devices db) networks (dd_memberships db) (dd_deviceTags db) (dd_organizations db) sent.

(** [DELETE FROM devices], with the cascades of the schema. *)
Definition delete_devices (p : string -> bool) (db : DeviceDb) : DeviceDb :=
  mkDeviceDb (List.filter (fun d => negb (p (dv_endpointId d))) (dd_devices db)) (dd_networks db)
    (List.filter (fun m => negb (p (mb_endpointId m))) (dd_memberships db))
    (List.filter (fun t => negb (p (dt_endpoint t))) (dd_deviceTags db))
    (dd_organizations db) (dd_notifications db).

(** ** Answers of the routes *)
Inductive reply (A : Type) :=
| Reply (a : A) | NotFound (message : string) | BadRequest (message : string) | ForbiddenReply
| ConflictReply (message : string).
Arguments Reply {A}. Arguments NotFound {A}. Arguments BadRequest {A}. Arguments ForbiddenReply {A}.
Arguments ConflictReply {A}.

(** ** Queries *)
Definition device_in_org (endpointId organizationId : string) (db : DeviceDb) : option Device :=
  List.find (fun d => (dv_endpointId d =? endpointId)%string
                      && (dv_organizationId d =? organizationId)%string) (dd_devices db).
Definition find_device (endpointId : string) (db : DeviceDb) : option Device :=
  List.find (fun d => (dv_endpointId d =? endpointId)%string) (dd_devices db).
Definition getNetworkInOrg (networkId organizationId : string) (db : DeviceDb) : option NetworkVersion :=
  List.find (fun n => (nv_id n =? networkId)%string && (nv_org n =? organizationId)%string)
    (dd_networks db).
Definition is_membership (endpointId networkId : string) (m : Membership) : bool :=
  (mb_endpointId m =? endpointId)%string && (mb_networkId m =? networkId)%string.
Definition find_membership (endpointId networkId : string) (db : DeviceDb) : option Membership :=
  List.find (is_membership endpointId networkId) (dd_memberships db).

(** ** Removing memberships ([remove-device-membership.ts]) *)
Definition DeviceTx := Tx DeviceDb string.

Definition removeDeviceMembership (organizationId actor networkId endpointId : string)
    (auditAction : option string) : DeviceTx unit :=
  device ← query (device_in_org endpointId organizationId);
  _ ← or_throw device "Device not found";
  network ← query (getNetworkInOrg networkId organizationId);
  _ ← or_throw network "Network not found";
  removed ← query (fun db => List.filter (is_membership endpointId networkId) (dd_memberships db));
  _ ← update (fun db => with_memberships db
        (List.filter (fun m => negb (is_membership endpointId networkId m)) (dd_memberships db)));
  deleted ← or_throw (head removed) "Device not found";
  remaining ← query (fun db =>
        List.filter (fun m => (mb_endpointId m =? endpointId)%string) (dd_memberships db));
  _ ← (match remaining with
       | [] =>
           _ ← update (delete_devices (String.eqb endpointId));
           update (bump_org organizationId)
       | _ => mret tt
       end);
  _ ← writeAudit (mkAuditInput organizationId actor (default "device.deleted" auditAction)
        (Some (mb_endpointId deleted)) [("networkId", networkId)] None);
  update (bump_network networkId organizationId).

Record RemoveItem := mkItem { it_networkId : string; it_endpointId : string }.

(** The items whose key was not seen before. *)
Definition item_key (i : RemoveItem) : string := it_networkId i +:+ ":" +:+ it_endpointId i.
Fixpoint unseen (seen : list string) (items : list RemoveItem) : list RemoveItem :=
  match items with
  | [] => []
  | i :: rest =>
      if bool_decide (item_key i ∈ seen) then unseen seen rest
      else i :: unseen (seen ++ [item_key i]) rest
  end.

Definition group_by_network (items : list RemoveItem) : list (string * list string) :=
  foldl (fun m i => map_set m (it_networkId i) (default [] (map_get m (it_networkId i)) ++ [it_endpointId i]))
    [] items.

(** One [DELETE] per network; the number of rows it removed is added. *)
Fixpoint delete_groups (groups : list (string * list string)) (deleted : Z) : DeviceTx Z :=
  match groups with
  | [] => mret deleted
  | (networkId, eps) :: rest =>
      let hit m := (mb_networkId m =? networkId)%string && bool_decide (mb_endpointId m ∈ eps) in
      removed ← query (fun db => List.filter hit (dd_memberships db));
      _ ← update (fun db => with_memberships db (List.filter (fun m => negb (hit m)) (dd_memberships db)));
      delete_groups rest (deleted + Z.of_nat (length removed))
  end.

Fixpoint bump_networks (networkIds : list string) (organizationId : string) : DeviceTx unit :=
  match networkIds with
  | [] => mret tt
  | n :: rest => _ ← update (bump_network n organizationId); bump_networks rest organizationId
  end.

Definition removeDeviceMembershipsBulk (organizationId actor : string) (items : list RemoveItem)
    : DeviceTx Z :=
  match items with
  | [] => mret 0%Z
  | _ =>
      let items := unseen [] items in
      let endpointIds := set_of (map it_endpointId items) in
      let networkIds := set_of (map it_networkId items) in
      deviceSet ← query (fun db => map dv_endpointId (List.filter (fun d =>
        (dv_organizationId d =? organizationId)%string && bool_decide (dv_endpointId d ∈ endpointIds))
        (dd_devices db)));
      networkSet ← query (fun db => map nv_id (List.filter (fun n =>
        (nv_org n =? organizationId)%string && bool_decide (nv_id n ∈ networkIds)) (dd_networks db)));
      let valid := List.filter (fun i => bool_decide (it_endpointId i ∈ deviceSet)
                                         && bool_decide (it_networkId i ∈ networkSet)) items in
      match valid with
      | [] => mret 0%Z
      | _ =>
          let byNetwork := group_by_network valid in
          deleted ← delete_groups byNetwork 0;
          stillSet ← query (fun db => map mb_endpointId (List.filter
            (fun m => bool_decide (mb_endpointId m ∈ endpointIds)) (dd_memberships db)));
          let orphans := List.filter (fun id => bool_decide (id ∈ deviceSet)
                                                && negb (bool_decide (id ∈ stillSet))) endpointIds in
          _ ← (match orphans with
               | [] => mret tt
               | _ =>
                   _ ← update (delete_devices (fun e => bool_decide (e ∈ orphans)));
                   update (bump_org organizationId)
               end);
          _ ← writeAudit (mkAuditInput organizationId actor "device.bulk_deleted" (Some organizationId)
                [("deleted", string_of_Z deleted); ("networks", join "," byNetwork.*1);
                 ("endpointCount", string_of_Z (Z.of_nat (length valid)))] None);
          _ ← bump_networks byNetwork.*1 organizationId;
          mret deleted
      end
  end.

(** ** Labels ([device-labels.ts]) *)
(** [deviceLabelsSchema] *)
Definition labels_ok (labels : list (string * string)) : bool :=
  forallb (fun kv => (1 <=? String.length kv.1)%nat && (String.length kv.1 <=? 63)%nat
                     && (String.length kv.2 <=? 253)%nat) labels.
Definition normalizeDeviceLabels (value : list (string * string)) : list (string * string) :=
  if labels_ok value then value else [].

(** A null or empty value deletes the label. *)
Definition mergeDeviceLabels (existing : list (string * string)) (patch : list (string * option string))
    : list (string * string) :=
  foldl (fun next kv =>
           match kv.2 with
           | None | Some "" => List.filter (fun e => negb (e.1 =? kv.1)%string) next
           | Some value => map_set next kv.1 value
           end) existing patch.

(** ** Changing devices ([device.ts]) *)
Record PatchDeviceBody := mkPatchDevice {
  pb_name : option string;
  pb_ipv6Enabled : option bool;
  pb_expiresIn : option (option string)
}.

Definition update_device (endpointId : string) (f : Device -> Device) (db : DeviceDb) : DeviceDb :=
  with_devices db (map (fun d => if (dv_endpointId d =? endpointId)%string then f d else d) (dd_devices db)).

Section Durations.
Context (parse : string -> option (option Q)).

(** The new time to live; a text that is no duration throws. *)
Definition patch_ttl (expiresIn : option string) : result string (option string) :=
  match expiresIn with
  | None => Ok None
  | Some text =>
      if (toLowerCase text =? "never")%string then Ok None
      else match parseHumanDuration parse text with
           | Some secs => Ok (Some (secondsToPgInterval secs))
           | None => Err "Invalid duration"
           end
  end.

Definition apply_patch (patch : PatchDeviceBody) (now : Z) (ttl : option (option string)) (d : Device) : Device :=
  mkDeviceRec (dv_endpointId d) (dv_organizationId d)
    (default (dv_name d) (pb_name patch))
    (default (dv_ipv6Enabled d) (pb_ipv6Enabled patch))
    (match pb_ipv6Enabled patch with
     | Some true => Some now | Some false => None | None => dv_ipv6EnabledAt d
     end)
    (dv_labels d)
    (default (dv_inactivityTtl d) ttl)
    (match ttl with Some _ => None | None => dv_expiredAt d end).

Definition applyDevicePatch (endpointId organizationId : string) (patch : PatchDeviceBody) (now : Z)
    : DeviceTx (option Device) :=
  device ← query (device_in_org endpointId organizationId);
  match device with
  | None => mret None
  | Some _ =>
      ttl ← (match pb_expiresIn patch with
             | None => mret None
             | Some e => match patch_ttl e with Ok t => mret (Some t) | Err m => throw m end
             end);
      match pb_name patch, pb_ipv6Enabled patch, ttl with
      | None, None, None => query (device_in_org endpointId organizationId)
      | _, _, _ =>
          _ ← update (update_device endpointId (apply_patch patch now ttl));
          query (device_in_org endpointId organizationId)
      end
  end.

Definition with_labels (d : Device) (labels : list (string * string)) : Device :=
  mkDeviceRec (dv_endpointId d) (dv_organizationId d) (dv_name d) (dv_ipv6Enabled d)
    (dv_ipv6EnabledAt d) labels (dv_inactivityTtl d) (dv_expiredAt d).

Definition applyDeviceLabelsPatch (endpointId organizationId : string) (patch : list (string * option string))
    : DeviceTx (option Device) :=
  device ← query (device_in_org endpointId organizationId);
  match device with
  | None => mret None
  | Some device =>
      let labels := mergeDeviceLabels (normalizeDeviceLabels (dv_labels device)) patch in
      _ ← update (update_device endpointId (fun d => with_labels d labels));
      query (device_in_org endpointId organizationId)
  end.

(** ** Routes ([devices.ts]) *)
Definition when (b : bool) (m : DeviceTx unit) : DeviceTx unit := if b then m else mret tt.
Definition given {A} (o : option A) : bool := match o with Some _ => true | None => false end.

Definition patchDeviceRoute (organizationId userId endpointId : string) (patch : PatchDeviceBody) (now : Z)
    : DeviceTx (reply Device) :=
  updated ← transaction (
    row ← applyDevicePatch endpointId organizationId patch now;
    match row with
    | None => mret None
    | Some device =>
        _ ← writeAudit (mkAuditInput organizationId userId "device.updated" (Some (dv_endpointId device)) [] None);
        _ ← when (given (pb_ipv6Enabled patch)) (update (bump_org organizationId));
        _ ← when (given (pb_expiresIn patch)) (update (bump_org organizationId));
        mret (Some device)
    end);
  mret (match updated with Some device => Reply device | None => NotFound "Device not found" end).

Definition patchLabelsRoute (organizationId userId endpointId : string) (patch : list (string * option string))
    : DeviceTx (reply Device) :=
  updated ← transaction (
    row ← applyDeviceLabelsPatch endpointId organizationId patch;
    match row with
    | None => mret None
    | Some device =>
        _ ← writeAudit (mkAuditInput organizationId userId "device.labels_updated"
              (Some (dv_endpointId device)) [] None);
        _ ← update (bump_org organizationId);
        mret (Some device)
    end);
  mret (match updated with Some device => Reply device | None => NotFound "Device not found" end).
End Durations.

Definition set_status (endpointId networkId : string) (status : membership_status) (db : DeviceDb) : DeviceDb :=
  with_memberships db (map (fun m => if is_membership endpointId networkId m
                                     then mkMembership (mb_endpointId m) (mb_networkId m) status else m)
                         (dd_memberships db)).

(** A device of another organization is not found. *)
Definition own_device (organizationId : string) (device : option Device) : option Device :=
  match device with
  | Some d => if (dv_organizationId d =? organizationId)%string then Some d else None
  | None => None
  end.

(** [patchDeviceMembershipBody] allows active and suspended. *)
Definition patchMembershipRoute (organizationId userId networkId endpointId : string)
    (status : membership_status) : DeviceTx (reply (Device * Membership)) :=
  network ← query (getNetworkInOrg networkId organizationId);
  match network with
  | None => mret (NotFound "Network not found")
  | Some _ =>
      row ← transaction (
        _ ← update (set_status endpointId networkId status);
        updated ← query (find_membership endpointId networkId);
        membership ← or_throw updated "Device not found";
        device ← query (find_device endpointId);
        device ← or_throw (own_device organizationId device) "Device not found";
        _ ← writeAudit (mkAuditInput organizationId userId "device.updated" (Some endpointId)
              [("networkId", networkId)] None);
        _ ← update (bump_network networkId organizationId);
        mret (device, membership));
      mret (Reply row)
  end.

Definition must_be_pending (m : Membership) : DeviceTx unit :=
  match mb_status m with ms_pending => mret tt | _ => throw "Device is not pending approval" end.

(** The exceptions the routes turn into answers; others are thrown on. *)
Definition pending_errors {A} (message : string) : result string (reply A) :=
  if (message =? "Device not found")%string then Ok (NotFound "Device not found")
  else if (message =? "Device is not pending approval")%string
  then Ok (BadRequest "Device is not pending approval")
  else Err message.

Definition approveRoute (organizationId userId networkId endpointId : string)
    : DeviceTx (reply (Device * Membership)) :=
  network ← query (getNetworkInOrg networkId organizationId);
  match network with
  | None => mret (NotFound "Network not found")
  | Some _ =>
      catch (transaction (
        found ← query (find_membership endpointId networkId);
        membership ← or_throw found "Device not found";
        _ ← must_be_pending membership;
        device ← query (find_device endpointId);
        device ← or_throw (own_device organizationId device) "Device not found";
        _ ← update (set_status endpointId networkId ms_active);
        updated ← query (find_membership endpointId networkId);
        membership ← or_throw updated "Device not found";
        _ ← writeAudit (mkAuditInput organizationId userId "device.approved" (Some endpointId)
              [("networkId", networkId)] None);
        _ ← update (bump_network networkId organizationId);
        mret (Reply (device, membership)))) pending_errors
  end.

Definition rejectRoute (organizationId userId networkId endpointId : string) : DeviceTx (reply unit) :=
  network ← query (getNetworkInOrg networkId organizationId);
  match network with
  | None => mret (NotFound "Network not found")
  | Some _ =>
      catch (transaction (
        found ← query (find_membership endpointId networkId);
        membership ← or_throw found "Device not found";
        _ ← must_be_pending membership;
        _ ← removeDeviceMembership organizationId userId networkId endpointId (Some "device.rejected");
        mret (Reply tt))) pending_errors
  end.

Definition deleteDeviceRoute (organizationId userId networkId endpointId : string) : DeviceTx (reply unit) :=
  network ← query (getNetworkInOrg networkId organizationId);
  match network with
  | None => mret (NotFound "Network not found")
  | Some _ =>
      _ ← transaction (removeDeviceMembership organizationId userId networkId endpointId None);
      mret (Reply tt)
  end.

Definition deleteDevicesRoute (organizationId userId : string) (items : list RemoveItem) : DeviceTx Z :=
  transaction (removeDeviceMembershipsBulk organizationId userId (unseen [] items)).

(** *** Removing nodes with an API key ([sdk-nodes.ts]) *)
Fixpoint sdk_loop (organizationId actor : string) (networkIds : option (list string))
    (items : list RemoveItem) (deleted : Z) : DeviceTx Z :=
  match items with
  | [] => mret deleted
  | i :: rest =>
      if negb (canAccessNetwork networkIds (it_networkId i))
      then sdk_loop organizationId actor networkIds rest deleted
      else
        _ ← removeDeviceMembership organizationId actor (it_networkId i) (it_endpointId i) None;
        sdk_loop organizationId actor networkIds rest (deleted + 1)
  end.

Definition deleteSdkNodesRoute (key : VerifiedApiKey) (orgId : string) (items : list RemoveItem)
    : DeviceTx (reply Z) :=
  if negb (vk_org key =? orgId)%string then mret ForbiddenReply
  else match items with
       | [] => mret (BadRequest "items required")
       | _ =>
           if (100 <? length items)%nat then mret (BadRequest "max 100 items")
           else
             deleted ← transaction (sdk_loop (vk_org key) ("api_key:" +:+ vk_id key) (vk_networkIds key) items 0);
             mret (Reply deleted)
       end.

(** ** Well-formed tables, and what another organization sees *)
Definition net_owner (db : DeviceDb) (networkId : string) : option string :=
  nv_org <$> List.find (fun n => (nv_id n =? networkId)%string) (dd_networks db).
Definition dev_owner (db : DeviceDb) (endpointId : string) : option string :=
  dv_organizationId <$> find_device endpointId db.

(** The keys and references of the schema. *)
Record db_wf (db : DeviceDb) : Prop := mkDbWf {
  wf_devices : NoDup (map dv_endpointId (dd_devices db));
  wf_networks : NoDup (map nv_id (dd_networks db));
  wf_memberships : NoDup (map (fun m => (mb_endpointId m, mb_networkId m)) (dd_memberships db));
  wf_member_device : forall m, m ∈ dd_memberships db -> mb_endpointId m ∈ map dv_endpointId (dd_devices db);
  wf_member_network : forall m, m ∈ dd_memberships db -> mb_networkId m ∈ map nv_id (dd_networks db);
  wf_member_org : forall m, m ∈ dd_memberships db -> dev_owner db (mb_endpointId m) = net_owner db (mb_networkId m);
  wf_tags : forall t, t ∈ dd_deviceTags db -> dt_endpoint t ∈ map dv_endpointId (dd_devices db);
  wf_ipv6 : forall d, d ∈ dd_devices db -> dv_ipv6Enabled d = true -> dv_ipv6EnabledAt d <> None
}.

Definition owned_by (org : string) (o : option string) : bool :=
  match o with Some x => (x =? org)%string | None => false end.

(** The rows of an organization: its devices and their tags, its networks and
    their memberships, and its version. *)
Definition org_view (org : string) (db : DeviceDb) :=
  (List.filter (fun d => (dv_organizationId d =? org)%string) (dd_devices db),
   List.filter (fun t => owned_by org (dev_owner db (dt_endpoint t))) (dd_deviceTags db),
   List.filter (fun n => (nv_org n =? org)%string) (dd_networks db),
   List.filter (fun m => owned_by org (net_owner db (mb_networkId m))) (dd_memberships db),
   List.filter (fun o => (o.1 =? org)%string) (dd_organizations db)).

(** No network comes, goes or changes hands, and no device comes or changes
    hands. *)
Definition keys_kept (db db' : DeviceDb) : Prop :=
  map (fun n => (nv_id n, nv_org n)) (dd_networks db') = map (fun n => (nv_id n, nv_org n)) (dd_networks db)
  /\ forall e o, dev_owner db' e = Some o -> dev_owner db e = Some o.

(** A change by one organization keeps the tables well-formed and is not seen by
    another. *)
Definition step_ok (org : string) (db db' : DeviceDb) : Prop :=
  db_wf db ->
  (db_wf db' /\ keys_kept db db') /\ forall org', org' <> org -> org_view org' db' = org_view org' db.

#[export] Instance step_ok_preorder org : PreOrder (step_ok org).
Proof.
  split.
  - intros db Hwf. done.
  - intros db1 db2 db3 H12 H23 Hwf. destruct (H12 Hwf) as [[Hwf2 [K1 K2]] H2].
    destruct (H23 Hwf2) as [[Hwf3 [K3 K4]] H3].
    split; [|intros org' Hne; by rewrite H3, H2]. split; [done|]. split; [congruence|auto].
Qed.

(** With unique keys, a row is what its key finds. *)
Lemma find_by_key {A} (key : A -> string) l x :
  NoDup (map key l) -> x ∈ l -> List.find (fun y => (key y =? key x)%string) l = Some x.
Proof.
  induction l as [|y l IH]; cbn; intros Hn Hx; [by apply elem_of_nil in Hx|].
  apply list.NoDup_cons in Hn as [Hy Hl].
  apply elem_of_cons in Hx as [->|Hx]; [by rewrite String.eqb_refl|].
  destruct (String.eqb_spec (key y) (key x)) as [E|]; [|by apply IH].
  destruct Hy. rewrite E. apply list_elem_of_fmap. eauto.
Qed.

Lemma dev_owner_row db d : db_wf db -> d ∈ dd_devices db -> dev_owner db (dv_endpointId d) = Some (dv_organizationId d).
Proof. intros Hwf Hd. unfold dev_owner, find_device. by rewrite find_by_key by (done || apply Hwf). Qed.

Lemma net_owner_row db n : db_wf db -> n ∈ dd_networks db -> net_owner db (nv_id n) = Some (nv_org n).
Proof. intros Hwf Hn. unfold net_owner. by rewrite find_by_key by (done || apply Hwf). Qed.

Lemma device_in_org_owner db e org d : db_wf db -> device_in_org e org db = Some d -> dev_owner db e = Some org.
Proof.
  intros Hwf [Hin Hp]%List.find_some. apply andb_prop in Hp as [<-%String.eqb_eq <-%String.eqb_eq].
  apply dev_owner_row; [done|]. by apply list_elem_of_In.
Qed.

Lemma network_in_org_owner db n org x : db_wf db -> getNetworkInOrg n org db = Some x -> net_owner db n = Some org.
Proof.
  intros Hwf [Hin Hp]%List.find_some. apply andb_prop in Hp as [<-%String.eqb_eq <-%String.eqb_eq].
  apply net_owner_row; [done|]. by apply list_elem_of_In.
Qed.

Lemma owned_by_other org org' o : o = Some org -> org' <> org -> owned_by org' o = false.
Proof. intros -> Hne. by apply String.eqb_neq. Qed.

Lemma tuple5_eq {A B C D E} (a a' : A) (b b' : B) (c c' : C) (d d' : D) (e e' : E) :
  a = a' -> b = b' -> c = c' -> d = d' -> e = e' -> (a, b, c, d, e) = (a', b', c', d', e').
Proof. by intros -> -> -> -> ->. Qed.

(** *** The changes of the tables *)
Lemma step_bump_org org db : step_ok org db (bump_org org db).
Proof.
  intros Hwf. split; [split; [|done]|].
  - destruct Hwf. by constructor.
  - intros org' Hne. unfold org_view, bump_org. cbn -[bumpOrgSnapshotVersion].
    by rewrite bumpOrgSnapshotVersion_other.
Qed.

Lemma bumpNetworkVersion_ids n org l : map nv_id (bumpNetworkVersion n org l) = map nv_id l.
Proof.
  unfold bumpNetworkVersion. rewrite map_map. apply map_ext. intros x. by destruct (_ && _).
Qed.

Lemma bumpNetworkVersion_find n org l id :
  nv_org <$> List.find (fun x => (nv_id x =? id)%string) (bumpNetworkVersion n org l)
  = nv_org <$> List.find (fun x => (nv_id x =? id)%string) l.
Proof.
  unfold bumpNetworkVersion. induction l as [|x l IH]; cbn; [done|].
  destruct (_ && _) eqn:E; cbn; by destruct (nv_id x =? id)%string.
Qed.

Lemma bumpNetworkVersion_other n org org' l :
  org' <> org ->
  List.filter (fun x => (nv_org x =? org')%string) (bumpNetworkVersion n org l)
  = List.filter (fun x => (nv_org x =? org')%string) l.
Proof.
  intros Hne. unfold bumpNetworkVersion. induction l as [|x l IH]; cbn; [done|].
  destruct (_ && _) eqn:E; cbn; [|by rewrite IH].
  apply andb_prop in E as [_ ->%String.eqb_eq].
  by rewrite (proj2 (String.eqb_neq org org')) by congruence.
Qed.

Lemma bumpNetworkVersion_keys n org l :
  map (fun x => (nv_id x, nv_org x)) (bumpNetworkVersion n org l) = map (fun x => (nv_id x, nv_org x)) l.
Proof. unfold bumpNetworkVersion. rewrite map_map. apply map_ext. intros x. by destruct (_ && _). Qed.

Lemma step_bump_network n org db : step_ok org db (bump_network n org db).
Proof.
  intros Hwf. split; [split; [|by split; [apply bumpNetworkVersion_keys|]]|].
  - destruct Hwf. constructor; cbn -[bumpNetworkVersion]; rewrite ?bumpNetworkVersion_ids; try done.
    intros m Hm. unfold net_owner. cbn -[bumpNetworkVersion]. rewrite bumpNetworkVersion_find. by apply wf_member_org0.
  - intros org' Hne. unfold org_view, bump_network, net_owner, dev_owner, find_device.
    cbn -[bumpNetworkVersion]. rewrite bumpNetworkVersion_other by done.
    f_equal. f_equal. apply filter_ext_elem. intros m _. by rewrite bumpNetworkVersion_find.
Qed.

Lemma step_remove_memberships org hit db :
  (forall m, m ∈ dd_memberships db -> hit m = true -> net_owner db (mb_networkId m) = Some org) ->
  step_ok org db (with_memberships db (List.filter (fun m => negb (hit m)) (dd_memberships db))).
Proof.
  intros Hhit Hwf. split; [split; [|done]|].
  - destruct Hwf. constructor; cbn; try done; [by apply NoDup_map_filter|..];
      intros m [Hm _]%elem_of_filter_bool; auto. by apply wf_member_org0.
  - intros org' Hne. unfold org_view, net_owner, dev_owner, find_device. cbn. f_equal. f_equal.
    apply filter_filter_same. intros m Hm Ho. apply negb_true_iff. destruct (hit m) eqn:E; [|done].
    pose proof (owned_by_other org org' _ (Hhit m Hm E) Hne) as Hf. unfold net_owner in Hf. congruence.
Qed.

Lemma find_filter_other {A} (key : A -> string) (p : string -> bool) l k :
  p k = false ->
  List.find (fun x => (key x =? k)%string) (List.filter (fun x => negb (p (key x))) l)
  = List.find (fun x => (key x =? k)%string) l.
Proof.
  intros Hk. induction l as [|x l IH]; cbn; [done|].
  destruct (p (key x)) eqn:E; cbn.
  - destruct (String.eqb_spec (key x) k) as [<-|]; [congruence|done].
  - by destruct (key x =? k)%string.
Qed.

(** Devices without memberships are deleted. *)
Lemma step_delete_devices org p db :
  (forall e, p e = true -> dev_owner db e = Some org) ->
  (forall m, m ∈ dd_memberships db -> p (mb_endpointId m) = false) ->
  step_ok org db (delete_devices p db).
Proof.
  intros Hp Hm Hwf. assert (forall (q : string -> Prop) d, d ∈ dd_devices db -> p (dv_endpointId d) = false ->
    dv_endpointId d ∈ map dv_endpointId (List.filter (fun d => negb (p (dv_endpointId d))) (dd_devices db))) as Hkeep.
  { intros _ d Hd Hpd. apply list_elem_of_fmap. exists d. split; [done|].
    apply elem_of_filter_bool. by rewrite Hpd. }
  split; [split; [|split; [done|]]|].
  - destruct Hwf. constructor; cbn; try done; try by apply NoDup_map_filter.
    + intros m [Hin Hf]%elem_of_filter_bool. apply negb_true_iff in Hf.
      destruct (proj1 (list_elem_of_fmap _ _ _) (wf_member_device0 m Hin)) as (d & E & Hd).
      rewrite E in Hf |- *. by apply (Hkeep (fun _ => True)).
    + intros m [Hin _]%elem_of_filter_bool. auto.
    + intros m [Hin Hf]%elem_of_filter_bool. apply negb_true_iff in Hf. unfold dev_owner, find_device. cbn.
      rewrite (find_filter_other dv_endpointId) by done. by apply wf_member_org0.
    + intros t [Hin Hf]%elem_of_filter_bool. apply negb_true_iff in Hf.
      destruct (proj1 (list_elem_of_fmap _ _ _) (wf_tags0 t Hin)) as (d & E & Hd).
      rewrite E in Hf |- *. by apply (Hkeep (fun _ => True)).
    + intros d [Hd _]%elem_of_filter_bool. auto.
  - intros e o He. destruct (p e) eqn:Ep; [|unfold dev_owner, find_device in *; cbn in He;
      by rewrite (find_filter_other dv_endpointId) in He].
    unfold dev_owner, find_device in He. cbn in He. apply fmap_Some in He as (d & [Hin E%String.eqb_eq]%List.find_some & _).
    apply list_elem_of_In, elem_of_filter_bool in Hin as [_ Hf]. by rewrite E, Ep in Hf.
  - intros org' Hne. unfold org_view. cbn. apply tuple5_eq; [| |done| |done].
    + apply filter_filter_same. intros d Hd Ho. apply negb_true_iff.
      destruct (p (dv_endpointId d)) eqn:E; [|done]. apply Hp in E.
      rewrite (dev_owner_row db d Hwf Hd) in E. injection E as E. apply String.eqb_eq in Ho. congruence.
    + transitivity (List.filter (fun t => owned_by org' (dev_owner db (dt_endpoint t)))
        (List.filter (fun t => negb (p (dt_endpoint t))) (dd_deviceTags db))).
      * apply filter_ext_elem. intros t [_ Hf]%elem_of_filter_bool. apply negb_true_iff in Hf.
        unfold dev_owner, find_device. cbn. by rewrite (find_filter_other dv_endpointId).
      * apply filter_filter_same. intros t Ht Ho. apply negb_true_iff.
        destruct (p (dt_endpoint t)) eqn:E; [|done]. by rewrite (owned_by_other org org' _ (Hp _ E) Hne) in Ho.
    + unfold net_owner. cbn. apply filter_filter_same. intros m Hin _. by rewrite Hm.
Qed.

Lemma owner_map_device (g : Device -> Device) l e :
  (forall d, dv_endpointId (g d) = dv_endpointId d /\ dv_organizationId (g d) = dv_organizationId d) ->
  dv_organizationId <$> List.find (fun d => (dv_endpointId d =? e)%string) (map g l)
  = dv_organizationId <$> List.find (fun d => (dv_endpointId d =? e)%string) l.
Proof.
  intros Hg. induction l as [|d l IH]; cbn; [done|]. rewrite (proj1 (Hg d)).
  destruct (dv_endpointId d =? e)%string; [|done]. cbn. by rewrite (proj2 (Hg d)).
Qed.

(** A device is changed; its key and its organization are not. *)
Lemma step_update_device org e f db :
  dev_owner db e = Some org ->
  (forall d, dv_endpointId (f d) = dv_endpointId d /\ dv_organizationId (f d) = dv_organizationId d) ->
  (forall d, d ∈ dd_devices db -> (dv_ipv6Enabled d = true -> dv_ipv6EnabledAt d <> None) ->
     dv_ipv6Enabled (f d) = true -> dv_ipv6EnabledAt (f d) <> None) ->
  step_ok org db (update_device e f db).
Proof.
  intros He Hf H6 Hwf. set (g := fun d => if (dv_endpointId d =? e)%string then f d else d).
  assert (forall d, dv_endpointId (g d) = dv_endpointId d /\ dv_organizationId (g d) = dv_organizationId d) as Hg.
  { intros d. unfold g. destruct (_ =? _)%string; [apply Hf|done]. }
  assert (map dv_endpointId (map g (dd_devices db)) = map dv_endpointId (dd_devices db)) as Hids.
  { rewrite map_map. apply map_ext. intros d. apply Hg. }
  split; [split; [|split; [done|]]|].
  - destruct Hwf. constructor; cbn; fold g; rewrite ?Hids; try done.
    + intros m Hm. unfold dev_owner, find_device. cbn. fold g. rewrite owner_map_device by done. by apply wf_member_org0.
    + intros d (d0 & -> & Hd0)%list_elem_of_fmap. unfold g. destruct (_ =? _)%string; [apply H6|]; auto.
  - intros e' o. unfold dev_owner, find_device. cbn. fold g. by rewrite owner_map_device by done.
  - intros org' Hne. unfold org_view. cbn. fold g. apply tuple5_eq; [| |done..].
    + assert (forall l, (forall d, d ∈ l -> d ∈ dd_devices db) ->
        List.filter (fun d => (dv_organizationId d =? org')%string) (map g l)
        = List.filter (fun d => (dv_organizationId d =? org')%string) l) as Hl; [|by apply Hl].
      induction l as [|d l IH]; intros Hin; cbn; [done|]. rewrite (proj2 (Hg d)).
      rewrite IH by (intros x Hx; apply Hin; by right).
      destruct (String.eqb_spec (dv_organizationId d) org') as [Ho|]; [|done].
      unfold g. destruct (String.eqb_spec (dv_endpointId d) e) as [E|]; [|done].
      pose proof (dev_owner_row db d Hwf (Hin d ltac:(by left))) as Hr.
      rewrite E in Hr. congruence.
    + apply filter_ext_elem. intros t _. f_equal. unfold dev_owner, find_device. cbn. fold g.
      by apply owner_map_device.
Qed.

Lemma step_set_status org e n status db :
  net_owner db n = Some org -> step_ok org db (set_status e n status db).
Proof.
  intros Hn Hwf.
  set (g := fun m => if is_membership e n m then mkMembership (mb_endpointId m) (mb_networkId m) status else m).
  assert (forall m, mb_endpointId (g m) = mb_endpointId m /\ mb_networkId (g m) = mb_networkId m) as Hg
    by (intros m; unfold g; by destruct (is_membership e n m)).
  split; [split; [|done]|].
  - destruct Hwf. constructor; cbn; fold g; try done.
    + rewrite map_map. erewrite map_ext; [done|]. intros m. cbn. by destruct (Hg m) as [-> ->].
    + intros m (m0 & -> & Hm0)%list_elem_of_fmap. rewrite (proj1 (Hg m0)). auto.
    + intros m (m0 & -> & Hm0)%list_elem_of_fmap. rewrite (proj2 (Hg m0)). auto.
    + intros m (m0 & -> & Hm0)%list_elem_of_fmap. rewrite (proj1 (Hg m0)), (proj2 (Hg m0)). by apply wf_member_org0.
  - intros org' Hne. unfold org_view, net_owner, dev_owner, find_device. cbn. fold g.
    apply tuple5_eq; [done..| |done].
    induction (dd_memberships db) as [|m l IH]; cbn; [done|]. rewrite (proj2 (Hg m)), IH.
    destruct (owned_by org' _) eqn:Eo; [|done]. f_equal. unfold g.
    destruct (is_membership e n m) eqn:Em; [|done]. apply andb_prop in Em as [_ Em%String.eqb_eq].
    rewrite Em in Eo. pose proof (owned_by_other org org' _ Hn Hne) as Hf. unfold net_owner in Hf. congruence.
Qed.

(** *** The operations *)
(** What a removal does to the tables. *)
Definition without_membership (n e : string) (db : DeviceDb) : DeviceDb :=
  with_memberships db (List.filter (fun m => negb (is_membership e n m)) (dd_memberships db)).
Definition purge_device (org e : string) (db : DeviceDb) : DeviceDb :=
  match List.filter (fun m => (mb_endpointId m =? e)%string) (dd_memberships db) with
  | [] => bump_org org (delete_devices (String.eqb e) db)
  | _ => db
  end.
Definition removed_one (org n e : string) (db : DeviceDb) : DeviceDb :=
  bump_network n org (purge_device org e (without_membership n e db)).

Lemma removeDeviceMembership_Ok org actor n e auditAction s s' :
  removeDeviceMembership org actor n e auditAction s = (s', Ok tt) <->
  (exists d, device_in_org e org s.1 = Some d) /\ (exists nw, getNetworkInOrg n org s.1 = Some nw)
  /\ exists m, head (List.filter (is_membership e n) (dd_memberships s.1)) = Some m
       /\ s' = (removed_one org n e s.1,
                s.2 ++ [toIngestEvent (mkAuditInput org actor (default "device.deleted" auditAction)
                                         (Some (mb_endpointId m)) [("networkId", n)] None)]).
Proof.
  unfold removeDeviceMembership, removed_one, purge_device, without_membership.
  unfold mbind, tx_mbind, tx_bind, query, update, writeAudit, or_throw, throw, tx_ret, mret, tx_mret, tx_ret.
  cbn [fst snd]. destruct (device_in_org e org s.1) as [d|]; [|naive_solver].
  destruct (getNetworkInOrg n org s.1) as [nw|]; [|naive_solver].
  destruct (head _) as [m|]; [|naive_solver]. cbn [fst snd dd_memberships with_memberships].
  destruct (List.filter (fun m => (mb_endpointId m =? e)%string) _); cbn [fst snd]; naive_solver.
Qed.

Lemma removeDeviceMembership_step org actor n e auditAction s s' :
  removeDeviceMembership org actor n e auditAction s = (s', Ok tt) -> step_ok org s.1 s'.1.
Proof.
  intros ((d & Hd) & (nw & Hn) & m & Hm & ->)%removeDeviceMembership_Ok Hwf. cbn [fst].
  pose proof (device_in_org_owner _ _ _ _ Hwf Hd) as Hde.
  pose proof (network_in_org_owner _ _ _ _ Hwf Hn) as Hne. revert Hwf.
  change (step_ok org s.1 (removed_one org n e s.1)). unfold removed_one.
  etransitivity; [|apply step_bump_network].
  transitivity (without_membership n e s.1).
  - apply step_remove_memberships. intros m' _ [_ ->%String.eqb_eq]%andb_prop. done.
  - clear Hm. unfold purge_device. destruct (List.filter _ _) eqn:E; [|reflexivity].
    etransitivity; [|apply step_bump_org]. apply step_delete_devices.
    + intros e' <-%String.eqb_eq. done.
    + intros m' Hm'. apply String.eqb_neq. intros ->.
      assert (m' ∈ List.filter (fun m0 => (mb_endpointId m0 =? mb_endpointId m')%string)
                (dd_memberships (without_membership n (mb_endpointId m') s.1))) as Hin
        by (apply elem_of_filter_bool; split; [done|apply String.eqb_refl]).
      rewrite E in Hin. by apply elem_of_nil in Hin.
Qed.

(** *** Removing many memberships *)
Definition listed (items : list RemoveItem) (m : Membership) : bool :=
  existsb (fun i => is_membership (it_endpointId i) (it_networkId i) m) items.
Definition without_listed (items : list RemoveItem) (db : DeviceDb) : DeviceDb :=
  with_memberships db (List.filter (fun m => negb (listed items m)) (dd_memberships db)).

Definition in_group (g : string * list string) (m : Membership) : bool :=
  (mb_networkId m =? g.1)%string && bool_decide (mb_endpointId m ∈ g.2).
Definition grouped (groups : list (string * list string)) (m : Membership) : bool :=
  existsb (fun g => in_group g m) groups.

Lemma filter_and {A} (p q : A -> bool) l :
  List.filter p (List.filter q l) = List.filter (fun x => q x && p x) l.
Proof. induction l as [|x l IH]; cbn; [done|]. destruct (q x); cbn; [|done]. by destruct (p x); rewrite IH. Qed.

Lemma filter_split_length {A} (p : A -> bool) l :
  (length (List.filter p l) + length (List.filter (fun x => negb (p x)) l) = length l)%nat.
Proof. induction l as [|x l IH]; cbn; [done|]. destruct (p x); cbn; lia. Qed.

Lemma delete_groups_Ok groups k s :
  delete_groups groups k s
  = ((with_memberships s.1 (List.filter (fun m => negb (grouped groups m)) (dd_memberships s.1)), s.2),
     Ok (k + Z.of_nat (length (List.filter (grouped groups) (dd_memberships s.1))))).
Proof.
  revert k s. induction groups as [|[n eps] groups IH]; intros k [db evs].
  - assert (forall l : list Membership, List.filter (fun m => negb (grouped [] m)) l = l
                                       /\ List.filter (grouped []) l = []) as Hf.
    { intros l. induction l as [|x l [H1 H2]]; cbn; [done|]. cbn in H1, H2. by rewrite H1, H2. }
    cbn [fst snd]. destruct (Hf (dd_memberships db)) as [-> ->]. cbn. rewrite Z.add_0_r. by destruct db.
  - cbn [delete_groups]. unfold mbind, tx_mbind, tx_bind, query, update. cbn [fst snd].
    rewrite IH. cbn [fst snd dd_memberships with_memberships]. set (ms := dd_memberships db).
    f_equal.
    + f_equal. unfold with_memberships. cbn. f_equal. rewrite filter_and. apply filter_ext_elem. intros m _.
      cbn [grouped existsb in_group fst snd]. by rewrite negb_orb.
    + f_equal. rewrite <- Z.add_assoc. f_equal. rewrite <- Nat2Z.inj_add. f_equal.
      pose proof (filter_split_length (in_group (n, eps)) (List.filter (grouped ((n, eps) :: groups)) ms)) as Hs.
      rewrite <- Hs. f_equal.
      * rewrite filter_and. f_equal. apply filter_ext_elem. intros m _. cbn [grouped existsb].
        change ((mb_networkId m =? n)%string && bool_decide (mb_endpointId m ∈ eps)) with (in_group (n, eps) m).
        by destruct (in_group (n, eps) m), (existsb _ groups).
      * rewrite !filter_and. f_equal. apply filter_ext_elem. intros m _. cbn [grouped existsb].
        change ((mb_networkId m =? n)%string && bool_decide (mb_endpointId m ∈ eps)) with (in_group (n, eps) m).
        unfold grouped. by destruct (in_group (n, eps) m), (existsb _ groups).
Qed.

Lemma group_by_network_snoc l i :
  group_by_network (l ++ [i])
  = map_set (group_by_network l) (it_networkId i)
      (default [] (map_get (group_by_network l) (it_networkId i)) ++ [it_endpointId i]).
Proof. unfold group_by_network. by rewrite foldl_app. Qed.

Lemma group_by_network_keys l : NoDup (group_by_network l).*1
  /\ forall n, n ∈ (group_by_network l).*1 <-> n ∈ map it_networkId l.
Proof.
  induction l as [|i l [IHn IHk]] using rev_ind; [split; [constructor|]; intros n; by rewrite !elem_of_nil|].
  rewrite group_by_network_snoc. split; [by apply NoDup_map_set|]. intros n.
  rewrite elem_of_map_set_keys, IHk, map_app, elem_of_app. cbn [map]. rewrite list_elem_of_singleton. tauto.
Qed.

Lemma grouped_listed l m : grouped (group_by_network l) m = listed l m.
Proof.
  assert (forall m, grouped (group_by_network l) m
    = bool_decide (mb_endpointId m ∈ default [] (map_get (group_by_network l) (mb_networkId m)))) as Hget.
  { intros m'. apply eq_bool_prop_intro. rewrite bool_decide_spec. unfold grouped.
    rewrite Is_true_true, existsb_exists. setoid_rewrite <- list_elem_of_In.
    destruct (group_by_network_keys l) as [Hnd _]. split.
    - intros ([n eps] & Hin & [->%String.eqb_eq He%bool_decide_eq_true]%andb_prop). cbn in *.
      apply map_get_Some in Hin; [|done]. by rewrite Hin.
    - destruct (map_get _ _) as [eps|] eqn:E; cbn; [|by intros ?%elem_of_nil].
      intros He. exists (mb_networkId m', eps). split; [by apply map_get_Some|].
      unfold in_group. cbn. rewrite String.eqb_refl. by apply bool_decide_eq_true. }
  rewrite Hget. clear Hget. apply eq_bool_prop_intro. rewrite bool_decide_spec. unfold listed.
  rewrite Is_true_true, existsb_exists. setoid_rewrite <- list_elem_of_In.
  induction l as [|i l IH] using rev_ind; [cbn; split; [by intros ?%elem_of_nil|]; intros (? & ?%elem_of_nil & _); done|].
  rewrite group_by_network_snoc, map_get_set. setoid_rewrite elem_of_app. setoid_rewrite list_elem_of_singleton.
  unfold is_membership in *. destruct (decide (it_networkId i = mb_networkId m)) as [E|E].
  - cbn. rewrite elem_of_app, list_elem_of_singleton, E, IH. split.
    + intros [(x & ? & ?)|E2]; [eauto|]. exists i. split; [by right|]. rewrite E2, E, !String.eqb_refl. done.
    + intros (x & [Hx| ->] & Hp); [eauto|]. right. by apply andb_prop in Hp as [->%String.eqb_eq _].
  - rewrite IH. split; [naive_solver|].
    intros (x & [Hx| ->] & Hp); [eauto|]. apply andb_prop in Hp as [_ Hp%String.eqb_eq]. congruence.
Qed.

Lemma without_grouped items db :
  with_memberships db (List.filter (fun m => negb (grouped (group_by_network items) m)) (dd_memberships db))
  = without_listed items db.
Proof. unfold without_listed. f_equal. apply filter_ext_elem. intros m _. by rewrite grouped_listed. Qed.

Lemma bump_networks_Ok ns org s :
  bump_networks ns org s = ((foldl (fun db n => bump_network n org db) s.1 ns, s.2), Ok tt).
Proof.
  revert s. induction ns as [|n ns IH]; intros [db evs]; [done|].
  cbn [bump_networks]. unfold mbind, tx_mbind, tx_bind, update. cbn [fst snd]. by rewrite IH.
Qed.

(** The devices and networks of the organization among the items, and the items
    that name both. *)
Definition named_devices (org : string) (items : list RemoveItem) (db : DeviceDb) : list string :=
  map dv_endpointId (List.filter (fun d => (dv_organizationId d =? org)%string
    && bool_decide (dv_endpointId d ∈ set_of (map it_endpointId items))) (dd_devices db)).
Definition named_networks (org : string) (items : list RemoveItem) (db : DeviceDb) : list string :=
  map nv_id (List.filter (fun n => (nv_org n =? org)%string
    && bool_decide (nv_id n ∈ set_of (map it_networkId items))) (dd_networks db)).
Definition valid_items (org : string) (items : list RemoveItem) (db : DeviceDb) : list RemoveItem :=
  List.filter (fun i => bool_decide (it_endpointId i ∈ named_devices org items db)
                        && bool_decide (it_networkId i ∈ named_networks org items db)) items.

(** The named devices without a membership. *)
Definition orphans (named endpointIds : list string) (db : DeviceDb) : list string :=
  List.filter (fun id => bool_decide (id ∈ named) && negb (bool_decide (id ∈ map mb_endpointId (List.filter
    (fun m => bool_decide (mb_endpointId m ∈ endpointIds)) (dd_memberships db))))) endpointIds.
Definition purge_orphans (org : string) (ids : list string) (db : DeviceDb) : DeviceDb :=
  match ids with
  | [] => db
  | _ => bump_org org (delete_devices (fun e => bool_decide (e ∈ ids)) db)
  end.

Definition removed_many (org : string) (items : list RemoveItem) (db : DeviceDb) : DeviceDb :=
  let items := unseen [] items in
  let valid := valid_items org items db in
  let db1 := without_listed valid db in
  foldl (fun db n => bump_network n org db)
    (purge_orphans org (orphans (named_devices org items db) (set_of (map it_endpointId items)) db1) db1)
    (group_by_network valid).*1.

Lemma removeDeviceMembershipsBulk_Ok org actor items s :
  exists event,
    removeDeviceMembershipsBulk org actor items s
    = match items, valid_items org (unseen [] items) s.1 with
      | [], _ | _, [] => (s, Ok 0)
      | _, _ => ((removed_many org items s.1, s.2 ++ [event]),
                 Ok (Z.of_nat (length (List.filter (listed (valid_items org (unseen [] items) s.1))
                                         (dd_memberships s.1)))))
      end.
Proof.
  eexists. unfold removeDeviceMembershipsBulk. destruct items as [|i items0]; [done|].
  set (items := i :: items0). unfold removed_many. cbn zeta.
  unfold mbind, tx_mbind, tx_bind, query. cbn [fst snd].
  fold (named_devices org (unseen [] items) s.1). fold (named_networks org (unseen [] items) s.1).
  fold (valid_items org (unseen [] items) s.1).
  destruct (valid_items org (unseen [] items) s.1) as [|v valid0] eqn:Ev; [done|]. rewrite <- Ev.
  set (valid := valid_items org (unseen [] items) s.1).
  rewrite delete_groups_Ok. cbn [fst snd]. rewrite without_grouped, Z.add_0_l.
  rewrite (filter_ext_elem (grouped (group_by_network valid)) (listed valid))
    by (intros; apply grouped_listed).
  fold (orphans (named_devices org (unseen [] items) s.1) (set_of (map it_endpointId (unseen [] items)))
          (without_listed valid s.1)).
  unfold purge_orphans. destruct (orphans _ _ _);
    unfold update, writeAudit, mret, tx_mret, tx_ret; cbn [fst snd]; rewrite bump_networks_Ok; cbn [fst snd];
    reflexivity.
Qed.

Lemma named_devices_owner org items db e :
  db_wf db -> e ∈ named_devices org items db -> dev_owner db e = Some org.
Proof.
  intros Hwf (d & -> & [Hd [<-%String.eqb_eq _]%andb_prop]%elem_of_filter_bool)%list_elem_of_fmap.
  by apply dev_owner_row.
Qed.

Lemma named_networks_owner org items db n :
  db_wf db -> n ∈ named_networks org items db -> net_owner db n = Some org.
Proof.
  intros Hwf (d & -> & [Hd [<-%String.eqb_eq _]%andb_prop]%elem_of_filter_bool)%list_elem_of_fmap.
  by apply net_owner_row.
Qed.

Lemma listed_elem items m :
  listed items m = true <-> exists i, i ∈ items /\ it_endpointId i = mb_endpointId m /\ it_networkId i = mb_networkId m.
Proof.
  unfold listed, is_membership. rewrite existsb_exists. setoid_rewrite <- list_elem_of_In.
  setoid_rewrite andb_true_iff. setoid_rewrite String.eqb_eq. naive_solver.
Qed.

Lemma orphans_elem named ids db e :
  e ∈ orphans named ids db <-> e ∈ ids /\ e ∈ named /\ forall m, m ∈ dd_memberships db -> mb_endpointId m <> e.
Proof.
  unfold orphans. rewrite elem_of_filter_bool, andb_true_iff, negb_true_iff, bool_decide_eq_true,
    bool_decide_eq_false, list_elem_of_fmap. setoid_rewrite elem_of_filter_bool.
  setoid_rewrite bool_decide_eq_true. split.
  - intros (Hi & Hn & Hno). split_and!; [done..|]. intros m Hm <-. apply Hno. eauto.
  - intros (Hi & Hn & Hno). split_and!; [done..|]. intros (m & -> & Hm & _). by apply (Hno m Hm).
Qed.

Lemma step_bump_networks org ns db : step_ok org db (foldl (fun db n => bump_network n org db) db ns).
Proof.
  revert db. induction ns as [|n ns IH]; intros db; cbn; [reflexivity|].
  etransitivity; [apply step_bump_network|apply IH].
Qed.

Lemma removeDeviceMembershipsBulk_step org actor items s s' z :
  removeDeviceMembershipsBulk org actor items s = (s', Ok z) -> step_ok org s.1 s'.1.
Proof.
  destruct (removeDeviceMembershipsBulk_Ok org actor items s) as (event & ->). intros H.
  destruct items as [|i items]; [by injection H as <- <-|]. revert H. set (all := i :: items).
  destruct (valid_items _ _ _) as [|v valid0] eqn:Ev; intros H; injection H as <- <-; [done|]. cbn [fst].
  unfold removed_many. cbn zeta. set (valid := valid_items org (unseen [] all) s.1).
  intros Hwf. assert (forall m, listed valid m = true -> net_owner s.1 (mb_networkId m) = Some org) as Hnet.
  { intros m (x & [_ [_ Hx%bool_decide_eq_true]%andb_prop]%elem_of_filter_bool & _ & <-)%listed_elem.
    by eapply named_networks_owner. }
  assert (forall e, e ∈ named_devices org (unseen [] all) s.1 -> dev_owner (without_listed valid s.1) e = Some org) as Hdev
    by (intros e He; eapply named_devices_owner in He; [exact He|done]).
  revert Hwf. match goal with |- db_wf _ -> _ => idtac end.
  match goal with |- _ -> (db_wf ?d /\ _) /\ _ => change (step_ok org s.1 d) end.
  etransitivity; [|apply step_bump_networks]. transitivity (without_listed valid s.1).
  - apply step_remove_memberships. auto.
  - unfold purge_orphans. destruct (orphans _ _ _) as [|o os] eqn:Eo; [reflexivity|]. rewrite <- Eo.
    etransitivity; [|apply step_bump_org]. apply step_delete_devices.
    + intros e He%bool_decide_eq_true. apply orphans_elem in He as (_ & ? & _). auto.
    + intros m Hm. apply bool_decide_eq_false. intros (_ & _ & Hno)%orphans_elem. by apply (Hno m Hm).
Qed.

(** *** The routes *)
Inductive device_request :=
| RqPatch (endpointId : string) (patch : PatchDeviceBody) (now : Z)
| RqLabels (endpointId : string) (patch : list (string * option string))
| RqStatus (networkId endpointId : string) (status : membership_status)
| RqApprove (networkId endpointId : string)
| RqReject (networkId endpointId : string)
| RqDelete (networkId endpointId : string)
| RqBulk (items : list RemoveItem)
| RqSdk (keyId : string) (scopes : list string) (networkIds : option (list string)) (items : list RemoveItem).

Definition ignore {A} (m : DeviceTx A) : DeviceTx unit := _ ← m; mret tt.

(** A request by a user of an organization, or by a key of it. *)
Definition handle (parse : string -> option (option Q)) (org user : string) (q : device_request)
    : DeviceTx unit :=
  match q with
  | RqPatch e patch now => ignore (patchDeviceRoute parse org user e patch now)
  | RqLabels e patch => ignore (patchLabelsRoute org user e patch)
  | RqStatus n e status => ignore (patchMembershipRoute org user n e status)
  | RqApprove n e => ignore (approveRoute org user n e)
  | RqReject n e => ignore (rejectRoute org user n e)
  | RqDelete n e => ignore (deleteDeviceRoute org user n e)
  | RqBulk items => ignore (deleteDevicesRoute org user items)
  | RqSdk id scopes networkIds items =>
      ignore (deleteSdkNodesRoute (mkVerifiedKey id org scopes networkIds) org items)
  end.

Lemma tx_safe_bump_org org : tx_safe (step_ok org) (update (bump_org org) : DeviceTx unit).
Proof. intros s. apply step_bump_org. Qed.
Lemma tx_safe_bump_network n org : tx_safe (step_ok org) (update (bump_network n org) : DeviceTx unit).
Proof. intros s. apply step_bump_network. Qed.
Lemma tx_safe_when org b m : tx_safe (step_ok org) m -> tx_safe (step_ok org) (when b m).
Proof. destruct b; [done|]. intros _. apply (tx_safe_ret _). Qed.
Lemma tx_safe_ignore {A} org (m : DeviceTx A) : tx_safe (step_ok org) m -> tx_safe (step_ok org) (ignore m).
Proof. intros Hm. apply tx_safe_bind; [typeclasses eauto|done|]. intros a. apply (tx_safe_ret _). Qed.
Lemma tx_step_remove org actor n e auditAction : tx_step (step_ok org) (removeDeviceMembership org actor n e auditAction).
Proof. intros s s' [[]|] E; [|done]. by eapply removeDeviceMembership_step. Qed.
Lemma tx_step_bulk org actor items : tx_step (step_ok org) (removeDeviceMembershipsBulk org actor items).
Proof. intros s s' [z|] E; [|done]. by eapply removeDeviceMembershipsBulk_step. Qed.

#[local] Hint Resolve tx_safe_bump_org tx_safe_bump_network tx_safe_when tx_safe_ignore tx_step_remove tx_step_bulk
  : txdb.

Lemma tx_step_update_device org e f :
  (forall d, dv_endpointId (f d) = dv_endpointId d /\ dv_organizationId (f d) = dv_organizationId d) ->
  (forall d, (dv_ipv6Enabled d = true -> dv_ipv6EnabledAt d <> None) ->
     dv_ipv6Enabled (f d) = true -> dv_ipv6EnabledAt (f d) <> None) ->
  forall db, db_wf db -> (exists d, device_in_org e org db = Some d) ->
  step_ok org db (update_device e f db).
Proof.
  intros Hf H6 db Hwf [d Hd]. apply step_update_device; [|done|auto].
  by eapply device_in_org_owner.
Qed.

Lemma tx_step_patch parse e org patch now : tx_step (step_ok org) (applyDevicePatch parse e org patch now).
Proof.
  intros s s' [r|] E; [|done]. intros Hwf. revert E. unfold applyDevicePatch.
  unfold mbind, tx_mbind, tx_bind, query, update. cbn [fst snd].
  destruct (device_in_org e org s.1) as [d|] eqn:Hd; [|by intros [= <- <-]].
  intros E. assert (exists ttl, s' = s \/ s' = (update_device e (apply_patch patch now ttl) s.1, s.2)) as (ttl & Hs).
  { destruct (pb_expiresIn patch) as [x|].
    - destruct (patch_ttl parse x) as [t|m]; unfold mret, tx_mret, tx_ret, throw in E; cbn in E; [|done].
      exists (Some t). right. destruct (pb_name patch), (pb_ipv6Enabled patch); by simplify_eq.
    - exists None. unfold mret, tx_mret, tx_ret in E. cbn in E.
      destruct (pb_name patch), (pb_ipv6Enabled patch); cbn in E; simplify_eq; auto. }
  destruct Hs as [->| ->]; [by split|]. cbn [fst]. revert Hwf.
  match goal with |- _ -> (db_wf ?x /\ _) /\ _ => change (step_ok org s.1 x) end. intros Hwf.
  eapply tx_step_update_device; try done; [|by eexists].
  intros d0 H0. cbn. by destruct (pb_ipv6Enabled patch) as [[]|].
Qed.

Lemma tx_step_labels e org patch : tx_step (step_ok org) (applyDeviceLabelsPatch e org patch).
Proof.
  intros s s' [r|] E; [|done]. intros Hwf. revert E. unfold applyDeviceLabelsPatch.
  unfold mbind, tx_mbind, tx_bind, query, update. cbn [fst snd].
  destruct (device_in_org e org s.1) as [d|] eqn:Hd; [|by intros [= <- <-]].
  intros [= <- _]. eapply tx_step_update_device; try done. by eexists.
Qed.

(** A change of status in a network of the organization. *)
Lemma tx_step_status {A} org n e status (k : DeviceTx A) :
  tx_safe (step_ok org) k ->
  forall s s' r, (_ ← update (set_status e n status); k) s = (s', r) ->
  net_owner s.1 n = Some org -> step_ok org s.1 s'.1.
Proof.
  intros Hk s s' r E Hn. unfold mbind, tx_mbind, tx_bind, update in E. cbn [fst snd] in E.
  specialize (Hk (set_status e n status s.1, s.2)). rewrite E in Hk. cbn [fst] in Hk.
  etransitivity; [by apply step_set_status|done].
Qed.

Lemma tx_safe_pending org m : tx_safe (step_ok org) (must_be_pending m).
Proof. intros s. unfold must_be_pending. by destruct (mb_status m). Qed.
#[local] Hint Resolve tx_step_patch tx_step_labels tx_safe_pending : txdb.

Lemma tx_safe_network_route {A} org n (k : NetworkVersion -> DeviceTx (reply A)) message :
  (forall s nw, getNetworkInOrg n org s.1 = Some nw -> step_ok org s.1 (k nw s).1.1) ->
  tx_safe (step_ok org) (network ← query (getNetworkInOrg n org);
               match network with None => mret (NotFound message) | Some nw => k nw end).
Proof.
  intros Hk s. unfold mbind, tx_mbind, tx_bind, query. cbn [fst].
  destruct (getNetworkInOrg n org s.1) as [nw|] eqn:E; [by apply Hk|reflexivity].
Qed.

(** Runs a computation by hand. *)
Ltac run_tx :=
  unfold must_be_pending, mbind, tx_mbind, tx_bind, transaction, catch, query, update, writeAudit, or_throw,
    throw, mret, tx_mret, tx_ret; cbn [fst snd].

Lemma step_status_bump org n e status db nw :
  getNetworkInOrg n org db = Some nw ->
  step_ok org db (bump_network n org (set_status e n status db)).
Proof.
  intros Hn Hwf. pose proof (network_in_org_owner _ _ _ _ Hwf Hn) as Ho. revert Hwf.
  match goal with |- _ -> (db_wf ?x /\ _) /\ _ => change (step_ok org db x) end.
  etransitivity; [by apply step_set_status|apply step_bump_network].
Qed.

Lemma tx_safe_patchMembership org user n e status : tx_safe (step_ok org) (patchMembershipRoute org user n e status).
Proof.
  apply tx_safe_network_route. intros s nw Hn. run_tx.
  destruct (find_membership _ _ _); cbn [fst snd]; [|reflexivity].
  destruct (own_device _ _); cbn [fst snd]; [|reflexivity]. by eapply step_status_bump.
Qed.

Lemma tx_safe_approve org user n e : tx_safe (step_ok org) (approveRoute org user n e).
Proof.
  apply tx_safe_network_route. intros s nw Hn. run_tx.
  destruct (find_membership e n s.1) as [m|]; cbn [fst snd]; [|reflexivity].
  destruct (mb_status m); cbn [fst snd]; try reflexivity.
  destruct (own_device _ _); cbn [fst snd]; [|reflexivity].
  destruct (find_membership _ _ _); cbn [fst snd]; [|reflexivity]. by eapply step_status_bump.
Qed.

Lemma tx_step_sdk org actor networkIds items k : tx_step (step_ok org) (sdk_loop org actor networkIds items k).
Proof.
  revert k. induction items as [|i items IH]; intros k; cbn [sdk_loop]; [auto with txdb|].
  destruct (negb _); auto with txdb.
Qed.

Lemma handle_safe parse org user q : tx_safe (step_ok org) (handle parse org user q).
Proof.
  destruct q; cbn [handle]; apply tx_safe_ignore.
  - unfold patchDeviceRoute. tx_apply @tx_safe_bind; [|auto with txdb]. tx_apply @tx_safe_transaction.
    tx_apply @tx_step_bind; [auto with txdb|]. intros [d|]; auto 10 with txdb.
  - unfold patchLabelsRoute. tx_apply @tx_safe_bind; [|auto with txdb]. tx_apply @tx_safe_transaction.
    tx_apply @tx_step_bind; [auto with txdb|]. intros [d|]; auto 10 with txdb.
  - apply tx_safe_patchMembership.
  - apply tx_safe_approve.
  - apply tx_safe_network_route. intros s nw _. apply tx_safe_catch. tx_apply @tx_safe_transaction.
    repeat (tx_apply @tx_step_bind; [auto with txdb|intros ?]); auto with txdb.
  - apply tx_safe_network_route. intros s nw _. tx_apply @tx_safe_bind; auto with txdb.
  - unfold deleteDevicesRoute. auto with txdb.
  - unfold deleteSdkNodesRoute. destruct (negb _); [auto with txdb|]. destruct items; [auto with txdb|].
    destruct (_ <? _)%nat; [auto with txdb|]. tx_apply @tx_safe_bind; [|auto with txdb].
    tx_apply @tx_safe_transaction. apply tx_step_sdk.
Qed.

(** *** One at a time and all at once *)
(** Named by an item, and every membership it had is listed. *)
Definition gone (items : list RemoveItem) (ms : list Membership) (e : string) : bool :=
  existsb (fun i => (it_endpointId i =? e)%string) items
  && forallb (fun m => negb (mb_endpointId m =? e)%string || listed items m) ms.

Definition core (db : DeviceDb) : list Device * list Membership * list DeviceTagRow :=
  (dd_devices db, dd_memberships db, dd_deviceTags db).
(** The devices, memberships and tags when the listed memberships are gone. *)
Definition core_without (items : list RemoveItem) (db : DeviceDb)
    : list Device * list Membership * list DeviceTagRow :=
  (List.filter (fun d => negb (gone items (dd_memberships db) (dv_endpointId d))) (dd_devices db),
   List.filter (fun m => negb (listed items m)) (dd_memberships db),
   List.filter (fun t => negb (gone items (dd_memberships db) (dt_endpoint t))) (dd_deviceTags db)).

Lemma gone_iff items ms e :
  gone items ms e = true <->
  (exists i, i ∈ items /\ it_endpointId i = e)
  /\ forall m, m ∈ ms -> mb_endpointId m = e -> listed items m = true.
Proof.
  unfold gone. rewrite andb_true_iff, existsb_exists, forallb_forall. setoid_rewrite <- list_elem_of_In.
  setoid_rewrite String.eqb_eq. setoid_rewrite orb_true_iff. setoid_rewrite negb_true_iff.
  setoid_rewrite String.eqb_neq. split; intros [H1 H2]; (split; [done|]); intros m Hm.
  - intros He. by destruct (H2 m Hm).
  - destruct (decide (mb_endpointId m = e)); auto.
Qed.

Lemma listed_snoc P i m : listed (P ++ [i]) m = listed P m || is_membership (it_endpointId i) (it_networkId i) m.
Proof. unfold listed. rewrite existsb_app. cbn. by rewrite orb_false_r. Qed.

Lemma filter_none {A} (p : A -> bool) l : List.filter p l = [] -> List.filter (fun x => negb (p x)) l = l.
Proof. induction l as [|x l IH]; cbn; [done|]. destruct (p x); [done|]. intros H. cbn. by rewrite IH. Qed.

(** Another item concerns its own device only. *)
Lemma gone_snoc_other P i ms x : x <> it_endpointId i -> gone (P ++ [i]) ms x = gone P ms x.
Proof.
  intros Hne. apply eq_bool_prop_intro. rewrite !Is_true_true, !gone_iff.
  setoid_rewrite elem_of_app. setoid_rewrite list_elem_of_singleton.
  assert (forall m, mb_endpointId m = x -> listed (P ++ [i]) m = listed P m) as Hls.
  { intros m Hmx. rewrite listed_snoc. unfold is_membership.
    rewrite (proj2 (String.eqb_neq (mb_endpointId m) (it_endpointId i))) by congruence. apply orb_false_r. }
  split; intros [(y & Hy & Hye) H]; (split; [|intros m Hmm Hmx; specialize (H m Hmm Hmx);
    rewrite Hls in * by done; done]); [|by eauto].
  destruct Hy as [Hy| ->]; [by eauto|congruence].
Qed.

(** Its device is gone when no membership of it is left. *)
Lemma gone_snoc_same P i ms :
  gone (P ++ [i]) ms (it_endpointId i)
  = match List.filter (fun m => negb (listed (P ++ [i]) m) && (mb_endpointId m =? it_endpointId i)%string) ms with
    | [] => true | _ => false end.
Proof.
  apply eq_bool_prop_intro. rewrite !Is_true_true, gone_iff.
  destruct (List.filter (fun m => negb (listed (P ++ [i]) m) && _) ms) as [|m l] eqn:E.
  - split; [done|]. intros _. split; [exists i; split; [apply elem_of_app; right; by left|done]|].
    intros m Hmm Hme. destruct (listed (P ++ [i]) m) eqn:El; [done|].
    exfalso. apply (proj1 (elem_of_nil m)). rewrite <- E. apply elem_of_filter_bool.
    by rewrite El, Hme, String.eqb_refl.
  - split; [|done]. intros [_ H]. exfalso.
    assert (m ∈ m :: l) as Hin by (by left). rewrite <- E in Hin.
    apply elem_of_filter_bool in Hin as [Hin [Hn He%String.eqb_eq]%andb_prop].
    rewrite (H m Hin He) in Hn. done.
Qed.

(** Removing the next item. *)
Lemma core_removed_one org P i db0 db :
  core db = core_without P db0 ->
  (exists m, m ∈ dd_memberships db0 /\ is_membership (it_endpointId i) (it_networkId i) m = true
     /\ listed P m = false) ->
  core (removed_one org (it_networkId i) (it_endpointId i) db) = core_without (P ++ [i]) db0.
Proof.
  intros Hc (m0 & Hm0 & Hi & Hl). unfold core, core_without in Hc. injection Hc as Hd Hm Ht.
  set (ms := dd_memberships db0) in *. pose proof (gone_snoc_same P i ms) as Hge.
  pose proof (gone_snoc_other P i ms) as Hx.
  set (e := it_endpointId i) in *. set (n := it_networkId i) in *.
  assert (gone P ms e = false) as Hg.
  { apply not_true_is_false. intros [_ H]%gone_iff. apply andb_prop in Hi as [Hi%String.eqb_eq _].
    specialize (H m0 Hm0 Hi). congruence. }
  assert (dd_memberships (without_membership n e db) = List.filter (fun m => negb (listed (P ++ [i]) m)) ms) as Hms.
  { cbn. rewrite Hm, filter_and. apply filter_ext_elem. intros m _. by rewrite listed_snoc, negb_orb. }
  rewrite <- filter_and, <- Hms in Hge.
  unfold removed_one, purge_device, core_without, core. fold ms.
  destruct (List.filter (fun m => (mb_endpointId m =? e)%string) (dd_memberships (without_membership n e db)))
    as [|r rs] eqn:Er.
  - assert (forall x, negb (gone P ms x) && negb (e =? x)%string = negb (gone (P ++ [i]) ms x)) as Hneg.
    { intros x. destruct (String.eqb_spec e x) as [<-|]; [by rewrite Hge, andb_false_r|].
      rewrite Hx by congruence. apply andb_true_r. }
    cbn [bump_network bump_org delete_devices bumpNetworkAndNotify bumpOrgAndNotify dd_devices dd_memberships
      dd_deviceTags without_membership with_memberships].
    rewrite Hd, Ht, !filter_and. f_equal; [f_equal|]; [apply filter_ext_elem; intros; apply Hneg| |
      apply filter_ext_elem; intros; apply Hneg].
    cbn in Hms. rewrite <- Hms. etransitivity; [|exact (filter_none _ _ Er)]. cbn. rewrite filter_and.
    apply filter_ext_elem.
    intros m _. by rewrite String.eqb_sym.
  - assert (forall x, gone P ms x = gone (P ++ [i]) ms x) as Hsame.
    { intros x. destruct (decide (x = e)) as [->|]; [congruence|]. by rewrite Hx. }
    cbn [bump_network bumpNetworkAndNotify dd_devices dd_memberships dd_deviceTags without_membership with_memberships].
    cbn in Hms. rewrite Hd, Ht, Hms.
    f_equal; [f_equal|]; apply filter_ext_elem; intros; by rewrite Hsame.
Qed.

Definition network_keys (db : DeviceDb) : list (string * string) :=
  map (fun n => (nv_id n, nv_org n)) (dd_networks db).

Lemma getNetworkInOrg_iff n org db :
  (exists nw, getNetworkInOrg n org db = Some nw) <-> (n, org) ∈ network_keys db.
Proof.
  unfold getNetworkInOrg, network_keys. fold (is_Some (List.find (fun x => (nv_id x =? n)%string
    && (nv_org x =? org)%string) (dd_networks db))). rewrite find_is_Some, list_elem_of_fmap. split.
  - intros (x & Hx & [<-%String.eqb_eq <-%String.eqb_eq]%andb_prop). eauto.
  - intros (x & [= -> ->] & Hx). exists x. by rewrite !String.eqb_refl.
Qed.

Lemma network_keys_removed_one org n e db : network_keys (removed_one org n e db) = network_keys db.
Proof.
  unfold network_keys, removed_one, purge_device.
  assert (forall l, map (fun x => (nv_id x, nv_org x)) (bumpNetworkVersion n org l)
    = map (fun x => (nv_id x, nv_org x)) l) as Hb.
  { intros l. unfold bumpNetworkVersion. rewrite map_map. apply map_ext. intros x. by destruct (_ && _). }
  destruct (List.filter _ _); cbn -[bumpNetworkVersion]; apply Hb.
Qed.

(** An item names a membership of a device and a network of the organization. *)
Definition removable (org : string) (db : DeviceDb) (i : RemoveItem) : Prop :=
  (exists d, d ∈ dd_devices db /\ dv_endpointId d = it_endpointId i /\ dv_organizationId d = org)
  /\ (it_networkId i, org) ∈ network_keys db
  /\ exists m, m ∈ dd_memberships db /\ is_membership (it_endpointId i) (it_networkId i) m = true.

(** The next item can be removed. *)
Lemma removable_next org P i rest db0 db :
  core db = core_without P db0 -> network_keys db = network_keys db0 -> NoDup (P ++ i :: rest) ->
  removable org db0 i ->
  exists m0 d nw m, m0 ∈ dd_memberships db0 /\ is_membership (it_endpointId i) (it_networkId i) m0 = true
    /\ listed P m0 = false /\ device_in_org (it_endpointId i) org db = Some d
    /\ getNetworkInOrg (it_networkId i) org db = Some nw
    /\ head (List.filter (is_membership (it_endpointId i) (it_networkId i)) (dd_memberships db)) = Some m.
Proof.
  intros Hc Hk Hnd ((d & Hd & He & Ho) & Hn & m0 & Hm0 & Hi).
  unfold core, core_without in Hc. injection Hc as Ed Em Et.
  pose proof (andb_prop _ _ Hi) as [Hie%String.eqb_eq Hin%String.eqb_eq].
  assert (listed P m0 = false) as Hl.
  { apply not_true_is_false. intros (j & Hj & Hje & Hjn)%listed_elem.
    assert (j = i) as -> by (destruct i, j; cbn in *; congruence).
    apply list.NoDup_app in Hnd as (_ & Hx & _). apply (Hx i Hj). by left. }
  rewrite <- Hk, <- getNetworkInOrg_iff in Hn. destruct Hn as [nw Hnw].
  assert (exists d, device_in_org (it_endpointId i) org db = Some d) as [d' Hd'].
  { apply find_is_Some. exists d. split; [|by rewrite He, Ho, !String.eqb_refl]. rewrite Ed.
    apply elem_of_filter_bool. split; [done|]. apply negb_true_iff, not_true_is_false.
    intros [_ H]%gone_iff. rewrite (H m0 Hm0) in Hl by congruence. done. }
  assert (m0 ∈ List.filter (is_membership (it_endpointId i) (it_networkId i)) (dd_memberships db)) as Hh.
  { apply elem_of_filter_bool. split; [|done]. rewrite Em. apply elem_of_filter_bool. by rewrite Hl. }
  destruct (List.filter _ (dd_memberships db)) as [|m l]; [by apply elem_of_nil in Hh|].
  exists m0, d', nw, m. by split_and!.
Qed.

Lemma sdk_loop_removes org actor db0 items P s k :
  core s.1 = core_without P db0 -> network_keys s.1 = network_keys db0 -> NoDup (P ++ items) ->
  (forall i, i ∈ items -> removable org db0 i) ->
  exists s', sdk_loop org actor None items k s = (s', Ok (k + Z.of_nat (length items)))
    /\ core s'.1 = core_without (P ++ items) db0.
Proof.
  revert P s k. induction items as [|i rest IH]; intros P s k Hc Hk Hnd Hr.
  { exists s. rewrite app_nil_r. cbn. by rewrite Z.add_0_r. }
  destruct (removable_next org P i rest db0 s.1 Hc Hk Hnd) as (m0 & d & nw & m & Hm0 & Hi & Hl & Hd & Hn & Hm).
  { apply Hr. by left. }
  set (event := toIngestEvent (mkAuditInput org actor "device.deleted" (Some (mb_endpointId m))
                                 [("networkId", it_networkId i)] None)).
  set (s1 := (removed_one org (it_networkId i) (it_endpointId i) s.1, s.2 ++ [event])).
  destruct (IH (P ++ [i]) s1 (k + 1)) as (s' & E & Hs').
  - eapply core_removed_one; eauto.
  - etransitivity; [apply network_keys_removed_one|done].
  - by rewrite <- app_assoc.
  - intros j Hj. apply Hr. by right.
  - exists s'. rewrite <- app_assoc in Hs'. split; [|done]. cbn [sdk_loop canAccessNetwork negb].
    assert (removeDeviceMembership org actor (it_networkId i) (it_endpointId i) None s = (s1, Ok tt)) as Erm
      by (apply removeDeviceMembership_Ok; split_and!; eauto).
    unfold mbind, tx_mbind, tx_bind. rewrite Erm, E. do 2 f_equal. cbn [length]. lia.
Qed.

Lemma set_of_elem l x : x ∈ set_of l <-> x ∈ l.
Proof.
  unfold set_of. assert (forall s, x ∈ foldl set_add s l <-> x ∈ s \/ x ∈ l) as H.
  { induction l as [|y l IH]; intros s; cbn; [rewrite elem_of_nil; tauto|].
    rewrite IH, elem_of_cons. unfold set_add. case_bool_decide; rewrite ?elem_of_app, ?list_elem_of_singleton; naive_solver. }
  rewrite H, elem_of_nil. tauto.
Qed.

Lemma unseen_distinct seen items :
  NoDup (map item_key items) -> (forall k, k ∈ map item_key items -> k ∉ seen) -> unseen seen items = items.
Proof.
  revert seen. induction items as [|i items IH]; intros seen Hnd Hs; cbn; [done|].
  cbn in Hnd. apply list.NoDup_cons in Hnd as [Hi Hnd].
  rewrite bool_decide_eq_false_2 by (apply Hs; by left). f_equal. apply IH; [done|].
  intros k Hk. rewrite elem_of_app, list_elem_of_singleton. intros [Hin| ->]; [|done].
  apply (Hs k); [by right|done].
Qed.

Lemma core_bumps org ns db : core (foldl (fun db n => bump_network n org db) db ns) = core db.
Proof. revert db. induction ns as [|n ns IH]; intros db; cbn [foldl]; [done|]. by rewrite IH. Qed.

Lemma valid_items_all org items db :
  (forall i, i ∈ items -> removable org db i) -> valid_items org items db = items.
Proof.
  intros Hr. unfold valid_items. transitivity (List.filter (fun _ : RemoveItem => true) items).
  - apply filter_ext_elem. intros i Hi. destruct (Hr i Hi) as ((d & Hd & He & Ho) & Hn & _).
    apply andb_true_intro. split; apply bool_decide_eq_true, list_elem_of_fmap.
    + exists d. split; [done|]. apply elem_of_filter_bool. split; [done|].
      apply andb_true_intro. split; [by apply String.eqb_eq|]. apply bool_decide_eq_true, set_of_elem.
      rewrite He. apply list_elem_of_fmap. eauto.
    + apply list_elem_of_fmap in Hn as (n & [= Hid Ho'] & Hn). exists n. split; [done|].
      apply elem_of_filter_bool. split; [done|]. apply andb_true_intro.
      split; [by apply String.eqb_eq|]. apply bool_decide_eq_true, set_of_elem.
      rewrite <- Hid. apply list_elem_of_fmap. eauto.
  - induction items as [|i items IH]; cbn; [done|]. f_equal. apply IH. intros j Hj. apply Hr. by right.
Qed.

(** The orphans of a bulk removal are the devices that are gone. *)
Lemma orphans_gone org items db e :
  (forall i, i ∈ items -> removable org db i) ->
  bool_decide (e ∈ orphans (named_devices org items db) (set_of (map it_endpointId items)) (without_listed items db))
  = gone items (dd_memberships db) e.
Proof.
  intros Hr. apply eq_bool_prop_intro. rewrite bool_decide_spec, Is_true_true, orphans_elem, set_of_elem, gone_iff.
  split.
  - intros ((i & -> & Hi)%list_elem_of_fmap & _ & Hno). split; [eauto|]. intros m Hm He.
    destruct (listed items m) eqn:El; [done|]. exfalso. apply (Hno m); [|done].
    apply elem_of_filter_bool. by rewrite El.
  - intros [(i & Hi & <-) H]. split_and!; [apply list_elem_of_fmap; eauto|..].
    + destruct (Hr i Hi) as ((d & Hd & He & Ho) & _). apply list_elem_of_fmap. exists d. split; [done|].
      apply elem_of_filter_bool. split; [done|]. apply andb_true_intro.
      split; [by apply String.eqb_eq|]. apply bool_decide_eq_true, set_of_elem. rewrite He.
      apply list_elem_of_fmap. eauto.
    + intros m [Hm Hl]%elem_of_filter_bool He. by rewrite (H m Hm He) in Hl.
Qed.

Lemma core_removed_many org items db :
  NoDup (map item_key items) -> (forall i, i ∈ items -> removable org db i) ->
  core (removed_many org items db) = core_without items db.
Proof.
  intros Hnd Hr. unfold removed_many. cbn zeta. rewrite core_bumps.
  rewrite unseen_distinct by (done || by intros ? _ ?%elem_of_nil). rewrite valid_items_all by done.
  pose proof (fun e => orphans_gone org items db e Hr) as Ho.
  unfold purge_orphans. destruct (orphans _ _ _) as [|o os] eqn:Eo.
  - assert (forall e, gone items (dd_memberships db) e = false) as Hg
      by (intros e; rewrite <- Ho; by apply bool_decide_eq_false, not_elem_of_nil).
    assert (forall {A} (l : list A) (f : A -> string),
      List.filter (fun x => negb (gone items (dd_memberships db) (f x))) l = l) as Hf.
    { intros A l f. induction l as [|x l IH]; cbn; [done|]. rewrite Hg. cbn. by rewrite IH. }
    unfold core, core_without. by rewrite !Hf.
  - rewrite <- Eo in *. unfold core, core_without. cbn. f_equal; [f_equal|]; try (apply filter_ext_elem; intros; by rewrite Ho).
    rewrite filter_and. apply filter_ext_elem. intros m Hm. rewrite Ho.
    destruct (listed items m) eqn:El; [done|]. cbn. apply negb_true_iff, not_true_is_false.
    intros [_ H]%gone_iff. by rewrite (H m Hm eq_refl) in El.
Qed.

(** As many rows are removed as there are items: one per key. *)
Lemma listed_count org items db :
  db_wf db -> NoDup items -> (forall i, i ∈ items -> removable org db i) ->
  length (List.filter (listed items) (dd_memberships db)) = length items.
Proof.
  intros Hwf Hnd Hr. set (key := fun m => mkItem (mb_networkId m) (mb_endpointId m)).
  rewrite <- (length_map key). apply Permutation_length, NoDup_Permutation; [|done|].
  - assert (forall l, NoDup (map (fun m => (mb_endpointId m, mb_networkId m)) l) -> NoDup (map key l)) as H.
    { induction l as [|m l IH]; cbn; [constructor|]. intros [Hm Hl]%list.NoDup_cons. apply list.NoDup_cons.
      split; [|auto]. intros (m' & E & Hm')%list_elem_of_fmap. apply Hm, list_elem_of_fmap. exists m'.
      split; [|done]. unfold key in E. congruence. }
    apply H. apply NoDup_map_filter, Hwf.
  - intros i. rewrite list_elem_of_fmap. setoid_rewrite elem_of_filter_bool. setoid_rewrite listed_elem. split.
    + intros (m & -> & _ & j & Hj & He & Hn). unfold key. rewrite <- He, <- Hn. by destruct j.
    + intros Hi. destruct (Hr i Hi) as (_ & _ & m & Hm & [He%String.eqb_eq Hn%String.eqb_eq]%andb_prop).
      exists m. unfold key. rewrite He, Hn. split; [by destruct i|]. split; [done|]. by exists i.
Qed.

(** ** Properties *)
(** Requests served one after the other, each by a user or key of an
    organization; a request that throws is answered and the next one served. *)
Definition serve (parse : string -> option (option Q)) (s : state DeviceDb)
    (requests : list (string * string * device_request)) : state DeviceDb :=
  foldl (fun s r => (handle parse r.1.1 r.1.2 r.2 s).1) s requests.

(** Whatever requests are served, the device tables stay well-formed: keys are
    unique, memberships and tags refer to rows that exist, and IPv6 is enabled
    only with a time. *)
Theorem device_tables_wellformed (parse : string -> option (option Q)) (s : state DeviceDb)
    (requests : list (string * string * device_request)) :
  db_wf s.1 -> db_wf (serve parse s requests).1.
Proof.
  revert s. induction requests as [|[[org user] q] rest IH]; intros s Hwf; [done|].
  apply IH. by apply (handle_safe parse org user q s).
Qed.

(** Organizations are isolated: requests of other organizations change none of
    an organization's devices, tags, networks, memberships and versions. *)
Theorem device_requests_isolated (parse : string -> option (option Q)) (s : state DeviceDb)
    (requests : list (string * string * device_request)) (org : string) :
  db_wf s.1 -> Forall (fun r => r.1.1 <> org) requests ->
  org_view org (serve parse s requests).1 = org_view org s.1.
Proof.
  revert s. induction requests as [|[[org' user] q] rest IH]; intros s Hwf Hr; [done|].
  apply list.Forall_cons in Hr as [Hne Hr]. cbn in Hne. destruct (handle_safe parse org' user q s Hwf) as [[Hwf' _] Hv].
  cbn [serve foldl fst snd]. fold (serve parse (handle parse org' user q s).1 rest).
  rewrite IH by done. apply Hv. congruence.
Qed.

(** C34: Removing memberships in bulk, with one statement per network, and removing
    them one at a time leave the same devices, memberships and tags, for every
    list of distinct memberships of the organization; both report the number
    of items. *)
Theorem bulk_removal_equivalent (org actor actor' : string) (items : list RemoveItem) (s : state DeviceDb) :
  db_wf s.1 -> items <> [] -> NoDup (map item_key items) ->
  (forall i, i ∈ items -> removable org s.1 i) ->
  exists s1 s2 : state DeviceDb,
    removeDeviceMembershipsBulk org actor items s = (s1, Ok (Z.of_nat (length items)))
    /\ sdk_loop org actor' None items 0 s = (s2, Ok (Z.of_nat (length items)))
    /\ core s1.1 = core s2.1.
Proof.
  intros Hwf Hne Hk Hr.
  assert (NoDup items) as Hnd by (by eapply NoDup_fmap_1).
  destruct (removeDeviceMembershipsBulk_Ok org actor items s) as (event & Hb).
  assert (unseen [] items = items) as Hu by (apply unseen_distinct; [done|]; by intros ? _ ?%elem_of_nil).
  destruct (sdk_loop_removes org actor' s.1 items [] s 0) as (s2 & E2 & Hc2); try done.
  { unfold core, core_without. cbn. by rewrite !filter_true. }
  destruct items as [|i rest]; [done|]. set (items := i :: rest) in *.
  exists (removed_many org items s.1, s.2 ++ [event]), s2. split_and!; [|done|].
  - rewrite Hb, Hu, valid_items_all by done. unfold items at 1 2. do 3 f_equal. by eapply listed_count.
  - cbn [fst]. by rewrite core_removed_many, Hc2.
Qed.

(** ** Witnesses *)
Definition dev (e org : string) : Device := mkDeviceRec e org e false None [] None None.
Definition sample_devices : DeviceDb :=
  mkDeviceDb [dev "e1" "acme"; dev "e2" "acme"; dev "e3" "beta"]
    [mkNetworkVersion "n1" "acme" 0; mkNetworkVersion "n2" "acme" 0; mkNetworkVersion "n3" "beta" 0]
    [mkMembership "e1" "n1" ms_active; mkMembership "e1" "n2" ms_pending; mkMembership "e2" "n1" ms_active;
     mkMembership "e3" "n3" ms_active]
    [mkDeviceTag "e1" "web"; mkDeviceTag "e3" "db"] [("acme", 1); ("beta", 1)] [].

Lemma sample_devices_wf : db_wf sample_devices.
Proof.
  constructor; cbn [dd_devices dd_networks dd_memberships dd_deviceTags sample_devices]; [apply (bool_decide_unpack _); reflexivity..| | | | |].
  1-4: intros x Hx; repeat (apply elem_of_cons in Hx as [->|Hx]; [apply (bool_decide_unpack _); reflexivity|]);
    by apply elem_of_nil in Hx.
  intros x Hx. repeat (apply elem_of_cons in Hx as [->|Hx]; [discriminate|]). by apply elem_of_nil in Hx.
Qed.

Definition no_parse (_ : string) : option (option Q) := None.
Definition sample_requests : list (string * string * device_request) :=
  [("acme", "u", RqApprove "n2" "e1"); ("acme", "u", RqDelete "n3" "e3");
   ("acme", "u", RqBulk [mkItem "n1" "e1"; mkItem "n2" "e1"; mkItem "n3" "e3"])].

Lemma device_tables_wellformed_witness : db_wf (serve no_parse (sample_devices, []) sample_requests).1.
Proof. apply (device_tables_wellformed no_parse (sample_devices, []) sample_requests). exact sample_devices_wf. Defined.

Lemma device_requests_isolated_witness :
  org_view "beta" (serve no_parse (sample_devices, []) sample_requests).1 = org_view "beta" sample_devices
  /\ map dv_endpointId (dd_devices (serve no_parse (sample_devices, []) sample_requests).1) = ["e2"; "e3"].
Proof.
  split; [|vm_compute; reflexivity].
  apply (device_requests_isolated no_parse (sample_devices, []) sample_requests "beta").
  - exact sample_devices_wf.
  - repeat constructor; discriminate.
Defined.

Definition sample_items : list RemoveItem := [mkItem "n2" "e1"; mkItem "n1" "e2"; mkItem "n1" "e1"].

Lemma bulk_removal_equivalent_witness :
  exists s1 s2 : state DeviceDb,
    removeDeviceMembershipsBulk "acme" "u" sample_items (sample_devices, []) = (s1, Ok 3)
    /\ sdk_loop "acme" "api_key:k" None sample_items 0 (sample_devices, []) = (s2, Ok 3)
    /\ core s1.1 = core s2.1.
Proof.
  apply (bulk_removal_equivalent "acme" "u" "api_key:k" sample_items (sample_devices, [])).
  - exact sample_devices_wf.
  - discriminate.
  - apply (bool_decide_unpack _). reflexivity.
  - intros i Hi.
    repeat (apply elem_of_cons in Hi as [->|Hi]; [split_and!; [| |]|]); [..|by apply elem_of_nil in Hi].
    + exists (dev "e1" "acme"). by split_and!; [left|..].
    + apply (bool_decide_unpack _). reflexivity.
    + exists (mkMembership "e1" "n2" ms_pending). split; [by right; left|done].
    + exists (dev "e2" "acme"). by split_and!; [right; left|..].
    + apply (bool_decide_unpack _). reflexivity.
    + exists (mkMembership "e2" "n1" ms_active). split; [by right; right; left|done].
    + exists (dev "e1" "acme"). by split_and!; [left|..].
    + apply (bool_decide_unpack _). reflexivity.
    + exists (mkMembership "e1" "n1" ms_active). split; [by left|done].
Defined.
