(* ===== verification/Networks.v ===== *)
(** * Networks and what belongs to them
      ([apps/management/src/api/v1/networks.ts], [subnet-routes.ts],
      [hostname-routes.ts], [device-profiles.ts], [node-groups.ts]; the route
      for agents of [crates/tunnet-control/src/tunnels.rs])

    Networks, subnet and hostname routes, exit nodes, device profiles and node
    groups, with the requests that change them, next to the device tables and
    requests of [Devices].  The networks table is held in two parts: keys and
    versions with the device tables, the other columns here.  A foreign key
    deletes or clears rows when the row it refers to goes.  New keys are
    arguments of the requests that insert rows, and so is the time.  Histories
    are requests served one after the other; the creation of a subnet route is
    also modelled with its checks on an earlier database.  Audit events
    carry the metadata that are texts; a parsed body or a count given as metadata
    is left out, and so are the [createdAt] columns. *)
From Stdlib Require Import QArith.
From S2P Require Import Prelude AuditEvent Notify Tx Plans OrgBilling Duration Ip Settings Devices.
Local Open Scope Z_scope.

(** ** Tables *)
Inductive NetworkDefaultAction := net_allow | net_deny.
Inductive NetworkIcmpPolicy := net_icmp_allow | net_icmp_acl | net_icmp_deny.

Record NetworkConfig := mkNetworkConfig {
  nc_id : string; nc_name : string; nc_cidr : string; nc_mtu : Z;
  nc_defaultAction : NetworkDefaultAction; nc_icmpPolicy : NetworkIcmpPolicy; nc_settings : jsv }.
Record SubnetRouteRow := mkSubnetRow {
  sn_id : string; sn_endpointId : string; sn_networkId : string; sn_cidr : string;
  sn_description : option string; sn_enabled : bool }.
Record HostnameRouteRow := mkHostnameRow {
  hn_id : string; hn_endpointId : string; hn_networkId : string; hn_hostname : string; hn_isWildcard : bool;
  hn_targetIp : option string; hn_description : option string; hn_enabled : bool }.
Record ExitNodeRow := mkExitNodeRow {
  en_endpointId : string; en_networkId : string; en_enabled : bool; en_allowedCidrs : list string;
  en_updatedAt : Z }.
Inductive SplitTunnelMode := split_include | split_exclude.
Record ProfileRow := mkProfileRow {
  pf_endpointId : string; pf_networkId : string; pf_exitNodeEndpointId : option string;
  pf_splitTunnelMode : SplitTunnelMode; pf_splitTunnelCidrs : list string; pf_updatedAt : Z }.
Record NodeGroupRow := mkNodeGroupRow {
  gr_id : string; gr_networkId : string; gr_name : string; gr_haEnabled : bool;
  gr_activeEndpointId : option string }.
Record GroupMemberRow := mkGroupMember { gm_groupId : string; gm_endpointId : string; gm_priority : Z }.

Record NetDb := mkNetDb {
  nd_dev : DeviceDb;
  nd_configs : list NetworkConfig;
  nd_subnets : list SubnetRouteRow;
  nd_hostnames : list HostnameRouteRow;
  nd_exits : list ExitNodeRow;
  nd_profiles : list ProfileRow;
  nd_groups : list NodeGroupRow;
  nd_members : list GroupMemberRow
}.

Definition with_dev (db : NetDb) d := mkNetDb d (nd_configs db) (nd_subnets db) (nd_hostnames db) (nd_exits db)
  (nd_profiles db) (nd_groups db) (nd_members db).
Definition with_configs (db : NetDb) l := mkNetDb (nd_dev db) l (nd_subnets db) (nd_hostnames db) (nd_exits db)
  (nd_profiles db) (nd_groups db) (nd_members db).
Definition with_subnets (db : NetDb) l := mkNetDb (nd_dev db) (nd_configs db) l (nd_hostnames db) (nd_exits db)
  (nd_profiles db) (nd_groups db) (nd_members db).
Definition with_hostnames (db : NetDb) l := mkNetDb (nd_dev db) (nd_configs db) (nd_subnets db) l (nd_exits db)
  (nd_profiles db) (nd_groups db) (nd_members db).
Definition with_exits (db : NetDb) l := mkNetDb (nd_dev db) (nd_configs db) (nd_subnets db) (nd_hostnames db) l
  (nd_profiles db) (nd_groups db) (nd_members db).
Definition with_profiles (db : NetDb) l := mkNetDb (nd_dev db) (nd_configs db) (nd_subnets db) (nd_hostnames db)
  (nd_exits db) l (nd_groups db) (nd_members db).
Definition with_groups (db : NetDb) l := mkNetDb (nd_dev db) (nd_configs db) (nd_subnets db) (nd_hostnames db)
  (nd_exits db) (nd_profiles db) l (nd_members db).
Definition with_members (db : NetDb) l := mkNetDb (nd_dev db) (nd_configs db) (nd_subnets db) (nd_hostnames db)
  (nd_exits db) (nd_profiles db) (nd_groups db) l.

(** ** Foreign keys *)
Definition has_device (dev : DeviceDb) (e : string) : bool :=
  existsb (fun d => (dv_endpointId d =? e)%string) (dd_devices dev).
Definition has_network (dev : DeviceDb) (n : string) : bool :=
  existsb (fun x => (nv_id x =? n)%string) (dd_networks dev).
Definition has_group (groups : list NodeGroupRow) (g : string) : bool :=
  existsb (fun x => (gr_id x =? g)%string) groups.

(** [ON DELETE SET NULL] *)
Definition set_null (dev : DeviceDb) (o : option string) : option string :=
  match o with Some e => if has_device dev e then Some e else None | None => None end.

(** What the foreign keys do when devices or networks have been deleted. *)
Definition cascade (db : NetDb) : NetDb :=
  let dev := with_memberships (nd_dev db)
    (List.filter (fun m => has_network (nd_dev db) (mb_networkId m)) (dd_memberships (nd_dev db))) in
  let both e n := has_device dev e && has_network dev n in
  let groups := map (fun g => mkNodeGroupRow (gr_id g) (gr_networkId g) (gr_name g) (gr_haEnabled g)
                                (set_null dev (gr_activeEndpointId g)))
                  (List.filter (fun g => has_network dev (gr_networkId g)) (nd_groups db)) in
  mkNetDb dev
    (List.filter (fun c => has_network dev (nc_id c)) (nd_configs db))
    (List.filter (fun r => both (sn_endpointId r) (sn_networkId r)) (nd_subnets db))
    (List.filter (fun r => both (hn_endpointId r) (hn_networkId r)) (nd_hostnames db))
    (List.filter (fun r => both (en_endpointId r) (en_networkId r)) (nd_exits db))
    (map (fun p => mkProfileRow (pf_endpointId p) (pf_networkId p) (set_null dev (pf_exitNodeEndpointId p))
                     (pf_splitTunnelMode p) (pf_splitTunnelCidrs p) (pf_updatedAt p))
       (List.filter (fun p => both (pf_endpointId p) (pf_networkId p)) (nd_profiles db)))
    groups
    (List.filter (fun m => has_group groups (gm_groupId m) && has_device dev (gm_endpointId m)) (nd_members db)).

Definition NetTx := Tx NetDb string.

(** A request on devices, with what it cascades to. *)
Definition on_devices {A} (m : DeviceTx A) : NetTx A :=
  fun s => let '((dev, events), r) := m (nd_dev s.1, s.2) in ((cascade (with_dev s.1 dev), events), r).

(** [bumpNetworkAndNotify] *)
Definition bump (networkId organizationId : string) : NetTx unit :=
  update (fun db => with_dev db (bump_network networkId organizationId (nd_dev db))).

(** ** Queries *)
Definition find_config (networkId : string) (db : NetDb) : option NetworkConfig :=
  List.find (fun c => (nc_id c =? networkId)%string) (nd_configs db).
(** [getNetworkInOrg], with the columns that are read *)
Definition network_in_org (networkId organizationId : string) (db : NetDb) : option NetworkConfig :=
  match getNetworkInOrg networkId organizationId (nd_dev db) with
  | Some _ => find_config networkId db
  | None => None
  end.
Definition membership_of (endpointId networkId : string) (db : NetDb) : option Membership :=
  find_membership endpointId networkId (nd_dev db).

(** A route of a network of the organization. *)
Definition in_network {A} (networkId organizationId : string) (k : NetworkConfig -> NetTx (reply A))
    : NetTx (reply A) :=
  network ← query (network_in_org networkId organizationId);
  match network with None => mret (NotFound "Network not found") | Some nw => k nw end.

(** Bodies that the schemas refuse, and keys that are taken, are errors. *)
Definition guard (b : bool) (message : string) : NetTx unit := if b then mret tt else throw message.

(** ** Updates and deletions that return the row
    ([UPDATE … WHERE … RETURNING], an audit event, a new version) *)
Section Rows.
Context {R : Type} (get : NetDb -> list R) (set : NetDb -> list R -> NetDb).

Definition update_rows (hit : R -> bool) (f : R -> R) (db : NetDb) : NetDb :=
  set db (map (fun r => if hit r then f r else r) (get db)).
Definition delete_rows (hit : R -> bool) (db : NetDb) : NetDb :=
  set db (List.filter (fun r => negb (hit r)) (get db)).

Definition returning (change : NetDb -> NetDb) (hit : R -> bool) (f : R -> R) (audit : R -> AuditInput)
    (networkId organizationId missing : string) : NetTx (reply R) :=
  changed ← transaction (
    rows ← query (fun db => List.filter hit (get db));
    _ ← update change;
    match head rows with
    | None => mret None
    | Some row =>
        _ ← writeAudit (audit (f row));
        _ ← bump networkId organizationId;
        mret (Some (f row))
    end);
  mret (match changed with None => NotFound missing | Some row => Reply row end).
End Rows.

Section Routes.
Context `{IpAddress}.

(** ** Values of the schemas and columns *)
Definition endpoint_ok (e : string) : bool :=
  (String.length e =? 64)%nat
  && all_units (fun c => is_digit c || between 97 102 c || between 65 70 c) e.
Definition description_ok (d : option string) : bool :=
  match d with Some s => (String.length s <=? 256)%nat | None => true end.
(** A [cidr] column takes blocks without bits behind the prefix. *)
Definition cidr_column (text : string) : bool :=
  match address4 text with Some a => bigInt a mod block_size a =? 0 | None => false end.

(** ** Subnet routes ([subnet-routes.ts]) *)
Record CreateSubnetRoute := mkCreateSubnet {
  cr_endpointId : string; cr_cidr : string; cr_description : option string; cr_enabled : bool }.
Definition createSubnetRouteBody (b : CreateSubnetRoute) : bool :=
  endpoint_ok (cr_endpointId b) && isIpv4Cidr (cr_cidr b) && description_ok (cr_description b).

(** The first existing route that overlaps; a text that is not a block throws. *)
Fixpoint overlapping (cidr : string) (existing : list SubnetRouteRow) : NetTx (option SubnetRouteRow) :=
  match existing with
  | [] => mret None
  | route :: rest =>
      clash ← or_throw (ipv4CidrsOverlap cidr (sn_cidr route)) "AddressError";
      if clash : bool then mret (Some route) else overlapping cidr rest
  end.

(** [INSERT INTO subnet_routes], with the constraints of the table *)
Definition insert_subnet (row : SubnetRouteRow) : NetTx unit :=
  db ← query (fun db => db);
  _ ← guard (cidr_column (sn_cidr row)) "invalid cidr value";
  _ ← guard (negb (existsb (fun r => (sn_id r =? sn_id row)%string) (nd_subnets db))) "subnet_routes_pkey";
  _ ← guard (negb (existsb (fun r => (sn_networkId r =? sn_networkId row)%string && (sn_cidr r =? sn_cidr row)%string)
                     (nd_subnets db))) "subnet_routes_network_cidr_unique";
  _ ← guard (has_device (nd_dev db) (sn_endpointId row) && has_network (nd_dev db) (sn_networkId row))
        "subnet_routes_fkey";
  update (fun db => with_subnets db (nd_subnets db ++ [row])).

(** The checks before the transaction: the answer, or the block to store. *)
Definition checkSubnetRoute (org networkId : string) (body : CreateSubnetRoute)
    : NetTx (reply SubnetRouteRow + string) :=
  _ ← guard (createSubnetRouteBody body) "ZodError";
  network ← query (network_in_org networkId org);
  match network with
  | None => mret (inl (NotFound "Network not found"))
  | Some network =>
      cidr ← or_throw (formatIpv4Cidr (cr_cidr body)) "AddressError";
      mesh ← or_throw (overlapsMeshCidr cidr (nc_cidr network)) "AddressError";
      if mesh : bool then
        mret (inl (BadRequest ("CIDR " +:+ cidr +:+ " overlaps the mesh range " +:+ nc_cidr network)))
      else
        membership ← query (membership_of (cr_endpointId body) networkId);
        match membership with
        | None => mret (inl (BadRequest "Device is not a member of this network"))
        | Some _ =>
            existing ← query (fun db =>
              List.filter (fun r => (sn_networkId r =? networkId)%string) (nd_subnets db));
            clash ← overlapping cidr existing;
            match clash with
            | Some route =>
                mret (inl (ConflictReply ("CIDR " +:+ cidr +:+ " overlaps existing route " +:+ sn_cidr route)))
            | None => mret (inr cidr)
            end
        end
  end.

(** The transaction. *)
Definition storeSubnetRoute (org user networkId : string) (body : CreateSubnetRoute) (newId cidr : string)
    : NetTx (reply SubnetRouteRow) :=
  let row := mkSubnetRow newId (cr_endpointId body) networkId cidr (cr_description body) (cr_enabled body) in
  catch (transaction (
           _ ← insert_subnet row;
           _ ← writeAudit (mkAuditInput org user "subnet_route.created" (Some newId)
                 [("networkId", networkId); ("endpointId", cr_endpointId body); ("cidr", cidr)] None);
           _ ← bump networkId org;
           mret (Reply row)))
    (fun message =>
       if includes message "subnet_routes_network_cidr_unique"
       then Ok (ConflictReply ("CIDR " +:+ cidr +:+ " already exists in this network"))
       else Err message).

(** [seen] is the database the checks read: other requests may commit between
    them and the transaction. *)
Definition createSubnetRoute (seen : NetDb) (org user networkId : string) (body : CreateSubnetRoute)
    (newId : string) : NetTx (reply SubnetRouteRow) :=
  match (checkSubnetRoute org networkId body (seen, [])).2 with
  | Err e => throw e
  | Ok (inl answer) => mret answer
  | Ok (inr cidr) => storeSubnetRoute org user networkId body newId cidr
  end.

Definition is_subnet (routeId networkId : string) (r : SubnetRouteRow) : bool :=
  (sn_id r =? routeId)%string && (sn_networkId r =? networkId)%string.
(** [description] is absent, null or given. *)
Definition patch_subnet (description : option (option string)) (enabled : option bool) (r : SubnetRouteRow) :=
  mkSubnetRow (sn_id r) (sn_endpointId r) (sn_networkId r) (sn_cidr r)
    (default (sn_description r) description) (default (sn_enabled r) enabled).

Definition patchSubnetRoute (org user networkId routeId : string) (description : option (option string))
    (enabled : option bool) : NetTx (reply SubnetRouteRow) :=
  _ ← guard (match description with Some d => description_ok d | None => true end
             && match description, enabled with None, None => false | _, _ => true end) "ZodError";
  in_network networkId org (fun _ =>
    returning nd_subnets
      (update_rows nd_subnets with_subnets (is_subnet routeId networkId) (patch_subnet description enabled))
      (is_subnet routeId networkId) (patch_subnet description enabled)
      (fun row => mkAuditInput org user "subnet_route.updated" (Some (sn_id row)) [] None)
      networkId org "Subnet route not found").

Definition deleteSubnetRoute (org user networkId routeId : string) : NetTx (reply SubnetRouteRow) :=
  in_network networkId org (fun _ =>
    returning nd_subnets (delete_rows nd_subnets with_subnets (is_subnet routeId networkId))
      (is_subnet routeId networkId) (fun row => row)
      (fun row => mkAuditInput org user "subnet_route.deleted" (Some (sn_id row))
         [("networkId", networkId); ("endpointId", sn_endpointId row); ("cidr", sn_cidr row)] None)
      networkId org "Subnet route not found").

(** ** Hostname routes ([hostname-routes.ts],
    [packages/api/src/management/hostname-routes.ts]) *)
Definition is_alnum (c : ascii) : bool := is_digit c || between 97 122 c || between 65 90 c.
Definition last_unit (s : string) : option ascii := list.last (String.list_ascii_of_string s).
(** A label: letters, digits and inner hyphens. *)
Definition label_ok (l : string) : bool :=
  all_units (fun c => is_alnum c || Ascii.eqb c "-"%char) l
  && match String.get 0 l, last_unit l with Some a, Some b => is_alnum a && is_alnum b | _, _ => false end.
Definition hostnameSchema (h : string) : bool :=
  (1 <=? String.length h)%nat && (String.length h <=? 253)%nat
  && forallb label_ok (split_unit "."%char (if startsWith h "*." then slice 2 h else h)).

Definition parseHostnameInput (raw : string) : string * bool :=
  let trimmed := toLowerCase (trim raw) in
  if startsWith trimmed "*." then (slice 2 trimmed, true) else (trimmed, false).
Definition formatHostnameLabel (hostname : string) (isWildcard : bool) : string :=
  if isWildcard then "*." +:+ hostname else hostname.

Record CreateHostnameRoute := mkCreateHostname {
  ch_endpointId : string; ch_hostname : string; ch_targetIp : option string;
  ch_description : option string; ch_enabled : bool }.
Definition createHostnameRouteBody (b : CreateHostnameRoute) : bool :=
  endpoint_ok (ch_endpointId b) && hostnameSchema (ch_hostname b)
  && match ch_targetIp b with Some ip => isIpv4 ip | None => true end && description_ok (ch_description b).

Definition insert_hostname (row : HostnameRouteRow) : NetTx unit :=
  db ← query (fun db => db);
  _ ← guard (negb (existsb (fun r => (hn_id r =? hn_id row)%string) (nd_hostnames db))) "hostname_routes_pkey";
  _ ← guard (negb (existsb (fun r => (hn_networkId r =? hn_networkId row)%string
                                     && (hn_hostname r =? hn_hostname row)%string
                                     && Bool.eqb (hn_isWildcard r) (hn_isWildcard row)) (nd_hostnames db)))
        "hostname_routes_network_hostname_unique";
  _ ← guard (has_device (nd_dev db) (hn_endpointId row) && has_network (nd_dev db) (hn_networkId row))
        "hostname_routes_fkey";
  update (fun db => with_hostnames db (nd_hostnames db ++ [row])).

Definition createHostnameRoute (org user networkId : string) (body : CreateHostnameRoute) (newId : string)
    : NetTx (reply HostnameRouteRow) :=
  _ ← guard (createHostnameRouteBody body) "ZodError";
  in_network networkId org (fun network =>
    let '(hostname, isWildcard) := parseHostnameInput (ch_hostname body) in
    if (hostname =? "")%string then mret (BadRequest "Invalid hostname")
    else
      membership ← query (membership_of (ch_endpointId body) networkId);
      match membership with
      | None => mret (BadRequest "Device is not a member of this network")
      | Some _ =>
          targetIp ← (match ch_targetIp body with
                      | Some ip => if (ip =? "")%string then mret None
                                   else t ← or_throw (formatIp ip) "invalid IP address"; mret (Some t)
                      | None => mret None
                      end);
          let row := mkHostnameRow newId (ch_endpointId body) networkId hostname isWildcard targetIp
                       (ch_description body) (ch_enabled body) in
          catch (transaction (
                   _ ← insert_hostname row;
                   _ ← writeAudit (mkAuditInput org user "hostname_route.created" (Some newId)
                         [("networkId", networkId); ("endpointId", ch_endpointId body);
                          ("hostname", formatHostnameLabel hostname isWildcard)] None);
                   _ ← bump networkId org;
                   mret (Reply row)))
            (fun message =>
               if includes message "hostname_routes_network_hostname_unique"
               then Ok (ConflictReply ("Hostname " +:+ formatHostnameLabel hostname isWildcard +:+ " already exists"))
               else Err message)
      end).

Definition is_hostname (routeId networkId : string) (r : HostnameRouteRow) : bool :=
  (hn_id r =? routeId)%string && (hn_networkId r =? networkId)%string.
Definition patch_hostname (targetIp description : option (option string)) (enabled : option bool)
    (r : HostnameRouteRow) :=
  mkHostnameRow (hn_id r) (hn_endpointId r) (hn_networkId r) (hn_hostname r) (hn_isWildcard r)
    (default (hn_targetIp r) targetIp) (default (hn_description r) description) (default (hn_enabled r) enabled).

Definition patchHostnameRoute (org user networkId routeId : string) (targetIp description : option (option string))
    (enabled : option bool) : NetTx (reply HostnameRouteRow) :=
  _ ← guard (match targetIp with Some (Some ip) => isIpv4 ip | _ => true end
             && match description with Some d => description_ok d | None => true end
             && match targetIp, description, enabled with None, None, None => false | _, _, _ => true end) "ZodError";
  in_network networkId org (fun _ =>
    formatted ← (match targetIp with
                 | Some (Some ip) => t ← or_throw (formatIp ip) "invalid IP address"; mret (Some (Some t))
                 | other => mret other
                 end);
    returning nd_hostnames
      (update_rows nd_hostnames with_hostnames (is_hostname routeId networkId)
         (patch_hostname formatted description enabled))
      (is_hostname routeId networkId) (patch_hostname formatted description enabled)
      (fun row => mkAuditInput org user "hostname_route.updated" (Some (hn_id row)) [] None)
      networkId org "Hostname route not found").

Definition deleteHostnameRoute (org user networkId routeId : string) : NetTx (reply HostnameRouteRow) :=
  in_network networkId org (fun _ =>
    returning nd_hostnames (delete_rows nd_hostnames with_hostnames (is_hostname routeId networkId))
      (is_hostname routeId networkId) (fun row => row)
      (fun row => mkAuditInput org user "hostname_route.deleted" (Some (hn_id row))
         [("networkId", networkId); ("hostname", formatHostnameLabel (hn_hostname row) (hn_isWildcard row))] None)
      networkId org "Hostname route not found").

(** ** Exit nodes and device profiles ([device-profiles.ts]) *)
(** [INSERT … ON CONFLICT (key) DO UPDATE] *)
Definition upsert {R} (key : R -> string) (row : R) (l : list R) : list R :=
  if existsb (fun r => (key r =? key row)%string) l
  then map (fun r => if (key r =? key row)%string then row else r) l
  else l ++ [row].

Definition format_cidrs (cidrs : list string) : NetTx (list string) :=
  or_throw (mapM formatIpv4Cidr cidrs) "AddressError".

Definition putExitNode (org user networkId endpointId : string) (enabled : bool) (allowedCidrs : list string) (now : Z)
    : NetTx (reply ExitNodeRow) :=
  _ ← guard (forallb isIpv4Cidr allowedCidrs && negb (length allowedCidrs =? 0)%nat) "ZodError";
  in_network networkId org (fun _ =>
    membership ← query (membership_of endpointId networkId);
    match membership with
    | None => mret (BadRequest "Device is not a member of this network")
    | Some _ =>
        cidrs ← format_cidrs allowedCidrs;
        let row := mkExitNodeRow endpointId networkId enabled cidrs now in
        upserted ← transaction (
          _ ← guard (forallb cidr_column cidrs) "invalid cidr value";
          _ ← update (fun db => with_exits db (upsert en_endpointId row (nd_exits db)));
          _ ← writeAudit (mkAuditInput org user "exit_node.upserted" (Some endpointId) [] None);
          _ ← bump networkId org;
          mret row);
        mret (Reply upserted)
    end).

Definition is_exit (endpointId networkId : string) (r : ExitNodeRow) : bool :=
  (en_endpointId r =? endpointId)%string && (en_networkId r =? networkId)%string.

Definition deleteExitNode (org user networkId endpointId : string) : NetTx (reply ExitNodeRow) :=
  in_network networkId org (fun _ =>
    returning nd_exits (delete_rows nd_exits with_exits (is_exit endpointId networkId))
      (is_exit endpointId networkId) (fun row => row)
      (fun row => mkAuditInput org user "exit_node.deleted" (Some endpointId) [] None)
      networkId org "Exit node not found").

Record ProfileBody := mkProfileBody {
  pr_exitNodeEndpointId : option (option string); pr_splitTunnelMode : option SplitTunnelMode;
  pr_splitTunnelCidrs : option (list string) }.
Definition upsertDeviceProfileBody (b : ProfileBody) : bool :=
  match pr_exitNodeEndpointId b with Some (Some e) => (String.length e =? 64)%nat | _ => true end
  && match pr_splitTunnelCidrs b with Some l => forallb isIpv4Cidr l | None => true end.

Definition putProfile (org user networkId endpointId : string) (body : ProfileBody) (now : Z)
    : NetTx (reply ProfileRow) :=
  _ ← guard (upsertDeviceProfileBody body) "ZodError";
  in_network networkId org (fun _ =>
    membership ← query (membership_of endpointId networkId);
    match membership with
    | None => mret (BadRequest "Device is not a member of this network")
    | Some _ =>
        available ← (match pr_exitNodeEndpointId body with
                     | Some (Some exitNode) =>
                         query (fun db => existsb (fun r => is_exit exitNode networkId r && en_enabled r) (nd_exits db))
                     | _ => mret true
                     end);
        if negb available then mret (BadRequest "Selected exit node is not available")
        else
          cidrs ← (match pr_splitTunnelCidrs body with
                   | Some l => f ← format_cidrs l; mret (Some f)
                   | None => mret None
                   end);
          upserted ← transaction (
            existing ← query (fun db => List.find (fun p => (pf_endpointId p =? endpointId)%string) (nd_profiles db));
            let row := mkProfileRow endpointId networkId
              (match pr_exitNodeEndpointId body with
               | Some e => e
               | None => existing ≫= pf_exitNodeEndpointId
               end)
              (default split_exclude (or_else (pr_splitTunnelMode body) (pf_splitTunnelMode <$> existing)))
              (default [] (or_else cidrs (pf_splitTunnelCidrs <$> existing))) now in
            _ ← guard (forallb cidr_column (pf_splitTunnelCidrs row)) "invalid cidr value";
            _ ← update (fun db => with_profiles db (upsert pf_endpointId row (nd_profiles db)));
            _ ← writeAudit (mkAuditInput org user "device_profile.upserted" (Some endpointId) [] None);
            _ ← bump networkId org;
            mret row);
          mret (Reply upserted)
    end).

(** ** Node groups ([node-groups.ts]) *)
Record GroupMemberBody := mkMemberBody { mbb_endpointId : string; mbb_priority : Z }.
Record CreateNodeGroup := mkCreateGroup {
  cg_name : string; cg_haEnabled : bool; cg_members : list GroupMemberBody }.
Definition group_name_ok (name : string) : bool :=
  (2 <=? String.length name)%nat && (String.length name <=? 64)%nat
  && all_units (fun c => is_digit c || between 97 122 c || Ascii.eqb c "-"%char) name.
Definition createNodeGroupBody (b : CreateNodeGroup) : bool :=
  group_name_ok (cg_name b)
  && forallb (fun m => endpoint_ok (mbb_endpointId m) && (0 <=? mbb_priority m) && (mbb_priority m <=? 1000))
       (cg_members b)
  && (1 <=? length (cg_members b))%nat && (length (cg_members b) <=? 16)%nat.

(** The first member that is not in the network. *)
Definition outsider (networkId : string) (members : list GroupMemberBody) (db : NetDb) : option GroupMemberBody :=
  List.find (fun m => match membership_of (mbb_endpointId m) networkId db with Some _ => false | None => true end)
    members.

Definition group_taken (networkId name : string) (except : option string) (db : NetDb) : bool :=
  existsb (fun g => (gr_networkId g =? networkId)%string && (gr_name g =? name)%string
                    && match except with Some i => negb (gr_id g =? i)%string | None => true end) (nd_groups db).

Definition createNodeGroup (org user networkId : string) (body : CreateNodeGroup) (newId : string)
    : NetTx (reply NodeGroupRow) :=
  _ ← guard (createNodeGroupBody body) "ZodError";
  in_network networkId org (fun _ =>
    missing ← query (outsider networkId (cg_members body));
    match missing with
    | Some m => mret (BadRequest ("Device " +:+ String.substring 0 8 (mbb_endpointId m) +:+ "… is not in this network"))
    | None =>
        let row := mkNodeGroupRow newId networkId (cg_name body) (cg_haEnabled body)
                     (mbb_endpointId <$> head (cg_members body)) in
        let members := map (fun m => mkGroupMember newId (mbb_endpointId m) (mbb_priority m)) (cg_members body) in
        created ← transaction (
          db ← query (fun db => db);
          _ ← guard (negb (has_group (nd_groups db) newId)) "node_groups_pkey";
          _ ← guard (negb (group_taken networkId (cg_name body) None db)) "node_groups_network_name_unique";
          _ ← guard (bool_decide (NoDup (map gm_endpointId members))) "node_group_members_pkey";
          _ ← update (fun db => with_members (with_groups db (nd_groups db ++ [row])) (nd_members db ++ members));
          _ ← writeAudit (mkAuditInput org user "node_group.created" (Some newId) [("name", cg_name body)] None);
          _ ← bump networkId org;
          mret row);
        mret (Reply created)
    end).

Definition is_group (groupId networkId : string) (g : NodeGroupRow) : bool :=
  (gr_id g =? groupId)%string && (gr_networkId g =? networkId)%string.
Record PatchNodeGroup := mkPatchGroup {
  pg_name : option string; pg_haEnabled : option bool; pg_activeEndpointId : option (option string) }.
Definition patch_group (p : PatchNodeGroup) (g : NodeGroupRow) : NodeGroupRow :=
  mkNodeGroupRow (gr_id g) (gr_networkId g) (default (gr_name g) (pg_name p))
    (default (gr_haEnabled g) (pg_haEnabled p)) (default (gr_activeEndpointId g) (pg_activeEndpointId p)).

Definition patchNodeGroup (org user networkId groupId : string) (patch : PatchNodeGroup)
    : NetTx (reply NodeGroupRow) :=
  _ ← guard (match pg_name patch with Some n => group_name_ok n | None => true end
             && match pg_activeEndpointId patch with
                | Some (Some e) => (String.length e =? 64)%nat | _ => true end) "ZodError";
  in_network networkId org (fun _ =>
    _ ← guard (given (pg_name patch) || given (pg_haEnabled patch) || given (pg_activeEndpointId patch))
          "No values to set";
    db ← query (fun db => db);
    _ ← guard (negb (existsb (is_group groupId networkId) (nd_groups db))
               || match pg_name patch with
                  | Some n => negb (group_taken networkId n (Some groupId) db) | None => true end)
          "node_groups_network_name_unique";
    _ ← guard (negb (existsb (is_group groupId networkId) (nd_groups db))
               || match pg_activeEndpointId patch with
                  | Some (Some e) => has_device (nd_dev db) e | _ => true end) "node_groups_active_endpoint_id_fkey";
    returning nd_groups (update_rows nd_groups with_groups (is_group groupId networkId) (patch_group patch))
      (is_group groupId networkId) (patch_group patch)
      (fun row => mkAuditInput org user "node_group.updated" (Some (gr_id row)) [] None)
      networkId org "Node group not found").

Definition deleteNodeGroup (org user networkId groupId : string) : NetTx (reply NodeGroupRow) :=
  in_network networkId org (fun _ =>
    returning nd_groups
      (fun db => cascade (delete_rows nd_groups with_groups (is_group groupId networkId) db))
      (is_group groupId networkId) (fun row => row)
      (fun row => mkAuditInput org user "node_group.deleted" (Some (gr_id row)) [("name", gr_name row)] None)
      networkId org "Node group not found").

(** ** Networks ([networks.ts]) *)
Definition networkNameSchema (name : string) : bool :=
  (3 <=? String.length name)%nat && (String.length name <=? 32)%nat
  && all_units (fun c => is_digit c || between 97 122 c || Ascii.eqb c "-"%char) name.
Definition mtu_ok (mtu : Z) : bool := (576 <=? mtu) && (mtu <=? 9000).

Record CreateNetwork := mkCreateNetwork {
  cn_name : string; cn_cidr : string; cn_mtu : Z;
  cn_defaultAction : NetworkDefaultAction; cn_icmpPolicy : NetworkIcmpPolicy }.
Definition createNetworkBody (b : CreateNetwork) : bool :=
  networkNameSchema (cn_name b) && isIpv4Cidr (cn_cidr b) && mtu_ok (cn_mtu b).

(** [UNIQUE (organization_id, name)] *)
Definition name_taken (org name : string) (except : option string) (db : NetDb) : bool :=
  existsb (fun c => owned_by org (net_owner (nd_dev db) (nc_id c)) && (nc_name c =? name)%string
                    && match except with Some i => negb (nc_id c =? i)%string | None => true end) (nd_configs db).

(** The networks that [org-billing.ts] counts are those of the table. *)
Definition billing_networks (billing : BillingDb) (db : NetDb) : BillingDb :=
  mkBillingDb (bd_organizations billing) (bd_subscriptions billing) (bd_members billing) (bd_invitations billing)
    (bd_devices billing) (map (fun n => mkNetworkCount (nv_id n) (nv_org n)) (dd_networks (nd_dev db)))
    (bd_tunnels billing) (bd_usage billing) (bd_sessions billing) (bd_audit billing).

Definition insert_network (org : string) (row : NetworkConfig) (db : NetDb) : NetDb :=
  let dev := nd_dev db in
  with_configs (with_dev db (mkDeviceDb (dd_devices dev) (dd_networks dev ++ [mkNetworkVersion (nc_id row) org 0])
      (dd_memberships dev) (dd_deviceTags dev) (dd_organizations dev) (dd_notifications dev)))
    (nd_configs db ++ [row]).

Definition createNetwork (enabled : bool) (billing : BillingDb) (org user : string) (body : CreateNetwork)
    (newId : string) : NetTx NetworkConfig :=
  _ ← guard (createNetworkBody body) "ZodError";
  capacity ← query (fun db => assertNetworkCapacity enabled (billing_networks billing db) org);
  match capacity with
  | Err e => throw (error_message e)
  | Ok _ =>
      transaction (
        cidr ← or_throw (formatIpv4Cidr (cn_cidr body)) "AddressError";
        db ← query (fun db => db);
        _ ← guard (cidr_column cidr) "invalid cidr value";
        _ ← guard (negb (has_network (nd_dev db) newId)) "networks_pkey";
        _ ← guard (negb (name_taken org (cn_name body) None db)) "networks_organization_id_name_unique";
        let row := mkNetworkConfig newId (cn_name body) cidr (cn_mtu body) (cn_defaultAction body)
                     (cn_icmpPolicy body) (VObj []) in
        _ ← update (insert_network org row);
        _ ← writeAudit (mkAuditInput org user "network.created" (Some newId)
              [("name", cn_name body); ("cidr", cidr)] None);
        _ ← bump newId org;
        mret row)
  end.

Record PatchNetwork := mkPatchNetwork {
  pn_name : option string; pn_cidr : option string; pn_mtu : option Z;
  pn_defaultAction : option NetworkDefaultAction; pn_icmpPolicy : option NetworkIcmpPolicy;
  (** [settings] is absent, without a policy, or with one. *)
  pn_settings : option (option RemoteAgentPolicy) }.
Definition patchNetworkBody (p : PatchNetwork) : bool :=
  match pn_name p with Some n => networkNameSchema n | None => true end
  && match pn_cidr p with Some c => isIpv4Cidr c | None => true end
  && match pn_mtu p with Some m => mtu_ok m | None => true end.

Definition patch_config (p : PatchNetwork) (cidr : option string) (settings : option jsv) (c : NetworkConfig) :=
  mkNetworkConfig (nc_id c) (default (nc_name c) (pn_name p)) (default (nc_cidr c) cidr)
    (default (nc_mtu c) (pn_mtu p)) (default (nc_defaultAction c) (pn_defaultAction p))
    (default (nc_icmpPolicy c) (pn_icmpPolicy p)) (default (nc_settings c) settings).
(** What the agents are told of. *)
Definition network_changed (p : PatchNetwork) : bool :=
  match pn_settings p with Some (Some _) => true | _ => false end
  || given (pn_name p) || given (pn_cidr p) || given (pn_mtu p)
  || given (pn_defaultAction p) || given (pn_icmpPolicy p).

Definition patchNetwork (org user networkId : string) (patch : PatchNetwork) : NetTx NetworkConfig :=
  _ ← guard (patchNetworkBody patch) "ZodError";
  transaction (
    found ← query (network_in_org networkId org);
    existing ← or_throw found "Network not found";
    let current := normalizeNetworkSettings (Some (nc_settings existing)) in
    settings ← (match pn_settings patch with
                | None => mret None
                | Some p => next ← or_throw (mergeNetworkSettings current p) "ZodError";
                            mret (Some (networkSettings_value next))
                end);
    cidr ← (match pn_cidr patch with
            | None => mret None
            | Some c => f ← or_throw (formatIpv4Cidr c) "AddressError"; mret (Some f)
            end);
    _ ← guard (network_changed patch || given (pn_settings patch)) "No values to set";
    db ← query (fun db => db);
    _ ← guard (match cidr with Some c => cidr_column c | None => true end) "invalid cidr value";
    _ ← guard (match pn_name patch with
               | Some n => negb (name_taken org n (Some networkId) db) | None => true end)
          "networks_organization_id_name_unique";
    _ ← update (fun db => with_configs db
          (map (fun c => if (nc_id c =? networkId)%string then patch_config patch cidr settings c else c)
             (nd_configs db)));
    _ ← writeAudit (mkAuditInput org user "network.updated" (Some networkId) [] None);
    _ ← (if network_changed patch then bump networkId org else mret tt);
    mret (patch_config patch cidr settings existing)).

Definition delete_network (networkId : string) (db : NetDb) : NetDb :=
  let dev := nd_dev db in
  cascade (with_dev db (mkDeviceDb (dd_devices dev)
    (List.filter (fun n => negb (nv_id n =? networkId)%string) (dd_networks dev))
    (dd_memberships dev) (dd_deviceTags dev) (dd_organizations dev) (dd_notifications dev))).

Definition deleteNetwork (org user networkId : string) : NetTx unit :=
  transaction (
    found ← query (fun db => getNetworkInOrg networkId org (nd_dev db));
    _ ← or_throw found "Network not found";
    _ ← update (delete_network networkId);
    _ ← writeAudit (mkAuditInput org user "network.deleted" (Some networkId) [] None);
    bump networkId org).

(** ** Requests *)
Inductive net_request :=
| NqDevice (q : device_request)
| NqCreateSubnet (networkId : string) (body : CreateSubnetRoute) (newId : string)
| NqPatchSubnet (networkId routeId : string) (description : option (option string)) (enabled : option bool)
| NqDeleteSubnet (networkId routeId : string)
| NqCreateHostname (networkId : string) (body : CreateHostnameRoute) (newId : string)
| NqPatchHostname (networkId routeId : string) (targetIp description : option (option string)) (enabled : option bool)
| NqDeleteHostname (networkId routeId : string)
| NqPutExit (networkId endpointId : string) (enabled : bool) (allowedCidrs : list string) (now : Z)
| NqDeleteExit (networkId endpointId : string)
| NqPutProfile (networkId endpointId : string) (body : ProfileBody) (now : Z)
| NqCreateGroup (networkId : string) (body : CreateNodeGroup) (newId : string)
| NqPatchGroup (networkId groupId : string) (patch : PatchNodeGroup)
| NqDeleteGroup (networkId groupId : string)
| NqCreateNetwork (body : CreateNetwork) (newId : string)
| NqPatchNetwork (networkId : string) (patch : PatchNetwork)
| NqDeleteNetwork (networkId : string).

Definition discard {A} (m : NetTx A) : NetTx unit := _ ← m; mret tt.

Context (parse : string -> option (option Q)) (billed : bool) (billing : BillingDb).

Definition handle_net (org user : string) (q : net_request) : NetTx unit :=
  match q with
  | NqDevice d => on_devices (handle parse org user d)
  | NqCreateSubnet n body i => db ← query (fun db => db); discard (createSubnetRoute db org user n body i)
  | NqPatchSubnet n r d e => discard (patchSubnetRoute org user n r d e)
  | NqDeleteSubnet n r => discard (deleteSubnetRoute org user n r)
  | NqCreateHostname n body i => discard (createHostnameRoute org user n body i)
  | NqPatchHostname n r t d e => discard (patchHostnameRoute org user n r t d e)
  | NqDeleteHostname n r => discard (deleteHostnameRoute org user n r)
  | NqPutExit n e b l now => discard (putExitNode org user n e b l now)
  | NqDeleteExit n e => discard (deleteExitNode org user n e)
  | NqPutProfile n e b now => discard (putProfile org user n e b now)
  | NqCreateGroup n body i => discard (createNodeGroup org user n body i)
  | NqPatchGroup n g p => discard (patchNodeGroup org user n g p)
  | NqDeleteGroup n g => discard (deleteNodeGroup org user n g)
  | NqCreateNetwork body i => discard (createNetwork billed billing org user body i)
  | NqPatchNetwork n p => discard (patchNetwork org user n p)
  | NqDeleteNetwork n => deleteNetwork org user n
  end.

(** Requests of users of organizations, one after the other. *)
Definition serve_net (s : state NetDb) (requests : list (string * string * net_request)) : state NetDb :=
  foldl (fun s r => (handle_net r.1.1 r.1.2 r.2 s).1) s requests.
End Routes.

(** ** Routes advertised by agents ([crates/tunnet-control/src/tunnels.rs]) *)
Section Agent.
Context `{IpAddress}.
(** [body.cidr.parse::<ipnet::Ipv4Net>()], printed again *)
Context (ipv4net : string -> option string).

Inductive agent_response :=
| AgentError (status : Z) (message : string)
| AgentRoute (routeId cidr networkId : string).

(** An active membership of the device; the query takes any. *)
Definition active_membership (endpoint : string) (db : NetDb) : option Membership :=
  List.find (fun m => (mb_endpointId m =? endpoint)%string
                      && match mb_status m with ms_active => true | _ => false end)
    (dd_memberships (nd_dev db)).

(** [ON CONFLICT (network_id, cidr) DO UPDATE] *)
Definition same_block_row (networkId cidr : string) (r : SubnetRouteRow) : bool :=
  (sn_networkId r =? networkId)%string && (sn_cidr r =? cidr)%string.
Definition taken_over (endpoint : string) (description : option string) (r : SubnetRouteRow) : SubnetRouteRow :=
  mkSubnetRow (sn_id r) endpoint (sn_networkId r) (sn_cidr r)
    (match description with Some d => Some d | None => sn_description r end) true.

(** The request of an authenticated device.  The listeners are notified; no
    version changes. *)
Definition create_subnet_route_handler (endpoint cidr : string) (description : option string) (newId : string)
    : NetTx agent_response :=
  match ipv4net cidr with
  | None => mret (AgentError 400 "invalid cidr")
  | Some cidr =>
      membership ← query (active_membership endpoint);
      match membership with
      | None => mret (AgentError 403 "no active network membership")
      | Some m =>
          existing ← query (fun db => List.find (same_block_row (mb_networkId m) cidr) (nd_subnets db));
          match existing with
          | Some r =>
              _ ← update (fun db => with_subnets db
                    (map (fun r => if same_block_row (mb_networkId m) cidr r
                                   then taken_over endpoint description r else r) (nd_subnets db)));
              mret (AgentRoute (sn_id r) cidr (mb_networkId m))
          | None =>
              catch (
                _ ← insert_subnet (mkSubnetRow newId endpoint (mb_networkId m) cidr description true);
                mret (AgentRoute newId cidr (mb_networkId m)))
                (fun message => Ok (AgentError 500 ("db: " +:+ message)))
          end
      end
  end.
End Agent.

(** ** Tables of rows of networks *)
(** A device and a network of the same organization. *)
Definition belongs (dev : DeviceDb) (e n : string) : Prop :=
  exists org, dev_owner dev e = Some org /\ net_owner dev n = Some org.

Section Table.
Context {R K : Type} (key : R -> K) (eid nid : R -> string).

Definition table_wf (dev : DeviceDb) (l : list R) : Prop :=
  NoDup (map key l) /\ forall r, r ∈ l -> belongs dev (eid r) (nid r).
(** The rows of an organization's networks. *)
Definition table_view (org : string) (dev : DeviceDb) (l : list R) : list R :=
  List.filter (fun r => owned_by org (net_owner dev (nid r))) l.

Lemma NoDup_map_snoc l r : NoDup (map key l) -> key r ∉ map key l -> NoDup (map key (l ++ [r])).
Proof.
  intros Hn Hr. rewrite map_app. apply list.NoDup_app. split_and!; [done| |cbn; repeat constructor; set_solver].
  intros k Hk [->|Hx]%elem_of_cons; [done|by apply elem_of_nil in Hx].
Qed.

Lemma table_wf_insert dev l r :
  table_wf dev l -> key r ∉ map key l -> belongs dev (eid r) (nid r) -> table_wf dev (l ++ [r]).
Proof.
  intros [Hn Hb] Hk Hr. split; [by apply NoDup_map_snoc|].
  intros x [Hx|Hx]%elem_of_app; [auto|]. apply elem_of_cons in Hx as [->|Hx%elem_of_nil]; done.
Qed.

Lemma table_wf_filter dev p l : table_wf dev l -> table_wf dev (List.filter p l).
Proof. intros [Hn Hb]. split; [by apply NoDup_map_filter|]. intros r [Hr _]%elem_of_filter_bool. auto. Qed.

Lemma table_wf_map dev f l :
  table_wf dev l -> (forall r, r ∈ l -> key (f r) = key r) ->
  (forall r, r ∈ l -> belongs dev (eid (f r)) (nid (f r))) -> table_wf dev (map f l).
Proof.
  intros [Hn Hb] Hk Hf. split.
  - rewrite map_map. erewrite map_ext_in; [exact Hn|]. intros r Hr. apply Hk. by apply list_elem_of_In.
  - intros r (x & -> & Hx)%list_elem_of_fmap. auto.
Qed.

Lemma view_insert org org' dev l r :
  net_owner dev (nid r) = Some org -> org' <> org -> table_view org' dev (l ++ [r]) = table_view org' dev l.
Proof.
  intros Ho Hne. unfold table_view. rewrite List.filter_app. cbn.
  rewrite (owned_by_other org org' _ Ho Hne). apply app_nil_r.
Qed.

Lemma view_map org org' dev f l :
  org' <> org ->
  (forall r, r ∈ l -> f r = r \/ (net_owner dev (nid r) = Some org /\ net_owner dev (nid (f r)) = Some org)) ->
  table_view org' dev (map f l) = table_view org' dev l.
Proof.
  intros Hne. unfold table_view. induction l as [|r l IH]; cbn; intros Hf; [done|].
  rewrite IH by (intros x Hx; apply Hf; by right).
  destruct (Hf r ltac:(by left)) as [->|[H1 H2]]; [done|].
  by rewrite (owned_by_other org org' _ H1 Hne), (owned_by_other org org' _ H2 Hne).
Qed.

Lemma view_filter org org' dev p l :
  org' <> org -> (forall r, r ∈ l -> p r = false -> net_owner dev (nid r) = Some org) ->
  table_view org' dev (List.filter p l) = table_view org' dev l.
Proof.
  intros Hne Hp. apply filter_filter_same. intros r Hr Ho. destruct (p r) eqn:E; [done|].
  by rewrite (owned_by_other org org' _ (Hp r Hr E) Hne) in Ho.
Qed.

(** Only the owners matter. *)
Lemma table_wf_owners dev dev' l :
  (forall r, r ∈ l -> dev_owner dev' (eid r) = dev_owner dev (eid r)
                      /\ net_owner dev' (nid r) = net_owner dev (nid r)) ->
  table_wf dev l -> table_wf dev' l.
Proof.
  intros Ho [Hn Hb]. split; [done|]. intros r Hr. destruct (Ho r Hr) as [E1 E2].
  destruct (Hb r Hr) as (org & H1 & H2). exists org. by rewrite E1, E2.
Qed.

Lemma view_owners org dev dev' l :
  (forall r, r ∈ l -> net_owner dev' (nid r) = net_owner dev (nid r)) ->
  table_view org dev' l = table_view org dev l.
Proof. intros Ho. apply filter_ext_elem. intros r Hr. by rewrite Ho. Qed.
End Table.
#[local] Arguments table_view : simpl never.

(** ** Well-formed tables *)
Section Invariant.
Context `{IpAddress}.

Definition subnet_key (r : SubnetRouteRow) := (sn_networkId r, sn_cidr r).
Definition subnets_wf (dev : DeviceDb) (l : list SubnetRouteRow) : Prop :=
  table_wf sn_id sn_endpointId sn_networkId dev l
  /\ (forall r, r ∈ l -> cidr_column (sn_cidr r) = true) /\ NoDup (map subnet_key l).
Definition hostname_key (r : HostnameRouteRow) := (hn_networkId r, hn_hostname r, hn_isWildcard r).
Definition hostnames_wf (dev : DeviceDb) (l : list HostnameRouteRow) : Prop :=
  table_wf hn_id hn_endpointId hn_networkId dev l /\ NoDup (map hostname_key l).
Definition exits_wf (dev : DeviceDb) (l : list ExitNodeRow) : Prop :=
  table_wf en_endpointId en_endpointId en_networkId dev l.
Definition profiles_wf (dev : DeviceDb) (l : list ProfileRow) : Prop :=
  table_wf pf_endpointId pf_endpointId pf_networkId dev l
  /\ forall p e, p ∈ l -> pf_exitNodeEndpointId p = Some e -> belongs dev e (pf_networkId p).
Definition group_key (g : NodeGroupRow) := (gr_networkId g, gr_name g).
Definition groups_wf (dev : DeviceDb) (l : list NodeGroupRow) : Prop :=
  NoDup (map gr_id l) /\ NoDup (map group_key l)
  /\ forall g, g ∈ l -> (exists org, net_owner dev (gr_networkId g) = Some org)
       /\ forall e, gr_activeEndpointId g = Some e -> exists org, dev_owner dev e = Some org.
Definition members_wf (dev : DeviceDb) (groups : list NodeGroupRow) (l : list GroupMemberRow) : Prop :=
  NoDup (map (fun m => (gm_groupId m, gm_endpointId m)) l)
  /\ forall m, m ∈ l -> exists g, g ∈ groups /\ gr_id g = gm_groupId m
       /\ belongs dev (gm_endpointId m) (gr_networkId g).
Definition configs_wf (dev : DeviceDb) (l : list NetworkConfig) : Prop :=
  map nc_id l = map nv_id (dd_networks dev)
  /\ NoDup (map (fun c => (net_owner dev (nc_id c), nc_name c)) l)
  /\ forall c, c ∈ l -> cidr_column (nc_cidr c) = true /\ mtu_ok (nc_mtu c) = true.

Record net_wf (db : NetDb) : Prop := mkNetWf {
  nw_dev : db_wf (nd_dev db);
  nw_configs : configs_wf (nd_dev db) (nd_configs db);
  nw_subnets : subnets_wf (nd_dev db) (nd_subnets db);
  nw_hostnames : hostnames_wf (nd_dev db) (nd_hostnames db);
  nw_exits : exits_wf (nd_dev db) (nd_exits db);
  nw_profiles : profiles_wf (nd_dev db) (nd_profiles db);
  nw_groups : groups_wf (nd_dev db) (nd_groups db);
  nw_members : members_wf (nd_dev db) (nd_groups db) (nd_members db)
}.

(** A device of the organization. *)
Definition own_device (org : string) (dev : DeviceDb) (o : option string) : option string :=
  match o with
  | Some e => if owned_by org (dev_owner dev e) then Some e else None
  | None => None
  end.
(** A node group of an organization; an active member of another organization
    is not part of it. *)
Definition group_face (org : string) (dev : DeviceDb) (g : NodeGroupRow) :=
  (gr_id g, gr_networkId g, gr_name g, gr_haEnabled g, own_device org dev (gr_activeEndpointId g)).
Definition member_of (org : string) (dev : DeviceDb) (groups : list NodeGroupRow) (m : GroupMemberRow) : bool :=
  existsb (fun g => (gr_id g =? gm_groupId m)%string && owned_by org (net_owner dev (gr_networkId g))) groups.

(** What belongs to an organization. *)
Definition net_view (org : string) (db : NetDb) :=
  let dev := nd_dev db in
  ((org_view org dev, table_view nc_id org dev (nd_configs db), table_view sn_networkId org dev (nd_subnets db),
    table_view hn_networkId org dev (nd_hostnames db)),
   (table_view en_networkId org dev (nd_exits db), table_view pf_networkId org dev (nd_profiles db),
    map (group_face org dev) (table_view gr_networkId org dev (nd_groups db)),
    List.filter (member_of org dev (nd_groups db)) (nd_members db))).

Lemma net_view_eq org db db' :
  org_view org (nd_dev db') = org_view org (nd_dev db) ->
  table_view nc_id org (nd_dev db') (nd_configs db') = table_view nc_id org (nd_dev db) (nd_configs db) ->
  table_view sn_networkId org (nd_dev db') (nd_subnets db') = table_view sn_networkId org (nd_dev db) (nd_subnets db) ->
  table_view hn_networkId org (nd_dev db') (nd_hostnames db')
    = table_view hn_networkId org (nd_dev db) (nd_hostnames db) ->
  table_view en_networkId org (nd_dev db') (nd_exits db') = table_view en_networkId org (nd_dev db) (nd_exits db) ->
  table_view pf_networkId org (nd_dev db') (nd_profiles db')
    = table_view pf_networkId org (nd_dev db) (nd_profiles db) ->
  map (group_face org (nd_dev db')) (table_view gr_networkId org (nd_dev db') (nd_groups db'))
    = map (group_face org (nd_dev db)) (table_view gr_networkId org (nd_dev db) (nd_groups db)) ->
  List.filter (member_of org (nd_dev db') (nd_groups db')) (nd_members db')
    = List.filter (member_of org (nd_dev db) (nd_groups db)) (nd_members db) ->
  net_view org db' = net_view org db.
Proof. unfold net_view. by intros -> -> -> -> -> -> -> ->. Qed.

Definition net_step (org : string) (db db' : NetDb) : Prop :=
  net_wf db -> net_wf db' /\ forall org', org' <> org -> net_view org' db' = net_view org' db.

#[local] Instance net_step_preorder org : PreOrder (net_step org).
Proof.
  split.
  - intros db Hwf. done.
  - intros db1 db2 db3 H12 H23 Hwf. destruct (H12 Hwf) as [Hwf2 H2]. destruct (H23 Hwf2) as [Hwf3 H3].
    split; [done|]. intros org' Hne. by rewrite H3, H2.
Qed.

(** *** Changes of one table *)
Lemma step_subnets org db l :
  (net_wf db -> subnets_wf (nd_dev db) l) ->
  (net_wf db -> forall org', org' <> org ->
     table_view sn_networkId org' (nd_dev db) l = table_view sn_networkId org' (nd_dev db) (nd_subnets db)) ->
  net_step org db (with_subnets db l).
Proof.
  intros Hl Hv Hwf. split; [pose proof Hwf as []; constructor; cbn; auto|]. intros org' Hne. apply net_view_eq; cbn; auto.
Qed.

Lemma step_hostnames org db l :
  (net_wf db -> hostnames_wf (nd_dev db) l) ->
  (net_wf db -> forall org', org' <> org ->
     table_view hn_networkId org' (nd_dev db) l = table_view hn_networkId org' (nd_dev db) (nd_hostnames db)) ->
  net_step org db (with_hostnames db l).
Proof.
  intros Hl Hv Hwf. split; [pose proof Hwf as []; constructor; cbn; auto|]. intros org' Hne. apply net_view_eq; cbn; auto.
Qed.

Lemma step_exits org db l :
  (net_wf db -> exits_wf (nd_dev db) l) ->
  (net_wf db -> forall org', org' <> org ->
     table_view en_networkId org' (nd_dev db) l = table_view en_networkId org' (nd_dev db) (nd_exits db)) ->
  net_step org db (with_exits db l).
Proof.
  intros Hl Hv Hwf. split; [pose proof Hwf as []; constructor; cbn; auto|]. intros org' Hne. apply net_view_eq; cbn; auto.
Qed.

Lemma step_profiles org db l :
  (net_wf db -> profiles_wf (nd_dev db) l) ->
  (net_wf db -> forall org', org' <> org ->
     table_view pf_networkId org' (nd_dev db) l = table_view pf_networkId org' (nd_dev db) (nd_profiles db)) ->
  net_step org db (with_profiles db l).
Proof.
  intros Hl Hv Hwf. split; [pose proof Hwf as []; constructor; cbn; auto|]. intros org' Hne. apply net_view_eq; cbn; auto.
Qed.

Lemma step_configs org db l :
  (net_wf db -> configs_wf (nd_dev db) l) ->
  (net_wf db -> forall org', org' <> org ->
     table_view nc_id org' (nd_dev db) l = table_view nc_id org' (nd_dev db) (nd_configs db)) ->
  net_step org db (with_configs db l).
Proof.
  intros Hl Hv Hwf. split; [pose proof Hwf as []; constructor; cbn; auto|]. intros org' Hne. apply net_view_eq; cbn; auto.
Qed.

(** *** Changes of the device tables that change no owner *)
Lemma net_owner_keys dev n :
  net_owner dev n = snd <$> List.find (fun k => (k.1 =? n)%string) (map (fun x => (nv_id x, nv_org x)) (dd_networks dev)).
Proof.
  unfold net_owner. induction (dd_networks dev) as [|x l IH]; cbn; [done|].
  by destruct (nv_id x =? n)%string.
Qed.

Lemma keys_net_owner dev dev' n : keys_kept dev dev' -> net_owner dev' n = net_owner dev n.
Proof. intros [E _]. by rewrite !net_owner_keys, E. Qed.

Lemma keys_ids dev dev' : keys_kept dev dev' -> map nv_id (dd_networks dev') = map nv_id (dd_networks dev).
Proof.
  intros [E _]. apply (f_equal (map fst)) in E. rewrite !map_map in E. exact E.
Qed.

Lemma belongs_owners dev dev' e n :
  dev_owner dev' e = dev_owner dev e -> net_owner dev' n = net_owner dev n -> belongs dev e n -> belongs dev' e n.
Proof. intros E1 E2 (org & H1 & H2). exists org. by rewrite E1, E2. Qed.

Lemma member_of_owners org dev dev' groups m :
  (forall g, g ∈ groups -> net_owner dev' (gr_networkId g) = net_owner dev (gr_networkId g)) ->
  member_of org dev' groups m = member_of org dev groups m.
Proof.
  intros Hn. unfold member_of. induction groups as [|g l IH]; cbn; [done|].
  rewrite Hn by (by left). rewrite IH; [done|]. intros x Hx. apply Hn. by right.
Qed.

Lemma step_grow org db dev' configs' :
  db_wf dev' -> (forall e, dev_owner dev' e = dev_owner (nd_dev db) e) ->
  (forall n o, net_owner (nd_dev db) n = Some o -> net_owner dev' n = Some o) ->
  (forall org', org' <> org -> org_view org' dev' = org_view org' (nd_dev db)) ->
  configs_wf dev' configs' ->
  (forall org', org' <> org -> table_view nc_id org' dev' configs' = table_view nc_id org' (nd_dev db) (nd_configs db)) ->
  net_step org db (with_configs (with_dev db dev') configs').
Proof.
  intros Hwf' He Hgrow Hv Hc Hcv Hwf.
  destruct Hwf as [_ _ [Hs Hs'] [Hh Hh'] Hx [Hp Hp'] (Hg & Hg' & Hg'') [Hm Hm']].
  assert (forall e n, belongs (nd_dev db) e n -> net_owner dev' n = net_owner (nd_dev db) n) as Hn
    by (intros e n (o & _ & Ho); rewrite Ho; auto).
  assert (forall g, g ∈ nd_groups db -> net_owner dev' (gr_networkId g) = net_owner (nd_dev db) (gr_networkId g)) as Hgn
    by (intros g Hin; destruct (Hg'' g Hin) as [(o & Ho) _]; rewrite Ho; auto).
  split.
  - constructor; cbn.
    + done.
    + done.
    + split; [|done]. eapply table_wf_owners; [|exact Hs]. intros r Hr. split; [done|]. eapply Hn. by apply Hs.
    + split; [|done]. eapply table_wf_owners; [|exact Hh]. intros r Hr. split; [done|]. eapply Hn. by apply Hh.
    + eapply table_wf_owners; [|exact Hx]. intros r Hr. split; [done|]. eapply Hn. by apply Hx.
    + split.
      * eapply table_wf_owners; [|exact Hp]. intros r Hr. split; [done|]. eapply Hn. by apply Hp.
      * intros p e Hin E. pose proof (Hp' p e Hin E) as Hb. eapply belongs_owners; [apply He|by eapply Hn|done].
    + split_and!; [done..|]. intros g Hin. rewrite Hgn by done. split; [by apply Hg''|]. intros e E. rewrite He.
      by eapply Hg''.
    + split; [done|]. intros m Hin. destruct (Hm' m Hin) as (g & Hgin & E & Hb). exists g. split_and!; [done..|].
      eapply belongs_owners; [apply He|by eapply Hn|done].
  - intros org' Hne. apply net_view_eq; cbn; auto.
    + apply view_owners. intros r Hr. eapply Hn. by apply Hs.
    + apply view_owners. intros r Hr. eapply Hn. by apply Hh.
    + apply view_owners. intros r Hr. eapply Hn. by apply Hx.
    + apply view_owners. intros r Hr. eapply Hn. by apply Hp.
    + rewrite (view_owners gr_networkId org' (nd_dev db)) by done. apply map_ext. intros g.
      unfold group_face, own_device. destruct (gr_activeEndpointId g); [|done]. by rewrite He.
    + apply filter_ext_elem. intros m _. by apply member_of_owners.
Qed.

Lemma configs_wf_owners dev dev' l :
  map nv_id (dd_networks dev') = map nv_id (dd_networks dev) -> (forall n, net_owner dev' n = net_owner dev n) ->
  configs_wf dev l -> configs_wf dev' l.
Proof.
  intros Hids Hn (H1 & H2 & H3). split_and!; [congruence| |done].
  erewrite map_ext; [exact H2|]. intros c. cbn. by rewrite Hn.
Qed.

Lemma step_bump org n db : net_step org db (with_dev db (bump_network n org (nd_dev db))).
Proof.
  intros Hwf. destruct (step_bump_network n org (nd_dev db) (nw_dev _ Hwf)) as [[Hwf' Hk] Hv].
  assert (forall m, net_owner (bump_network n org (nd_dev db)) m = net_owner (nd_dev db) m) as Hn
    by (intros m; by apply keys_net_owner).
  change (with_dev db _) with (with_configs (with_dev db (bump_network n org (nd_dev db))) (nd_configs db)).
  apply step_grow; try done.
  - intros m o. by rewrite Hn.
  - eapply configs_wf_owners; [by apply keys_ids|done|apply Hwf].
  - intros org' _. by apply view_owners.
Qed.

Lemma bump_safe org n : tx_safe (net_step org) (bump n org).
Proof. apply (tx_safe_update _). intros db. apply step_bump. Qed.
#[local] Hint Resolve bump_safe : txdb.

(** *** Deletions and what they cascade to *)
(** Devices and networks of one organization may have gone. *)
Record shrunk (org : string) (dev dev' : DeviceDb) : Prop := mkShrunk {
  sh_dev : forall e o, dev_owner dev' e = Some o -> dev_owner dev e = Some o;
  sh_net : forall n o, net_owner dev' n = Some o -> net_owner dev n = Some o;
  sh_dev_other : forall e o, o <> org -> dev_owner dev e = Some o -> dev_owner dev' e = Some o;
  sh_net_other : forall n o, o <> org -> net_owner dev n = Some o -> net_owner dev' n = Some o
}.

Lemma has_device_owner dev e : has_device dev e = true <-> exists o, dev_owner dev e = Some o.
Proof.
  unfold has_device, dev_owner, find_device. induction (dd_devices dev) as [|d l IH]; cbn; [naive_solver|].
  destruct (dv_endpointId d =? e)%string; cbn; [naive_solver|done].
Qed.

Lemma has_network_owner dev n : has_network dev n = true <-> exists o, net_owner dev n = Some o.
Proof.
  unfold has_network, net_owner. induction (dd_networks dev) as [|x l IH]; cbn; [naive_solver|].
  destruct (nv_id x =? n)%string; cbn; [naive_solver|done].
Qed.

Lemma belongs_shrunk org dev dev' e n :
  shrunk org dev dev' -> belongs dev e n -> has_device dev' e = true -> has_network dev' n = true -> belongs dev' e n.
Proof.
  intros Hs (o & H1 & H2) (o1 & Hd)%has_device_owner (o2 & Hn)%has_network_owner. exists o.
  pose proof (sh_dev _ _ _ Hs _ _ Hd). pose proof (sh_net _ _ _ Hs _ _ Hn). by simplify_eq.
Qed.

Lemma belongs_kept org dev dev' e n o :
  shrunk org dev dev' -> belongs dev e n -> net_owner dev n = Some o -> o <> org ->
  has_device dev' e = true /\ has_network dev' n = true.
Proof.
  intros Hs (o1 & H1 & H2) Hn Hne. assert (o1 = o) as -> by congruence. split.
  - apply has_device_owner. exists o. by eapply sh_dev_other.
  - apply has_network_owner. exists o. by eapply sh_net_other.
Qed.

Section CascadeTable.
Context {R K : Type} (key : R -> K) (eid nid : R -> string) (org : string) (dev dev' : DeviceDb)
  (Hs : shrunk org dev dev').

Lemma cascade_table_wf l :
  table_wf key eid nid dev l ->
  table_wf key eid nid dev' (List.filter (fun r => has_device dev' (eid r) && has_network dev' (nid r)) l).
Proof.
  intros [Hn Hb]. split; [by apply NoDup_map_filter|].
  intros r [Hr [Hd Hw]%andb_prop]%elem_of_filter_bool. eapply belongs_shrunk; eauto.
Qed.

Lemma cascade_view keep org' l :
  org' <> org -> (forall r, r ∈ l -> net_owner dev (nid r) = Some org' -> keep r = true) ->
  table_view nid org' dev' (List.filter keep l) = table_view nid org' dev l.
Proof.
  intros Hne Hk. unfold table_view. rewrite filter_filter. apply filter_ext_elem. intros r Hr.
  unfold owned_by. destruct (net_owner dev (nid r)) as [o|] eqn:E.
  - destruct (String.eqb_spec o org') as [->|Ho].
    + rewrite Hk by done. rewrite (sh_net_other _ _ _ Hs _ _ Hne E). by rewrite String.eqb_refl.
    + destruct (net_owner dev' (nid r)) as [o'|] eqn:E'; [|by rewrite andb_false_r].
      rewrite (sh_net _ _ _ Hs _ _ E') in E. injection E as <-. rewrite (proj2 (String.eqb_neq _ _)) by done.
      apply andb_false_r.
  - destruct (net_owner dev' (nid r)) as [o'|] eqn:E'; [|by rewrite andb_false_r].
    by rewrite (sh_net _ _ _ Hs _ _ E') in E.
Qed.

Lemma cascade_rows_view org' l :
  org' <> org -> (forall r, r ∈ l -> belongs dev (eid r) (nid r)) ->
  table_view nid org' dev' (List.filter (fun r => has_device dev' (eid r) && has_network dev' (nid r)) l)
  = table_view nid org' dev l.
Proof.
  intros Hne Hb. apply cascade_view; [done|]. intros r Hr Ho.
  destruct (belongs_kept _ _ _ _ _ _ Hs (Hb r Hr) Ho Hne) as [-> ->]. done.
Qed.
End CascadeTable.

Lemma set_null_Some dev o e : set_null dev o = Some e <-> o = Some e /\ has_device dev e = true.
Proof.
  destruct o as [x|]; cbn; [|naive_solver]. destruct (has_device dev x) eqn:E; split; try congruence.
  - intros [= <-]. done.
  - intros [[= <-] ?]. done.
  - intros [[= <-] ?]. congruence.
Qed.

Lemma groups_by_id l g g' : NoDup (map gr_id l) -> g ∈ l -> g' ∈ l -> gr_id g = gr_id g' -> g = g'.
Proof. intros Hn Hg Hg' E. by eapply NoDup_map_inj. Qed.

(** The groups that remain, with the active members that remain. *)
Definition kept_groups (dev' : DeviceDb) (p : NodeGroupRow -> bool) (groups : list NodeGroupRow) :=
  map (fun g => mkNodeGroupRow (gr_id g) (gr_networkId g) (gr_name g) (gr_haEnabled g)
                  (set_null dev' (gr_activeEndpointId g)))
    (List.filter (fun g => has_network dev' (gr_networkId g)) (List.filter p groups)).

Lemma kept_groups_elem dev' p groups g' :
  g' ∈ kept_groups dev' p groups <->
  exists g, g ∈ groups /\ p g = true /\ has_network dev' (gr_networkId g) = true
    /\ g' = mkNodeGroupRow (gr_id g) (gr_networkId g) (gr_name g) (gr_haEnabled g)
              (set_null dev' (gr_activeEndpointId g)).
Proof.
  unfold kept_groups. rewrite list_elem_of_fmap. split.
  - intros (g & -> & [[Hg Hp]%elem_of_filter_bool Hn]%elem_of_filter_bool). eauto.
  - intros (g & Hg & Hp & Hn & ->). exists g. split; [done|]. by rewrite !elem_of_filter_bool.
Qed.

Lemma kept_groups_wf org dev dev' p groups :
  shrunk org dev dev' -> groups_wf dev groups -> groups_wf dev' (kept_groups dev' p groups).
Proof.
  intros Hs (Hi & Hk & Hg). unfold groups_wf. split_and!.
  - unfold kept_groups. rewrite map_map. by apply NoDup_map_filter, NoDup_map_filter.
  - unfold kept_groups. rewrite map_map. by apply (NoDup_map_filter group_key), NoDup_map_filter.
  - intros g' (g & Hin & _ & Hn & ->)%kept_groups_elem. cbn. split; [by apply has_network_owner|].
    intros e [_ He]%set_null_Some. by apply has_device_owner.
Qed.

Lemma own_device_kept org dev dev' org' o :
  shrunk org dev dev' -> org' <> org -> own_device org' dev' (set_null dev' o) = own_device org' dev o.
Proof.
  intros Hs Hne. destruct o as [e|]; [|done]. unfold own_device, set_null.
  destruct (dev_owner dev e) as [o|] eqn:E; cbn [owned_by].
  - destruct (String.eqb_spec o org') as [->|Ho].
    + pose proof (sh_dev_other _ _ _ Hs _ _ Hne E) as E'.
      rewrite (proj2 (has_device_owner dev' e) (ex_intro _ _ E')), E'. cbn. by rewrite String.eqb_refl.
    + destruct (has_device dev' e) eqn:Hd; [|done]. apply has_device_owner in Hd as [o' Ho'].
      rewrite Ho'. cbn. rewrite (sh_dev _ _ _ Hs _ _ Ho') in E. injection E as <-.
      by rewrite (proj2 (String.eqb_neq _ _)).
  - destruct (has_device dev' e) eqn:Hd; [|done]. apply has_device_owner in Hd as [o' Ho'].
    by rewrite (sh_dev _ _ _ Hs _ _ Ho') in E.
Qed.

Lemma kept_groups_view org dev dev' p groups org' :
  shrunk org dev dev' -> org' <> org ->
  (forall g, g ∈ groups -> p g = false -> net_owner dev (gr_networkId g) = Some org) ->
  map (group_face org' dev') (table_view gr_networkId org' dev' (kept_groups dev' p groups))
  = map (group_face org' dev) (table_view gr_networkId org' dev groups).
Proof.
  intros Hs Hne Hp.
  rewrite <- (cascade_view gr_networkId org dev dev' Hs
    (fun g => p g && has_network dev' (gr_networkId g)) org' groups Hne).
  - unfold table_view, kept_groups. rewrite filter_filter. induction (List.filter _ groups) as [|g l IH]; cbn; [done|].
    destruct (owned_by _ _); cbn; [|done]. rewrite IH. f_equal. unfold group_face. cbn. f_equal.
    by eapply own_device_kept.
  - intros g Hg Ho. apply andb_true_intro. split.
    + destruct (p g) eqn:E; [done|]. rewrite (Hp g Hg E) in Ho. congruence.
    + apply has_network_owner. exists org'. by eapply sh_net_other.
Qed.

Definition kept_members (dev' : DeviceDb) (groups' : list NodeGroupRow) (members : list GroupMemberRow) :=
  List.filter (fun m => has_group groups' (gm_groupId m) && has_device dev' (gm_endpointId m)) members.

Lemma has_group_elem groups i : has_group groups i = true <-> exists g, g ∈ groups /\ gr_id g = i.
Proof.
  unfold has_group. rewrite existsb_exists. split.
  - intros (g & Hg%list_elem_of_In & E%String.eqb_eq). eauto.
  - intros (g & Hg & E). exists g. split; [by apply list_elem_of_In|by apply String.eqb_eq].
Qed.

Lemma member_of_elem org dev groups m :
  member_of org dev groups m = true <->
  exists g, g ∈ groups /\ gr_id g = gm_groupId m /\ net_owner dev (gr_networkId g) = Some org.
Proof.
  unfold member_of. rewrite existsb_exists. split.
  - intros (g & Hg%list_elem_of_In & [E%String.eqb_eq Ho]%andb_prop). exists g. split_and!; [done..|].
    unfold owned_by in Ho. destruct (net_owner _ _) as [o|]; [|done]. by apply String.eqb_eq in Ho as ->.
  - intros (g & Hg & E & Ho). exists g. split; [by apply list_elem_of_In|]. rewrite Ho. cbn.
    by rewrite E, !String.eqb_refl.
Qed.

Lemma kept_members_wf org dev dev' p groups members :
  shrunk org dev dev' -> groups_wf dev groups -> members_wf dev groups members ->
  members_wf dev' (kept_groups dev' p groups) (kept_members dev' (kept_groups dev' p groups) members).
Proof.
  intros Hs Hg [Hn Hm]. split; [by apply NoDup_map_filter|].
  intros m [Hin [Hg' Hd]%andb_prop]%elem_of_filter_bool.
  apply has_group_elem in Hg' as (g' & (g & Hgin & Hp & Hnet & ->)%kept_groups_elem & E). cbn in E.
  destruct (Hm m Hin) as (g1 & Hg1 & E1 & Hb).
  assert (g1 = g) as -> by (apply (groups_by_id groups); [apply Hg|done|done|congruence]).
  eexists. split; [apply kept_groups_elem; eauto|]. cbn. split; [done|]. by eapply belongs_shrunk.
Qed.

Lemma kept_members_view org dev dev' p groups members org' :
  shrunk org dev dev' -> org' <> org -> groups_wf dev groups -> members_wf dev groups members ->
  (forall g, g ∈ groups -> p g = false -> net_owner dev (gr_networkId g) = Some org) ->
  List.filter (member_of org' dev' (kept_groups dev' p groups))
    (kept_members dev' (kept_groups dev' p groups) members)
  = List.filter (member_of org' dev groups) members.
Proof.
  intros Hs Hne Hg [Hn Hm] Hp. unfold kept_members. rewrite filter_filter. apply filter_ext_elem. intros m Hin.
  apply eq_true_iff_eq. rewrite !andb_true_iff, has_group_elem, !member_of_elem. split.
  - intros [_ (g' & (g & Hgin & _ & _ & ->)%kept_groups_elem & E & Ho)]. exists g. split_and!; [done..|].
    by apply (sh_net _ _ _ Hs).
  - intros (g & Hgin & E & Ho). destruct (Hm m Hin) as (g1 & Hg1 & E1 & Hb).
    assert (g1 = g) as -> by (apply (groups_by_id groups); [apply Hg|done|done|congruence]).
    destruct (belongs_kept _ _ _ _ _ _ Hs Hb Ho Hne) as [Hd Hw].
    assert (p g = true) as Hpg. { destruct (p g) eqn:Ep; [done|]. rewrite (Hp g Hgin Ep) in Ho. congruence. }
    set (g' := mkNodeGroupRow (gr_id g) (gr_networkId g) (gr_name g) (gr_haEnabled g)
                 (set_null dev' (gr_activeEndpointId g))).
    assert (g' ∈ kept_groups dev' p groups) as Hg' by (apply kept_groups_elem; by exists g).
    split; [split; [by exists g'|done]|]. exists g'. split_and!; [done..|]. cbn. by eapply sh_net_other.
Qed.

Definition kept_profiles (dev' : DeviceDb) (l : list ProfileRow) :=
  map (fun p => mkProfileRow (pf_endpointId p) (pf_networkId p) (set_null dev' (pf_exitNodeEndpointId p))
                  (pf_splitTunnelMode p) (pf_splitTunnelCidrs p) (pf_updatedAt p))
    (List.filter (fun p => has_device dev' (pf_endpointId p) && has_network dev' (pf_networkId p)) l).

Lemma kept_profiles_wf org dev dev' l :
  shrunk org dev dev' -> profiles_wf dev l -> profiles_wf dev' (kept_profiles dev' l).
Proof.
  intros Hs [Hl He]. pose proof (cascade_table_wf pf_endpointId pf_endpointId pf_networkId org dev dev' Hs l Hl) as Hw.
  split.
  - apply (table_wf_map pf_endpointId pf_endpointId pf_networkId); [exact Hw|done|]. intros r Hr. cbn. by apply Hw.
  - intros q e (p & -> & [Hp [_ Hn]%andb_prop]%elem_of_filter_bool)%list_elem_of_fmap. cbn.
    intros [Hx Hd]%set_null_Some. eapply belongs_shrunk; eauto.
Qed.

Lemma kept_profiles_view org dev dev' l org' :
  shrunk org dev dev' -> org' <> org -> profiles_wf dev l ->
  table_view pf_networkId org' dev' (kept_profiles dev' l) = table_view pf_networkId org' dev l.
Proof.
  intros Hs Hne [Hl He]. rewrite <- (cascade_rows_view pf_endpointId pf_networkId org dev dev' Hs org' l Hne)
    by apply Hl.
  apply (view_map pf_networkId org); [done|]. intros p [Hp [Hd Hn]%andb_prop]%elem_of_filter_bool. cbn.
  destruct (proj1 (has_network_owner _ _) Hn) as [o Ho]. destruct (decide (o = org)) as [->|Hno]; [by right|left].
  destruct p as [e n [x|] m c t]; [|done]. cbn in *. f_equal.
  destruct (belongs_kept _ _ _ _ _ o Hs (He _ x Hp eq_refl) (sh_net _ _ _ Hs _ _ Ho) Hno) as [-> _]. done.
Qed.

Definition reachable (dev' : DeviceDb) : DeviceDb :=
  with_memberships dev' (List.filter (fun m => has_network dev' (mb_networkId m)) (dd_memberships dev')).

(** Deleting devices, networks or groups of one organization. *)
Lemma step_cascade org db dev' p :
  (net_wf db -> shrunk org (nd_dev db) dev') ->
  (net_wf db -> db_wf (reachable dev')
     /\ map nv_id (dd_networks dev') = map nc_id (List.filter (fun c => has_network dev' (nc_id c)) (nd_configs db))
     /\ forall org', org' <> org -> org_view org' (reachable dev') = org_view org' (nd_dev db)) ->
  (forall g, g ∈ nd_groups db -> p g = false -> net_owner (nd_dev db) (gr_networkId g) = Some org) ->
  net_step org db (cascade (with_groups (with_dev db dev') (List.filter p (nd_groups db)))).
Proof.
  intros Hs0 Hdev Hp Hwf. destruct (Hdev Hwf) as (Hwf' & Hids & Hv).
  assert (shrunk org (nd_dev db) (reachable dev')) as Hs by (by destruct (Hs0 Hwf); constructor). clear Hs0.
  destruct Hwf as [_ (Hc1 & Hc2 & Hc3) (Ht & Hcol & Hdis) [Hh Hh'] Hx Hpr Hg Hm]. split.
  - constructor; cbn; fold (reachable dev').
    + done.
    + split_and!; [done| |intros c [? _]%elem_of_filter_bool; auto].
      erewrite map_ext_in; [by apply NoDup_map_filter, Hc2|].
      intros c [_ (o & Ho)%has_network_owner]%list_elem_of_In%elem_of_filter_bool.
      f_equal. rewrite (sh_net _ _ _ Hs _ _ Ho). exact Ho.
    + split_and!; [by eapply (cascade_table_wf sn_id sn_endpointId sn_networkId)|..].
      * intros r [? _]%elem_of_filter_bool. auto.
      * by apply NoDup_map_filter.
    + split; [by eapply (cascade_table_wf hn_id hn_endpointId hn_networkId)|by apply NoDup_map_filter].
    + by eapply (cascade_table_wf en_endpointId en_endpointId en_networkId).
    + by eapply kept_profiles_wf.
    + by eapply kept_groups_wf.
    + by eapply kept_members_wf.
  - intros org' Hne. apply net_view_eq; cbn; fold (reachable dev').
    + auto.
    + apply (cascade_view nc_id org); [done..|]. intros c Hc Ho. apply has_network_owner. exists org'.
      by apply (sh_net_other _ _ _ Hs).
    + apply (cascade_rows_view sn_endpointId sn_networkId org); [done..|apply Ht].
    + apply (cascade_rows_view hn_endpointId hn_networkId org); [done..|apply Hh].
    + apply (cascade_rows_view en_endpointId en_networkId org); [done..|apply Hx].
    + by apply (kept_profiles_view org).
    + by apply (kept_groups_view org).
    + by apply (kept_members_view org).
Qed.

Lemma reachable_wf dev : db_wf dev -> reachable dev = dev.
Proof.
  intros Hwf. unfold reachable. rewrite (filter_ext_elem _ (fun _ => true)), filter_true; [by destruct dev|].
  intros m Hm. apply existsb_exists. destruct (proj1 (list_elem_of_fmap _ _ _) (wf_member_network _ Hwf m Hm)) as (x & E & Hx).
  exists x. split; [by apply list_elem_of_In|]. rewrite E. apply String.eqb_refl.
Qed.

Lemma configs_known dev dev' configs :
  configs_wf dev configs -> map nv_id (dd_networks dev') = map nv_id (dd_networks dev) ->
  map nv_id (dd_networks dev') = map nc_id (List.filter (fun c => has_network dev' (nc_id c)) configs).
Proof.
  intros (Hids & _) E. rewrite (filter_ext_elem _ (fun _ => true)), filter_true; [congruence|].
  intros c Hc. apply existsb_exists.
  assert (nc_id c ∈ map nv_id (dd_networks dev')) as (x & Ex & Hx)%list_elem_of_fmap
    by (rewrite E, <- Hids; by apply list_elem_of_fmap_2).
  exists x. split; [by apply list_elem_of_In|]. rewrite Ex. apply String.eqb_refl.
Qed.

Lemma shrunk_refl org dev : shrunk org dev dev.
Proof. by constructor. Qed.

Lemma device_step_shrunk org dev dev' : db_wf dev -> step_ok org dev dev' -> shrunk org dev dev'.
Proof.
  intros Hwf Hst. destruct (Hst Hwf) as [[Hwf' Hk] Hv].
  constructor; try (intros n o; rewrite (keys_net_owner dev dev' n Hk); done).
  - apply Hk.
  - intros e o Hne Ho. unfold dev_owner, find_device in Ho.
    apply fmap_Some in Ho as (d & [Hin E%String.eqb_eq]%List.find_some & ->).
    assert (d ∈ List.filter (fun x => (dv_organizationId x =? dv_organizationId d)%string) (dd_devices dev)) as Hd
      by (apply elem_of_filter_bool; split; [by apply list_elem_of_In|apply String.eqb_refl]).
    specialize (Hv _ Hne). injection Hv as Hdev _ _ _ _. rewrite <- Hdev in Hd.
    apply elem_of_filter_bool in Hd as [Hd _]. rewrite <- E. by apply dev_owner_row.
Qed.

Lemma step_on_devices org db dev' :
  step_ok org (nd_dev db) dev' -> net_step org db (cascade (with_dev db dev')).
Proof.
  intros Hst. replace (with_dev db dev')
    with (with_groups (with_dev db dev') (List.filter (fun _ => true) (nd_groups db)))
    by (unfold with_groups, with_dev; cbn; by rewrite filter_true).
  apply step_cascade.
  - intros Hwf. apply device_step_shrunk; [apply Hwf|done].
  - intros Hwf. destruct (Hst (nw_dev _ Hwf)) as [[Hwf' Hk] Hv]. rewrite reachable_wf by done.
    split_and!; [done| |done]. eapply configs_known; [apply Hwf|by apply keys_ids].
  - done.
Qed.

Lemma on_devices_safe org (m : DeviceTx unit) : tx_safe (step_ok org) m -> tx_safe (net_step org) (on_devices m).
Proof.
  intros Hm [db events]. specialize (Hm (nd_dev db, events)). unfold on_devices. cbn [fst snd].
  destruct (m (nd_dev db, events)) as [[dev' events'] r]. cbn [fst] in *. by apply step_on_devices.
Qed.

(** A group goes with its members. *)
Lemma step_delete_group org db hit :
  (net_wf db -> forall g, g ∈ nd_groups db -> hit g = true -> net_owner (nd_dev db) (gr_networkId g) = Some org) ->
  net_step org db (cascade (delete_rows nd_groups with_groups hit db)).
Proof.
  intros Hh Hwf. specialize (Hh Hwf). unfold delete_rows.
  replace (with_groups db _)
    with (with_groups (with_dev db (nd_dev db)) (List.filter (fun g => negb (hit g)) (nd_groups db)))
    by (by destruct db).
  revert Hwf. apply step_cascade.
  - intros _. apply shrunk_refl.
  - intros Hwf. rewrite reachable_wf by apply Hwf. split_and!; [apply Hwf| |done].
    by eapply configs_known; [apply Hwf|].
  - intros g Hg Hp. apply negb_false_iff in Hp. auto.
Qed.

(** A network goes with everything in it. *)
Lemma net_owner_filter dev n networks' m :
  networks' = List.filter (fun x => negb (nv_id x =? n)%string) (dd_networks dev) ->
  nv_org <$> List.find (fun x => (nv_id x =? m)%string) networks'
  = if (m =? n)%string then None else net_owner dev m.
Proof.
  intros ->. unfold net_owner. induction (dd_networks dev) as [|x l IH]; cbn; [by destruct (m =? n)%string|].
  destruct (String.eqb_spec (nv_id x) n) as [->|Hx]; cbn.
  - rewrite IH, (String.eqb_sym m n). by destruct (n =? m)%string.
  - destruct (String.eqb_spec (nv_id x) m) as [E|]; [|done]. by rewrite (proj2 (String.eqb_neq m n)) by congruence.
Qed.

Lemma map_filter_comm {A B} (f : A -> B) (p : B -> bool) l :
  map f (List.filter (fun x => p (f x)) l) = List.filter p (map f l).
Proof. induction l as [|x l IH]; cbn; [done|]. destruct (p (f x)); cbn; by rewrite IH. Qed.

(** The networks table without a network. *)
Definition without_network (n : string) (dev : DeviceDb) : DeviceDb :=
  mkDeviceDb (dd_devices dev) (List.filter (fun x => negb (nv_id x =? n)%string) (dd_networks dev))
    (dd_memberships dev) (dd_deviceTags dev) (dd_organizations dev) (dd_notifications dev).

Lemma without_network_owner n dev m :
  net_owner (without_network n dev) m = if (m =? n)%string then None else net_owner dev m.
Proof. by apply net_owner_filter. Qed.

Lemma without_network_shrunk org n dev : net_owner dev n = Some org -> shrunk org dev (without_network n dev).
Proof.
  intros Hn. constructor; try done; intros m o; rewrite without_network_owner.
  - by destruct (m =? n)%string.
  - intros Hne Hm. destruct (String.eqb_spec m n) as [->|]; [congruence|done].
Qed.

Lemma without_network_wf n dev : db_wf dev -> db_wf (reachable (without_network n dev)).
Proof.
  intros Hwf. pose proof Hwf as [H1 H2 H3 H4 H5 H6 H7 H8].
  constructor; cbn; try done; try (by apply NoDup_map_filter).
  - intros m [Hm _]%elem_of_filter_bool. auto.
  - intros m [_ Hn]%elem_of_filter_bool. apply existsb_exists in Hn as (x & Hx%list_elem_of_In & <-%String.eqb_eq).
    by apply list_elem_of_fmap_2.
  - intros m [Hm Hk]%elem_of_filter_bool.
    destruct (proj1 (has_network_owner (without_network n dev) (mb_networkId m)) Hk) as [o Ho].
    change (dev_owner dev (mb_endpointId m) = net_owner (without_network n dev) (mb_networkId m)).
    rewrite H6 by done. rewrite without_network_owner in *. by destruct (mb_networkId m =? n)%string.
Qed.

Lemma without_network_view org n dev org' :
  db_wf dev -> net_owner dev n = Some org -> org' <> org ->
  org_view org' (reachable (without_network n dev)) = org_view org' dev.
Proof.
  intros Hwf Hn Hne. pose proof (without_network_shrunk _ _ _ Hn) as Hs. apply tuple5_eq; try done.
  - cbn. apply filter_filter_same. intros x Hx Ho. apply negb_true_iff, String.eqb_neq. intros E.
    pose proof (net_owner_row dev x Hwf Hx) as Hr. rewrite E, Hn in Hr. apply String.eqb_eq in Ho. congruence.
  - apply (cascade_view mb_networkId org dev (without_network n dev) Hs); [done|].
    intros m Hm Ho. apply has_network_owner. exists org'. by eapply sh_net_other.
Qed.

Lemma step_delete_network org n db :
  (exists x, getNetworkInOrg n org (nd_dev db) = Some x) -> net_step org db (delete_network n db).
Proof.
  intros [x Hx] Hwf. pose proof (network_in_org_owner _ _ _ _ (nw_dev _ Hwf) Hx) as Hn. revert Hwf.
  change (delete_network n db) with (cascade (with_dev db (without_network n (nd_dev db)))).
  replace (with_dev db _)
    with (with_groups (with_dev db (without_network n (nd_dev db))) (List.filter (fun _ => true) (nd_groups db)))
    by (unfold with_groups, with_dev; cbn; by rewrite filter_true).
  apply step_cascade; [intros _; by apply without_network_shrunk| |done].
  intros Hwf. split_and!; [by apply without_network_wf, Hwf| |].
  - destruct (nw_configs _ Hwf) as (Hids & _). cbn [dd_networks without_network].
    rewrite (map_filter_comm nv_id (fun m => negb (m =? n)%string)), <- Hids.
    rewrite <- (map_filter_comm nc_id (fun m => negb (m =? n)%string)). f_equal. apply filter_ext_elem. intros c Hc.
    apply eq_true_iff_eq. rewrite has_network_owner, without_network_owner, negb_true_iff. split.
    + intros E. rewrite E. apply has_network_owner. apply existsb_exists.
      assert (nc_id c ∈ map nv_id (dd_networks (nd_dev db))) as (y & Ey & Hy)%list_elem_of_fmap
        by (rewrite <- Hids; by apply list_elem_of_fmap_2).
      exists y. split; [by apply list_elem_of_In|]. rewrite Ey. apply String.eqb_refl.
    + intros [o Ho]. by destruct (nc_id c =? n)%string.
  - intros org' Hne. by apply (without_network_view org); [apply Hwf|..].
Qed.

(** A network is added. *)
Definition with_network (n org : string) (dev : DeviceDb) : DeviceDb :=
  mkDeviceDb (dd_devices dev) (dd_networks dev ++ [mkNetworkVersion n org 0])
    (dd_memberships dev) (dd_deviceTags dev) (dd_organizations dev) (dd_notifications dev).

Lemma with_network_owner n org dev m :
  has_network dev n = false ->
  net_owner (with_network n org dev) m = if (m =? n)%string then Some org else net_owner dev m.
Proof.
  unfold has_network, net_owner. cbn. induction (dd_networks dev) as [|x l IH]; cbn.
  - intros _. rewrite (String.eqb_sym n m). by destruct (m =? n)%string.
  - intros [Hx Hl]%orb_false_elim. destruct (String.eqb_spec (nv_id x) m) as [E|]; [|auto].
    rewrite <- E. by rewrite Hx.
Qed.

Lemma with_network_old n org dev m o :
  has_network dev n = false -> net_owner dev m = Some o -> net_owner (with_network n org dev) m = Some o.
Proof.
  intros Hn Hm. rewrite with_network_owner by done. destruct (String.eqb_spec m n) as [->|]; [|done].
  by rewrite (proj2 (has_network_owner dev n) (ex_intro _ o Hm)) in Hn.
Qed.

Lemma net_owner_known dev n : n ∈ map nv_id (dd_networks dev) -> exists o, net_owner dev n = Some o.
Proof.
  intros (x & -> & Hx)%list_elem_of_fmap. apply has_network_owner, existsb_exists.
  exists x. split; [by apply list_elem_of_In|apply String.eqb_refl].
Qed.

Lemma with_network_wf n org dev : db_wf dev -> has_network dev n = false -> db_wf (with_network n org dev).
Proof.
  intros Hwf Hn. pose proof Hwf as [H1 H2 H3 H4 H5 H6 H7 H8]. constructor; cbn; try done.
  - apply NoDup_map_snoc; [done|]. intros (x & E & Hx)%list_elem_of_fmap. cbn in E.
    assert (has_network dev n = true) as Ht; [|congruence]. apply existsb_exists. exists x.
    split; [by apply list_elem_of_In|]. by apply String.eqb_eq.
  - intros m Hm. rewrite map_app. apply elem_of_app. left. auto.
  - intros m Hm. change (dev_owner dev (mb_endpointId m) = net_owner (with_network n org dev) (mb_networkId m)).
    destruct (net_owner_known dev (mb_networkId m) (H5 m Hm)) as [o Ho].
    rewrite (with_network_old n org dev _ o Hn Ho), <- Ho. auto.
Qed.

Lemma with_network_view n org dev org' :
  db_wf dev -> has_network dev n = false -> org' <> org ->
  org_view org' (with_network n org dev) = org_view org' dev.
Proof.
  intros Hwf Hn Hne. apply tuple5_eq; try done.
  - cbn. rewrite List.filter_app. cbn. rewrite (proj2 (String.eqb_neq org org')) by congruence. apply app_nil_r.
  - apply filter_ext_elem. intros m Hm. f_equal. change (dd_memberships (with_network n org dev)) with (dd_memberships dev) in Hm.
    destruct (net_owner_known dev _ (wf_member_network _ Hwf m Hm)) as [o Ho].
    by rewrite (with_network_old n org dev _ o Hn Ho).
Qed.

Lemma step_insert_network org row db :
  has_network (nd_dev db) (nc_id row) = false -> name_taken org (nc_name row) None db = false ->
  cidr_column (nc_cidr row) = true -> mtu_ok (nc_mtu row) = true ->
  net_step org db (insert_network org row db).
Proof.
  intros Hnew Hname Hcol Hmtu Hwf.
  change (insert_network org row db)
    with (with_configs (with_dev db (with_network (nc_id row) org (nd_dev db))) (nd_configs db ++ [row])).
  pose proof (nw_configs _ Hwf) as (Hids & Hkeys & Hcols).
  assert (forall c, c ∈ nd_configs db ->
    net_owner (with_network (nc_id row) org (nd_dev db)) (nc_id c) = net_owner (nd_dev db) (nc_id c)) as Hold.
  { intros c Hc. destruct (net_owner_known (nd_dev db) (nc_id c)) as [o Ho].
    - rewrite <- Hids. by apply list_elem_of_fmap_2.
    - rewrite Ho. by apply with_network_old. }
  assert (net_owner (with_network (nc_id row) org (nd_dev db)) (nc_id row) = Some org) as Hrow
    by (rewrite with_network_owner by done; by rewrite String.eqb_refl).
  apply step_grow; try done.
  - apply with_network_wf; [apply Hwf|done].
  - intros n o. by apply with_network_old.
  - intros org' Hne. apply with_network_view; [apply Hwf|done..].
  - split_and!.
    + rewrite map_app. cbn. by rewrite map_app, Hids.
    + apply NoDup_map_snoc.
      * erewrite map_ext_in; [exact Hkeys|]. intros c Hc%list_elem_of_In. by rewrite Hold.
      * intros (c & E & Hc)%list_elem_of_fmap. injection E as E1 E2. rewrite Hrow, Hold in E1 by done.
        assert (name_taken org (nc_name row) None db = true) as Ht; [|congruence].
        apply existsb_exists. exists c. split; [by apply list_elem_of_In|].
        unfold owned_by. by rewrite <- E1, E2, !String.eqb_refl.
    + intros c [Hc|Hc]%elem_of_app; [auto|]. apply elem_of_cons in Hc as [->|Hc%elem_of_nil]; done.
  - intros org' Hne. rewrite (view_insert nc_id org) by done. by apply view_owners.
Qed.

(** *** The routes *)
Lemma guard_safe org b m : tx_safe (net_step org) (guard b m).
Proof. intros s. by destruct b. Qed.
Lemma runs_guard {A} org s b m (k : NetTx A) :
  (b = true -> runs (net_step org) s k) -> runs (net_step org) s (_ ← guard b m; k).
Proof. intros Hk. destruct b; [by apply Hk|]. unfold runs. cbn. reflexivity. Qed.
Lemma discard_safe {A} org (m : NetTx A) : tx_safe (net_step org) m -> tx_safe (net_step org) (discard m).
Proof. intros Hm. unfold discard. auto with txdb. Qed.

Lemma in_network_runs {A} org n s (k : NetworkConfig -> NetTx (reply A)) :
  (forall nw, network_in_org n org s.1 = Some nw -> runs (net_step org) s (k nw)) ->
  runs (net_step org) s (in_network n org k).
Proof.
  intros Hk. apply (runs_query _). destruct (network_in_org n org s.1) as [nw|]; [by apply Hk|].
  unfold runs. cbn. reflexivity.
Qed.

Lemma network_in_org_found n org db nw :
  network_in_org n org db = Some nw -> exists x, getNetworkInOrg n org (nd_dev db) = Some x.
Proof. unfold network_in_org. destruct (getNetworkInOrg _ _ _); [eauto|done]. Qed.

Lemma network_owner n org db nw :
  net_wf db -> network_in_org n org db = Some nw -> net_owner (nd_dev db) n = Some org.
Proof. intros Hwf (x & Hx)%network_in_org_found. eapply network_in_org_owner; [apply Hwf|done]. Qed.

Lemma returning_runs {R} org n s (get : NetDb -> list R) change hit f audit missing :
  net_step org s.1 (change s.1) -> runs (net_step org) s (returning get change hit f audit n org missing).
Proof.
  intros Hc. apply (runs_bind _); [|auto with txdb]. apply (runs_transaction _). apply (runs_query _).
  apply (runs_update _); [done|]. destruct (head _); auto with txdb.
Qed.

Lemma membership_belongs e n org db m :
  net_wf db -> net_owner (nd_dev db) n = Some org -> membership_of e n db = Some m -> belongs (nd_dev db) e n.
Proof.
  intros Hwf Hn [Hm [<-%String.eqb_eq <-%String.eqb_eq]%andb_prop]%List.find_some. exists org. split; [|done].
  rewrite (wf_member_org _ (nw_dev _ Hwf) m); [done|]. by apply list_elem_of_In.
Qed.

(** A change of the rows of one network of the organization. *)
Lemma is_subnet_net routeId n r : is_subnet routeId n r = true -> sn_networkId r = n.
Proof. intros [_ ?%String.eqb_eq]%andb_prop. done. Qed.

Lemma step_patch_subnets org n routeId description enabled db nw :
  network_in_org n org db = Some nw ->
  net_step org db
    (update_rows nd_subnets with_subnets (is_subnet routeId n) (patch_subnet description enabled) db).
Proof.
  intros Hnw Hwf. pose proof (network_owner _ _ _ _ Hwf Hnw) as Hn. revert Hwf. apply step_subnets.
  - intros Hwf. destruct (nw_subnets _ Hwf) as (Ht & Hc & Hd). split_and!.
    + apply table_wf_map; [done|..]; intros r Hr; destruct (is_subnet _ _ _); cbn; try done; by apply Ht.
    + intros r (x & -> & Hx)%list_elem_of_fmap. destruct (is_subnet _ _ _); cbn; auto.
    + rewrite map_map. erewrite map_ext; [exact Hd|]. intros r. by destruct (is_subnet _ _ r).
  - intros _ org' Hne. apply (view_map sn_networkId org); [done|]. intros r _.
    destruct (is_subnet routeId n r) eqn:E; [right|by left]. apply is_subnet_net in E. cbn. by rewrite E.
Qed.

Lemma step_delete_subnets org n routeId db nw :
  network_in_org n org db = Some nw ->
  net_step org db (delete_rows nd_subnets with_subnets (is_subnet routeId n) db).
Proof.
  intros Hnw Hwf. pose proof (network_owner _ _ _ _ Hwf Hnw) as Hn. revert Hwf. apply step_subnets.
  - intros Hwf. destruct (nw_subnets _ Hwf) as (Ht & Hc & Hd). split_and!.
    + by apply table_wf_filter.
    + intros r [Hr _]%elem_of_filter_bool. auto.
    + by apply NoDup_map_filter.
  - intros _ org' Hne. apply (view_filter sn_networkId org); [done|]. intros r _ E%negb_false_iff%is_subnet_net.
    by rewrite E.
Qed.

Lemma step_insert_subnet org n row db nw :
  network_in_org n org db = Some nw -> sn_networkId row = n ->
  (net_wf db -> belongs (nd_dev db) (sn_endpointId row) n) ->
  cidr_column (sn_cidr row) = true ->
  existsb (fun r => (sn_id r =? sn_id row)%string) (nd_subnets db) = false ->
  existsb (fun r => (sn_networkId r =? sn_networkId row)%string && (sn_cidr r =? sn_cidr row)%string)
    (nd_subnets db) = false ->
  net_step org db (with_subnets db (nd_subnets db ++ [row])).
Proof.
  intros Hnw Hrow Hb Hcol Hid Hover Hwf. pose proof (network_owner _ _ _ _ Hwf Hnw) as Hn.
  assert (sn_id row ∉ map sn_id (nd_subnets db)) as Hnew.
  { intros (x & E & Hx)%list_elem_of_fmap.
    assert (existsb (fun r => (sn_id r =? sn_id row)%string) (nd_subnets db) = true); [|congruence].
    apply existsb_exists. exists x. split; [by apply list_elem_of_In|]. by rewrite E, String.eqb_refl. }
  revert Hwf. apply step_subnets.
  - intros Hwf. destruct (nw_subnets _ Hwf) as (Ht & Hc & Hd). split_and!.
    + apply table_wf_insert; [done..|]. rewrite Hrow. auto.
    + intros r [Hr|Hr]%elem_of_app; [auto|]. apply elem_of_cons in Hr as [->|Hr%elem_of_nil]; done.
    + apply NoDup_map_snoc; [done|]. intros (x & E & Hx)%list_elem_of_fmap. injection E as E1 E2.
      assert (existsb (fun r => (sn_networkId r =? sn_networkId row)%string && (sn_cidr r =? sn_cidr row)%string)
                (nd_subnets db) = true); [|congruence].
      apply existsb_exists. exists x. split; [by apply list_elem_of_In|]. by rewrite E1, E2, !String.eqb_refl.
  - intros _ org' Hne. apply (view_insert sn_networkId org); [by rewrite Hrow|done].
Qed.

(** What a block that passed the checks satisfies. *)
Lemma checkSubnetRoute_Ok org n body (s : state NetDb) cidr :
  (checkSubnetRoute org n body s).2 = Ok (inr cidr) ->
  exists nw m, network_in_org n org s.1 = Some nw /\ membership_of (cr_endpointId body) n s.1 = Some m.
Proof.
  unfold checkSubnetRoute, guard, query, mbind, tx_mbind, tx_bind.
  destruct (createSubnetRouteBody body); [|done]. cbn [mret tx_mret tx_ret].
  destruct (network_in_org n org s.1) as [nw|]; [|done].
  destruct (formatIpv4Cidr _) as [c|]; [|done]. cbn [or_throw tx_ret].
  destruct (overlapsMeshCidr _ _) as [[]|]; [done| |done]. cbn [or_throw tx_ret].
  destruct (membership_of _ _ _) as [m|]; [|done]. by exists nw, m.
Qed.

Lemma createSubnetRoute_safe org user n body i s :
  runs (net_step org) s (createSubnetRoute s.1 org user n body i).
Proof.
  unfold createSubnetRoute. destruct (_.2) as [[answer|cidr]|e] eqn:E; [apply (runs_safe _); auto with txdb| |].
  2: { by apply (runs_safe _); auto with txdb. }
  apply checkSubnetRoute_Ok in E as (nw & m & Hnw & Hm). cbn [fst] in Hnw, Hm.
  apply (runs_catch _), (runs_transaction _), (runs_bind _); [|auto with txdb].
  apply (runs_query _). apply runs_guard. intros Hcol. apply runs_guard. intros Hid. apply runs_guard. intros Hkey.
  apply runs_guard. intros _. unfold runs, update. cbn [fst].
  apply (step_insert_subnet org n _ _ nw); [done|done| |done|by apply negb_true_iff|by apply negb_true_iff].
  intros Hwf. eapply membership_belongs; [done|by eapply network_owner|done].
Qed.

Lemma patchSubnetRoute_safe org user n r d e : tx_safe (net_step org) (patchSubnetRoute org user n r d e).
Proof.
  intros s. apply runs_guard. intros _. apply in_network_runs. intros nw Hnw.
  apply returning_runs. by eapply step_patch_subnets.
Qed.
Lemma deleteSubnetRoute_safe org user n r : tx_safe (net_step org) (deleteSubnetRoute org user n r).
Proof.
  intros s. apply in_network_runs. intros nw Hnw. apply returning_runs. by eapply step_delete_subnets.
Qed.

Lemma is_hostname_net routeId n r : is_hostname routeId n r = true -> hn_networkId r = n.
Proof. intros [_ ?%String.eqb_eq]%andb_prop. done. Qed.

Lemma fresh_key {R} (key : R -> string) l k :
  existsb (fun r => (key r =? k)%string) l = false -> k ∉ map key l.
Proof.
  intros Hf (x & -> & Hx)%list_elem_of_fmap.
  assert (existsb (fun r => (key r =? key x)%string) l = true); [|congruence].
  apply existsb_exists. exists x. split; [by apply list_elem_of_In|apply String.eqb_refl].
Qed.

Lemma patchHostnameRoute_safe org user n r t d e : tx_safe (net_step org) (patchHostnameRoute org user n r t d e).
Proof.
  intros s. apply runs_guard. intros _. apply in_network_runs. intros nw Hnw.
  apply (runs_pure _). { destruct t as [[ip|]|]; [|done..]. cbn. by destruct (formatIp ip). }
  intros formatted _. apply returning_runs. intros Hwf. pose proof (network_owner _ _ _ _ Hwf Hnw) as Hn. revert Hwf.
  apply step_hostnames.
  - intros Hwf. destruct (nw_hostnames _ Hwf) as (Ht & Hk). split.
    + apply table_wf_map; [done|..]; intros x Hx; destruct (is_hostname _ _ _); cbn; try done; by apply Ht.
    + rewrite map_map. erewrite map_ext; [exact Hk|]. intros x. by destruct (is_hostname _ _ _).
  - intros _ org' Hne. apply (view_map hn_networkId org); [done|]. intros x _.
    destruct (is_hostname r n x) eqn:E; [right|by left]. apply is_hostname_net in E. cbn. by rewrite E.
Qed.

Lemma deleteHostnameRoute_safe org user n r : tx_safe (net_step org) (deleteHostnameRoute org user n r).
Proof.
  intros s. apply in_network_runs. intros nw Hnw. apply returning_runs. intros Hwf.
  pose proof (network_owner _ _ _ _ Hwf Hnw) as Hn. revert Hwf. apply step_hostnames.
  - intros Hwf. destruct (nw_hostnames _ Hwf) as (Ht & Hk). split; [by apply table_wf_filter|by apply NoDup_map_filter].
  - intros _ org' Hne. apply (view_filter hn_networkId org); [done|].
    intros x _ E%negb_false_iff%is_hostname_net. by rewrite E.
Qed.

Lemma step_insert_hostname org n row db nw :
  network_in_org n org db = Some nw -> hn_networkId row = n ->
  (net_wf db -> belongs (nd_dev db) (hn_endpointId row) n) ->
  existsb (fun r => (hn_id r =? hn_id row)%string) (nd_hostnames db) = false ->
  existsb (fun r => (hn_networkId r =? hn_networkId row)%string && (hn_hostname r =? hn_hostname row)%string
                    && Bool.eqb (hn_isWildcard r) (hn_isWildcard row)) (nd_hostnames db) = false ->
  net_step org db (with_hostnames db (nd_hostnames db ++ [row])).
Proof.
  intros Hnw Hrow Hb Hid Huniq Hwf. pose proof (network_owner _ _ _ _ Hwf Hnw) as Hn. revert Hwf.
  apply step_hostnames.
  - intros Hwf. destruct (nw_hostnames _ Hwf) as (Ht & Hk). split.
    + apply table_wf_insert; [done|by apply fresh_key|]. rewrite Hrow. auto.
    + apply NoDup_map_snoc; [done|]. intros (x & E & Hx)%list_elem_of_fmap. injection E as E1 E2 E3.
      match type of Huniq with ?b = false => assert (b = true); [|congruence] end.
      apply existsb_exists. exists x. split; [by apply list_elem_of_In|].
      by rewrite E1, E2, E3, !String.eqb_refl, Bool.eqb_reflx.
  - intros _ org' Hne. apply (view_insert hn_networkId org); [by rewrite Hrow|done].
Qed.

Lemma createHostnameRoute_safe org user n body i : tx_safe (net_step org) (createHostnameRoute org user n body i).
Proof.
  intros s. apply runs_guard. intros _. apply in_network_runs. intros nw Hnw.
  destruct (parseHostnameInput _) as [hostname wild]. destruct (hostname =? "")%string;
    [apply (runs_safe _); auto with txdb|].
  apply (runs_query _). destruct (membership_of _ _ _) as [m|] eqn:Hm; [|apply (runs_safe _); auto with txdb].
  apply (runs_pure _).
  { destruct (ch_targetIp body) as [ip|]; [|done]. destruct (ip =? "")%string; [done|]. cbn. by destruct (formatIp ip). }
  intros target _. apply (runs_catch _), (runs_transaction _), (runs_bind _); [|auto with txdb].
  apply (runs_query _). apply runs_guard. intros Hid. apply runs_guard. intros Hu. apply runs_guard. intros _.
  unfold runs, update. cbn [fst].
  apply (step_insert_hostname org n _ _ nw); [done|done| |by apply negb_true_iff..].
  intros Hwf. eapply membership_belongs; [done|by eapply network_owner|done].
Qed.

(** Rows that are inserted or replaced by their device. *)
Section Upsert.
Context {R : Type} (eid nid : R -> string).

Lemma upsert_wf dev row l :
  belongs dev (eid row) (nid row) -> table_wf eid eid nid dev l -> table_wf eid eid nid dev (upsert eid row l).
Proof.
  intros Hb Hl. unfold upsert. destruct (existsb _ l) eqn:E.
  - apply table_wf_map; [done|..]; intros r Hr; destruct (String.eqb_spec (eid r) (eid row)); try done. by apply Hl.
  - apply table_wf_insert; [done|by apply fresh_key|done].
Qed.

Lemma upsert_view org dev row l org' :
  belongs dev (eid row) (nid row) -> net_owner dev (nid row) = Some org -> table_wf eid eid nid dev l ->
  org' <> org -> table_view nid org' dev (upsert eid row l) = table_view nid org' dev l.
Proof.
  intros (o & Ho & Hn) Hr [_ Hl] Hne. assert (o = org) as -> by congruence. unfold upsert.
  destruct (existsb _ l); [|by apply (view_insert nid org)].
  apply (view_map nid org); [done|]. intros r Hin. destruct (String.eqb_spec (eid r) (eid row)) as [E|]; [right|by left].
  destruct (Hl r Hin) as (o' & H1 & H2). split; [|done]. rewrite E in H1. congruence.
Qed.
End Upsert.

Lemma runs_format_cidrs {A} org s l (k : list string -> NetTx A) :
  (forall cidrs, runs (net_step org) s (k cidrs)) -> runs (net_step org) s (x ← format_cidrs l; k x).
Proof. intros Hk. apply (runs_or_throw _). auto. Qed.

Lemma putExitNode_safe org user n e b l now : tx_safe (net_step org) (putExitNode org user n e b l now).
Proof.
  intros s. apply runs_guard. intros _. apply in_network_runs. intros nw Hnw.
  apply (runs_query _). destruct (membership_of _ _ _) as [m|] eqn:Hm; [|apply (runs_safe _); auto with txdb].
  apply runs_format_cidrs. intros cidrs. apply (runs_bind _); [|auto with txdb]. apply (runs_transaction _).
  apply runs_guard. intros _. apply (runs_update _); [|auto with txdb].
  intros Hwf. pose proof (network_owner _ _ _ _ Hwf Hnw) as Hn.
  pose proof (membership_belongs _ _ _ _ _ Hwf Hn Hm) as Hb. revert Hwf. apply step_exits.
  - intros Hwf. apply (upsert_wf en_endpointId en_networkId); [done|apply Hwf].
  - intros Hwf org' Hne. apply (upsert_view en_endpointId en_networkId org); [done|done|apply Hwf|done].
Qed.

Lemma deleteExitNode_safe org user n e : tx_safe (net_step org) (deleteExitNode org user n e).
Proof.
  intros s. apply in_network_runs. intros nw Hnw. apply returning_runs. intros Hwf.
  pose proof (network_owner _ _ _ _ Hwf Hnw) as Hn. revert Hwf. apply step_exits.
  - intros Hwf. by apply table_wf_filter, Hwf.
  - intros _ org' Hne. apply (view_filter en_networkId org); [done|].
    intros x _ [_ E%String.eqb_eq]%negb_false_iff%andb_prop. by rewrite E.
Qed.

Lemma upsert_elem {R} (key : R -> string) row l r : r ∈ upsert key row l -> r = row \/ r ∈ l.
Proof.
  unfold upsert. destruct (existsb _ l).
  - intros (x & -> & Hx)%list_elem_of_fmap. destruct (_ =? _)%string; auto.
  - intros [Hr|Hr]%elem_of_app; [by right|]. apply elem_of_cons in Hr as [->|Hr%elem_of_nil]; [by left|done].
Qed.

Lemma step_put_profile org n row db nw :
  network_in_org n org db = Some nw -> pf_networkId row = n ->
  (net_wf db -> belongs (nd_dev db) (pf_endpointId row) n
     /\ forall x, pf_exitNodeEndpointId row = Some x -> belongs (nd_dev db) x n) ->
  net_step org db (with_profiles db (upsert pf_endpointId row (nd_profiles db))).
Proof.
  intros Hnw Hrow Hb Hwf. pose proof (network_owner _ _ _ _ Hwf Hnw) as Hn. destruct (Hb Hwf) as [He Hx].
  revert Hwf. apply step_profiles.
  - intros Hwf. destruct (nw_profiles _ Hwf) as (Ht & Hp). split.
    + apply (upsert_wf pf_endpointId pf_networkId); [by rewrite Hrow|done].
    + intros p x [->|Hin]%upsert_elem E; [rewrite Hrow; auto|eauto].
  - intros Hwf org' Hne. apply (upsert_view pf_endpointId pf_networkId org); [by rewrite Hrow..|apply Hwf|done].
Qed.

(** A device of a profile has the organization of its network. *)
Lemma belongs_move dev e n n' x :
  belongs dev e n -> belongs dev e n' -> belongs dev x n' -> belongs dev x n.
Proof. intros (o & H1 & H2) (o' & H3 & H4) (o'' & H5 & H6). exists o. split; congruence. Qed.

Lemma putProfile_safe org user n e b now : tx_safe (net_step org) (putProfile org user n e b now).
Proof.
  intros s. apply runs_guard. intros _. apply in_network_runs. intros nw Hnw.
  apply (runs_query _). destruct (membership_of _ _ _) as [m|] eqn:Hm; [|apply (runs_safe _); auto with txdb].
  apply (runs_pure _). { by destruct (pr_exitNodeEndpointId b) as [[x|]|]. }
  intros available Hav. destruct available; cbn [negb]; [|apply (runs_safe _); auto with txdb].
  apply (runs_pure _). { destruct (pr_splitTunnelCidrs b) as [l|]; [|done]. cbn. unfold format_cidrs. by destruct (mapM formatIpv4Cidr l). }
  intros cidrs _. apply (runs_bind _); [|auto with txdb]. apply (runs_transaction _), (runs_query _), runs_guard.
  intros _. apply (runs_update _); [|auto with txdb]. apply (step_put_profile org n _ _ nw); [done|done|].
  intros Hwf. pose proof (network_owner _ _ _ _ Hwf Hnw) as Hn.
  pose proof (membership_belongs _ _ _ _ _ Hwf Hn Hm) as Hb. split; [done|].
  cbn [pf_exitNodeEndpointId]. intros x Hx. destruct (pr_exitNodeEndpointId b) as [[y|]|]; [|done|].
  - injection Hx as ->. injection Hav as Hav. apply existsb_exists in Hav as (r & Hr%list_elem_of_In & Hr').
    apply andb_prop in Hr' as [[<-%String.eqb_eq <-%String.eqb_eq]%andb_prop _].
    by apply (proj2 (nw_exits _ Hwf)).
  - apply bind_Some in Hx as (p & [Hp <-%String.eqb_eq]%List.find_some & Hx). apply list_elem_of_In in Hp.
    destruct (nw_profiles _ Hwf) as [[_ Ht] Hex].
    exact (belongs_move _ _ _ _ _ Hb (Ht p Hp) (Hex p x Hp Hx)).
Qed.

(** *** Node groups *)
Lemma step_groups org db l members' :
  (net_wf db -> groups_wf (nd_dev db) l) -> (net_wf db -> members_wf (nd_dev db) l members') ->
  (net_wf db -> forall org', org' <> org ->
     map (group_face org' (nd_dev db)) (table_view gr_networkId org' (nd_dev db) l)
     = map (group_face org' (nd_dev db)) (table_view gr_networkId org' (nd_dev db) (nd_groups db))
     /\ List.filter (member_of org' (nd_dev db) l) members'
        = List.filter (member_of org' (nd_dev db) (nd_groups db)) (nd_members db)) ->
  net_step org db (with_members (with_groups db l) members').
Proof.
  intros Hl Hm Hv Hwf. split; [pose proof Hwf as []; constructor; cbn; auto|].
  intros org' Hne. destruct (Hv Hwf org' Hne). apply net_view_eq; cbn; auto.
Qed.

Lemma is_group_net groupId n g : is_group groupId n g = true -> gr_networkId g = n.
Proof. intros [_ ?%String.eqb_eq]%andb_prop. done. Qed.

Lemma group_taken_false n name except db g :
  group_taken n name except db = false -> g ∈ nd_groups db -> gr_networkId g = n -> gr_name g = name ->
  except = Some (gr_id g).
Proof.
  intros Hf Hg Hn Hname. unfold group_taken in Hf.
  destruct except as [i|]; [destruct (String.eqb_spec (gr_id g) i) as [->|Hi]; [done|]|];
    (match type of Hf with ?b = false => assert (b = true); [|congruence] end);
    apply existsb_exists; exists g; (split; [by apply list_elem_of_In|]); rewrite Hn, Hname, !String.eqb_refl; cbn;
    [|done]. by rewrite (proj2 (String.eqb_neq _ _)).
Qed.

(** Unique keys stay unique when one row changes to a key no other row has. *)
Lemma NoDup_map_update {R K} (key : R -> K) (hit : R -> bool) (f : R -> R) l :
  NoDup (map key l) ->
  (forall r r', r ∈ l -> r' ∈ l -> hit r = true -> hit r' = true -> r = r') ->
  (forall r r', r ∈ l -> r' ∈ l -> hit r = true -> hit r' = false -> key (f r) <> key r') ->
  NoDup (map key (map (fun r => if hit r then f r else r) l)).
Proof.
  rewrite map_map. induction l as [|x l IH]; cbn; intros Hn Huniq Hk; [constructor|].
  apply list.NoDup_cons in Hn as [Hx Hn]. apply list.NoDup_cons. split.
  - intros (y & E & Hy)%list_elem_of_fmap.
    assert (x <> y) as Hxy by (intros ->; apply Hx; by apply list_elem_of_fmap_2).
    assert (x ∈ x :: l) as Hx' by (by left). assert (y ∈ x :: l) as Hy' by (by right).
    destruct (hit x) eqn:E1, (hit y) eqn:E2.
    + by apply Hxy, Huniq.
    + by apply (Hk x y Hx' Hy' E1 E2).
    + by apply (Hk y x Hy' Hx' E2 E1).
    + apply Hx. rewrite E. by apply list_elem_of_fmap_2.
  - apply IH; [done|..]; intros r r' Hr Hr'; [apply Huniq|apply Hk]; by right.
Qed.

Lemma step_insert_group org n row members db nw :
  network_in_org n org db = Some nw -> gr_networkId row = n ->
  has_group (nd_groups db) (gr_id row) = false -> group_taken n (gr_name row) None db = false ->
  NoDup (map gm_endpointId members) ->
  (forall m, m ∈ members -> gm_groupId m = gr_id row) ->
  (net_wf db -> forall m, m ∈ members -> belongs (nd_dev db) (gm_endpointId m) n) ->
  (net_wf db -> forall e, gr_activeEndpointId row = Some e -> exists o, dev_owner (nd_dev db) e = Some o) ->
  net_step org db (with_members (with_groups db (nd_groups db ++ [row])) (nd_members db ++ members)).
Proof.
  intros Hnw Hrow Hid Hname Hnd Hgid Hb Hact Hwf. pose proof (network_owner _ _ _ _ Hwf Hnw) as Hn.
  pose proof (fresh_key gr_id _ _ Hid) as Hfresh.
  assert (forall m, m ∈ nd_members db -> gm_groupId m <> gr_id row) as Hold.
  { intros m Hm E. destruct (proj2 (nw_members _ Hwf) m Hm) as (g & Hg & Eg & _). apply Hfresh.
    rewrite <- E, <- Eg. by apply list_elem_of_fmap_2. }
  revert Hwf. apply step_groups.
  - intros Hwf. destruct (nw_groups _ Hwf) as (H1 & H2 & H3). split_and!.
    + by apply NoDup_map_snoc.
    + apply NoDup_map_snoc; [done|]. intros (g & E & Hg)%list_elem_of_fmap. injection E as E1 E2.
      by pose proof (group_taken_false _ _ _ _ g Hname Hg ltac:(congruence) ltac:(congruence)).
    + intros g [Hg|Hg]%elem_of_app; [auto|]. apply elem_of_cons in Hg as [->|Hg%elem_of_nil]; [|done].
      split; [rewrite Hrow; eauto|auto].
  - intros Hwf. destruct (nw_members _ Hwf) as (H1 & H2). split.
    + rewrite map_app. apply list.NoDup_app. split_and!; [done| |].
      * intros k (m & -> & Hm)%list_elem_of_fmap (m' & E & Hm')%list_elem_of_fmap. injection E as E1 _.
        apply (Hold m Hm). rewrite E1. auto.
      * apply (NoDup_fmap_1 snd). change (NoDup (map snd (map (fun m => (gm_groupId m, gm_endpointId m)) members))).
        by rewrite map_map.
    + intros m [Hm|Hm]%elem_of_app.
      * destruct (H2 m Hm) as (g & Hg & Eg & Hbm). exists g. split; [apply elem_of_app; by left|done].
      * exists row. split; [apply elem_of_app; right; by left|]. split; [symmetry; auto|]. rewrite Hrow. auto.
  - intros Hwf org' Hne. split; [f_equal; apply (view_insert gr_networkId org); [by rewrite Hrow|done]|].
    rewrite List.filter_app. rewrite (filter_ext_elem _ (fun _ => false) members).
    + rewrite filter_false, app_nil_r. apply filter_ext_elem. intros m Hm. unfold member_of.
      rewrite existsb_app. cbn. rewrite (proj2 (String.eqb_neq _ _)), orb_false_r; [done|].
      intros E. by apply (Hold m Hm).
    + intros m Hm. apply not_true_iff_false. rewrite member_of_elem. intros (g & Hg & Eg & Ho).
      apply elem_of_app in Hg as [Hg|Hg].
      * apply Hfresh. rewrite <- (Hgid m Hm), <- Eg. by apply list_elem_of_fmap_2.
      * apply elem_of_cons in Hg as [->|Hg%elem_of_nil]; [|done]. rewrite Hrow in Ho. congruence.
Qed.

Lemma outsider_None n members db m :
  outsider n members db = None -> m ∈ members -> exists x, membership_of (mbb_endpointId m) n db = Some x.
Proof.
  intros Ho Hm. pose proof (List.find_none _ _ Ho m (proj1 (list_elem_of_In _ _) Hm)) as Hf. cbn in Hf.
  destruct (membership_of _ _ _); [eauto|done].
Qed.

Lemma createNodeGroup_safe org user n body i : tx_safe (net_step org) (createNodeGroup org user n body i).
Proof.
  intros s. apply runs_guard. intros _. apply in_network_runs. intros nw Hnw.
  apply (runs_query _). destruct (outsider _ _ _) as [m|] eqn:Ho; [apply (runs_safe _); auto with txdb|].
  apply (runs_bind _); [|auto with txdb]. apply (runs_transaction _), (runs_query _), runs_guard. intros Hid.
  apply runs_guard. intros Hname. apply runs_guard. intros Hnd%bool_decide_eq_true.
  apply (runs_update _); [|auto with txdb]. apply negb_true_iff in Hid, Hname.
  assert (net_wf s.1 -> forall m, m ∈ cg_members body -> belongs (nd_dev s.1) (mbb_endpointId m) n) as Hb.
  { intros Hwf m Hm. destruct (outsider_None _ _ _ m Ho Hm) as [x Hx].
    eapply membership_belongs; [done|by eapply network_owner|done]. }
  apply (step_insert_group org n _ _ _ nw); try done.
  - by intros m (x & -> & _)%list_elem_of_fmap.
  - intros Hwf m (x & -> & Hx)%list_elem_of_fmap. cbn. auto.
  - intros Hwf e. cbn. destruct (cg_members body) as [|m l]; [done|]. cbn. intros [= <-].
    destruct (Hb Hwf m ltac:(by left)) as (o & Hd & _). eauto.
Qed.

Lemma member_of_map org dev (f : NodeGroupRow -> NodeGroupRow) groups m :
  (forall x, gr_id (f x) = gr_id x /\ gr_networkId (f x) = gr_networkId x) ->
  member_of org dev (map f groups) m = member_of org dev groups m.
Proof.
  intros Hf. unfold member_of. induction groups as [|x l IH]; cbn; [done|].
  by rewrite (proj1 (Hf x)), (proj2 (Hf x)), IH.
Qed.

Definition patched (g n : string) (p : PatchNodeGroup) (r : NodeGroupRow) : NodeGroupRow :=
  if is_group g n r then patch_group p r else r.

Lemma patched_face g n p x : gr_id (patched g n p x) = gr_id x /\ gr_networkId (patched g n p x) = gr_networkId x.
Proof. unfold patched. by destruct (is_group g n x). Qed.

Lemma patched_groups_wf g n p db :
  (existsb (is_group g n) (nd_groups db) = true ->
     forall name, pg_name p = Some name -> group_taken n name (Some g) db = false) ->
  (existsb (is_group g n) (nd_groups db) = true ->
     forall e, pg_activeEndpointId p = Some (Some e) -> has_device (nd_dev db) e = true) ->
  net_wf db -> groups_wf (nd_dev db) (map (patched g n p) (nd_groups db)).
Proof.
  intros Hname Hact Hwf. destruct (nw_groups _ Hwf) as (H1 & H2 & H3).
  assert (forall x, x ∈ nd_groups db -> is_group g n x = true -> existsb (is_group g n) (nd_groups db) = true) as Hex
    by (intros x Hx Hh; apply existsb_exists; exists x; split; [by apply list_elem_of_In|done]).
  split_and!.
  - rewrite map_map. erewrite map_ext; [exact H1|]. intros x. apply patched_face.
  - apply NoDup_map_update; [done|..].
    + intros r r' Hr Hr' [E1%String.eqb_eq _]%andb_prop [E2%String.eqb_eq _]%andb_prop.
      apply (groups_by_id (nd_groups db)); [done..|congruence].
    + intros r r' Hr Hr' Hh Hh' E. specialize (Hname (Hex r Hr Hh)). injection E as E1 E2.
      pose proof (is_group_net _ _ _ Hh) as En. destruct (pg_name p) as [name|]; cbn in E2.
      * pose proof (group_taken_false _ _ _ _ r' (Hname name eq_refl) Hr' ltac:(congruence) ltac:(congruence)) as [= Eg].
        unfold is_group in Hh'. rewrite <- Eg, <- E1, En, !String.eqb_refl in Hh'. done.
      * assert (r = r') as ->; [|congruence]. apply (NoDup_map_inj group_key (nd_groups db)); [done..|].
        unfold group_key. congruence.
  - intros x (y & -> & Hy)%list_elem_of_fmap. rewrite (proj2 (patched_face g n p y)). split; [by apply H3|].
    intros e. unfold patched. destruct (is_group g n y) eqn:Eh; [|by apply H3]. cbn.
    specialize (Hact (Hex y Hy Eh)).
    destruct (pg_activeEndpointId p) as [[a|]|]; cbn; [|done|by apply H3]. intros [= ->]. apply has_device_owner. auto.
Qed.

Lemma patchNodeGroup_safe org user n g p : tx_safe (net_step org) (patchNodeGroup org user n g p).
Proof.
  intros s. apply runs_guard. intros _. apply in_network_runs. intros nw Hnw.
  apply runs_guard. intros _. apply (runs_query _). apply runs_guard. intros Hname. apply runs_guard. intros Hact.
  apply returning_runs.
  change (update_rows nd_groups with_groups (is_group g n) (patch_group p) s.1)
    with (with_members (with_groups s.1 (map (patched g n p) (nd_groups s.1))) (nd_members s.1)).
  intros Hwf. pose proof (network_owner _ _ _ _ Hwf Hnw) as Hn. revert Hwf. apply step_groups.
  - apply patched_groups_wf; intros E; rewrite E in Hname, Hact; cbn [negb orb] in Hname, Hact.
    + intros name En. rewrite En in Hname. by apply negb_true_iff.
    + intros e Ee. by rewrite Ee in Hact.
  - intros Hwf. destruct (nw_members _ Hwf) as (H1 & H2). split; [done|]. intros m Hm.
    destruct (H2 m Hm) as (x & Hx & Ex & Hb). exists (patched g n p x).
    rewrite (proj1 (patched_face g n p x)), (proj2 (patched_face g n p x)).
    split; [by apply list_elem_of_fmap_2|done].
  - intros Hwf org' Hne. split.
    + f_equal. apply (view_map gr_networkId org); [done|]. intros x _. unfold patched.
      destruct (is_group g n x) eqn:E; [right|by left]. apply is_group_net in E. cbn. by rewrite E.
    + apply filter_ext_elem. intros m _. apply member_of_map, patched_face.
Qed.

Lemma deleteNodeGroup_safe org user n g : tx_safe (net_step org) (deleteNodeGroup org user n g).
Proof.
  intros s. apply in_network_runs. intros nw Hnw. apply returning_runs. apply step_delete_group.
  intros Hwf x _ Hx%is_group_net. rewrite Hx. by eapply network_owner.
Qed.

(** *** Networks *)
Lemma createNetwork_safe billed billing org user body i :
  tx_safe (net_step org) (createNetwork billed billing org user body i).
Proof.
  intros s. apply runs_guard. intros Hbody. apply (runs_query _).
  destruct (assertNetworkCapacity _ _ _); [|apply (runs_safe _); auto with txdb].
  apply (runs_transaction _), (runs_or_throw _). intros cidr _. apply (runs_query _), runs_guard. intros Hcol.
  apply runs_guard. intros Hnew. apply runs_guard. intros Hname. apply (runs_update _); [|auto with txdb].
  apply step_insert_network; [by apply negb_true_iff..|done|].
  by apply andb_prop in Hbody as [_ ?].
Qed.

Lemma name_taken_false org name except db c :
  name_taken org name except db = false -> c ∈ nd_configs db -> net_owner (nd_dev db) (nc_id c) = Some org ->
  nc_name c = name -> except = Some (nc_id c).
Proof.
  intros Hf Hc Ho Hname. unfold name_taken in Hf.
  destruct except as [i|]; [destruct (String.eqb_spec (nc_id c) i) as [->|Hi]; [done|]|];
    (match type of Hf with ?b = false => assert (b = true); [|congruence] end);
    apply existsb_exists; exists c; (split; [by apply list_elem_of_In|]); unfold owned_by;
    rewrite Ho, Hname, !String.eqb_refl; cbn; [|done]. by rewrite (proj2 (String.eqb_neq _ _)).
Qed.

Lemma step_patch_network org n p cidr settings db nw :
  network_in_org n org db = Some nw -> patchNetworkBody p = true ->
  match cidr with Some c => cidr_column c | None => true end = true ->
  match pn_name p with Some m => negb (name_taken org m (Some n) db) | None => true end = true ->
  net_step org db (with_configs db
    (map (fun c => if (nc_id c =? n)%string then patch_config p cidr settings c else c) (nd_configs db))).
Proof.
  intros Hnw Hbody Hcol Hname Hwf. pose proof (network_owner _ _ _ _ Hwf Hnw) as Hn.
  pose proof (nw_configs _ Hwf) as (Hids & Hkeys & Hcols). revert Hwf. apply step_configs.
  - intros Hwf. assert (NoDup (map nc_id (nd_configs db))) as Hnd by (rewrite Hids; apply Hwf). split_and!.
    + rewrite map_map, <- Hids. apply map_ext. intros c. by destruct (_ =? _)%string.
    + apply NoDup_map_update; [done|..].
      * intros r r' Hr Hr' E1%String.eqb_eq E2%String.eqb_eq. apply (NoDup_map_inj nc_id (nd_configs db)); [done..|congruence].
      * intros r r' Hr Hr' Hh%String.eqb_eq Hh'%String.eqb_neq E. cbn [patch_config nc_id nc_name] in E.
        injection E as E1 E2. rewrite Hh, Hn in E1. destruct (pn_name p) as [name|]; cbn in E2.
        -- apply negb_true_iff in Hname.
           pose proof (name_taken_false _ _ _ _ r' Hname Hr' ltac:(congruence) ltac:(congruence)) as [= Ei]. congruence.
        -- assert (r = r') as ->; [|done].
           apply (NoDup_map_inj (fun c => (net_owner (nd_dev db) (nc_id c), nc_name c)) (nd_configs db)); [done..|].
           congruence.
    + intros c (x & -> & Hx)%list_elem_of_fmap. destruct (Hcols x Hx) as [Hc1 Hc2].
      destruct (_ =? _)%string; [|done]. cbn. split; [by destruct cidr|].
      apply andb_prop in Hbody as [_ Hm]. by destruct (pn_mtu p).
  - intros Hwf org' Hne. apply (view_map nc_id org); [done|]. intros c _.
    destruct (String.eqb_spec (nc_id c) n) as [E|]; [right|by left]. cbn. by rewrite E.
Qed.

Lemma patchNetwork_safe org user n p : tx_safe (net_step org) (patchNetwork org user n p).
Proof.
  intros s. apply runs_guard. intros Hbody. apply (runs_transaction _), (runs_query _), (runs_or_throw _).
  intros nw Hnw. apply (runs_pure _).
  { destruct (pn_settings p) as [q|]; [|done]. cbn. by destruct (mergeNetworkSettings _ q). }
  intros settings _. apply (runs_pure _).
  { destruct (pn_cidr p) as [c|]; [|done]. cbn. by destruct (formatIpv4Cidr c). }
  intros cidr _. apply runs_guard. intros _. apply (runs_query _), runs_guard. intros Hcol. apply runs_guard. intros Hname.
  apply (runs_update _); [by eapply step_patch_network|]. destruct (network_changed p); auto with txdb.
Qed.

Lemma deleteNetwork_safe org user n : tx_safe (net_step org) (deleteNetwork org user n).
Proof.
  intros s. apply (runs_transaction _), (runs_query _), (runs_or_throw _). intros x Hx.
  apply (runs_update _); [by eapply step_delete_network; eexists|]. auto with txdb.
Qed.

Lemma handle_net_safe parse billed billing org user q :
  tx_safe (net_step org) (handle_net parse billed billing org user q).
Proof.
  destruct q; cbn [handle_net]; try apply discard_safe.
  - apply on_devices_safe, handle_safe.
  - intros s. apply createSubnetRoute_safe.
  - apply patchSubnetRoute_safe.
  - apply deleteSubnetRoute_safe.
  - apply createHostnameRoute_safe.
  - apply patchHostnameRoute_safe.
  - apply deleteHostnameRoute_safe.
  - apply putExitNode_safe.
  - apply deleteExitNode_safe.
  - apply putProfile_safe.
  - apply createNodeGroup_safe.
  - apply patchNodeGroup_safe.
  - apply deleteNodeGroup_safe.
  - apply createNetwork_safe.
  - apply patchNetwork_safe.
  - apply deleteNetwork_safe.
Qed.

Lemma serve_net_wf parse billed billing s requests :
  net_wf s.1 -> net_wf (serve_net parse billed billing s requests).1.
Proof.
  revert s. induction requests as [|[[org user] q] rest IH]; intros s Hwf; [done|].
  apply IH. by apply (handle_net_safe parse billed billing org user q s).
Qed.
End Invariant.

(** ** Properties *)
Section Properties.
Context `{IpAddress} (parse : string -> option (option Q)) (billed : bool) (billing : BillingDb).

(** C33: Whatever requests on devices and networks the management server serves,
    one after the other, the tables stay well-formed: keys are unique, names are
    unique in their organization or network, a block is stored once per network,
    blocks and MTUs are within their ranges, and the device and the network of
    every route, exit node, profile and group member exist and are of one
    organization.  The active member of a node group is only known to be a
    device that exists. *)
Theorem network_tables_wellformed (s : state NetDb) (requests : list (string * string * net_request)) :
  net_wf s.1 -> net_wf (serve_net parse billed billing s requests).1.
Proof. apply serve_net_wf. Qed.

(** C31: Organizations are isolated: requests of other organizations, served one
    after the other, change none of an organization's devices, memberships,
    tags, networks, routes, exit nodes, profiles, versions and node groups,
    their active members included where those are devices of the
    organization. *)
Theorem network_requests_isolated (s : state NetDb) (requests : list (string * string * net_request)) (org : string) :
  net_wf s.1 -> Forall (fun r => r.1.1 <> org) requests ->
  net_view org (serve_net parse billed billing s requests).1 = net_view org s.1.
Proof.
  revert s. induction requests as [|[[org' user] q] rest IH]; intros s Hwf Hr; [done|].
  apply list.Forall_cons in Hr as [Hne Hr]. cbn in Hne.
  destruct (handle_net_safe parse billed billing org' user q s Hwf) as [Hwf' Hv].
  cbn [serve_net foldl fst snd]. fold (serve_net parse billed billing (handle_net parse billed billing org' user q s).1 rest).
  rewrite IH by done. apply Hv. congruence.
Qed.

End Properties.

(** ** The check of a new subnet route *)
Section SubnetRoute.
Context `{IpAddress}.

(** A text of a [cidr] column is a block. *)
Lemma cidr_column_valid text : cidr_column text = true -> exists a, address4 text = Some a.
Proof. unfold cidr_column. destruct (address4 text); [eauto|done]. Qed.

Lemma overlapping_run cidr a l (s : state NetDb) :
  address4 cidr = Some a -> (forall r, r ∈ l -> exists b, address4 (sn_cidr r) = Some b) ->
  exists o, overlapping cidr l s = (s, Ok o)
    /\ (o = None <-> forall r b, r ∈ l -> address4 (sn_cidr r) = Some b -> overlap a b = false).
Proof.
  intros Ha. induction l as [|r l IH]; intros Hl.
  - exists None. split; [done|]. split; [|done]. intros _ r b Hr. by apply elem_of_nil in Hr.
  - destruct (Hl r) as [b Hb]; [by left|]. destruct IH as (o & Ho & Hiff); [intros x Hx; apply Hl; by right|].
    assert (ipv4CidrsOverlap cidr (sn_cidr r) = Some (overlap a b)) as E
      by (unfold ipv4CidrsOverlap; by rewrite Ha, Hb).
    cbn [overlapping]. rewrite E. cbn. destruct (overlap a b) eqn:Eo.
    + exists (Some r). split; [done|]. split; [done|]. intros Hf.
      rewrite (Hf r b) in Eo by (done || by left). done.
    + exists o. split; [done|]. rewrite Hiff. split.
      * intros Hf x b' [->|Hx]%elem_of_cons Hb'; [congruence|eauto].
      * intros Hf x b' Hx. apply Hf. by right.
Qed.

Lemma same_block_overlap (Laws : IpLaws) a a' b : same_block a a' -> overlap a b = overlap a' b.
Proof.
  intros Hs. apply eq_true_iff_eq. rewrite !(overlap_spec Laws). split; intros (ip & H1 & H2); exists ip;
    (split; [by apply (same_block_in a a' ip Hs)|done]).
Qed.

Lemma taken_id row l :
  existsb (fun r => (sn_id r =? sn_id row)%string) l = true <-> sn_id row ∈ map sn_id l.
Proof.
  rewrite existsb_exists, list_elem_of_fmap. split.
  - intros (r & Hr & E%String.eqb_eq). exists r. split; [done|by apply list_elem_of_In].
  - intros (r & E & Hr). exists r. split; [by apply list_elem_of_In|by apply String.eqb_eq].
Qed.

Lemma taken_cidr row l :
  (forall r, r ∈ l -> sn_networkId r = sn_networkId row -> sn_cidr r <> sn_cidr row) ->
  existsb (fun r => (sn_networkId r =? sn_networkId row)%string && (sn_cidr r =? sn_cidr row)%string) l = true -> False.
Proof.
  intros Hu (r & Hr & [E1%String.eqb_eq E2%String.eqb_eq]%andb_prop)%existsb_exists.
  by apply (Hu r); [apply list_elem_of_In| |].
Qed.

Lemma insert_subnet_stored row (s : state NetDb) :
  cidr_column (sn_cidr row) = true -> sn_id row ∉ map sn_id (nd_subnets s.1) ->
  (forall r, r ∈ nd_subnets s.1 -> sn_networkId r = sn_networkId row -> sn_cidr r <> sn_cidr row) ->
  has_device (nd_dev s.1) (sn_endpointId row) = true -> has_network (nd_dev s.1) (sn_networkId row) = true ->
  insert_subnet row s = ((with_subnets s.1 (nd_subnets s.1 ++ [row]), s.2), Ok tt).
Proof.
  intros Hc Hi Hu Hd Hn. unfold insert_subnet, mbind, tx_mbind, tx_bind, query. rewrite Hc.
  rewrite (proj1 (not_true_iff_false _) (fun E => Hi (proj1 (taken_id row _) E))).
  rewrite (proj1 (not_true_iff_false _) (fun E => taken_cidr row _ Hu E)). by rewrite Hd, Hn.
Qed.

Lemma insert_subnet_inv row (s s1 : state NetDb) :
  insert_subnet row s = (s1, Ok tt) ->
  cidr_column (sn_cidr row) = true
  /\ (forall r, r ∈ nd_subnets s.1 -> sn_networkId r = sn_networkId row -> sn_cidr r <> sn_cidr row)
  /\ has_device (nd_dev s.1) (sn_endpointId row) = true /\ has_network (nd_dev s.1) (sn_networkId row) = true.
Proof.
  unfold insert_subnet, guard, mbind, tx_mbind, tx_bind, query. destruct (cidr_column _); [|done].
  cbn [mret tx_mret tx_ret]. destruct (negb _); [|done]. cbn [mret tx_mret tx_ret].
  destruct (negb _) eqn:Ek; [|done]. cbn [mret tx_mret tx_ret].
  destruct (_ && _) eqn:Ef; [|done]. intros _. apply andb_prop in Ef as [Hd Hn]. split_and!; try done.
  intros r Hr E1 E2. apply negb_true_iff in Ek.
  assert (existsb (fun r => (sn_networkId r =? sn_networkId row)%string && (sn_cidr r =? sn_cidr row)%string)
            (nd_subnets s.1) = true); [|congruence].
  apply existsb_exists. exists r. split; [by apply list_elem_of_In|]. by rewrite E1, E2, !String.eqb_refl.
Qed.

(** The checks, on the database they read. *)
Lemma checkSubnetRoute_spec (s : state NetDb) org n body nw cidr a' mesh :
  createSubnetRouteBody body = true -> network_in_org n org s.1 = Some nw ->
  formatIpv4Cidr (cr_cidr body) = Some cidr -> address4 cidr = Some a' -> address4 (nc_cidr nw) = Some mesh ->
  (forall r, r ∈ nd_subnets s.1 -> exists b, address4 (sn_cidr r) = Some b) ->
  exists res, (checkSubnetRoute org n body s).2 = Ok res
    /\ (res = inr cidr \/ exists answer, res = inl answer /\ forall row, answer <> Reply row)
    /\ (res = inr cidr <->
        overlap a' mesh = false /\ membership_of (cr_endpointId body) n s.1 <> None
        /\ forall r b, r ∈ nd_subnets s.1 -> sn_networkId r = n -> address4 (sn_cidr r) = Some b ->
             overlap a' b = false).
Proof.
  intros Hb Hnw Hf Ha Hm Hrows.
  assert (overlapsMeshCidr cidr (nc_cidr nw) = Some (overlap a' mesh)) as Hmesh
    by (unfold overlapsMeshCidr, ipv4CidrsOverlap; by rewrite Ha, Hm).
  set (existing := List.filter (fun r => (sn_networkId r =? n)%string) (nd_subnets s.1)).
  destruct (overlapping_run cidr a' existing s Ha) as (o & Ho & Hiff).
  { intros r [Hr _]%elem_of_filter_bool. by apply Hrows. }
  assert (o = None <-> forall r b, r ∈ nd_subnets s.1 -> sn_networkId r = n -> address4 (sn_cidr r) = Some b ->
            overlap a' b = false) as Hfree.
  { rewrite Hiff. unfold existing. setoid_rewrite elem_of_filter_bool. setoid_rewrite String.eqb_eq. naive_solver. }
  setoid_rewrite <- Hfree. clear Hfree Hiff.
  unfold checkSubnetRoute, guard, query, mbind, tx_mbind, tx_bind. rewrite Hb.
  cbn [mret tx_mret tx_ret fst snd]. rewrite Hnw, Hf. cbn [or_throw tx_ret]. rewrite Hmesh. cbn [or_throw tx_ret].
  destruct (overlap a' mesh); [eexists; split; [done|]; naive_solver|].
  destruct (membership_of (cr_endpointId body) n s.1) as [m|]; [|eexists; split; [done|]; naive_solver].
  cbv beta iota. fold existing. rewrite Ho. cbv beta iota.
  destruct o as [route|]; eexists; (split; [done|]); naive_solver.
Qed.

(** The transaction, on the database it runs on. *)
Lemma storeSubnetRoute_spec (s : state NetDb) org user n body i cidr :
  let row := mkSubnetRow i (cr_endpointId body) n cidr (cr_description body) (cr_enabled body) in
  i ∉ map sn_id (nd_subnets s.1) ->
  (exists s', storeSubnetRoute org user n body i cidr s = (s', Ok (Reply row))
     /\ nd_subnets s'.1 = nd_subnets s.1 ++ [row])
  <-> cidr_column cidr = true
      /\ (forall r, r ∈ nd_subnets s.1 -> sn_networkId r = n -> sn_cidr r <> cidr)
      /\ has_device (nd_dev s.1) (cr_endpointId body) = true /\ has_network (nd_dev s.1) n = true.
Proof.
  intros row Hi.
  assert (forall s1, (insert_subnet row s = (s1, Ok tt) ->
            exists events, storeSubnetRoute org user n body i cidr s
              = ((with_dev s1.1 (bump_network n org (nd_dev s1.1)), events), Ok (Reply row)))) as Hok.
  { intros s1 E. unfold storeSubnetRoute, catch, transaction, mbind, tx_mbind, tx_bind. fold row. rewrite E. by eexists. }
  split.
  - intros (s' & E & _). destruct (insert_subnet row s) as [s1 [[]|e]] eqn:Eins.
    + apply insert_subnet_inv in Eins. done.
    + exfalso. unfold storeSubnetRoute, catch, transaction, mbind, tx_mbind, tx_bind in E. fold row in E.
      rewrite Eins in E. by destruct (includes _ _).
  - intros (Hc & Hu & Hd & Hn). destruct (Hok _ (insert_subnet_stored row s Hc Hi Hu Hd Hn)) as [events ->].
    by eexists.
Qed.

End SubnetRoute.

(** ** Witnesses *)
Definition hex_id (c : string) : string := String.concat EmptyString (repeat c 64).
Definition e1 : string := hex_id "a".
Definition e2 : string := hex_id "b".
Definition e3 : string := hex_id "c".
Definition sample_config (n name cidr : string) : NetworkConfig :=
  mkNetworkConfig n name cidr 1280 net_deny net_icmp_acl VNull.
Definition sample_net : NetDb :=
  mkNetDb
    (mkDeviceDb [dev e1 "acme"; dev e2 "acme"; dev e3 "beta"]
       [mkNetworkVersion "n1" "acme" 0; mkNetworkVersion "n3" "beta" 0]
       [mkMembership e1 "n1" ms_active; mkMembership e2 "n1" ms_active; mkMembership e3 "n3" ms_active]
       [] [("acme", 1); ("beta", 1)] [])
    [sample_config "n1" "office" "10.0.0.0/8"; sample_config "n3" "office" "10.0.0.0/8"]
    [mkSubnetRow "r1" e1 "n1" "192.168.0.0/24" None true] [] [] [] [] [].
Definition no_billing : BillingDb := mkBillingDb [] [] [] [] [] [] [] [] [] [].

(** A route next to the first, one inside it, one of the other organization's
    network, a hostname route, and the removal of the first route's network
    member. *)
Definition sample_changes : list (string * string * net_request) :=
  [("acme", "u", NqCreateSubnet "n1" (mkCreateSubnet e2 "192.168.1.0/24" None true) "r2");
   ("acme", "u", NqCreateSubnet "n1" (mkCreateSubnet e2 "192.168.0.128/25" None true) "r3");
   ("acme", "u", NqCreateSubnet "n3" (mkCreateSubnet e3 "192.168.9.0/24" None true) "r4");
   ("acme", "u", NqDeleteSubnet "n1" "r9"); ("acme", "u", NqDevice (RqDelete "n3" e3))].

Ltac each_row := let x := fresh "x" in let Hx := fresh "Hx" in
  intros x Hx; repeat (apply elem_of_cons in Hx as [->|Hx]; [vm_compute; eauto|]); by apply elem_of_nil in Hx.

Lemma sample_dev_wf : db_wf (nd_dev sample_net).
Proof.
  constructor; [apply (bool_decide_unpack _); vm_compute; reflexivity..| | | | |];
    intros x Hx; cbn in Hx;
    repeat (apply elem_of_cons in Hx as [->|Hx]; [apply (bool_decide_unpack _); vm_compute; reflexivity|]);
    try (by apply elem_of_nil in Hx).
  all: repeat (apply elem_of_cons in Hx as [->|Hx]; [discriminate|]); by apply elem_of_nil in Hx.
Qed.

Lemma sample_net_wf : net_wf sample_net.
Proof.
  constructor; [exact sample_dev_wf| | | | | | |].
  - split_and!; [reflexivity|apply (bool_decide_unpack _); vm_compute; reflexivity|each_row].
  - split_and!; [|each_row|].
    + split; [apply (bool_decide_unpack _); vm_compute; reflexivity|each_row].
    + apply (bool_decide_unpack _). vm_compute. reflexivity.
  - split; [split; [constructor|each_row]|constructor].
  - split; [constructor|each_row].
  - split; [split; [constructor|each_row]|]. by intros p e Hp%elem_of_nil.
  - split_and!; [constructor..|each_row].
  - split; [constructor|each_row].
Qed.

Lemma network_tables_wellformed_witness :
  net_wf (serve_net no_parse false no_billing (sample_net, []) sample_changes).1
  /\ map sn_id (nd_subnets (serve_net no_parse false no_billing (sample_net, []) sample_changes).1) = ["r1"; "r2"].
Proof.
  split; [|vm_compute; reflexivity].
  apply (network_tables_wellformed no_parse false no_billing (sample_net, []) sample_changes).
  exact sample_net_wf.
Defined.

Lemma network_requests_isolated_witness :
  net_view "beta" (serve_net no_parse false no_billing (sample_net, []) sample_changes).1 = net_view "beta" sample_net.
Proof.
  apply (network_requests_isolated no_parse false no_billing (sample_net, []) sample_changes "beta").
  - exact sample_net_wf.
  - repeat constructor; discriminate.
Defined.

Definition block (address prefix : Z) (H : dotted_ok (address, prefix) = true) : Address4 := exist _ (address, prefix) H.

Lemma address4_block text address prefix H :
  parse_cidr text = Some (address, prefix) -> address4 text = Some (block address prefix H).
Proof.
  intros E. cbn. unfold dotted_parse. rewrite E. destruct (decide _) as [H'|]; [|done].
  f_equal. by apply (sig_eq_pi _).
Qed.

(** The block next to the first route is accepted. *)
Definition second_route : SubnetRouteRow := mkSubnetRow "r2" e2 "n1" "192.168.1.0/24" None true.


(** ** Observations on the routes *)
Definition run (requests : list (string * string * net_request)) : NetDb :=
  (serve_net no_parse false no_billing (sample_net, []) requests).1.

(** The range of a network is not compared with its routes when it is changed. *)
Lemma patched_range_overlaps_route :
  map nc_cidr (nd_configs (run [("acme", "u", NqPatchNetwork "n1"
    (mkPatchNetwork None (Some "192.168.0.0/16") None None None None))])) = ["192.168.0.0/16"; "10.0.0.0/8"]
  /\ overlapsMeshCidr "192.168.0.0/24" "192.168.0.0/16" = Some true.
Proof. split; vm_compute; reflexivity. Qed.

(** The active member of a node group may be a device of another organization. *)
Lemma foreign_active_member :
  map gr_activeEndpointId (nd_groups (run
    [("acme", "u", NqCreateGroup "n1" (mkCreateGroup "gateways" true [mkMemberBody e1 100]) "g1");
     ("acme", "u", NqPatchGroup "n1" "g1" (mkPatchGroup None None (Some (Some e3))))])) = [Some e3].
Proof. vm_compute. reflexivity. Qed.

(** The first device as a member of two networks. *)
Definition two_networks : NetDb :=
  let db := run [("acme", "u", NqCreateNetwork (mkCreateNetwork "lab" "10.9.0.0/16" 1280 net_deny net_icmp_acl) "n9")] in
  with_dev db (with_memberships (nd_dev db) (mkMembership e1 "n9" ms_active :: dd_memberships (nd_dev db))).
Definition run_two (requests : list (string * string * net_request)) : NetDb :=
  (serve_net no_parse false no_billing (two_networks, []) requests).1.

(** A device that is an exit node of one network and is made one of another
    stops being one of the first, whose version does not change then. *)
Lemma exit_node_moved :
  let db := run_two [("acme", "u", NqPutExit "n1" e1 true ["0.0.0.0/0"] 5);
                     ("acme", "u", NqPutExit "n9" e1 true ["0.0.0.0/0"] 6)] in
  map en_networkId (nd_exits db) = ["n9"]
  /\ map (fun n => (nv_id n, nv_version n)) (dd_networks (nd_dev db)) = [("n1", 1); ("n3", 0); ("n9", 2)].
Proof. split; vm_compute; reflexivity. Qed.

(** A device that leaves one of its networks keeps its routes of that network. *)
Lemma routes_of_removed_member :
  let db := run_two [("acme", "u", NqDevice (RqDelete "n1" e1))] in
  membership_of e1 "n1" db = None
  /\ map (fun r => (sn_endpointId r, sn_networkId r)) (nd_subnets db) = [(e1, "n1")].
Proof. split; vm_compute; reflexivity. Qed.

(** Requests that are checked before either is stored are both stored, although
    their blocks overlap. *)
Lemma concurrent_routes_overlap :
  let q cidr i := createSubnetRoute sample_net "acme" "u" "n1" (mkCreateSubnet e2 cidr None true) i in
  let s1 := (q "172.16.0.0/16" "r2" (sample_net, [])).1 in
  map sn_cidr (nd_subnets (q "172.16.9.0/24" "r3" s1).1.1) = ["192.168.0.0/24"; "172.16.0.0/16"; "172.16.9.0/24"]
  /\ ipv4CidrsOverlap "172.16.0.0/16" "172.16.9.0/24" = Some true.
Proof. split; vm_compute; reflexivity. Qed.

(** An agent advertises a block inside another device's route, and one inside
    the range of the network. *)
Lemma agent_route_unchecked :
  let advertise cidr i := create_subnet_route_handler (fun text => Some text) e2 cidr None i in
  let s1 := (advertise "192.168.0.128/25" "r2" (sample_net, [])).1 in
  map (fun r => (sn_endpointId r, sn_cidr r)) (nd_subnets (advertise "10.1.0.0/16" "r3" s1).1.1)
    = [(e1, "192.168.0.0/24"); (e2, "192.168.0.128/25"); (e2, "10.1.0.0/16")]
  /\ ipv4CidrsOverlap "192.168.0.0/24" "192.168.0.128/25" = Some true
  /\ overlapsMeshCidr "10.1.0.0/16" "10.0.0.0/8" = Some true.
Proof. split_and!; vm_compute; reflexivity. Qed.

(** An agent that advertises the block of another device's route takes the route
    over and enables it, also when it had been disabled. *)
Lemma agent_takes_over_route :
  let db := run [("acme", "u", NqPatchSubnet "n1" "r1" None (Some false))] in
  map (fun r => (sn_endpointId r, sn_enabled r)) (nd_subnets db) = [(e1, false)]
  /\ map (fun r => (sn_endpointId r, sn_enabled r)) (nd_subnets
       (create_subnet_route_handler (fun text => Some text) e2 "192.168.0.0/24" None "r2" (db, [])).1.1)
     = [(e2, true)].
Proof. split; vm_compute; reflexivity. Qed.
