(* ===== verification/Credentials.v ===== *)
(** * Credentials ([apps/management/src/api/v1/api-keys.ts], [auth-oauth.ts],
      [enrollment-tokens.ts])

    The routes that hand out and take back credentials: API keys, access tokens
    of the client-credentials grant, and enrollment tokens.  [ApiKeys] models how
    keys and access tokens are verified, [TagOwnership] who may assign the tags
    of an enrollment token.  Hashes are parameters; random bytes, new ids and the
    time are arguments; an instant in a body is given in milliseconds.  The
    requests are those that the permission hooks of the routes, modelled in
    [Access], let through, with the session they resolved.  Networks, plans, tag
    definitions and clients, which other routes write, stay as they are over a
    history; audit events carry the metadata that are texts. *)
From S2P Require Import Prelude Json Codec Token Hash AuditEvent Tx Plans OrgBilling TagOwnership ApiKeys Access Devices.
Local Open Scope Z_scope.

(** ** Tables *)
Record EnrollmentTokenRow := mkEnrollment {
  et_tokenHash : string; et_organizationId : string; et_networkId : string; et_createdBy : string;
  et_tags : list string; et_expiresAt : Z; et_usedAt : option Z }.

Record CredDb := mkCredDb {
  cd_keys : KeyDb;
  cd_enrollment : list EnrollmentTokenRow;
  cd_networks : list (string * string);
  cd_tags : TagDb;
  cd_billing : BillingDb
}.

Definition with_apiKeys (db : CredDb) (l : list ApiKeyRow) : CredDb :=
  mkCredDb (mkKeyDb l (kd_tokens (cd_keys db)) (kd_clients (cd_keys db))) (cd_enrollment db) (cd_networks db)
    (cd_tags db) (cd_billing db).
Definition with_tokens (db : CredDb) (l : list OauthTokenRow) : CredDb :=
  mkCredDb (mkKeyDb (kd_apiKeys (cd_keys db)) l (kd_clients (cd_keys db))) (cd_enrollment db) (cd_networks db)
    (cd_tags db) (cd_billing db).
Definition with_enrollment (db : CredDb) (l : list EnrollmentTokenRow) : CredDb :=
  mkCredDb (cd_keys db) l (cd_networks db) (cd_tags db) (cd_billing db).

Inductive cred_error := PlanError (e : billing_error) | Thrown (message : string).
Definition CredTx := Tx CredDb cred_error.
Definition ensure (b : bool) (message : string) : CredTx unit := if b then mret tt else throw (Thrown message).

(** ** API keys ([api-keys.ts]) *)
Definition API_KEY_SCOPE_VALUES : list string :=
  ["sdk:enroll"; "sdk:manage"; "policy:read"; "policy:write"; "policy:apply"; "tag:read"; "tag:write"; "tag:assign"].

Record CreateApiKey := mkCreateKey {
  ck_name : string; ck_scopes : list string; ck_networkIds : option (list string); ck_expiresAt : option Z }.

Section Routes.
Context (uuid : string -> bool) (enabled : bool).
Context (sha256 : bytes -> bytes) (argon2_hash : bytes -> jstr -> jstr) (argon2_verify : jstr -> jstr -> bool)
  (blake3 : bytes -> string).

Definition createApiKeyBody (b : CreateApiKey) : bool :=
  (1 <=? String.length (ck_name b))%nat && (String.length (ck_name b) <=? 128)%nat
  && forallb (fun s => bool_decide (s ∈ API_KEY_SCOPE_VALUES)) (ck_scopes b)
  && (1 <=? length (ck_scopes b))%nat
  && match ck_networkIds b with
     | Some ids => forallb uuid ids && negb (length ids =? 0)%nat && bool_decide (NoDup ids)
     | None => true
     end.

(** [resolveNetworkIds]; [Err] is the error it throws. *)
Definition resolveNetworkIds (organizationId : string) (networkIds : option (list string)) (db : CredDb)
    : result string (option (list string)) :=
  match networkIds with
  | None => Ok None
  | Some ids =>
      let rows := List.filter (fun n => (n.2 =? organizationId)%string && bool_decide (n.1 ∈ ids)) (cd_networks db) in
      if (length rows =? length ids)%nat then Ok (Some ids)
      else Err "One or more networks were not found in this organization"
  end.

Record CreatedKey := mkCreatedKey { cr_secret : jstr; cr_apiKey : ApiKeyRow }.

Definition insert_key (row : ApiKeyRow) : CredTx unit :=
  keys ← query (fun db => kd_apiKeys (cd_keys db));
  _ ← ensure (bool_decide (ak_id row ∉ map ak_id keys)) "api_keys_pkey";
  update (fun db => with_apiKeys db (kd_apiKeys (cd_keys db) ++ [row])).

(** [six], [twentyfour] and [salt] are the random bytes of the secret and of its
    hash. *)
Definition createApiKey (org user : string) (body : CreateApiKey) (newId : string) (six twentyfour salt : bytes)
    : CredTx (reply CreatedKey) :=
  billing ← query cd_billing;
  match requirePlanFeature enabled billing org apiAccess with
  | Err e => throw (PlanError e)
  | Ok _ =>
      _ ← ensure (createApiKeyBody body) "ZodError";
      let key := generateApiKeySecret six twentyfour in
      let hashedSecret := argon2_hash salt (gk_secret key) in
      resolved ← query (resolveNetworkIds org (ck_networkIds body));
      match resolved with
      | Err message => mret (BadRequest message)
      | Ok networkIds =>
          row ← transaction (
            let row := mkApiKey newId org (Some (gk_secretPrefix key)) hashedSecret (ck_scopes body) networkIds
                         (ck_expiresAt body) None in
            _ ← insert_key row;
            _ ← writeAudit (mkAuditInput org user "api_key.created" (Some newId) [("name", ck_name body)] None);
            mret row);
          mret (Reply (mkCreatedKey (gk_secret key) row))
      end
  end.

Definition live_key_of (org keyId : string) (r : ApiKeyRow) : bool :=
  (ak_id r =? keyId)%string && (ak_org r =? org)%string && not_revoked r.
Definition revoke (now : Z) (r : ApiKeyRow) : ApiKeyRow :=
  mkApiKey (ak_id r) (ak_org r) (ak_secretPrefix r) (ak_hashedSecret r) (ak_scopes r) (ak_networkIds r)
    (ak_expiresAt r) (Some now).

Definition revokeApiKey (org user keyId : string) (now : Z) : CredTx ApiKeyRow :=
  transaction (
    found ← query (fun db => List.find (live_key_of org keyId) (kd_apiKeys (cd_keys db)));
    row ← or_throw found (Thrown "API key not found");
    _ ← update (fun db => with_apiKeys db
          (map (fun r => if live_key_of org keyId r then revoke now r else r) (kd_apiKeys (cd_keys db))));
    _ ← writeAudit (mkAuditInput org user "api_key.revoked" (Some keyId) [] None);
    mret (revoke now row)).

(** ** Access tokens ([auth-oauth.ts]) *)
Definition TOKEN_TTL_SECS : Z := 3600.

Record TokenRequest := mkTokenRequest {
  tq_grant_type : string; tq_client_id : string; tq_client_secret : jstr; tq_scope : option string }.
Definition oauth2ClientCredentialsTokenRequest (b : TokenRequest) : bool :=
  (tq_grant_type b =? "client_credentials")%string && negb (tq_client_id b =? "")%string
  && negb (bool_decide (tq_client_secret b = [])).

(** [s.split(/\s+/).filter(Boolean)]: the words of a text. *)
Fixpoint words_from (s word : string) : list string :=
  match s with
  | EmptyString => if (word =? "")%string then [] else [word]
  | String c rest =>
      if is_space c then (if (word =? "")%string then [] else [word]) ++ words_from rest ""
      else words_from rest (word +:+ String c "")
  end.
Definition words (s : string) : list string := words_from s "".

Inductive token_response :=
| TokenIssued (access_token : jstr) (expires_in : Z) (scope : string)
| InvalidRequest
| InvalidClient.

Definition find_client (clientId : string) (db : CredDb) : option OauthClientRow :=
  List.find (fun c => (oc_clientId c =? clientId)%string
                      && match oc_revokedAt c with None => true | Some _ => false end)
    (kd_clients (cd_keys db)).

Definition granted_scopes (client : OauthClientRow) (scope : option string) : list string :=
  match truthy_text scope with
  | Some text => List.filter (fun s => bool_decide (s ∈ oc_scopes client)) (words text)
  | None => oc_scopes client
  end.

Definition insert_token (row : OauthTokenRow) : CredTx unit :=
  tokens ← query (fun db => kd_tokens (cd_keys db));
  _ ← ensure (bool_decide (ot_id row ∉ map ot_id tokens)) "oauth_access_tokens_pkey";
  _ ← ensure (bool_decide (ot_tokenHash row ∉ map ot_tokenHash tokens)) "oauth_access_tokens_token_hash_unique";
  update (fun db => with_tokens db (kd_tokens (cd_keys db) ++ [row])).

Definition issueToken (body : TokenRequest) (newId : string) (random : bytes) (now : Z) : CredTx token_response :=
  if negb (oauth2ClientCredentialsTokenRequest body) then mret InvalidRequest
  else
    client ← query (find_client (tq_client_id body));
    match client with
    | None => mret InvalidClient
    | Some client =>
        if negb (argon2_verify (oc_hashedSecret client) (tq_client_secret body)) then mret InvalidClient
        else
          let scopes := granted_scopes client (tq_scope body) in
          let accessToken := units "tt_oauth_" ++ b64uEncode random in
          let expiresAt := now + TOKEN_TTL_SECS * 1000 in
          _ ← insert_token (mkOauthToken newId (oc_id client) (oc_org client) (hashToken sha256 accessToken) scopes
                              expiresAt);
          mret (TokenIssued accessToken TOKEN_TTL_SECS (join " " scopes))
    end.

(** ** Enrollment tokens ([enrollment-tokens.ts]) *)
Record CreateEnrollment := mkCreateEnrollment { ce_ttlMinutes : Z; ce_tags : list string }.
Definition createEnrollmentTokenBody (b : CreateEnrollment) : bool :=
  (1 <=? ce_ttlMinutes b) && (ce_ttlMinutes b <=? 10080) && forallb tagNameSchema (ce_tags b)
  && (length (ce_tags b) <=? 64)%nat.

Definition network_of (networkId organizationId : string) (db : CredDb) : option (string * string) :=
  List.find (fun n => (n.1 =? networkId)%string && (n.2 =? organizationId)%string) (cd_networks db).

Definition session_actor (auth : AuthContext) : TagActor :=
  mkTagActor (Some (u_id (ac_user auth))) (Some (u_email (ac_user auth))) (isOrgAdminRole (ac_memberRole auth)) None.

(** The checks of the tags; [None] lets the request go on. *)
Definition check_tags (auth : AuthContext) (tags : list string) (db : CredDb)
    : result cred_error (option (reply (jstr * EnrollmentTokenRow))) :=
  match tags with
  | [] => Ok None
  | _ =>
      match ensureTagDefinitionsExist (cd_tags db) (ac_organizationId auth) tags with
      | [] =>
          match assertCanAssignTags (cd_tags db) (ac_organizationId auth) (session_actor auth) tags with
          | None => Err (Thrown "RangeError")
          | Some None => Ok None
          | Some (Some _) => Ok (Some ForbiddenReply)
          end
      | missing => Ok (Some (BadRequest ("Unknown tag definition(s): " +:+ join ", " missing)))
      end
  end.

Definition insert_enrollment (row : EnrollmentTokenRow) : CredTx unit :=
  rows ← query cd_enrollment;
  _ ← ensure (bool_decide (et_tokenHash row ∉ map et_tokenHash rows)) "enrollment_tokens_pkey";
  update (fun db => with_enrollment db (cd_enrollment db ++ [row])).

Definition createEnrollmentToken (auth : AuthContext) (networkId : string) (body : CreateEnrollment) (random : bytes)
    (now : Z) : CredTx (reply (jstr * EnrollmentTokenRow)) :=
  let org := ac_organizationId auth in
  _ ← ensure (createEnrollmentTokenBody body) "ZodError";
  network ← query (network_of networkId org);
  match network with
  | None => mret (NotFound "Network not found")
  | Some _ =>
      let tags := unique_tags (ce_tags body) in
      checked ← query (check_tags auth tags);
      match checked with
      | Err e => throw e
      | Ok (Some answer) => mret answer
      | Ok None =>
          let token := b64uEncode random in
          let tokenHash := blake3 (utf8 token) in
          let expiresAt := now + ce_ttlMinutes body * 60000 in
          row ← transaction (
            let row := mkEnrollment tokenHash org networkId (u_id (ac_user auth)) tags expiresAt None in
            _ ← insert_enrollment row;
            _ ← writeAudit (mkAuditInput org (u_id (ac_user auth)) "enrollment_token.created" (Some tokenHash)
                  [("networkId", networkId)] None);
            mret row);
          mret (Reply (token, row))
      end
  end.

Definition is_enrollment (tokenHash : string) (networkId : string) (r : EnrollmentTokenRow) : bool :=
  (et_tokenHash r =? tokenHash)%string && (et_networkId r =? networkId)%string.

Definition deleteEnrollmentToken (auth : AuthContext) (networkId : string) (tokenHash : string) : CredTx (reply unit) :=
  let org := ac_organizationId auth in
  network ← query (network_of networkId org);
  match network with
  | None => mret (NotFound "Network not found")
  | Some _ =>
      _ ← transaction (
        rows ← query (fun db => List.filter (is_enrollment tokenHash networkId) (cd_enrollment db));
        _ ← ensure (negb (bool_decide (rows = []))) "Enrollment token not found";
        _ ← update (fun db => with_enrollment db
              (List.filter (fun r => negb (is_enrollment tokenHash networkId r)) (cd_enrollment db)));
        writeAudit (mkAuditInput org (u_id (ac_user auth)) "enrollment_token.deleted" (Some tokenHash) [] None));
      mret (Reply tt)
  end.

(** ** Requests *)
Inductive cred_request :=
| CqCreateKey (auth : AuthContext) (body : CreateApiKey) (newId : string) (six twentyfour salt : bytes)
| CqRevokeKey (auth : AuthContext) (keyId : string) (now : Z)
| CqToken (body : TokenRequest) (newId : string) (random : bytes) (now : Z)
| CqEnroll (auth : AuthContext) (networkId : string) (body : CreateEnrollment) (random : bytes) (now : Z)
| CqDeleteEnrollment (auth : AuthContext) (networkId : string) (tokenHash : string).

Definition forget {A} (m : CredTx A) : CredTx unit := _ ← m; mret tt.
Definition handle_cred (q : cred_request) : CredTx unit :=
  match q with
  | CqCreateKey auth body i six twentyfour salt =>
      forget (createApiKey (ac_organizationId auth) (u_id (ac_user auth)) body i six twentyfour salt)
  | CqRevokeKey auth keyId now => forget (revokeApiKey (ac_organizationId auth) (u_id (ac_user auth)) keyId now)
  | CqToken body i random now => forget (issueToken body i random now)
  | CqEnroll auth n body random now => forget (createEnrollmentToken auth n body random now)
  | CqDeleteEnrollment auth n tokenHash => forget (deleteEnrollmentToken auth n tokenHash)
  end.

Definition serve_cred (s : state CredDb) (requests : list cred_request) : state CredDb :=
  foldl (fun s q => (handle_cred q s).1) s requests.
End Routes.

(** ** Effects of the requests *)
Section Effects.
Context (uuid : string -> bool) (enabled : bool).
Context (sha256 : bytes -> bytes) (argon2_hash : bytes -> jstr -> jstr) (argon2_verify : jstr -> jstr -> bool)
  (blake3 : bytes -> string).
Notation handle := (handle_cred uuid enabled sha256 argon2_hash argon2_verify blake3).

(** What no request changes. *)
Definition fixed_part (db : CredDb) := (kd_clients (cd_keys db), cd_networks db, cd_tags db, cd_billing db).

(** The row of a created key. *)
Definition created_row (org : string) (body : CreateApiKey) (i : string) (six twentyfour salt : bytes) : ApiKeyRow :=
  mkApiKey i org (Some (gk_secretPrefix (generateApiKeySecret six twentyfour)))
    (argon2_hash salt (gk_secret (generateApiKeySecret six twentyfour))) (ck_scopes body) (ck_networkIds body)
    (ck_expiresAt body) None.

(** When a key may be created. *)
Record key_allowed (db : CredDb) (org : string) (body : CreateApiKey) : Prop := mkKeyAllowed {
  ka_plan : exists plan, requirePlanFeature enabled (cd_billing db) org apiAccess = Ok plan;
  ka_body : createApiKeyBody uuid body = true;
  ka_networks : resolveNetworkIds org (ck_networkIds body) db = Ok (ck_networkIds body)
}.

Lemma resolveNetworkIds_same org ids db r : resolveNetworkIds org ids db = Ok r -> r = ids.
Proof. unfold resolveNetworkIds. destruct ids as [ids|]; [destruct (_ =? _)%nat|]; congruence. Qed.

Lemma createApiKey_cases (s : state CredDb) org user body i six twentyfour salt :
  let m := createApiKey uuid enabled argon2_hash org user body i six twentyfour salt in
  ((m s).1.1 = s.1 /\ forall c, (m s).2 <> Ok (Reply c))
  \/ (key_allowed s.1 org body
      /\ (m s).1.1 = with_apiKeys s.1 (kd_apiKeys (cd_keys s.1) ++ [created_row org body i six twentyfour salt])
      /\ (m s).2 = Ok (Reply (mkCreatedKey (gk_secret (generateApiKeySecret six twentyfour))
                                (created_row org body i six twentyfour salt)))).
Proof.
  cbn zeta. unfold createApiKey, ensure, query, mbind, tx_mbind, tx_bind. cbn [fst snd].
  destruct (requirePlanFeature _ _ _ _) as [plan|e] eqn:Hplan; [|by left].
  destruct (createApiKeyBody uuid body) eqn:Hbody; [|by left]. cbn [mret tx_mret tx_ret].
  destruct (resolveNetworkIds org (ck_networkIds body) s.1) as [ids|message] eqn:Hids; [|by left].
  pose proof (resolveNetworkIds_same _ _ _ _ Hids) as ->.
  unfold transaction, insert_key, ensure, query, update, mbind, tx_mbind, tx_bind. cbn [fst snd ak_id].
  destruct (bool_decide _) eqn:Hfresh; [|by left]. right. split_and!; [|done..].
  split; [by eexists|done..].
Qed.
Definition revoked_rows (org keyId : string) (now : Z) (l : list ApiKeyRow) : list ApiKeyRow :=
  map (fun r => if live_key_of org keyId r then revoke now r else r) l.

Lemma revoked_rows_none org keyId now l : List.find (live_key_of org keyId) l = None -> revoked_rows org keyId now l = l.
Proof.
  induction l as [|r l IH]; [done|]. cbn [List.find revoked_rows map]. destruct (live_key_of org keyId r); [done|].
  intros Hl. f_equal. by apply IH.
Qed.

(** The tables of keys, with or without a key to revoke. *)
Lemma revokeApiKey_effect (s : state CredDb) org user keyId now :
  let s' := (revokeApiKey org user keyId now s).1.1 in
  kd_apiKeys (cd_keys s') = revoked_rows org keyId now (kd_apiKeys (cd_keys s.1))
  /\ kd_tokens (cd_keys s') = kd_tokens (cd_keys s.1) /\ cd_enrollment s' = cd_enrollment s.1
  /\ fixed_part s' = fixed_part s.1.
Proof.
  cbn zeta. unfold revokeApiKey, transaction, query, mbind, tx_mbind, tx_bind. cbn [fst snd].
  destruct (List.find _ _) as [row|] eqn:Hf; [done|]. cbn. by rewrite revoked_rows_none.
Qed.

Definition issued_row (client : OauthClientRow) (body : TokenRequest) (i : string) (random : bytes) (now : Z) : OauthTokenRow :=
  mkOauthToken i (oc_id client) (oc_org client) (hashToken sha256 (units "tt_oauth_" ++ b64uEncode random))
    (granted_scopes client (tq_scope body)) (now + TOKEN_TTL_SECS * 1000).

Lemma find_client_spec clientId db c :
  find_client clientId db = Some c ->
  c ∈ kd_clients (cd_keys db) /\ oc_clientId c = clientId /\ oc_revokedAt c = None.
Proof.
  intros [Hc [Hi%String.eqb_eq Hr]%andb_prop]%List.find_some. split_and!; [by apply list_elem_of_In|done|].
  by destruct (oc_revokedAt c).
Qed.

Lemma issueToken_cases (s : state CredDb) body i random now :
  let s' := (issueToken sha256 argon2_verify body i random now s).1.1 in
  s' = s.1
  \/ exists client, find_client (tq_client_id body) s.1 = Some client
      /\ argon2_verify (oc_hashedSecret client) (tq_client_secret body) = true
      /\ s' = with_tokens s.1 (kd_tokens (cd_keys s.1) ++ [issued_row client body i random now]).
Proof.
  cbn zeta. unfold issueToken. destruct (negb (oauth2ClientCredentialsTokenRequest body)); [by left|].
  unfold query, mbind, tx_mbind, tx_bind. destruct (find_client _ _) as [client|]; [|by left].
  destruct (argon2_verify _ _) eqn:Hv; [|by left]. cbn [negb].
  unfold insert_token, ensure, query, update, mbind, tx_mbind, tx_bind. cbn [fst snd ot_id ot_tokenHash].
  destruct (bool_decide _); [|by left]. cbn. destruct (bool_decide _); [|by left]. right. by exists client.
Qed.

Definition enrollment_row (auth : AuthContext) (n : string) (body : CreateEnrollment) (random : bytes) (now : Z) :=
  mkEnrollment (blake3 (utf8 (b64uEncode random))) (ac_organizationId auth) n (u_id (ac_user auth))
    (unique_tags (ce_tags body)) (now + ce_ttlMinutes body * 60000) None.

Record enrollment_allowed (db : CredDb) (auth : AuthContext) (n : string) (body : CreateEnrollment) : Prop := mkEnrollmentAllowed {
  ea_body : createEnrollmentTokenBody body = true;
  ea_network : network_of n (ac_organizationId auth) db <> None;
  ea_tags : check_tags auth (unique_tags (ce_tags body)) db = Ok None
}.

Lemma createEnrollmentToken_cases (s : state CredDb) auth n body random now :
  let s' := (createEnrollmentToken blake3 auth n body random now s).1.1 in
  s' = s.1
  \/ (enrollment_allowed s.1 auth n body
      /\ et_tokenHash (enrollment_row auth n body random now) ∉ map et_tokenHash (cd_enrollment s.1)
      /\ s' = with_enrollment s.1 (cd_enrollment s.1 ++ [enrollment_row auth n body random now])).
Proof.
  cbn zeta. unfold createEnrollmentToken, ensure, query, mbind, tx_mbind, tx_bind.
  destruct (createEnrollmentTokenBody body) eqn:Hb; [|by left]. cbn [mret tx_mret tx_ret].
  destruct (network_of _ _ _) eqn:Hn; [|by left].
  destruct (check_tags _ _ _) as [[answer|]|e] eqn:Ht; [by left| |by left].
  unfold transaction, insert_enrollment, ensure, query, update, mbind, tx_mbind, tx_bind. cbn [fst snd et_tokenHash].
  destruct (bool_decide _) eqn:Hf; [|by left]. right. split_and!; [|by apply bool_decide_eq_true in Hf|done].
  split; [done|congruence|done].
Qed.

(** A deletion by an organization that does not have the network does nothing. *)
Lemma deleteEnrollmentToken_effect (s : state CredDb) auth n tokenHash :
  let s' := (deleteEnrollmentToken auth n tokenHash s).1.1 in
  cd_keys s' = cd_keys s.1 /\ fixed_part s' = fixed_part s.1
  /\ cd_enrollment s' = match network_of n (ac_organizationId auth) s.1 with
                        | Some _ => List.filter (fun r => negb (is_enrollment tokenHash n r)) (cd_enrollment s.1)
                        | None => cd_enrollment s.1
                        end.
Proof.
  cbn zeta. unfold deleteEnrollmentToken, query, mbind, tx_mbind, tx_bind.
  destruct (network_of _ _ _); [|done]. unfold transaction, ensure. cbn [fst snd].
  destruct (bool_decide _) eqn:Hrows; [|done]. apply bool_decide_eq_true in Hrows. cbn.
  split_and!; [done..|]. by rewrite filter_none.
Qed.

(** ** Where credentials come from *)
Lemma forget_state {A} (m : CredTx A) s : (forget m s).1 = (m s).1.
Proof. unfold forget, mbind, tx_mbind, tx_bind. by destruct (m s) as [s' [a|e]]. Qed.

Lemma handle_fixed q s : fixed_part (handle q s).1.1 = fixed_part s.1.
Proof.
  destruct q; cbn [handle_cred]; rewrite forget_state.
  - by destruct (createApiKey_cases s (ac_organizationId auth) (u_id (ac_user auth)) body newId six twentyfour salt)
      as [[-> _]|(_ & -> & _)].
  - apply revokeApiKey_effect.
  - by destruct (issueToken_cases s body newId random now) as [->|(c & _ & _ & ->)].
  - by destruct (createEnrollmentToken_cases s auth networkId body random now) as [->|(_ & _ & ->)].
  - apply deleteEnrollmentToken_effect.
Qed.

Notation serve := (serve_cred uuid enabled sha256 argon2_hash argon2_verify blake3).

Lemma serve_snoc s h q : serve s (h ++ [q]) = (handle q (serve s h)).1.
Proof. unfold serve_cred. by rewrite foldl_app. Qed.

Lemma serve_fixed s h : fixed_part (serve s h).1 = fixed_part s.1.
Proof. induction h as [|q h IH] using rev_ind; [done|]. by rewrite serve_snoc, handle_fixed. Qed.

Lemma key_allowed_fixed db db' org body : fixed_part db = fixed_part db' -> key_allowed db org body -> key_allowed db' org body.
Proof.
  unfold fixed_part. intros [= _ Hn _ Hb] [Hp Hbody Hr]. split; [by rewrite <- Hb|done|].
  unfold resolveNetworkIds in *. by rewrite <- Hn.
Qed.

(** A live key was created by a request of the history that was allowed, and no
    later request of its organization revoked it. *)
Definition key_issued (db : CredDb) (h : list cred_request) (r : ApiKeyRow) : Prop :=
  exists (n : nat) auth body i six twentyfour salt,
    h !! n = Some (CqCreateKey auth body i six twentyfour salt)
    /\ key_allowed db (ac_organizationId auth) body
    /\ r = created_row (ac_organizationId auth) body i six twentyfour salt
    /\ forall (m : nat) auth' now, (n < m)%nat -> h !! m = Some (CqRevokeKey auth' i now) ->
         ac_organizationId auth' <> ac_organizationId auth.

Lemma key_issued_snoc db h q r :
  key_issued db h r ->
  (forall auth' now, q = CqRevokeKey auth' (ak_id r) now -> ac_organizationId auth' <> ak_org r) ->
  key_issued db (h ++ [q]) r.
Proof.
  intros (n & auth & body & i & six & tf & salt & Hn & Ha & -> & Hlater) Hq.
  exists n, auth, body, i, six, tf, salt. split_and!; [by apply lookup_app_l_Some|done|done|].
  intros m auth' now Hm [Hh|[Hle Hh]]%lookup_app_Some; [by eapply Hlater|].
  apply list_lookup_singleton_Some in Hh as [_ Hh]. by apply (Hq auth' now).
Qed.

(** Or it was stored before, and no request of its organization revoked it. *)
Definition key_kept (db : CredDb) (h : list cred_request) (r : ApiKeyRow) : Prop :=
  r ∈ kd_apiKeys (cd_keys db)
  /\ forall (m : nat) auth' now, h !! m = Some (CqRevokeKey auth' (ak_id r) now) ->
       ac_organizationId auth' <> ak_org r.

Lemma key_kept_snoc db h q r :
  key_kept db h r ->
  (forall auth' now, q = CqRevokeKey auth' (ak_id r) now -> ac_organizationId auth' <> ak_org r) ->
  key_kept db (h ++ [q]) r.
Proof.
  intros [Hr Hh] Hq. split; [done|].
  intros m auth' now [Hm|[_ Hm]]%lookup_app_Some; [by eapply Hh|].
  apply list_lookup_singleton_Some in Hm as [_ Hm]. by apply (Hq auth' now).
Qed.

Definition key_origin (db : CredDb) (h : list cred_request) (r : ApiKeyRow) : Prop :=
  key_kept db h r \/ key_issued db h r.

Lemma key_origin_snoc db h q r :
  key_origin db h r ->
  (forall auth' now, q = CqRevokeKey auth' (ak_id r) now -> ac_organizationId auth' <> ak_org r) ->
  key_origin db (h ++ [q]) r.
Proof. intros [H|H] Hq; [left; by apply key_kept_snoc|right; by apply key_issued_snoc]. Qed.

Lemma keys_issued s h r :
  r ∈ kd_apiKeys (cd_keys (serve s h).1) -> ak_revokedAt r = None -> key_origin s.1 h r.
Proof.
  revert r. induction h as [|q h IH] using rev_ind; intros r.
  { intros Hr _. left. split; [done|]. intros m auth' now Hm. by rewrite lookup_nil in Hm. }
  rewrite serve_snoc. pose proof (serve_fixed s h) as Hfix. set (s1 := serve s h) in *.
  assert (kd_apiKeys (cd_keys (handle q s1).1.1) = kd_apiKeys (cd_keys s1.1) ->
    (forall auth' i now, q <> CqRevokeKey auth' i now) ->
    r ∈ kd_apiKeys (cd_keys (handle q s1).1.1) -> ak_revokedAt r = None -> key_origin s.1 (h ++ [q]) r) as Hsame.
  { intros -> Hq Hr Hl. apply key_origin_snoc; [by apply IH|]. intros auth' now E. by apply Hq in E. }
  destruct q; cbn [handle_cred] in *; rewrite forget_state in *.
  - destruct (createApiKey_cases s1 (ac_organizationId auth) (u_id (ac_user auth)) body newId six twentyfour salt)
      as [[E _]|(Hallowed & E & _)]; [apply Hsame; [by rewrite E|done]|]. rewrite E.
    intros [Hr|Hr]%elem_of_app Hl; [apply key_origin_snoc; [by apply IH|done]|].
    apply list_elem_of_singleton in Hr as ->.
    right. exists (length h), auth, body, newId, six, twentyfour, salt.
    split_and!; [by apply list_lookup_middle|by eapply key_allowed_fixed|done|].
    intros m auth' now Hm ?%lookup_lt_Some. rewrite length_app in *. cbn in *. lia.
  - rewrite (proj1 (revokeApiKey_effect _ _ _ _ _)). intros (x & -> & Hx)%list_elem_of_fmap.
    destruct (live_key_of _ _ x) eqn:Elive; [done|]. intros Hl. apply key_origin_snoc; [by apply IH|].
    intros auth' now' [= <- -> <-] E. unfold live_key_of, not_revoked in Elive.
    by rewrite E, !String.eqb_refl, Hl in Elive.
  - apply Hsame; [|done]. by destruct (issueToken_cases s1 body newId random now) as [->|(c & _ & _ & ->)].
  - apply Hsame; [|done].
    by destruct (createEnrollmentToken_cases s1 auth networkId body random now) as [->|(_ & _ & ->)].
  - apply Hsame; [|done]. by rewrite (proj1 (deleteEnrollmentToken_effect _ _ _ _)).
Qed.

(** A token was issued to a client that knew its secret. *)
Definition token_issued (db : CredDb) (h : list cred_request) (row : OauthTokenRow) : Prop :=
  exists body i random now client,
    CqToken body i random now ∈ h /\ find_client (tq_client_id body) db = Some client
    /\ argon2_verify (oc_hashedSecret client) (tq_client_secret body) = true
    /\ row = issued_row client body i random now.

Lemma tokens_issued s h row :
  row ∈ kd_tokens (cd_keys (serve s h).1) -> row ∈ kd_tokens (cd_keys s.1) \/ token_issued s.1 h row.
Proof.
  revert row. induction h as [|q h IH] using rev_ind; intros row; [by left|].
  rewrite serve_snoc. pose proof (serve_fixed s h) as Hfix. set (s1 := serve s h) in *.
  assert (row ∈ kd_tokens (cd_keys s1.1) ->
    row ∈ kd_tokens (cd_keys s.1) \/ token_issued s.1 (h ++ [q]) row) as Hold.
  { intros [?|(body & i & random & now & client & Hq & Hrest)]%IH; [by left|right].
    exists body, i, random, now, client. split; [apply elem_of_app; by left|done]. }
  destruct q; cbn [handle_cred]; rewrite forget_state.
  - by destruct (createApiKey_cases s1 (ac_organizationId auth) (u_id (ac_user auth)) body newId six twentyfour salt)
      as [[-> _]|(_ & -> & _)].
  - by rewrite (proj1 (proj2 (revokeApiKey_effect _ _ _ _ _))).
  - destruct (issueToken_cases s1 body newId random now) as [->|(c & Hc & Hv & ->)]; [done|].
    intros [Hr|Hr]%elem_of_app; [by apply Hold|]. apply list_elem_of_singleton in Hr as ->.
    right. exists body, newId, random, now, c. split_and!; [apply elem_of_app; right; by left| |done..].
    unfold find_client in *. unfold fixed_part in Hfix. injection Hfix as Hcl _ _ _. by rewrite <- Hcl.
  - by destruct (createEnrollmentToken_cases s1 auth networkId body random now) as [->|(_ & _ & ->)].
  - by rewrite (proj1 (deleteEnrollmentToken_effect _ _ _ _)).
Qed.

(** An enrollment token was created by an allowed request, and no later request of
    its organization deleted it. *)
Definition enrollment_issued (db : CredDb) (h : list cred_request) (row : EnrollmentTokenRow) : Prop :=
  exists (n : nat) auth networkId body random now,
    h !! n = Some (CqEnroll auth networkId body random now)
    /\ enrollment_allowed db auth networkId body
    /\ row = enrollment_row auth networkId body random now
    /\ forall (m : nat) auth', (n < m)%nat -> h !! m = Some (CqDeleteEnrollment auth' networkId (et_tokenHash row)) ->
         ac_organizationId auth' <> ac_organizationId auth.

Lemma network_of_fixed db db' n org : fixed_part db = fixed_part db' -> network_of n org db = network_of n org db'.
Proof. unfold fixed_part, network_of. by intros [= _ -> _ _]. Qed.

Lemma enrollment_allowed_fixed db db' auth n body :
  fixed_part db = fixed_part db' -> enrollment_allowed db auth n body -> enrollment_allowed db' auth n body.
Proof.
  intros Hfix [Hb Hn Ht]. split; [done|by rewrite <- (network_of_fixed _ _ _ _ Hfix)|].
  unfold check_tags in *. unfold fixed_part in Hfix. injection Hfix as _ _ Htags _. by rewrite <- Htags.
Qed.

Lemma enrollment_issued_snoc db h q row :
  enrollment_issued db h row ->
  (forall auth', q = CqDeleteEnrollment auth' (et_networkId row) (et_tokenHash row) ->
     ac_organizationId auth' <> et_organizationId row) ->
  enrollment_issued db (h ++ [q]) row.
Proof.
  intros (n & auth & net & body & random & now & Hn & Ha & -> & Hlater) Hq.
  exists n, auth, net, body, random, now. split_and!; [by apply lookup_app_l_Some|done|done|].
  intros m auth' Hm [Hh|[Hle Hh]]%lookup_app_Some; [by eapply Hlater|].
  apply list_lookup_singleton_Some in Hh as [_ Hh]. by apply (Hq auth').
Qed.

Lemma enrollments_issued s h row :
  cd_enrollment s.1 = [] -> row ∈ cd_enrollment (serve s h).1 -> enrollment_issued s.1 h row.
Proof.
  intros H0. revert row. induction h as [|q h IH] using rev_ind; intros row.
  { cbn. rewrite H0. by intros ?%elem_of_nil. }
  rewrite serve_snoc. pose proof (serve_fixed s h) as Hfix. set (s1 := serve s h) in *.
  assert ((forall auth' n i, q <> CqDeleteEnrollment auth' n i) -> row ∈ cd_enrollment s1.1 ->
    enrollment_issued s.1 (h ++ [q]) row) as Hold.
  { intros Hq Hr. apply enrollment_issued_snoc; [by apply IH|]. intros auth' E. by apply Hq in E. }
  destruct q; cbn [handle_cred]; rewrite forget_state.
  - destruct (createApiKey_cases s1 (ac_organizationId auth) (u_id (ac_user auth)) body newId six twentyfour salt)
      as [[-> _]|(_ & -> & _)]; by apply Hold.
  - rewrite (proj1 (proj2 (proj2 (revokeApiKey_effect _ _ _ _ _)))). by apply Hold.
  - destruct (issueToken_cases s1 body newId random now) as [->|(c & _ & _ & ->)]; by apply Hold.
  - destruct (createEnrollmentToken_cases s1 auth networkId body random now) as [->|(Ha & _ & ->)]; [by apply Hold|].
    intros [Hr|Hr]%elem_of_app; [by apply Hold|]. apply list_elem_of_singleton in Hr as ->.
    exists (length h), auth, networkId, body, random, now.
    split_and!; [by apply list_lookup_middle|by eapply enrollment_allowed_fixed|done|].
    intros m auth' Hm ?%lookup_lt_Some. rewrite length_app in *. cbn in *. lia.
  - rewrite (proj2 (proj2 (deleteEnrollmentToken_effect _ _ _ _))).
    destruct (network_of networkId (ac_organizationId auth) s1.1) eqn:Hnet.
    + intros [Hr Hkeep]%elem_of_filter_bool. apply enrollment_issued_snoc; [by apply IH|].
      intros auth' [= <- -> ->] _. unfold is_enrollment in Hkeep. by rewrite !String.eqb_refl in Hkeep.
    + intros Hr. apply enrollment_issued_snoc; [by apply IH|]. intros auth' [= <- -> ->] E.
      apply IH in Hr as (n & auth0 & net & body & random & now & _ & Ha & -> & _).
      apply (ea_network _ _ _ _ Ha). cbn in E, Hnet. rewrite <- E. by rewrite <- (network_of_fixed _ _ _ _ Hfix).
Qed.

(** The networks of an allowed key are networks of its organization. *)
Lemma resolved_networks org ids db :
  NoDup (map fst (cd_networks db)) -> NoDup ids -> resolveNetworkIds org (Some ids) db = Ok (Some ids) ->
  forall i, i ∈ ids -> (i, org) ∈ cd_networks db.
Proof.
  intros Hnd Hids. unfold resolveNetworkIds. set (rows := List.filter _ _).
  destruct (_ =? _)%nat eqn:El; [|done]. intros _ i Hi. apply Nat.eqb_eq in El.
  assert (map fst rows ⊆+ ids) as Hsub.
  { apply NoDup_submseteq; [by apply NoDup_map_filter|]. intros x ([x' o] & -> & Hx)%list_elem_of_fmap.
    apply elem_of_filter_bool in Hx as [_ [_ Hin%bool_decide_eq_true]%andb_prop]. done. }
  apply submseteq_length_Permutation in Hsub; [|rewrite length_map; lia].
  rewrite <- Hsub in Hi. apply list_elem_of_fmap in Hi as ([x o] & -> & Hx).
  apply elem_of_filter_bool in Hx as [Hx [Ho%String.eqb_eq _]%andb_prop]. cbn in *. by subst o.
Qed.

Lemma allowed_networks db org body ids :
  NoDup (map fst (cd_networks db)) -> key_allowed db org body -> ck_networkIds body = Some ids ->
  forall i, i ∈ ids -> (i, org) ∈ cd_networks db.
Proof.
  intros Hnd [_ Hb Hr] E. rewrite E in Hr. apply resolved_networks; [done| |done].
  unfold createApiKeyBody in Hb. rewrite E in Hb. apply andb_prop in Hb as [_ [_ Hb]%andb_prop].
  by apply bool_decide_eq_true in Hb.
Qed.

Lemma granted_scopes_subset client scope x : x ∈ granted_scopes client scope -> x ∈ oc_scopes client.
Proof.
  unfold granted_scopes. destruct (truthy_text scope); [|done].
  by intros [_ Hx%bool_decide_eq_true]%elem_of_filter_bool.
Qed.

(** The tags of an allowed enrollment token. *)
Lemma checked_tags auth tags db t :
  forallb tagNameSchema tags = true -> check_tags auth tags db = Ok None -> t ∈ tags ->
  (exists d, d ∈ tg_definitions (cd_tags db) /\ td_org d = ac_organizationId auth /\ td_name d = t)
  /\ may_assign (cd_tags db) (ac_organizationId auth) (session_actor auth) t.
Proof.
  intros Hv Hc Ht. assert (t ∈ unique_tags tags) as Hu by by apply unique_tags_valid.
  destruct tags as [|x tags]; [by apply elem_of_nil in Ht|]. set (l := x :: tags) in *. cbn [check_tags] in Hc.
  unfold check_tags in Hc. change (x :: tags) with l in Hc.
  destruct (ensureTagDefinitionsExist _ _ l) eqn:He; [|done].
  destruct (assertCanAssignTags_spec (cd_tags db) (ac_organizationId auth) (session_actor auth) l) as (r & Er & Hr).
  rewrite Er in Hc. destruct r; [done|]. split; [|by apply (proj1 (list.Forall_forall _ _) Hr)].
  assert (t ∉ ensureTagDefinitionsExist (cd_tags db) (ac_organizationId auth) l) as Hno by (rewrite He; apply not_elem_of_nil).
  unfold ensureTagDefinitionsExist in Hno. rewrite elem_of_filter_bool in Hno.
  destruct (bool_decide (t ∈ map td_name _)) eqn:Ef; [|exfalso; apply Hno; by split].
  apply bool_decide_eq_true, list_elem_of_fmap in Ef as (d & -> & [Hd [Ho%String.eqb_eq _]%andb_prop]%elem_of_filter_bool).
  eauto.
Qed.

Lemma unique_tags_schema l : forallb tagNameSchema l = true -> forallb tagNameSchema (unique_tags l) = true.
Proof.
  intros Hl. apply forallb_forall. intros t Ht%list_elem_of_In. apply (unique_tags_valid l t Hl) in Ht.
  rewrite forallb_forall in Hl. by apply Hl, list_elem_of_In.
Qed.

(** ** Properties *)
Context (Argon : forall salt x y, argon2_verify (argon2_hash salt x) y = true <-> y = x).

(** C26: Only known credentials are accepted.  After any requests, a secret that
    is accepted is verified by a live key that was stored before and that no
    request of its organization revoked; or it is the secret of a key that a
    session of its organization created under a plan with API access, for
    scopes of the table and networks of that organization, that has not expired
    and that no later request of the organization revoked; or it has the hash
    of an unexpired token that was stored before; or that of a token issued
    within the last hour to a live client that presented its secret, for scopes
    of that client. *)
Theorem accepted_credential_issued (s : state CredDb) (h : list cred_request) (secret : jstr)
    (organizationId : option string) (now : Z) (k : VerifiedApiKey) :
  NoDup (map fst (cd_networks s.1)) -> NoDup (map oc_id (kd_clients (cd_keys s.1))) ->
  verifyApiKeySecret sha256 argon2_verify (cd_keys (serve s h).1) secret organizationId now = Some k ->
  (exists r, r ∈ kd_apiKeys (cd_keys s.1) /\ argon2_verify (ak_hashedSecret r) secret = true
     /\ ak_revokedAt r = None /\ (forall e, ak_expiresAt r = Some e -> now < e)
     /\ k = mkVerifiedKey (ak_id r) (ak_org r) (ak_scopes r) (ak_networkIds r)
     /\ forall (m : nat) auth' t, h !! m = Some (CqRevokeKey auth' (ak_id r) t) ->
          ac_organizationId auth' <> ak_org r)
  \/ (exists (n : nat) auth body i six twentyfour salt,
     h !! n = Some (CqCreateKey auth body i six twentyfour salt)
     /\ secret = gk_secret (generateApiKeySecret six twentyfour)
     /\ k = mkVerifiedKey i (ac_organizationId auth) (ck_scopes body) (ck_networkIds body)
     /\ (exists plan, requirePlanFeature enabled (cd_billing s.1) (ac_organizationId auth) apiAccess = Ok plan)
     /\ (forall scope, scope ∈ ck_scopes body -> scope ∈ API_KEY_SCOPE_VALUES)
     /\ (forall ids, ck_networkIds body = Some ids -> forall x, x ∈ ids -> (x, ac_organizationId auth) ∈ cd_networks s.1)
     /\ (forall e, ck_expiresAt body = Some e -> now < e)
     /\ forall (m : nat) auth' t, (n < m)%nat -> h !! m = Some (CqRevokeKey auth' i t) ->
          ac_organizationId auth' <> ac_organizationId auth)
  \/ (exists tok client,
     tok ∈ kd_tokens (cd_keys s.1) /\ client ∈ kd_clients (cd_keys s.1) /\ oc_id client = ot_clientId tok
     /\ oc_revokedAt client = None /\ ot_tokenHash tok = hashToken sha256 secret /\ now < ot_expiresAt tok
     /\ k = mkVerifiedKey (ot_id tok) (ot_org tok) (ot_scopes tok) (oc_networkIds client))
  \/ (exists body i random t client,
     CqToken body i random t ∈ h
     /\ client ∈ kd_clients (cd_keys s.1) /\ oc_clientId client = tq_client_id body /\ oc_revokedAt client = None
     /\ argon2_verify (oc_hashedSecret client) (tq_client_secret body) = true
     /\ hashToken sha256 secret = hashToken sha256 (units "tt_oauth_" ++ b64uEncode random)
     /\ vk_id k = i /\ vk_org k = oc_org client /\ vk_networkIds k = oc_networkIds client
     /\ (forall scope, scope ∈ vk_scopes k -> scope ∈ oc_scopes client)
     /\ now < t + 3600 * 1000).
Proof.
  intros Hnet Hcl Hv. apply verifyApiKeySecret_sound in Hv as [r Hr Ha Hrev Hexp|tok c Htok Hh Hexp Hc Hid Hrev].
  - destruct (keys_issued s h r Hr Hrev)
      as [[Hkept Hh]|(n & auth & body & i & six & tf & salt & Hn & Hal & -> & Hlater)].
    { left. exists r. by split_and!. }
    right; left. exists n, auth, body, i, six, tf, salt. split_and!; try done.
    + by apply Argon in Ha.
    + apply (ka_plan _ _ _ Hal).
    + intros scope Hs. pose proof (ka_body _ _ _ Hal) as Hb. unfold createApiKeyBody in Hb.
      apply andb_prop in Hb as [[[_ Hb]%andb_prop _]%andb_prop _]. rewrite forallb_forall in Hb.
      apply list_elem_of_In, Hb, bool_decide_eq_true in Hs. done.
    + intros ids E. by eapply allowed_networks.
  - right; right. pose proof (serve_fixed s h) as Hfix. unfold fixed_part in Hfix.
    injection Hfix as Hcs _ _ _. rewrite Hcs in Hc.
    destruct (tokens_issued s h tok Htok) as [Hold|(body & i & random & t & client & Hq & Hf & Ha & ->)].
    { left. exists tok, c. by split_and!. }
    right. apply find_client_spec in Hf as (Hin & Hcid & Hlive). cbn in Hid.
    assert (c = client) as -> by by apply (NoDup_map_inj oc_id (kd_clients (cd_keys s.1))).
    exists body, i, random, t, client. split_and!; try done. apply granted_scopes_subset.
Qed.

(** C28: The enrollment tokens that are stored were created by sessions of their
    organization for one of its networks, with defined tags that the user may
    assign, for at most seven days, and were not deleted since. *)
Theorem enrollment_token_authorized (s : state CredDb) (h : list cred_request) (row : EnrollmentTokenRow) :
  cd_enrollment s.1 = [] -> row ∈ cd_enrollment (serve s h).1 ->
  exists (n : nat) auth networkId body random now,
    h !! n = Some (CqEnroll auth networkId body random now)
    /\ et_organizationId row = ac_organizationId auth /\ et_networkId row = networkId
    /\ et_createdBy row = u_id (ac_user auth) /\ et_tokenHash row = blake3 (utf8 (b64uEncode random))
    /\ (networkId, ac_organizationId auth) ∈ cd_networks s.1
    /\ (forall t, t ∈ et_tags row ->
          (exists d, d ∈ tg_definitions (cd_tags s.1) /\ td_org d = ac_organizationId auth /\ td_name d = t)
          /\ may_assign (cd_tags s.1) (ac_organizationId auth) (session_actor auth) t)
    /\ now < et_expiresAt row <= now + 7 * 86400 * 1000
    /\ forall (m : nat) auth', (n < m)%nat -> h !! m = Some (CqDeleteEnrollment auth' networkId (et_tokenHash row)) ->
         ac_organizationId auth' <> ac_organizationId auth.
Proof.
  intros H0 Hr. destruct (enrollments_issued s h row H0 Hr) as (n & auth & net & body & random & now & Hn & [Hb Hnet Ht] & -> & Hlater).
  exists n, auth, net, body, random, now.
  unfold createEnrollmentTokenBody in Hb. apply andb_prop in Hb as [[[Hlo Hhi]%andb_prop Hs]%andb_prop _].
  split_and!; try done.
  - unfold network_of in Hnet. destruct (List.find _ _) as [[x o]|] eqn:Ef; [|done].
    apply List.find_some in Ef as [Hin [E1%String.eqb_eq E2%String.eqb_eq]%andb_prop]. cbn in *. subst.
    by apply list_elem_of_In.
  - intros t Hin. by apply (checked_tags auth (unique_tags (ce_tags body))); [apply unique_tags_schema| |].
  - cbn. lia.
  - cbn. lia.
Qed.

(** ** The life of a key *)
(** No row of the table verifies the secret. *)
Definition lacks (secret : jstr) (l : list ApiKeyRow) : Prop :=
  Forall (fun r => argon2_verify (ak_hashedSecret r) secret = false) l.

(** A row that cannot be used at a time. *)
Definition unusable (secret : jstr) (now : Z) (r : ApiKeyRow) : Prop :=
  argon2_verify (ak_hashedSecret r) secret = false \/ exists e, ak_expiresAt r = Some e /\ e <= now.

Lemma first_verified_none rows secret now :
  (forall r, r ∈ rows -> unusable secret now r) -> first_verified argon2_verify rows secret now = None.
Proof.
  intros Hr. destruct (first_verified _ _ _ _) as [k|] eqn:E; [|done].
  apply first_verified_unexpired in E as (r & Hin & Ha & He & _).
  destruct (Hr r Hin) as [Hf|(e & Ee & Hle)]; [congruence|]. specialize (He e Ee). lia.
Qed.

Lemma first_verified_middle rows r rest secret now :
  lacks secret rows -> argon2_verify (ak_hashedSecret r) secret = true ->
  (forall e, ak_expiresAt r = Some e -> now < e) ->
  first_verified argon2_verify (rows ++ r :: rest) secret now
    = Some (mkVerifiedKey (ak_id r) (ak_org r) (ak_scopes r) (ak_networkIds r)).
Proof.
  intros Hrows Hr He. induction Hrows as [|x rows Hx Hrows IH]; cbn [first_verified app].
  - destruct (ak_expiresAt r) as [e|]; [|by rewrite Hr]. specialize (He e eq_refl).
    rewrite (proj2 (Z.leb_gt _ _) He). by rewrite Hr.
  - rewrite Hx. cbn. rewrite IH. by destruct (match _ with Some _ => _ | None => _ end).
Qed.

(** Secrets that no stored row verifies are not accepted. *)
Lemma verify_none keys secret organizationId now :
  starts_with secret (units "tt_oauth_") = false ->
  (forall r, r ∈ kd_apiKeys keys -> ak_revokedAt r = None -> in_org organizationId (ak_org r) = true ->
     unusable secret now r) ->
  verifyApiKeySecret sha256 argon2_verify keys secret organizationId now = None.
Proof.
  intros Ho Hr. unfold verifyApiKeySecret, verifyOauthAccessToken. rewrite Ho. cbn [negb].
  rewrite first_verified_none.
  - destruct (parseApiKeyPrefix secret); [|done]. destruct organizationId as [org|]; [|done].
    destruct (org =? "")%string eqn:Eorg; [done|]. apply first_verified_none.
    intros r [Hin [[Ho'%String.eqb_eq Hl%not_revoked_iff]%andb_prop _]%andb_prop]%elem_of_filter_bool. apply Hr; [done..|].
    unfold in_org. by rewrite Ho', String.eqb_refl, orb_true_r.
  - intros r [Hin [[Hl%not_revoked_iff Hin']%andb_prop _]%andb_prop]%elem_of_filter_bool. by apply Hr.
Qed.

Lemma generated_segment six : length six = 6%nat -> Forall is_byte six -> length (take PREFIX_SEGMENT_LEN (b64uEncode six)) = 8%nat.
Proof. intros Hl Hb. rewrite length_take, b64uEncode_length, Hl by done. reflexivity. Qed.

(** A request that revokes the key [i] of an organization. *)
Definition revokes (org i : string) (q : cred_request) : bool :=
  match q with
  | CqRevokeKey auth keyId _ => (i =? keyId)%string && (org =? ac_organizationId auth)%string
  | _ => false
  end.

(** A request that does not draw the secret again. *)
Definition draws_other (secret : jstr) (q : cred_request) : Prop :=
  match q with
  | CqCreateKey _ _ _ six twentyfour _ => gk_secret (generateApiKeySecret six twentyfour) <> secret
  | _ => True
  end.

(** The one row of the table that verifies the secret is [row], or revoked. *)
Definition holds_key (secret : jstr) (row : ApiKeyRow) (revoked : bool) (l : list ApiKeyRow) : Prop :=
  exists pre r post, l = pre ++ r :: post /\ lacks secret pre /\ lacks secret post
    /\ if revoked then ak_revokedAt r <> None else r = row.

Lemma revoked_rows_lacks secret org keyId now l : lacks secret l -> lacks secret (revoked_rows org keyId now l).
Proof.
  unfold lacks, revoked_rows. intros H. apply Forall_fmap. eapply Forall_impl; [|exact H].
  intros r Hr. cbn. by destruct (live_key_of org keyId r).
Qed.

Lemma handle_holds_key secret row b q s :
  ak_revokedAt row = None -> draws_other secret q -> holds_key secret row b (kd_apiKeys (cd_keys s.1)) ->
  holds_key secret row (b || revokes (ak_org row) (ak_id row) q) (kd_apiKeys (cd_keys (handle q s).1.1)).
Proof.
  intros Hlive Hq Hk. destruct q; cbn [handle_cred revokes]; rewrite forget_state, ?orb_false_r.
  - destruct (createApiKey_cases s (ac_organizationId auth) (u_id (ac_user auth)) body newId six twentyfour salt)
      as [[-> _]|(_ & -> & _)]; [done|]. destruct Hk as (pre & r & post & E & Hpre & Hpost & Hr).
    exists pre, r, (post ++ [created_row (ac_organizationId auth) body newId six twentyfour salt]).
    cbn [cd_keys with_apiKeys kd_apiKeys]. rewrite E, <- app_assoc. split_and!; [done..| |done].
    apply Forall_app. split; [done|]. apply Forall_singleton. apply not_true_iff_false.
    intros E'%Argon. by apply Hq.
  - rewrite (proj1 (revokeApiKey_effect _ _ _ _ _)). destruct Hk as (pre & r & post & -> & Hpre & Hpost & Hr).
    unfold revoked_rows. rewrite map_app. cbn [map]. eexists _, _, _.
    split_and!; [reflexivity|by apply revoked_rows_lacks|by apply revoked_rows_lacks|].
    destruct b; cbn [orb].
    + unfold live_key_of, not_revoked. destruct (ak_revokedAt r) eqn:E; [|done].
      by rewrite andb_false_r, E.
    + subst r. unfold live_key_of, not_revoked. rewrite Hlive, andb_true_r.
      by destruct ((ak_id row =? keyId)%string && (ak_org row =? ac_organizationId auth)%string).
  - by destruct (issueToken_cases s body newId random now) as [->|(c & _ & _ & ->)].
  - by destruct (createEnrollmentToken_cases s auth networkId body random now) as [->|(_ & _ & ->)].
  - by rewrite (proj1 (deleteEnrollmentToken_effect _ _ _ _)).
Qed.

Lemma serve_holds_key secret row s h :
  ak_revokedAt row = None -> Forall (draws_other secret) h ->
  holds_key secret row false (kd_apiKeys (cd_keys s.1)) ->
  holds_key secret row (existsb (revokes (ak_org row) (ak_id row)) h) (kd_apiKeys (cd_keys (serve s h).1)).
Proof.
  intros Hlive. induction h as [|q h IH] using rev_ind; intros Hh Hk; [done|].
  apply Forall_app in Hh as [Hh Hq]. rewrite Forall_singleton in Hq.
  rewrite serve_snoc, existsb_app. cbn [existsb]. rewrite orb_false_r. apply handle_holds_key; [done|done|]. by apply IH.
Qed.

(** The row of a key is found by the prefix of its secret. *)
Lemma verify_held six twentyfour row keys now :
  let secret := gk_secret (generateApiKeySecret six twentyfour) in
  length six = 6%nat -> Forall is_byte six -> underscore ∉ gk_secretPrefix (generateApiKeySecret six twentyfour) ->
  ak_secretPrefix row = Some (gk_secretPrefix (generateApiKeySecret six twentyfour)) ->
  ak_revokedAt row = None -> argon2_verify (ak_hashedSecret row) secret = true ->
  (forall e, ak_expiresAt row = Some e -> now < e) ->
  holds_key secret row false (kd_apiKeys keys) ->
  verifyApiKeySecret sha256 argon2_verify keys secret (Some (ak_org row)) now
    = Some (mkVerifiedKey (ak_id row) (ak_org row) (ak_scopes row) (ak_networkIds row)).
Proof.
  cbn zeta. intros Hl Hb Hu Hp Hlive Ha He (pre & r & post & E & Hpre & _ & ->).
  cbn [generateApiKeySecret gk_secret gk_secretPrefix] in *.
  unfold verifyApiKeySecret, verifyOauthAccessToken.
  rewrite generated_not_oauth by (by apply generated_segment || done). cbn [negb].
  rewrite parse_generated; [|done|].
  2:{ intros En. pose proof (generated_segment six Hl Hb) as Hlen. by rewrite En in Hlen. }
  rewrite E, List.filter_app. cbn [List.filter].
  assert (candidate (Some (take PREFIX_SEGMENT_LEN (b64uEncode six))) (Some (ak_org row)) row = true) as ->.
  { unfold candidate, in_org, not_revoked. rewrite Hlive, String.eqb_refl, orb_true_r. by apply bool_decide_eq_true. }
  rewrite first_verified_middle; [done| |done|done].
  apply list.Forall_forall. intros x [Hx _]%elem_of_filter_bool. by apply (proj1 (list.Forall_forall _ _) Hpre).
Qed.

(** C27: The life of an API key.  Say the secret that is handed out was drawn by
    no other request before or after, and its random segment has no underscore.
    Then, whatever other requests are served after the creation, it is accepted
    for its organization as the key with the scopes and networks that were
    asked for, until the key expires or a request of the organization revokes
    it; it is accepted for no other organization; and it is never accepted
    once the key has expired or has been revoked. *)
Theorem key_lifecycle (s s' : state CredDb) (org user : string) (body : CreateApiKey) (i : string)
    (six twentyfour salt : bytes) (c : CreatedKey) (h : list cred_request) :
  length six = 6%nat -> Forall is_byte six -> underscore ∉ gk_secretPrefix (generateApiKeySecret six twentyfour) ->
  lacks (gk_secret (generateApiKeySecret six twentyfour)) (kd_apiKeys (cd_keys s.1)) ->
  Forall (draws_other (gk_secret (generateApiKeySecret six twentyfour))) h ->
  createApiKey uuid enabled argon2_hash org user body i six twentyfour salt s = (s', Ok (Reply c)) ->
  let verify := verifyApiKeySecret sha256 argon2_verify (cd_keys (serve s' h).1) (cr_secret c) in
  (forall now, existsb (revokes org i) h = false -> (forall e, ck_expiresAt body = Some e -> now < e) ->
     verify (Some org) now = Some (mkVerifiedKey i org (ck_scopes body) (ck_networkIds body)))
  /\ (forall other now, other <> org -> other <> "" -> verify (Some other) now = None)
  /\ (forall organizationId now e, ck_expiresAt body = Some e -> e <= now -> verify organizationId now = None)
  /\ (existsb (revokes org i) h = true -> forall organizationId now, verify organizationId now = None).
Proof.
  intros Hl Hb Hu Hother Hh Hc. cbn zeta.
  destruct (createApiKey_cases s org user body i six twentyfour salt) as [[_ Hno]|(_ & E & Er)];
    rewrite Hc in *; [by edestruct Hno|]. cbn [fst snd] in E, Er.
  set (secret := gk_secret _) in *. set (row := created_row org body i six twentyfour salt) in *.
  assert (c = mkCreatedKey secret row) as -> by congruence. cbn [cr_secret].
  assert (starts_with secret (units "tt_oauth_") = false) as Ho by (apply generated_not_oauth; [by apply generated_segment|done]).
  assert (argon2_verify (ak_hashedSecret row) secret = true) as Hrow by (by apply Argon).
  assert (holds_key secret row false (kd_apiKeys (cd_keys s'.1))) as Hk.
  { rewrite E. exists (kd_apiKeys (cd_keys s.1)), row, []. split_and!; [done|done|constructor|done]. }
  apply (serve_holds_key secret row s' h eq_refl Hh) in Hk. cbn [ak_org ak_id row created_row] in Hk.
  set (revoked := existsb _ h) in *.
  assert (forall r, r ∈ kd_apiKeys (cd_keys (serve s' h).1) -> ak_revokedAt r = None ->
            argon2_verify (ak_hashedSecret r) secret = false \/ (revoked = false /\ r = row)) as Hrows.
  { destruct Hk as (pre & r & post & -> & Hpre & Hpost & Hr). intros x Hx Hlive. unfold lacks in Hpre, Hpost.
    rewrite list.Forall_forall in Hpre, Hpost. apply elem_of_app in Hx as [Hx|[->|Hx]%elem_of_cons]; auto.
    by destruct revoked; [|right]. }
  split_and!.
  - intros now Hf He. rewrite Hf in Hk. by apply (verify_held six twentyfour row).
  - intros other now Hne Hempty. apply verify_none; [done|]. intros r Hr Hlive Hin.
    destruct (Hrows r Hr Hlive) as [?|[_ ->]]; [by left|]. exfalso. unfold in_org in Hin. cbn in Hin.
    apply orb_prop in Hin as [?%String.eqb_eq|?%String.eqb_eq]; congruence.
  - intros o now e He Hle. apply verify_none; [done|]. intros r Hr Hlive _.
    destruct (Hrows r Hr Hlive) as [?|[_ ->]]; [by left|right]. by exists e.
  - intros Hrev o now. apply verify_none; [done|]. intros r Hr Hlive _.
    destruct (Hrows r Hr Hlive) as [?|[? _]]; [by left|congruence].
Qed.
End Effects.

(** ** Witnesses *)
Definition plain_hash (_ : bytes) (x : jstr) : jstr := x.
Definition plain_verify (h x : jstr) : bool := bool_decide (h = x).
Lemma plain_argon salt x y : plain_verify (plain_hash salt x) y = true <-> y = x.
Proof. unfold plain_verify, plain_hash. rewrite bool_decide_eq_true. split; congruence. Qed.
Definition any_uuid (_ : string) : bool := true.
Definition plain_sha (m : bytes) : bytes := m.
Definition one_digest (_ : bytes) : string := "digest".

Definition sample_creds : CredDb :=
  mkCredDb (mkKeyDb [] [] []) [] [("n1", "acme"); ("n2", "beta")]
    (mkTagDb [mkTagDefinition "acme" "web" ["user:u1"]] [] [] [] [])
    (mkBillingDb [] [] [] [] [] [] [] [] [] []).
Definition sample_session : AuthContext :=
  mkAuthContext (mkUser "u1" "U" "u1@acme.test") (mkUserSession "s1" (Some "acme")) "acme" "member".
Definition sample_body : CreateApiKey := mkCreateKey "ci" ["policy:read"] (Some ["n1"]) (Some 1000).
Definition six_bytes : bytes := [1; 2; 3; 4; 5; 6]%N.
Definition more_bytes : bytes := replicate 24 7%N.
Definition sample_history : list cred_request :=
  [CqCreateKey sample_session sample_body "k1" six_bytes more_bytes [];
   CqEnroll sample_session "n1" (mkCreateEnrollment 15 ["web"]) more_bytes 0].
Definition after_history : CredDb :=
  (serve_cred any_uuid false plain_sha plain_hash plain_verify one_digest (sample_creds, []) sample_history).1.
Definition sample_secret : jstr := gk_secret (generateApiKeySecret six_bytes more_bytes).

(** The secret of the first request is accepted, and it is the issued one. *)
Lemma accepted_credential_issued_witness :
  exists (n : nat) auth body i six twentyfour salt,
    sample_history !! n = Some (CqCreateKey auth body i six twentyfour salt)
    /\ sample_secret = gk_secret (generateApiKeySecret six twentyfour).
Proof.
  destruct (accepted_credential_issued any_uuid false plain_sha plain_hash plain_verify one_digest plain_argon
    (sample_creds, []) sample_history sample_secret (Some "acme") 999
    (mkVerifiedKey "k1" "acme" ["policy:read"] (Some ["n1"])))
    as [(r & Hr & _)|[(n & auth & body & i & six & tf & salt & Hn & Hs & _)
       |[(tok & client & Ht & _)|(body & i & random & t & client & _ & Hc & _)]]].
  - apply (bool_decide_unpack _). vm_compute. reflexivity.
  - constructor.
  - vm_compute. reflexivity.
  - apply elem_of_nil in Hr. destruct Hr.
  - exists n, auth, body, i, six, tf, salt. split; [exact Hn|exact Hs].
  - apply elem_of_nil in Ht. destruct Ht.
  - apply elem_of_nil in Hc. destruct Hc.
Defined.

Lemma enrollment_token_authorized_witness :
  mkEnrollment "digest" "acme" "n1" "u1" ["web"] 900000 None ∈ cd_enrollment after_history
  /\ exists (n : nat) auth networkId body random now,
       sample_history !! n = Some (CqEnroll auth networkId body random now) /\ networkId = "n1".
Proof.
  assert (mkEnrollment "digest" "acme" "n1" "u1" ["web"] 900000 None ∈ cd_enrollment after_history) as Hin
    by (replace (cd_enrollment after_history) with [mkEnrollment "digest" "acme" "n1" "u1" ["web"] 900000 None]
          by (vm_compute; reflexivity); left).
  split; [exact Hin|].
  destruct (enrollment_token_authorized any_uuid false plain_sha plain_hash plain_verify one_digest
    (sample_creds, []) sample_history _ eq_refl Hin) as (n & auth & net & body & random & now & Hn & _ & Hnet & _).
  exists n, auth, net, body, random, now. split; [exact Hn|]. symmetry. exact Hnet.
Defined.

(** After the creation another key is made and revoked, then the key itself. *)
Definition key_created : state CredDb * result cred_error (reply CreatedKey) :=
  createApiKey any_uuid false plain_hash "acme" "u1" sample_body "k1" six_bytes more_bytes [] (sample_creds, []).
Definition other_requests : list cred_request :=
  [CqCreateKey sample_session sample_body "k2" six_bytes (replicate 24 8%N) []; CqRevokeKey sample_session "k2" 5].
Definition keys_after (h : list cred_request) : KeyDb :=
  cd_keys (serve_cred any_uuid false plain_sha plain_hash plain_verify one_digest key_created.1 h).1.

Lemma key_lifecycle_witness :
  verifyApiKeySecret plain_sha plain_verify (keys_after other_requests) sample_secret (Some "acme") 999
    = Some (mkVerifiedKey "k1" "acme" ["policy:read"] (Some ["n1"]))
  /\ verifyApiKeySecret plain_sha plain_verify (keys_after (other_requests ++ [CqRevokeKey sample_session "k1" 6]))
       sample_secret (Some "acme") 999 = None.
Proof.
  assert (key_created = (key_created.1, Ok (Reply (mkCreatedKey sample_secret
    (created_row plain_hash "acme" sample_body "k1" six_bytes more_bytes []))))) as E by (vm_compute; reflexivity).
  split.
  - apply (key_lifecycle any_uuid false plain_sha plain_hash plain_verify one_digest plain_argon (sample_creds, [])
      key_created.1 "acme" "u1" sample_body "k1" six_bytes more_bytes []
      (mkCreatedKey sample_secret (created_row plain_hash "acme" sample_body "k1" six_bytes more_bytes []))
      other_requests).
    + reflexivity.
    + repeat constructor.
    + apply (bool_decide_unpack _). vm_compute. reflexivity.
    + constructor.
    + repeat constructor; vm_compute; discriminate.
    + exact E.
    + reflexivity.
    + intros e He. injection He as <-. reflexivity.
  - apply (key_lifecycle any_uuid false plain_sha plain_hash plain_verify one_digest plain_argon (sample_creds, [])
      key_created.1 "acme" "u1" sample_body "k1" six_bytes more_bytes []
      (mkCreatedKey sample_secret (created_row plain_hash "acme" sample_body "k1" six_bytes more_bytes []))
      (other_requests ++ [CqRevokeKey sample_session "k1" 6])).
    + reflexivity.
    + repeat constructor.
    + apply (bool_decide_unpack _). vm_compute. reflexivity.
    + constructor.
    + repeat constructor; vm_compute; discriminate.
    + exact E.
    + reflexivity.
Defined.
