(* ===== verification/DocumentFromRows.v ===== *)
(** * Documents from database rows
      ([packages/policy-engine/src/document-from-rows.ts])

    The policy document an organization's rows stand for.  Objects used as
    records ([routes]) are lists of their entries; grant capabilities are the
    strings that are stored. *)
From S2P Require Import Prelude PolicyTypes Selector Simulate.

(** The selectors stored in the database. *)
Inductive RowSelector :=
| RowAny
| RowEndpoint (value : string)
| RowTag (value : string)
| RowNetwork (value : string)
| RowCidr (value : string)
| RowUser (value : string).

#[export] Instance RowSelector_eq_dec : EqDecision RowSelector.
Proof. solve_decision. Defined.

Definition selectorToString (selector : RowSelector) : string :=
  match selector with
  | RowAny => "*"
  | RowEndpoint v => v
  | RowTag v => "tag:" +:+ v
  | RowNetwork v => "network:" +:+ v
  | RowCidr v => v
  | RowUser v => "user:" +:+ v
  end.

Definition formatPorts (ports : list port_range) : list string :=
  map (fun p => if (range_start p =? range_end p)%Z then string_of_Z (range_start p)
                else string_of_Z (range_start p) +:+ "-" +:+ string_of_Z (range_end p)) ports.

Record PolicyRow := mkPolicyRow {
  pr_slug : option string;
  pr_name : nullish string;
  pr_action : string;
  pr_scope : option rule_scope;
  pr_srcSelector : RowSelector;
  pr_dstSelector : RowSelector;
  pr_ports : list port_range;
  pr_protocol : option string;
  pr_priority : Z;
  pr_orderIndex : option Z;
  pr_srcPosture : option (list string);
  pr_enabled : option bool
}.

Record GrantRow := mkGrantRow {
  gr_slug : string;
  gr_principals : option (list string);
  gr_srcSelectors : option (list RowSelector);
  gr_appCapabilities : option (list string)
}.

Record SshPolicyRow := mkSshPolicyRow {
  sr_id : string;
  sr_srcSelector : RowSelector;
  sr_dstSelector : RowSelector;
  sr_action : string;
  sr_users : list string;
  sr_priority : Z
}.

Record ApproverRow := mkApproverRow {
  ar_slug : string;
  ar_routes : list (string * list string);
  ar_exitNodes : list string
}.

Record AttributeRow := mkAttributeRow {
  at_key : string;
  at_value : string;
  at_endpointId : option string
}.

Record PolicyRows := mkRows {
  rows_tags : list (string * list string);
  rows_hostAliases : list (string * string);
  rows_ipSets : list (string * list string);
  rows_policies : list PolicyRow;
  rows_grants : list GrantRow;
  rows_sshPolicies : list SshPolicyRow;
  rows_postures : list (string * list string);
  rows_autoApprovers : list ApproverRow;
  rows_nodeAttributes : list AttributeRow;
  rows_tests : option (list PolicyTest);
  rows_defaultAction : option action;
  rows_icmpPolicy : option icmp
}.

Definition acl_of_row (index : nat) (policy : PolicyRow) : AclRule :=
  mkAcl
    (match pr_slug policy with
     | Some s => s
     | None => coalesce (pr_name policy) ("acl-" +:+ string_of_Z (Z.of_nat (index + 1)))
     end)
    (pr_slug policy) (pr_action policy)
    [selectorToString (pr_srcSelector policy)] [selectorToString (pr_dstSelector policy)]
    (formatPorts (pr_ports policy))
    (match pr_protocol policy with
     | Some p => if (p =? "any")%string then Null else Value p
     | None => Null
     end)
    (pr_priority policy) (default 0%Z (pr_orderIndex policy))
    (default Network (pr_scope policy)) (default [] (pr_srcPosture policy)) []
    (default true (pr_enabled policy)).

Definition grant_of_row (grant : GrantRow) : Grant :=
  mkGrant (gr_slug grant)
    (match gr_principals grant with
     | Some p => p
     | None => map selectorToString (default [] (gr_srcSelectors grant))
     end)
    (match gr_appCapabilities grant with Some (c :: _) => c | _ => "" end)
    [] Null.

Definition ssh_of_row (rule : SshPolicyRow) : SshRule :=
  mkSshRule (sr_id rule) [selectorToString (sr_srcSelector rule)]
    [selectorToString (sr_dstSelector rule)] (sr_action rule) (sr_users rule) (sr_priority rule) true.

Definition approvers_of_row (approver : ApproverRow) : list AutoApprover :=
  map (fun rp => mkAutoApprover (ar_slug approver +:+ "-" +:+ rp.1) rp.1 rp.2) (ar_routes approver).

Definition attr_of_row (attr : AttributeRow) : NodeAttribute :=
  mkNodeAttribute (at_key attr) (at_value attr)
    (match at_endpointId attr with
     | Some e => if (e =? "")%string then [] else [e]
     | None => []
     end).

Definition documentFromRows (rows : PolicyRows) : PolicyDocument :=
  mkDocument
    (map (fun t => mkTag t.1 t.2) (rows_tags rows))
    (map (fun a => mkHostAlias a.1 a.2) (rows_hostAliases rows))
    (map (fun s => mkIpSet s.1 s.2) (rows_ipSets rows))
    (imap acl_of_row (rows_policies rows))
    (map grant_of_row (rows_grants rows))
    (map ssh_of_row (rows_sshPolicies rows))
    (map (fun p => mkPosture p.1 p.2) (rows_postures rows))
    (concat (map approvers_of_row (rows_autoApprovers rows)))
    (map attr_of_row (rows_nodeAttributes rows))
    (default [] (rows_tests rows))
    (default Allow (rows_defaultAction rows))
    (default IcmpAllow (rows_icmpPolicy rows)).

(** ** Stored selectors are readable *)
(** A stored selector as the policy engine parses it. *)
Definition parsed_of_row (selector : RowSelector) : ParsedSelector :=
  match selector with
  | RowAny => SelAny
  | RowEndpoint v => SelEndpoint v
  | RowTag v => SelTag v
  | RowNetwork v => SelNetwork v
  | RowCidr v => SelCidr v
  | RowUser v => SelUser v
  end.

Lemma selectorToString_print sel : selectorToString sel = print_selector (parsed_of_row sel).
Proof. by destruct sel; unfold print_selector; cbn; rewrite ?app_Empty_l. Qed.

Lemma selectorToString_parses sel :
  selector_wf (parsed_of_row sel) = true ->
  parseSelector (selectorToString sel) = Ok (parsed_of_row sel).
Proof. intros H. rewrite selectorToString_print. by apply print_parse. Qed.

Lemma parsePorts_formatPorts (ports : list port_range) :
  Forall (fun p => range_start p = range_end p) ports -> parsePorts (formatPorts ports) = ports.
Proof.
  unfold parsePorts, formatPorts. induction 1 as [|p l Hp Hl IH]; cbn; [done|].
  rewrite Hp, Z.eqb_refl, IH. destruct p as [s e]. cbn in *. subst s.
  unfold parsePort. by rewrite parseInt_string_of_Z.
Qed.
