(* ===== verification/PolicyIr.v ===== *)
(** * Storing and loading policy documents
      ([apps/management/src/lib/policy-ir.ts])

    The tables of [packages/db/src/schema/tunnet.ts] the policy code uses, as
    lists of rows in insertion order, with the constraints inserts are checked
    against.  A transaction either returns the new database or fails and
    leaves the database as it was.  The identifiers the database generates are
    [uuidv7 n] for a running number [n].  Parsing of the document texts (zod,
    yaml) is a parameter. *)
From S2P Require Import Prelude AuditEvent Notify PolicyTypes Selector Simulate Merge DocumentFromRows.
Local Open Scope Z_scope.

(** ** Parsing for storage *)
(** Errors of the policy code: thrown by the code, or by the database. *)
Inductive apply_error :=
| Thrown (message : string)
| Violation (constraint : string).

Definition parseSelectorString (raw : string) : result apply_error RowSelector :=
  let s := trim raw in
  if (s =? "*")%string then Ok RowAny
  else if startsWith s "tag:" then Ok (RowTag (slice 4 s))
  else if startsWith s "user:" then Ok (RowUser (slice 5 s))
  else if startsWith s "group:user:" || startsWith s "group:device:" then
    Err (Thrown ("unsupported group selector: " +:+ s))
  else if startsWith s "network:" then Ok (RowNetwork (slice 8 s))
  else if includes s "/" then Ok (RowCidr s)
  else if isEndpointHex s then Ok (RowEndpoint s)
  else Ok (RowTag s).

(** The loop of [parsePortRanges] is that of the simulator's [parsePorts]. *)
Definition parsePortRanges (ports : list string) : list port_range :=
  concat (map (fun spec =>
    match parseInt spec with
    | Some single => [mkRange single single]
    | None =>
        match split_unit "-"%char spec with
        | [a; b] =>
            match parseInt a, parseInt b with
            | Some start, Some end_ => [mkRange start end_]
            | _, _ => []
            end
        | _ => []
        end
    end) ports).

(** ** The database *)
Record NetworkRow := mkNetworkRow { nw_id : string; nw_org : string }.
Record TagRow := mkTagRow { tr_org : string; tr_name : string; tr_owners : list string }.
Record AliasRow := mkAliasRow { al_org : string; al_name : string; al_target : string }.
Record IpSetRow := mkIpSetRow { is_org : string; is_name : string; is_entries : list string }.
Record DbPolicy := mkDbPolicy { dp_org : string; dp_networkId : option string; dp_row : PolicyRow }.
Record DbGrant := mkDbGrant { dg_org : string; dg_row : GrantRow }.
Record DbApprover := mkDbApprover { da_org : string; da_row : ApproverRow }.
Record PostureRow := mkPostureRow {
  po_org : string; po_networkId : option string; po_name : string; po_assertions : list string }.
Record DbAttribute := mkDbAttribute { dn_org : string; dn_row : AttributeRow }.
Record DbSshPolicy := mkDbSsh { ds_networkId : string; ds_row : SshPolicyRow }.
Inductive revision_source := src_dashboard | src_api | src_gitops | src_terraform.
Record RevisionRow := mkRevision {
  rv_id : string;
  rv_org : string;
  rv_version : Z;
  rv_contentHash : string;
  rv_irSnapshot : option PolicyDocument;
  rv_source : revision_source;
  rv_authorUserId : option string;
  rv_authorApiKeyId : option string
}.

Record Db := mkDb {
  db_organization : list (string * Z);
  db_networks : list NetworkRow;
  db_devices : list string;
  db_tagDefinitions : list TagRow;
  db_hostAliases : list AliasRow;
  db_ipSets : list IpSetRow;
  db_policies : list DbPolicy;
  db_grants : list DbGrant;
  db_autoApprovers : list DbApprover;
  db_postureDefinitions : list PostureRow;
  db_nodeAttributes : list DbAttribute;
  db_sshPolicies : list DbSshPolicy;
  db_policyRevisions : list RevisionRow;
  db_notifications : list (string * string);
  db_next : nat
}.

(** [findMany] and [delete] with an organization. *)
Definition of_org {R} (org_of : R -> string) (org : string) (table : list R) : list R :=
  List.filter (fun r => (org_of r =? org)%string) table.
Definition not_of_org {R} (org_of : R -> string) (org : string) (table : list R) : list R :=
  List.filter (fun r => negb (org_of r =? org)%string) table.

(** ** Constraints *)
Definition int4 (z : Z) : bool := (- 2 ^ 31 <=? z) && (z <? 2 ^ 31).

(** A constraint on a row to be inserted into a table: the name of the one it
    violates. *)
Definition constraint (R : Type) := list R -> R -> option string.

Definition check (name : string) (ok : bool) : option string := if ok then None else Some name.

Fixpoint first_violation (l : list (option string)) : option string :=
  match l with
  | [] => None
  | Some v :: _ => Some v
  | None :: r => first_violation r
  end.

Definition unique_on {R} (name : string) (same : R -> R -> bool) : constraint R :=
  fun table row => check name (negb (existsb (same row) table)).

Section Constraints.
Context (db : Db).

Definition org_fk (org : string) : option string :=
  check "organization_fk" (existsb (fun o => (o.1 =? org)%string) (db_organization db)).

Definition tag_constraint : constraint TagRow := fun t r =>
  first_violation [org_fk (tr_org r);
    unique_on "tag_definitions_organization_id_name_unique"
      (fun a b => (tr_org a =? tr_org b)%string && (tr_name a =? tr_name b)%string) t r].

Definition alias_constraint : constraint AliasRow := fun t r =>
  first_violation [org_fk (al_org r);
    unique_on "host_aliases_organization_id_name_unique"
      (fun a b => (al_org a =? al_org b)%string && (al_name a =? al_name b)%string) t r].

Definition ipset_constraint : constraint IpSetRow := fun t r =>
  first_violation [org_fk (is_org r);
    unique_on "ip_sets_organization_id_name_unique"
      (fun a b => (is_org a =? is_org b)%string && (is_name a =? is_name b)%string) t r].

Definition policy_constraint : constraint DbPolicy := fun t r =>
  let p := dp_row r in
  first_violation [
    check "integer_range" (int4 (pr_priority p) && int4 (default 0 (pr_orderIndex p)));
    check "policies_action_check" ((pr_action p =? "allow")%string || (pr_action p =? "deny")%string);
    check "policies_scope_network_id_check"
      match pr_scope p, dp_networkId r with
      | Some Organization, None | Some Network, Some _ => true
      | _, _ => false
      end;
    org_fk (dp_org r);
    unique_on "policies_org_slug_unique"
      (fun a b => (dp_org a =? dp_org b)%string &&
                  match pr_slug (dp_row a), pr_slug (dp_row b) with
                  | Some x, Some y => (x =? y)%string
                  | _, _ => false
                  end) t r].

Definition grant_constraint : constraint DbGrant := fun t r =>
  first_violation [org_fk (dg_org r);
    unique_on "grants_organization_id_slug_unique"
      (fun a b => (dg_org a =? dg_org b)%string
                  && (gr_slug (dg_row a) =? gr_slug (dg_row b))%string) t r].

Definition approver_constraint : constraint DbApprover := fun t r =>
  first_violation [org_fk (da_org r);
    unique_on "auto_approvers_organization_id_slug_unique"
      (fun a b => (da_org a =? da_org b)%string
                  && (ar_slug (da_row a) =? ar_slug (da_row b))%string) t r].

Definition posture_constraint : constraint PostureRow := fun t r =>
  first_violation [org_fk (po_org r);
    unique_on "posture_definitions_org_name_uidx"
      (fun a b => (po_org a =? po_org b)%string && (po_name a =? po_name b)%string
                  && bool_decide (po_networkId a = None) && bool_decide (po_networkId b = None)) t r].

Definition attribute_constraint : constraint DbAttribute := fun t r =>
  first_violation [org_fk (dn_org r);
    match at_endpointId (dn_row r) with
    | Some e => check "node_attributes_endpoint_id_fk" (existsb (String.eqb e) (db_devices db))
    | None => None
    end].

Definition ssh_constraint : constraint DbSshPolicy := fun t r =>
  let p := ds_row r in
  first_violation [
    check "integer_range" (int4 (sr_priority p));
    check "ssh_policies_action_check"
      ((sr_action p =? "accept")%string || (sr_action p =? "check")%string
       || (sr_action p =? "deny")%string)].

Definition revision_constraint : constraint RevisionRow := fun t r => org_fk (rv_org r).
End Constraints.

(** ** Loops of inserts *)
Section InsertEach.
Context {A R : Type} (violates : constraint R) (row : A -> result apply_error R).

Definition insert_row (table : list R) (r : R) : result apply_error (list R) :=
  match violates table r with
  | Some name => Err (Violation name)
  | None => Ok (table ++ [r])
  end.

(** [for (const x of l) await tx.insert(...).values(row(x))]. *)
Fixpoint insert_each (table : list R) (l : list A) : result apply_error (list R) :=
  match l with
  | [] => Ok table
  | x :: rest => r ← row x; table' ← insert_row table r; insert_each table' rest
  end.

Lemma insert_each_Ok table l table' :
  insert_each table l = Ok table' -> exists rows, mapR row l = Ok rows /\ table' = table ++ rows.
Proof.
  revert table. induction l as [|x l IH]; intros table; cbn.
  - intros [= <-]. exists []. by rewrite app_nil_r.
  - intros H. inv_ok. unfold insert_row in *. destruct (violates table _); [done|].
    inv_ok. match goal with H : insert_each _ _ = Ok _ |- _ => apply IH in H as (rows & -> & ->) end.
    rewrite H. cbn. eexists. split; [done|]. by rewrite <- app_assoc.
Qed.
End InsertEach.

(** ** Loading *)
(** The rows of an organization, as the loader maps them.  The queries have no
    [ORDER BY]: the order of the result is that of the lists of the database
    as it is read, see [reads] below. *)
Definition load_policy (p : DbPolicy) : PolicyRow :=
  let r := dp_row p in
  mkPolicyRow (pr_slug r) Undefined (pr_action r) (pr_scope r) (pr_srcSelector r) (pr_dstSelector r)
    (pr_ports r) (pr_protocol r) (pr_priority r) (pr_orderIndex r) (pr_srcPosture r) (pr_enabled r).

Definition load_grant (g : DbGrant) : GrantRow :=
  mkGrantRow (gr_slug (dg_row g)) None (gr_srcSelectors (dg_row g)) (gr_appCapabilities (dg_row g)).

Definition network_ids (db : Db) (org : string) : list string :=
  map nw_id (of_org nw_org org (db_networks db)).

(** [inArray(networkId, networkIds)]. *)
Definition in_networks (ids : list string) (r : DbSshPolicy) : bool :=
  existsb (String.eqb (ds_networkId r)) ids.

Definition loadOrganizationPolicyDocument (db : Db) (org : string) : PolicyDocument :=
  let ids := network_ids db org in
  let ssh := match ids with [] => [] | _ => List.filter (in_networks ids) (db_sshPolicies db) end in
  documentFromRows
    (mkRows
       (map (fun t => (tr_name t, tr_owners t)) (of_org tr_org org (db_tagDefinitions db)))
       (map (fun a => (al_name a, al_target a)) (of_org al_org org (db_hostAliases db)))
       (map (fun s => (is_name s, is_entries s)) (of_org is_org org (db_ipSets db)))
       (map load_policy (of_org dp_org org (db_policies db)))
       (map load_grant (of_org dg_org org (db_grants db)))
       (map ds_row ssh)
       (map (fun p => (po_name p, po_assertions p)) (of_org po_org org (db_postureDefinitions db)))
       (map da_row (of_org da_org org (db_autoApprovers db)))
       (map dn_row (of_org dn_org org (db_nodeAttributes db)))
       None None None).

(** [parsePolicyDocuments], with [parseDocument] a parameter. *)
Definition parsePolicyDocuments {I E} (parseDocument : I -> result E PolicyDocument)
    (documents : list I) : result (E + MergeConflictError) PolicyDocument :=
  match mapR parseDocument documents with
  | Err e => Err (inl e)
  | Ok docs => match mergeDocuments docs with Err c => Err (inr c) | Ok d => Ok d end
  end.

(** ** Applying *)
Record ApplyInput := mkApplyInput {
  in_org : string;
  in_document : PolicyDocument;
  in_source : revision_source;
  in_userId : option string;
  in_apiKeyId : option string;
  in_contentHash : string
}.

Definition policy_row_of (org : string) (acl : AclRule) : result apply_error DbPolicy :=
  if bool_decide (acl_scope acl = Organization) && negb (acl_action acl =? "deny")%string then
    Err (Thrown ("Organization-scoped Allow is not supported (acl: " +:+ aclKey acl +:+ ")"))
  else
    src ← parseSelectorString (default "*" (head (acl_src acl)));
    dst ← parseSelectorString (default "*" (head (acl_dst acl)));
    Ok (mkDbPolicy org None
          (mkPolicyRow (Some (aclKey acl)) Undefined (acl_action acl) (Some Organization) src dst
             (parsePortRanges (acl_ports acl)) (Some (coalesce (acl_protocol acl) "any"))
             (acl_priority acl) (Some (acl_orderIndex acl))
             (match acl_posture acl with [] => None | l => Some l end) (Some (acl_enabled acl)))).

Definition grant_row_of (org : string) (grant : Grant) : result apply_error DbGrant :=
  sels ← mapR parseSelectorString (grant_principals grant);
  Ok (mkDbGrant org (mkGrantRow (grant_name grant) None (Some sels)
        (Some (if (grant_capability grant =? "")%string then [] else [grant_capability grant])))).

(** The approvers of a document by the first part of their name. *)
Definition add_approver (m : list (string * list (string * list string))) (a : AutoApprover)
    : list (string * list (string * list string)) :=
  let slug := default (approver_name a) (head (split_unit "-"%char (approver_name a))) in
  let routes := default [] (map_get m slug) in
  map_set m slug
    (if (approver_route a =? "")%string then routes
     else map_set routes (approver_route a) (approver_principals a)).

Definition approversBySlug (l : list AutoApprover) : list (string * list (string * list string)) :=
  foldl add_approver [] l.

Definition attr_row_of (org : string) (attr : NodeAttribute) : DbAttribute :=
  mkDbAttribute org (mkAttributeRow (attr_name attr) (attr_value attr) (head (attr_selectors attr))).

Section Apply.
Context (uuidv7 : nat -> string).

(** The SSH rules are inserted for every network; [n] numbers the inserts. *)
Definition ssh_row_of (x : nat * (SshRule * string)) : result apply_error DbSshPolicy :=
  let '(n, (rule, networkId)) := x in
  src ← parseSelectorString (default "*" (head (ssh_src rule)));
  dst ← parseSelectorString (default "*" (head (ssh_dst rule)));
  Ok (mkDbSsh networkId
        (mkSshPolicyRow (uuidv7 n) src dst (ssh_action rule) (ssh_users rule) (ssh_priority rule))).

Definition ssh_inserts (db : Db) (org : string) (rules : list SshRule) : list (nat * (SshRule * string)) :=
  let pairs := concat (map (fun rule => map (pair rule) (network_ids db org)) rules) in
  zip (seq (db_next db) (length pairs)) pairs.

(** The SSH policies that remain when those of the organization's networks are
    deleted. *)
Definition ssh_kept (db : Db) (org : string) : list DbSshPolicy :=
  match network_ids db org with
  | [] => db_sshPolicies db
  | _ => List.filter (fun r => negb (in_networks (network_ids db org) r)) (db_sshPolicies db)
  end.

Definition max_version (org : string) (revisions : list RevisionRow) : Z :=
  foldr (fun r m => Z.max (rv_version r) m) 0 (of_org rv_org org revisions).

Definition applyPolicyDocument (input : ApplyInput) (db : Db)
    : result apply_error (Db * AuditIngestEvent * string) :=
  let org := in_org input in
  let doc := in_document input in
  let tags0 := not_of_org tr_org org (db_tagDefinitions db) in
  let aliases0 := not_of_org al_org org (db_hostAliases db) in
  let ipsets0 := not_of_org is_org org (db_ipSets db) in
  let grants0 := not_of_org dg_org org (db_grants db) in
  let approvers0 := not_of_org da_org org (db_autoApprovers db) in
  let attrs0 := not_of_org dn_org org (db_nodeAttributes db) in
  let policies0 := not_of_org dp_org org (db_policies db) in
  let postures0 := not_of_org po_org org (db_postureDefinitions db) in
  let ssh0 := ssh_kept db org in
  tags1 ← insert_each (tag_constraint db)
            (fun t => Ok (mkTagRow org (tag_name t) (tag_owners t))) tags0 (tags doc);
  aliases1 ← insert_each (alias_constraint db)
            (fun a => Ok (mkAliasRow org (alias_name a) (alias_target a))) aliases0 (host_aliases doc);
  ipsets1 ← insert_each (ipset_constraint db)
            (fun s => Ok (mkIpSetRow org (ipset_name s) (ipset_cidrs s))) ipsets0 (ip_sets doc);
  postures1 ← insert_each (posture_constraint db)
            (fun p => Ok (mkPostureRow org None (posture_name p) (posture_assertions p)))
            postures0 (postures doc);
  policies1 ← insert_each (policy_constraint db) (policy_row_of org) policies0 (acls doc);
  grants1 ← insert_each (grant_constraint db) (grant_row_of org) grants0 (grants doc);
  approvers1 ← insert_each (approver_constraint db)
            (fun sr => Ok (mkDbApprover org (mkApproverRow sr.1 sr.2 []))) approvers0
            (approversBySlug (auto_approvers doc));
  attrs1 ← insert_each (attribute_constraint db) (fun a => Ok (attr_row_of org a)) attrs0
            (node_attributes doc);
  ssh1 ← insert_each ssh_constraint ssh_row_of ssh0 (ssh_inserts db org (ssh_rules doc));
  let next := (db_next db + length (ssh_inserts db org (ssh_rules doc)))%nat in
  let revision := mkRevision (uuidv7 next) org (max_version org (db_policyRevisions db) + 1)
                    (in_contentHash input) (Some doc) (in_source input) (in_userId input)
                    (in_apiKeyId input) in
  revisions1 ← insert_row (revision_constraint db) (db_policyRevisions db) revision;
  let event := toIngestEvent (mkAuditInput org
                 (match in_userId input with
                  | Some u => u
                  | None => default "system" (in_apiKeyId input)
                  end)
                 "policy.applied" (Some (rv_id revision))
                 [("contentHash", in_contentHash input);
                  ("source", match in_source input with
                             | src_dashboard => "dashboard" | src_api => "api"
                             | src_gitops => "gitops" | src_terraform => "terraform" end)] None) in
  let '(organization1, notifications1) := bumpOrgAndNotify org (db_organization db, db_notifications db) in
  Ok (mkDb organization1 (db_networks db) (db_devices db) tags1 aliases1 ipsets1 policies1 grants1
        approvers1 postures1 attrs1 ssh1 revisions1 notifications1 (S next),
      event, rv_id revision).
End Apply.

(** ** Tables after an apply *)
Section OfOrg.
Context {R : Type} (org_of : R -> string).
Implicit Types (table rows : list R).

Lemma of_org_replaced org table rows :
  Forall (fun r => org_of r = org) rows -> of_org org_of org (not_of_org org_of org table ++ rows) = rows.
Proof.
  intros Hr. unfold of_org. rewrite List.filter_app.
  replace (List.filter _ (not_of_org org_of org table)) with (@nil R).
  - induction Hr as [|r rows Hx Hr IH]; cbn; [done|]. rewrite Hx, String.eqb_refl. f_equal. exact IH.
  - unfold not_of_org. induction table as [|x t IH]; cbn; [done|].
    destruct (org_of x =? org)%string eqn:E; cbn; [done|]. by rewrite E.
Qed.

Lemma of_org_other org org' table rows :
  org' <> org -> Forall (fun r => org_of r = org) rows ->
  of_org org_of org' (not_of_org org_of org table ++ rows) = of_org org_of org' table.
Proof.
  intros Hne Hr. unfold of_org. rewrite List.filter_app.
  replace (List.filter _ rows) with (@nil R).
  - rewrite app_nil_r. unfold not_of_org. induction table as [|x t IH]; cbn; [done|].
    destruct (String.eqb_spec (org_of x) org) as [E|E]; cbn.
    + rewrite E, (proj2 (String.eqb_neq org org')) by congruence. done.
    + destruct (org_of x =? org')%string; by rewrite IH.
  - induction Hr as [|r rows Hx Hr IH]; cbn; [done|].
    by rewrite Hx, (proj2 (String.eqb_neq org org')) by congruence.
Qed.
End OfOrg.

Lemma map_id_ext {A} (f : A -> A) (l : list A) : (forall x, f x = x) -> map f l = l.
Proof. intros Hf. induction l as [|x l IH]; cbn; [done|]. by rewrite Hf, IH. Qed.

Lemma mapR_Ok_map {E A B} (f : A -> B) (l : list A) :
  mapR (fun x => Ok (f x) : result E B) l = Ok (map f l).
Proof. induction l as [|x l IH]; cbn; [done|]. by rewrite IH. Qed.

(** What a stored rule is read back as. *)
Definition stored_acl (acl acl' : AclRule) : Prop :=
  exists src dst,
    parseSelectorString (default "*" (head (acl_src acl))) = Ok src
    /\ parseSelectorString (default "*" (head (acl_dst acl))) = Ok dst
    /\ acl' = mkAcl (aclKey acl) (Some (aclKey acl)) (acl_action acl)
         [selectorToString src] [selectorToString dst]
         (formatPorts (parsePortRanges (acl_ports acl)))
         (if (coalesce (acl_protocol acl) "any" =? "any")%string then Null
          else Value (coalesce (acl_protocol acl) "any"))
         (acl_priority acl) (acl_orderIndex acl) Organization (acl_posture acl) []
         (acl_enabled acl).

Definition stored_grant (g g' : Grant) : Prop :=
  exists sels, mapR parseSelectorString (grant_principals g) = Ok sels
    /\ g' = mkGrant (grant_name g) (map selectorToString sels) (grant_capability g) [] Null.

Definition stored_approvers (l : list AutoApprover) : list AutoApprover :=
  concat (map (fun sr => map (fun rp => mkAutoApprover (sr.1 +:+ "-" +:+ rp.1) rp.1 rp.2) sr.2)
              (approversBySlug l)).

(** An SSH rule stored for a network: named by the id of its row, its first
    selectors, always enabled. *)
Definition stored_ssh (x : SshRule * string) (rule' : SshRule) : Prop :=
  exists name src dst,
    parseSelectorString (default "*" (head (ssh_src x.1))) = Ok src
    /\ parseSelectorString (default "*" (head (ssh_dst x.1))) = Ok dst
    /\ rule' = mkSshRule name [selectorToString src] [selectorToString dst] (ssh_action x.1)
         (ssh_users x.1) (ssh_priority x.1) true.

(** Every SSH rule with every network. *)
Definition ssh_copies (rules : list SshRule) (networks : list string) : list (SshRule * string) :=
  concat (map (fun rule => map (pair rule) networks) rules).

Definition stored_attr (a : NodeAttribute) : NodeAttribute :=
  mkNodeAttribute (attr_name a) (attr_value a)
    (match attr_selectors a with
     | e :: _ => if (e =? "")%string then [] else [e]
     | [] => []
     end).

Section ApplyLoad.
Context (uuidv7 : nat -> string) (input : ApplyInput) (db db' : Db)
  (event : AuditIngestEvent) (id : string)
  (Happly : applyPolicyDocument uuidv7 input db = Ok (db', event, id)).

Let org := in_org input.
Let doc := in_document input.

(** The new tables: the other organizations' rows, then those of the document. *)
Lemma apply_tables :
  exists policies grants ssh,
    mapR (policy_row_of org) (acls doc) = Ok policies
    /\ mapR (grant_row_of org) (PolicyTypes.grants doc) = Ok grants
    /\ mapR (ssh_row_of uuidv7) (ssh_inserts db org (ssh_rules doc)) = Ok ssh
    /\ db' = mkDb (bumpOrgSnapshotVersion org (db_organization db)) (db_networks db) (db_devices db)
         (not_of_org tr_org org (db_tagDefinitions db)
          ++ map (fun t => mkTagRow org (tag_name t) (tag_owners t)) (tags doc))
         (not_of_org al_org org (db_hostAliases db)
          ++ map (fun a => mkAliasRow org (alias_name a) (alias_target a)) (host_aliases doc))
         (not_of_org is_org org (db_ipSets db)
          ++ map (fun s => mkIpSetRow org (ipset_name s) (ipset_cidrs s)) (ip_sets doc))
         (not_of_org dp_org org (db_policies db) ++ policies)
         (not_of_org dg_org org (db_grants db) ++ grants)
         (not_of_org da_org org (db_autoApprovers db)
          ++ map (fun sr => mkDbApprover org (mkApproverRow sr.1 sr.2 []))
                 (approversBySlug (auto_approvers doc)))
         (not_of_org po_org org (db_postureDefinitions db)
          ++ map (fun p => mkPostureRow org None (posture_name p) (posture_assertions p)) (postures doc))
         (not_of_org dn_org org (db_nodeAttributes db) ++ map (attr_row_of org) (node_attributes doc))
         (ssh_kept db org ++ ssh)
         (db_policyRevisions db ++
          [mkRevision id org (max_version org (db_policyRevisions db) + 1) (in_contentHash input)
             (Some doc) (in_source input) (in_userId input) (in_apiKeyId input)])
         (notifyOrgChanged org (db_notifications db)) (S (db_next db + length (ssh_inserts db org (ssh_rules doc)))).
Proof.
  pose proof Happly as H. unfold applyPolicyDocument in H. fold org doc in H.
  inv_ok. unfold insert_row in *. destruct (revision_constraint _ _ _); [done|]. inv_ok.
  repeat match goal with
  | H : insert_each _ _ _ _ = Ok _ |- _ =>
      apply insert_each_Ok in H as (? & ?H & ->); rewrite ?mapR_Ok_map in *; try (injection H as <-)
  end.
  do 3 eexists. split_and!; [done..|].
  match goal with H : (let '(_, _) := bumpOrgAndNotify _ _ in _) = Ok _ |- _ =>
    cbn [bumpOrgAndNotify] in H; injection H as <- <- <-
  end. reflexivity.
Qed.

(** The rows of a document belong to its organization. *)
Lemma Forall_map_org {A R} (f : A -> R) (org_of : R -> string) (l : list A) :
  (forall x, org_of (f x) = org) -> Forall (fun r => org_of r = org) (map f l).
Proof. intros Hf. apply List.Forall_forall. by intros r (x & <- & _)%in_map_iff. Qed.

Lemma Forall_mapR_org {A R} (f : A -> result apply_error R) (org_of : R -> string) l rows :
  (forall x r, f x = Ok r -> org_of r = org) -> mapR f l = Ok rows ->
  Forall (fun r => org_of r = org) rows.
Proof.
  intros Hf H%mapR_Forall2. induction H as [|x r l rows Hx H IH]; constructor; [by eapply Hf|done].
Qed.

Lemma policy_row_org acl r : policy_row_of org acl = Ok r -> dp_org r = org.
Proof. unfold policy_row_of. destruct (_ && _); [done|]. intros H. by inv_ok. Qed.

Lemma grant_row_org g r : grant_row_of org g = Ok r -> dg_org r = org.
Proof. unfold grant_row_of. intros H. by inv_ok. Qed.

Lemma ssh_row_network x r : ssh_row_of uuidv7 x = Ok r -> ds_networkId r = x.2.2.
Proof. destruct x as [n [rule nid]]. cbn. intros H. by inv_ok. Qed.

Lemma elem_of_ssh_inserts x rules : x ∈ ssh_inserts db org rules -> x.2.2 ∈ network_ids db org.
Proof.
  unfold ssh_inserts. destruct x as [n [rule nid]]. intros H%elem_of_zip_r. cbn.
  apply elem_of_concat_map in H as (rule' & _ & (nid' & [= _ ->] & Hn)%list_elem_of_fmap). done.
Qed.

Lemma ssh_rows_networks ssh rules :
  mapR (ssh_row_of uuidv7) (ssh_inserts db org rules) = Ok ssh ->
  Forall (fun r => ds_networkId r ∈ network_ids db org) ssh.
Proof.
  intros H. apply List.Forall_forall. intros r Hr%list_elem_of_In.
  eapply (mapR_elem _ _ _ _ H) in Hr as (x & Hx & E).
  rewrite (ssh_row_network x r E). by apply elem_of_ssh_inserts in Hx.
Qed.

Lemma in_networks_iff ids r : in_networks ids r = true <-> ds_networkId r ∈ ids.
Proof.
  unfold in_networks. rewrite existsb_exists, list_elem_of_In. split.
  - intros (x & Hx & E%String.eqb_eq). by rewrite E.
  - intros Hin. exists (ds_networkId r). by rewrite String.eqb_refl.
Qed.

(** The SSH rules of the organization after the apply are the inserted ones. *)
Lemma ssh_replaced ids ssh :
  ids <> [] -> Forall (fun r => ds_networkId r ∈ ids) ssh ->
  List.filter (in_networks ids)
    (List.filter (fun r => negb (in_networks ids r)) (db_sshPolicies db) ++ ssh) = ssh.
Proof.
  intros _ Hs. rewrite List.filter_app.
  replace (List.filter _ (List.filter _ _)) with (@nil DbSshPolicy).
  - induction Hs as [|r ssh Hr Hs IH]; cbn; [done|]. apply in_networks_iff in Hr as ->. f_equal. exact IH.
  - induction (db_sshPolicies db) as [|x t IH]; cbn; [done|].
    destruct (in_networks ids x) eqn:E; cbn; [done|]. by rewrite E.
Qed.

Lemma policy_row_stored acl r i :
  policy_row_of org acl = Ok r -> stored_acl acl (acl_of_row i (load_policy r)).
Proof.
  unfold policy_row_of. destruct (_ && _); [done|]. intros H. inv_ok.
  do 2 eexists. split_and!; [done..|]. unfold acl_of_row. cbn. f_equal.
  by destruct (acl_posture acl).
Qed.

Lemma grant_row_stored g r :
  grant_row_of org g = Ok r -> stored_grant g (grant_of_row (load_grant r)).
Proof.
  unfold grant_row_of. intros H. inv_ok. eexists. split; [done|]. unfold grant_of_row. cbn. f_equal.
  by destruct (String.eqb_spec (grant_capability g) "") as [->|].
Qed.

Lemma Forall2_imap_l {A B C} (R : A -> C -> Prop) (f : nat -> B -> C) l l' :
  Forall2 (fun a b => forall i, R a (f i b)) l l' -> Forall2 R l (imap f l').
Proof.
  intros H. revert f H. induction l as [|x l IH] in l' |- *; intros f H;
    inversion H as [|? y ? l'' Hy Hl]; subst; cbn; constructor; [done|].
  apply IH. eapply Forall2_impl; [|exact Hl]. cbn. auto.
Qed.

Lemma Forall2_map_r {A B C} (R : A -> C -> Prop) (f : B -> C) l l' :
  Forall2 (fun a b => R a (f b)) l l' -> Forall2 R l (map f l').
Proof. induction 1; cbn; constructor; done. Qed.

Lemma ssh_rows_stored rules ssh :
  mapR (ssh_row_of uuidv7) (ssh_inserts db org rules) = Ok ssh ->
  Forall2 (fun x r => stored_ssh x (ssh_of_row (ds_row r))) (ssh_copies rules (network_ids db org)) ssh.
Proof.
  intros H%mapR_Forall2. unfold ssh_inserts in H. fold (ssh_copies rules (network_ids db org)) in H.
  assert ((zip (seq (db_next db) (length (ssh_copies rules (network_ids db org))))
             (ssh_copies rules (network_ids db org))).*2 = ssh_copies rules (network_ids db org)) as E
    by (by apply snd_zip; rewrite length_seq).
  rewrite <- E. apply Forall2_fmap_l. eapply Forall2_impl; [|exact H].
  intros [n [rule nid]] r Hr. cbn in Hr. inv_ok. by do 3 eexists.
Qed.

Lemma load_applied :
  let d := loadOrganizationPolicyDocument db' org in
  tags d = tags doc /\ host_aliases d = host_aliases doc /\ ip_sets d = ip_sets doc
  /\ postures d = postures doc
  /\ Forall2 stored_acl (acls doc) (acls d)
  /\ Forall2 stored_grant (PolicyTypes.grants doc) (PolicyTypes.grants d)
  /\ auto_approvers d = stored_approvers (auto_approvers doc)
  /\ node_attributes d = map stored_attr (node_attributes doc)
  /\ Forall2 stored_ssh (ssh_copies (ssh_rules doc) (network_ids db org)) (ssh_rules d)
  /\ tests d = [] /\ default_action d = Allow /\ icmp_policy d = IcmpAllow.
Proof.
  destruct apply_tables as (ps & gs & ssh & Hp & Hg & Hs & ->). cbn zeta.
  unfold loadOrganizationPolicyDocument. cbn [db_tagDefinitions db_hostAliases db_ipSets db_policies
    db_grants db_autoApprovers db_postureDefinitions db_nodeAttributes db_sshPolicies db_networks].
  change (network_ids (mkDb _ _ _ _ _ _ _ _ _ _ _ _ _ _ _) org) with (network_ids db org).
  rewrite (of_org_replaced dp_org), (of_org_replaced dg_org).
  2: { eapply Forall_mapR_org; [|exact Hg]. apply grant_row_org. }
  2: { eapply Forall_mapR_org; [|exact Hp]. apply policy_row_org. }
  rewrite !of_org_replaced by (by apply Forall_map_org).
  unfold documentFromRows. cbn [tags host_aliases ip_sets acls PolicyTypes.grants ssh_rules postures
    auto_approvers node_attributes tests default_action icmp_policy rows_tags rows_hostAliases
    rows_ipSets rows_policies rows_grants rows_sshPolicies rows_postures rows_autoApprovers
    rows_nodeAttributes rows_tests rows_defaultAction rows_icmpPolicy default].
  rewrite !map_map. cbn [fst snd tr_name tr_owners al_name al_target is_name is_entries po_name
    po_assertions da_row dn_row].
  split_and!; try done.
  - apply map_id_ext. by intros [].
  - apply map_id_ext. by intros [].
  - apply map_id_ext. by intros [].
  - apply map_id_ext. by intros [].
  - apply Forall2_imap_l, Forall2_map_r. apply mapR_Forall2 in Hp.
    eapply Forall2_impl; [|exact Hp]. intros a r Hr i. by apply policy_row_stored.
  - apply Forall2_map_r. apply mapR_Forall2 in Hg.
    eapply Forall2_impl; [|exact Hg]. intros g r Hr. by apply grant_row_stored.
  - apply map_ext. intros a. unfold stored_attr, attr_of_row, attr_row_of. cbn.
    by destruct (attr_selectors a).
  - apply Forall2_map_r. replace (match network_ids db org with [] => _ | _ => _ end)
      with ssh; [by apply ssh_rows_stored|].
    pose proof (ssh_rows_networks _ _ Hs) as Hn. unfold ssh_kept.
    destruct (network_ids db org) as [|i ids] eqn:Ei; [|by rewrite ssh_replaced].
    destruct ssh as [|r ssh]; [done|]. by apply Forall_cons_1 in Hn as [[]%elem_of_nil _].
Qed.
End ApplyLoad.

(** ** The order rows are read in *)
(** An approver whose [routes], a jsonb object, is read with its keys in
    another order. *)
Definition same_approver (a b : DbApprover) : Prop :=
  da_org a = da_org b /\ ar_slug (da_row a) = ar_slug (da_row b)
  /\ ar_routes (da_row a) ≡ₚ ar_routes (da_row b) /\ ar_exitNodes (da_row a) = ar_exitNodes (da_row b).

(** The database [db] as a load may see it: the same rows, in any order. *)
Record reads (db read : Db) : Prop := {
  reads_networks : db_networks read ≡ₚ db_networks db;
  reads_tags : db_tagDefinitions read ≡ₚ db_tagDefinitions db;
  reads_aliases : db_hostAliases read ≡ₚ db_hostAliases db;
  reads_ipsets : db_ipSets read ≡ₚ db_ipSets db;
  reads_policies : db_policies read ≡ₚ db_policies db;
  reads_grants : db_grants read ≡ₚ db_grants db;
  reads_approvers : exists l, l ≡ₚ db_autoApprovers db /\ Forall2 same_approver (db_autoApprovers read) l;
  reads_postures : db_postureDefinitions read ≡ₚ db_postureDefinitions db;
  reads_attributes : db_nodeAttributes read ≡ₚ db_nodeAttributes db;
  reads_ssh : db_sshPolicies read ≡ₚ db_sshPolicies db
}.

Lemma reads_refl db : reads db db.
Proof.
  constructor; try reflexivity. exists (db_autoApprovers db). split; [done|].
  induction (db_autoApprovers db); by constructor.
Qed.

#[export] Instance filter_Permutation {A} (f : A -> bool) :
  Proper ((≡ₚ) ==> (≡ₚ)) (List.filter f).
Proof.
  intros l k H. induction H as [|x l k H IH|x y l|l k m H1 IH1 H2 IH2]; cbn; [done| | |by etrans].
  - destruct (f x); by rewrite ?IH.
  - destruct (f x), (f y); try done. apply perm_swap.
Qed.

#[export] Instance of_org_Permutation {R} (org_of : R -> string) (org : string) :
  Proper ((≡ₚ) ==> (≡ₚ)) (of_org org_of org).
Proof. intros l k H. unfold of_org. by rewrite H. Qed.

#[export] Instance map_Permutation {A B} (f : A -> B) : Proper ((≡ₚ) ==> (≡ₚ)) (map f).
Proof. intros l k H. by apply Permutation_map. Qed.

#[export] Instance concat_Permutation {A} : Proper ((≡ₚ) ==> (≡ₚ)) (@concat A).
Proof.
  intros l k H. induction H as [|x l k H IH|x y l|l k m H1 IH1 H2 IH2]; cbn; [done| | |by etrans].
  - by rewrite IH.
  - rewrite !app_assoc. by rewrite (Permutation_app_comm y x).
Qed.

Lemma in_networks_Permutation ids ids' r : ids ≡ₚ ids' -> in_networks ids r = in_networks ids' r.
Proof.
  intros H. apply eq_iff_eq_true. rewrite !in_networks_iff. by rewrite H.
Qed.

(** The SSH rules loaded: those of the organization's networks. *)
Lemma ssh_rules_load db org :
  ssh_rules (loadOrganizationPolicyDocument db org)
  = map ssh_of_row (map ds_row (List.filter (in_networks (network_ids db org)) (db_sshPolicies db))).
Proof.
  unfold loadOrganizationPolicyDocument. cbn. destruct (network_ids db org); [|done].
  induction (db_sshPolicies db) as [|r l IH]; cbn in *; done.
Qed.

Lemma approvers_of_same org l k :
  Forall2 same_approver l k ->
  concat (map approvers_of_row (map da_row (of_org da_org org l)))
  ≡ₚ concat (map approvers_of_row (map da_row (of_org da_org org k))).
Proof.
  unfold of_org. induction 1 as [|a b l k (Ho & Hs & Hr & _) H IH]; cbn; [done|].
  rewrite Ho. destruct (_ =? _)%string; cbn; [|done]. apply Permutation_app; [|done].
  unfold approvers_of_row. by rewrite Hs, Hr.
Qed.

(** Rules with a slug do not depend on where they are read. *)
Lemma imap_acl_of_row rows :
  Forall (fun r => pr_slug r <> None) rows -> imap acl_of_row rows = map (acl_of_row 0) rows.
Proof.
  intros H. rewrite <- (imap_const (acl_of_row 0)). apply imap_ext. intros i r Hi.
  rewrite list.Forall_forall in H. specialize (H r (list_elem_of_lookup_2 _ _ _ Hi)).
  cbn [const]. unfold acl_of_row. by destruct (pr_slug r).
Qed.

(** ** Selectors for storage *)
(** A selector of the policy language and how it is stored: host aliases and
    address sets have no stored form of their own and become tags. *)
Definition row_of_parsed (p : ParsedSelector) : RowSelector :=
  match p with
  | SelAny => RowAny
  | SelEndpoint v => RowEndpoint v
  | SelTag v => RowTag v
  | SelNetwork v => RowNetwork v
  | SelCidr v => RowCidr v
  | SelUser v => RowUser v
  | SelHostAlias v => if includes ("host:" +:+ v) "/" then RowCidr ("host:" +:+ v) else RowTag ("host:" +:+ v)
  | SelIpSet v => if includes ("ipset:" +:+ v) "/" then RowCidr ("ipset:" +:+ v) else RowTag ("ipset:" +:+ v)
  end.

(** What the policy language reads the stored form of a selector as. *)
Definition read_back (p : ParsedSelector) : ParsedSelector :=
  match p with
  | SelHostAlias v => if includes ("host:" +:+ v) "/" then p else SelTag ("host:" +:+ v)
  | SelIpSet v => if includes ("ipset:" +:+ v) "/" then p else SelTag ("ipset:" +:+ v)
  | _ => p
  end.


Lemma parseSelectorString_trim raw : parseSelectorString (trim raw) = parseSelectorString raw.
Proof. unfold parseSelectorString. by rewrite (trim_trimmed raw). Qed.

Lemma store_cidr_units s :
  all_units is_cidr_unit s = true ->
  parseSelectorString s = if includes s "/" then Ok (RowCidr s)
                          else if isEndpointHex s then Ok (RowEndpoint s) else Ok (RowTag s).
Proof.
  intros Hs. unfold parseSelectorString. rewrite (trimmed_all_units s Hs).
  rewrite !(cidr_units_no_keyword s) by done. by destruct (String.eqb_spec s "*") as [->|].
Qed.

Lemma isEndpointHex_prefixed p v : all_units is_hex p = false -> isEndpointHex (p +:+ v) = false.
Proof.
  intros Hp. destruct (isEndpointHex (p +:+ v)) eqn:E; [|done].
  apply isEndpointHex_units in E as [Hu _]. exfalso. revert Hp Hu.
  induction p as [|c p IH]; [done|]. rewrite app_String; cbn. destruct (is_hex c); cbn; [auto|done].
Qed.

Lemma store_printed p :
  selector_wf p = true -> parseSelectorString (print_selector p) = Ok (row_of_parsed p).
Proof.
  unfold print_selector. destruct p as [|v|v|v|v|v|v|v]; cbn [selector_wf value_of];
    intros H; try (apply bool_decide_eq_true in H).
  1: done.
  1: { cbn [prefix_of]. rewrite app_Empty_l. destruct (isEndpointHex_units v H) as [Hu _].
       rewrite store_cidr_units by eauto using all_units_impl, hex_cidr_unit.
       by rewrite includes_slash, H. }
  3: { cbn [prefix_of]. rewrite app_Empty_l. destruct (looksLikeCidr_units v H) as [Hu _].
       rewrite store_cidr_units by done. unfold looksLikeCidr in H.
       apply andb_prop in H as [_ H]. by rewrite H. }
  all: unfold parseSelectorString; rewrite trimmed_prefixed by done.
  1-3: by cbn [prefix_of]; rewrite !app_String, app_Empty_l.
  all: rewrite isEndpointHex_prefixed by done; cbn [row_of_parsed prefix_of].
  all: match goal with |- context [includes ?s "/"] => destruct (includes s "/") end;
    by rewrite !app_String, app_Empty_l.
Qed.

Lemma read_stored p :
  selector_wf p = true -> parseSelector (selectorToString (row_of_parsed p)) = Ok (read_back p).
Proof.
  intros H. destruct p as [|v|v|v|v|v|v|v]; cbn [row_of_parsed read_back];
    try (by apply selectorToString_parses).
  - destruct (includes _ _); [by apply (print_parse (SelHostAlias v))|].
    apply (print_parse (SelTag ("host:" +:+ v))). cbn [selector_wf value_of] in *.
    apply bool_decide_eq_true in H. apply bool_decide_eq_true. by rewrite trimEnd_app, H.
  - destruct (includes _ _); [by apply (print_parse (SelIpSet v))|].
    apply (print_parse (SelTag ("ipset:" +:+ v))). cbn [selector_wf value_of] in *.
    apply bool_decide_eq_true in H. apply bool_decide_eq_true. by rewrite trimEnd_app, H.
Qed.

(** ** Isolation *)
Lemma filter_networks_other (ids ids' : list string) (ssh rows : list DbSshPolicy) :
  (forall i, i ∈ ids -> i ∈ ids' -> False) ->
  Forall (fun r => ds_networkId r ∈ ids) rows ->
  List.filter (in_networks ids') (List.filter (fun r => negb (in_networks ids r)) ssh ++ rows)
  = List.filter (in_networks ids') ssh.
Proof.
  intros Hd Hr. rewrite List.filter_app.
  assert (forall r, ds_networkId r ∈ ids -> in_networks ids' r = false) as Hno.
  { intros r Hin. apply not_true_iff_false. rewrite in_networks_iff. intros ?. by eapply Hd. }
  replace (List.filter _ rows) with (@nil DbSshPolicy).
  - rewrite app_nil_r. induction ssh as [|x ssh IH]; cbn; [done|].
    destruct (in_networks ids x) eqn:E; cbn.
    + rewrite Hno by (by apply in_networks_iff). done.
    + destruct (in_networks ids' x); by rewrite IH.
  - induction Hr as [|r rows Hin Hr IH]; cbn; [done|]. by rewrite Hno.
Qed.

Lemma network_ids_disjoint db org org' i :
  NoDup (map nw_id (db_networks db)) -> org' <> org ->
  i ∈ network_ids db org -> i ∈ network_ids db org' -> False.
Proof.
  unfold network_ids, of_org. intros Hn Hne.
  intros (x & -> & [Hx Ex%String.eqb_eq]%elem_of_filter_bool)%list_elem_of_fmap
         (y & Ey & [Hy Fy%String.eqb_eq]%elem_of_filter_bool)%list_elem_of_fmap.
  apply Hne. rewrite <- Ex, <- Fy. f_equal. symmetry. by apply (NoDup_map_inj nw_id (db_networks db)).
Qed.

Lemma max_version_ge org revs r :
  r ∈ revs -> rv_org r = org -> rv_version r <= max_version org revs.
Proof.
  unfold max_version, of_org. intros Hin Ho. induction revs as [|x revs IH]; [by apply elem_of_nil in Hin|].
  apply elem_of_cons in Hin as [<-|Hin]; cbn.
  - rewrite Ho, String.eqb_refl. cbn. lia.
  - specialize (IH Hin). destruct (rv_org x =? org)%string; cbn; lia.
Qed.

(** The document loaded from the rows of [db], in whatever order they come. *)
Section LoadReads.
Context (db read : Db) (Hr : reads db read) (org : string).
Let d := loadOrganizationPolicyDocument db org.
Let d' := loadOrganizationPolicyDocument read org.

Lemma load_reads :
  Forall (fun r => pr_slug (dp_row r) <> None) (of_org dp_org org (db_policies db)) ->
  tags d' ≡ₚ tags d /\ host_aliases d' ≡ₚ host_aliases d /\ ip_sets d' ≡ₚ ip_sets d
  /\ postures d' ≡ₚ postures d /\ acls d' ≡ₚ acls d
  /\ PolicyTypes.grants d' ≡ₚ PolicyTypes.grants d
  /\ auto_approvers d' ≡ₚ auto_approvers d /\ node_attributes d' ≡ₚ node_attributes d
  /\ ssh_rules d' ≡ₚ ssh_rules d
  /\ tests d' = tests d /\ default_action d' = default_action d /\ icmp_policy d' = icmp_policy d.
Proof.
  intros Hslug. destruct Hr as [Hn Ht Ha Hi Hp Hg (l & Hl & Hap) Hpo Hat Hs].
  assert (ssh_rules d' ≡ₚ ssh_rules d) as Hssh.
  { unfold d, d'. rewrite !ssh_rules_load, Hs.
    rewrite (filter_ext _ (in_networks (network_ids db org))); [done|].
    intros r. apply in_networks_Permutation. unfold network_ids. by rewrite Hn. }
  assert (acls d' ≡ₚ acls d) as Hacls.
  { unfold d, d', loadOrganizationPolicyDocument, documentFromRows. cbn [acls rows_policies].
    rewrite !imap_acl_of_row.
    - by rewrite Hp.
    - by apply Forall_fmap.
    - apply Forall_fmap. rewrite Hp. done. }
  split_and!; try done; unfold d, d', loadOrganizationPolicyDocument, documentFromRows;
    cbn [tags host_aliases ip_sets PolicyTypes.grants postures auto_approvers node_attributes rows_tags
         rows_hostAliases rows_ipSets rows_grants rows_postures rows_autoApprovers rows_nodeAttributes].
  - by rewrite Ht.
  - by rewrite Ha.
  - by rewrite Hi.
  - by rewrite Hpo.
  - by rewrite Hg.
  - etrans; [by apply approvers_of_same|]. by rewrite Hl.
  - by rewrite Hat.
Qed.
End LoadReads.

(** Every rule an apply stores has a slug. *)
Lemma applied_slugs uuidv7 input db db' event id :
  applyPolicyDocument uuidv7 input db = Ok (db', event, id) ->
  Forall (fun r => pr_slug (dp_row r) <> None) (of_org dp_org (in_org input) (db_policies db')).
Proof.
  intros Ha. destruct (apply_tables _ _ _ _ _ _ Ha) as (ps & gs & ssh & Hp & _ & _ & ->).
  cbn [db_policies]. rewrite of_org_replaced.
  2: { eapply (Forall_mapR_org input); [|exact Hp]. apply policy_row_org. }
  apply list.Forall_forall. intros r Hr. eapply (mapR_elem _ _ _ _ Hp) in Hr as (acl & _ & Hrow).
  unfold policy_row_of in Hrow. destruct (_ && _); [done|]. by inv_ok.
Qed.

(** C19: applying a document replaces the organization's policy.  What is loaded
    afterwards, in whatever order the rows come back, has the document's tags,
    aliases, address sets and postures, one rule per rule and one grant per
    grant as stored, the approvers regrouped, each attribute with its first
    selector, and one copy of each SSH rule per network of the organization.
    Tests, the default action and the ICMP policy are not kept. *)
Theorem apply_then_load (uuidv7 : nat -> string) (input : ApplyInput) (db db' read : Db)
    (event : AuditIngestEvent) (id : string) :
  applyPolicyDocument uuidv7 input db = Ok (db', event, id) ->
  reads db' read ->
  let doc := in_document input in
  let live := loadOrganizationPolicyDocument read (in_org input) in
  tags live ≡ₚ tags doc /\ host_aliases live ≡ₚ host_aliases doc /\ ip_sets live ≡ₚ ip_sets doc
  /\ postures live ≡ₚ postures doc
  /\ (exists rules, Forall2 stored_acl (acls doc) rules /\ acls live ≡ₚ rules)
  /\ (exists grants, Forall2 stored_grant (PolicyTypes.grants doc) grants
                     /\ PolicyTypes.grants live ≡ₚ grants)
  /\ auto_approvers live ≡ₚ stored_approvers (auto_approvers doc)
  /\ node_attributes live ≡ₚ map stored_attr (node_attributes doc)
  /\ (exists rules, Forall2 stored_ssh (ssh_copies (ssh_rules doc) (network_ids db (in_org input))) rules
                    /\ ssh_rules live ≡ₚ rules)
  /\ tests live = [] /\ default_action live = Allow /\ icmp_policy live = IcmpAllow.
Proof.
  intros Ha Hr. pose proof (load_reads _ _ Hr (in_org input) (applied_slugs _ _ _ _ _ _ Ha)) as Hl.
  destruct (load_applied _ _ _ _ _ _ Ha) as (T&A&I&P&C&G&U&N&S&E&D&M). cbn zeta.
  rewrite <- T, <- A, <- I, <- P, <- U, <- N. destruct Hl as (?&?&?&?&?&?&?&?&?&->&->&->).
  split_and!; eauto.
Qed.

(** C20: applying a document touches no other organization: its live policy,
    revisions and snapshot version stay as they were. *)
Theorem apply_isolated (uuidv7 : nat -> string) (input : ApplyInput) (db db' : Db)
    (event : AuditIngestEvent) (id : string) (org' : string) :
  applyPolicyDocument uuidv7 input db = Ok (db', event, id) ->
  NoDup (map nw_id (db_networks db)) -> org' <> in_org input ->
  loadOrganizationPolicyDocument db' org' = loadOrganizationPolicyDocument db org'
  /\ of_org rv_org org' (db_policyRevisions db') = of_org rv_org org' (db_policyRevisions db)
  /\ of_org fst org' (db_organization db') = of_org fst org' (db_organization db).
Proof.
  intros Ha Hn Hne. set (org := in_org input) in *.
  destruct (apply_tables _ _ _ _ _ _ Ha) as (ps & gs & ssh & Hp & Hg & Hs & ->). fold org in Hp, Hg, Hs.
  cbn [db_policyRevisions db_organization]. fold org. split_and!.
  - unfold loadOrganizationPolicyDocument.
    change (network_ids (mkDb _ _ _ _ _ _ _ _ _ _ _ _ _ _ _) org') with (network_ids db org').
    cbn [db_tagDefinitions db_hostAliases db_ipSets db_policies
      db_grants db_autoApprovers db_postureDefinitions db_nodeAttributes db_sshPolicies].
    fold org.
    rewrite (of_org_other dp_org org org'), (of_org_other dg_org org org'); [|done| |done|].
    2: { eapply (Forall_mapR_org input); [|exact Hg]. apply grant_row_org. }
    2: { eapply (Forall_mapR_org input); [|exact Hp]. apply policy_row_org. }
    rewrite !of_org_other by (done || by apply (Forall_map_org input)).
    do 2 f_equal. destruct (network_ids db org') as [|i ids] eqn:Ei; [done|]. do 1 f_equal.
    pose proof (ssh_rows_networks _ _ _ _ _ Hs) as Hrows. fold org in Hrows.
    unfold ssh_kept. destruct (network_ids db org) as [|j js] eqn:Ej.
    + destruct ssh as [|r ssh]; [by rewrite app_nil_r|].
      apply Forall_cons_1 in Hrows as [[]%elem_of_nil _].
    + apply filter_networks_other; [|done]. rewrite <- Ej, <- Ei.
      intros k. by apply network_ids_disjoint.
  - unfold of_org. rewrite List.filter_app. cbn [List.filter rv_org].
    rewrite (proj2 (String.eqb_neq org org')) by congruence. by rewrite app_nil_r.
  - by apply bumpOrgSnapshotVersion_other.
Qed.

(** every apply records exactly one revision, the document itself, under a
    version above all earlier ones of the organization, and bumps the snapshot
    version of the organization. *)
Theorem apply_records_revision (uuidv7 : nat -> string) (input : ApplyInput) (db db' : Db)
    (event : AuditIngestEvent) (id : string) :
  applyPolicyDocument uuidv7 input db = Ok (db', event, id) ->
  let org := in_org input in
  exists rev,
    db_policyRevisions db' = db_policyRevisions db ++ [rev]
    /\ rv_id rev = id /\ rv_org rev = org
    /\ rv_irSnapshot rev = Some (in_document input) /\ rv_contentHash rev = in_contentHash input
    /\ (forall r, r ∈ db_policyRevisions db -> rv_org r = org -> rv_version r < rv_version rev)
    /\ (forall v, (org, v) ∈ db_organization db -> (org, v + 1) ∈ db_organization db').
Proof.
  intros Ha. cbn zeta. destruct (apply_tables _ _ _ _ _ _ Ha) as (ps & gs & ssh & _ & _ & _ & ->).
  cbn [db_policyRevisions db_organization]. eexists. split; [reflexivity|]. cbn [rv_id rv_org
    rv_irSnapshot rv_contentHash rv_version]. split_and!; [done..| |].
  - intros r Hr Ho. pose proof (max_version_ge _ _ _ Hr Ho). lia.
  - intros v Hv. apply (bumpOrgSnapshotVersion_elem (in_org input)) in Hv.
    by rewrite String.eqb_refl in Hv.
Qed.

(** a document stored and loaded again decides every scenario by the
    organization's deny rules alone: since every rule is stored with the scope
    of the organization and the default action is not stored, no verdict ever
    comes from a network rule, and what is not denied by the organization is
    allowed. *)
Theorem applied_policy_denies_by_organization (uuidv7 : nat -> string) (input : ApplyInput)
    (db db' : Db) (event : AuditIngestEvent) (id : string) (sc : scenario) (res : SimulateResult) :
  applyPolicyDocument uuidv7 input db = Ok (db', event, id) ->
  simulateDocument (loadOrganizationPolicyDocument db' (in_org input)) sc = Ok res ->
  sr_reason res <> network_allow /\ sr_reason res <> network_deny
  /\ (sr_verdict res = Deny <-> sr_reason res = org_deny).
Proof.
  intros Ha Hs. destruct (load_applied _ _ _ _ _ _ Ha) as (_&_&_&_&Hacl&_&_&_&_&_&Hda&Hicmp).
  apply simulateDocument_Ok_inv in Hs as (rules & s & d & Hc & _ & _ & ->). rewrite Hda, Hicmp.
  assert (forall r, r ∈ rules -> cr_scope r = Organization) as Hsc.
  { intros r (acl & src & dst & Hin & _ & _ & _ & Hr)%(elem_of_compileRules _ _ _ Hc).
    destruct (compileRule_fields _ _ _ _ Hr) as (_ & -> & _).
    apply list_elem_of_lookup in Hin as [i Hi].
    destruct (Forall2_lookup_r _ _ _ _ _ Hacl Hi) as (acl0 & _ & (? & ? & _ & _ & ->)). done. }
  destruct (icmp_shortcut (default "tcp" (sc_protocol sc)) IcmpAllow) eqn:E.
  { unfold icmp_shortcut, evaluateRules in *. by destruct (parseProtocol _). }
  rewrite evaluateRules_phases by done.
  match goal with |- context [evaluatePhases ?r ?m ?a ?o] =>
    pose proof (evaluatePhases_verdict r m a o) as Hv;
    assert (forall act, ~ decided r m o Network act) as Hno;
      [|destruct Hv; (by split_and!) || (exfalso; by eapply Hno)]
  end.
  intros act (r & Hr & Hph & _). apply Hsc in Hr. unfold in_phase in Hph.
  by rewrite Hr, andb_false_r in Hph.
Qed.

(** every selector the policy language accepts can be stored, and the
    stored form reads back as the same selector, except that a host alias and
    an address set are stored as tags and read back as tags. *)
Theorem stored_selector_reads_back (raw : string) (p : ParsedSelector) :
  parseSelector raw = Ok p ->
  parseSelectorString raw = Ok (row_of_parsed p)
  /\ parseSelector (selectorToString (row_of_parsed p)) = Ok (read_back p).
Proof.
  intros Hp. destruct (parse_print _ _ Hp) as [Hwf Ht]. split.
  - rewrite <- parseSelectorString_trim, <- Ht. by apply store_printed.
  - by apply read_stored.
Qed.

(** ** Witnesses *)
Definition sample_id (n : nat) : string := "id-" +:+ string_of_Z (Z.of_nat n).

Definition sample_db : Db :=
  mkDb [("acme", 4); ("other", 1)] [mkNetworkRow "n1" "acme"; mkNetworkRow "n2" "other"] []
    [mkTagRow "other" "ops" []] [] [] [] [] [] [] [] [] []
    [] 0.

Definition sample_apply_input : ApplyInput :=
  mkApplyInput "acme" sample_doc src_api (Some "u1") None "h1".

Definition sample_applied : Db * AuditIngestEvent * string :=
  match applyPolicyDocument sample_id sample_apply_input sample_db with
  | Ok r => r
  | Err _ => (sample_db, toIngestEvent (mkAuditInput "" "" "" None [] None), "")
  end.

Lemma sample_applies :
  applyPolicyDocument sample_id sample_apply_input sample_db
  = Ok (sample_applied.1.1, sample_applied.1.2, sample_applied.2).
Proof. vm_compute. reflexivity. Qed.

(** The rows of the sample read last first. *)
Definition read_backwards (db : Db) : Db :=
  mkDb (db_organization db) (rev (db_networks db)) (db_devices db) (rev (db_tagDefinitions db))
    (rev (db_hostAliases db)) (rev (db_ipSets db)) (rev (db_policies db)) (rev (db_grants db))
    (rev (db_autoApprovers db)) (rev (db_postureDefinitions db)) (rev (db_nodeAttributes db))
    (rev (db_sshPolicies db)) (db_policyRevisions db) (db_notifications db) (db_next db).

Lemma reads_backwards db : reads db (read_backwards db).
Proof.
  constructor; try (symmetry; apply Permutation_rev). exists (rev (db_autoApprovers db)).
  split; [symmetry; apply Permutation_rev|]. cbn. induction (rev _); by constructor.
Qed.

Lemma apply_then_load_witness :
  tags (loadOrganizationPolicyDocument (read_backwards sample_applied.1.1) "acme") ≡ₚ tags sample_doc
  /\ default_action (loadOrganizationPolicyDocument (read_backwards sample_applied.1.1) "acme") = Allow.
Proof.
  pose proof (apply_then_load _ _ _ _ _ _ _ sample_applies (reads_backwards _)) as H. cbn zeta in H.
  split; apply H.
Defined.

Lemma apply_isolated_witness :
  loadOrganizationPolicyDocument sample_applied.1.1 "other"
  = loadOrganizationPolicyDocument sample_db "other".
Proof.
  apply (apply_isolated _ _ _ _ _ _ "other" sample_applies).
  - refine (bool_decide_eq_true_1 _ _). reflexivity.
  - discriminate.
Defined.

Lemma apply_records_revision_witness :
  exists rev, db_policyRevisions sample_applied.1.1 = [rev] /\ rv_irSnapshot rev = Some sample_doc.
Proof.
  destruct (apply_records_revision _ _ _ _ _ _ sample_applies) as (rev & Hr & _ & _ & Hs & _).
  exists rev. split; [exact Hr | exact Hs].
Defined.

Lemma applied_policy_denies_by_organization_witness :
  exists res,
    simulateDocument (loadOrganizationPolicyDocument sample_applied.1.1 "acme") sample_scenario = Ok res
    /\ sr_reason res <> network_allow.
Proof.
  exists (default_result Allow). split; [vm_compute; reflexivity|].
  refine (proj1 (applied_policy_denies_by_organization _ _ _ _ _ _ sample_scenario _ sample_applies _)).
  vm_compute. reflexivity.
Defined.

Lemma stored_selector_reads_back_witness :
  parseSelector (selectorToString (row_of_parsed (SelHostAlias "db"))) = Ok (SelTag "host:db").
Proof. apply (stored_selector_reads_back " host:db"). reflexivity. Defined.
