(* ===== verification/PolicyRules.v ===== *)
(** * Access rules and SSH rules
      ([apps/management/src/api/v1/policies.ts], [ssh-policies.ts])

    The routes that create, change and delete the rules of a network and of an
    organization, with the schemas of their bodies and the constraints of the
    tables.  A body is given by its fields before parsing, absent ones as [None].
    New ids are arguments, [createdAt] columns are left out, and so is a parsed
    body given as metadata of an audit event. *)
From S2P Require Import Prelude AuditEvent Notify Tx Plans OrgBilling PolicyTypes Simulate DocumentFromRows PostureEval Ip Devices PolicyIr.
Local Open Scope Z_scope.

(** ** Schemas ([packages/api/src/management/policies.ts]) *)
Definition selectorSchema `{IpAddress} (s : RowSelector) : bool :=
  match s with
  | RowCidr v => isIpCidr v
  | RowUser v => (1 <=? String.length v)%nat
  | RowAny | RowEndpoint _ | RowTag _ | RowNetwork _ => true
  end.

Definition portRangeSchema (p : port_range) : bool :=
  (0 <=? range_start p) && (range_start p <=? 65535) && (0 <=? range_end p) && (range_end p <=? 65535).

Definition is_slug_unit (c : ascii) : bool := between 97 122 c || is_digit c.

(** The loop: what is left of the text, the slug so far, and whether a hyphen is
    due. *)
Fixpoint slug_loop (s out : string) (pendingHyphen : bool) : string :=
  match s with
  | EmptyString => out
  | String ch rest =>
      let '(out, pendingHyphen) :=
        if is_slug_unit ch then
          ((if pendingHyphen && (1 <=? String.length out)%nat then out +:+ "-" else out) +:+ String ch "", false)
        else (out, true) in
      if (128 <=? String.length out)%nat then out else slug_loop rest out pendingHyphen
  end.
Definition slugifyPolicySlug (input : string) : string := slug_loop (trim (toLowerCase input)) "" false.

(** [/^[a-z0-9][a-z0-9-]*$/] *)
Definition slug_pattern (s : string) : bool :=
  match s with
  | EmptyString => false
  | String c rest => is_slug_unit c && all_units (fun c => is_slug_unit c || Ascii.eqb c "-"%char) rest
  end.
(** [None] is a refusal. *)
Definition policySlugSchema (slug : option string) : option (option string) :=
  match slug with
  | None => Some None
  | Some raw =>
      let s := slugifyPolicySlug raw in
      if (1 <=? String.length s)%nat && (String.length s <=? 128)%nat && slug_pattern s then Some (Some s) else None
  end.

Inductive RuleProtocol := proto_tcp | proto_udp | proto_icmp | proto_any.

Record CreatePolicy := mkCreatePolicy {
  cp_slug : option string; cp_srcSelector : RowSelector; cp_dstSelector : RowSelector; cp_action : action;
  cp_ports : option (list port_range); cp_protocol : option (option RuleProtocol); cp_priority : option Z;
  cp_orderIndex : option Z; cp_enabled : option bool; cp_srcPosture : option (list string) }.

Record ParsedPolicy := mkParsedPolicy {
  pp_slug : option string; pp_srcSelector : RowSelector; pp_dstSelector : RowSelector; pp_action : action;
  pp_ports : list port_range; pp_protocol : option RuleProtocol; pp_priority : Z; pp_orderIndex : Z;
  pp_enabled : bool; pp_srcPosture : option (list string) }.

Definition createPolicyBody `{IpAddress} (b : CreatePolicy) : option ParsedPolicy :=
  match policySlugSchema (cp_slug b) with
  | None => None
  | Some slug =>
      if selectorSchema (cp_srcSelector b) && selectorSchema (cp_dstSelector b)
         && forallb portRangeSchema (default [] (cp_ports b)) then
        Some (mkParsedPolicy slug (cp_srcSelector b) (cp_dstSelector b) (cp_action b) (default [] (cp_ports b))
                (default None (cp_protocol b)) (default 0 (cp_priority b)) (default 0 (cp_orderIndex b))
                (default true (cp_enabled b)) (cp_srcPosture b))
      else None
  end.
Definition createOrgPolicyBody `{IpAddress} (b : CreatePolicy) : option ParsedPolicy :=
  match createPolicyBody b with
  | Some p => match pp_action p with Deny => Some p | Allow => None end
  | None => None
  end.

Record PatchPolicy := mkPatchPolicy {
  pa_slug : option string; pa_srcSelector : option RowSelector; pa_dstSelector : option RowSelector;
  pa_action : option action; pa_ports : option (list port_range); pa_protocol : option (option RuleProtocol);
  pa_priority : option Z; pa_orderIndex : option Z; pa_enabled : option bool; pa_srcPosture : option (list string) }.

(** [createPolicyBody.partial()] keeps the defaults, which zod applies inside
    optional properties: after parsing, the ports, the priority, the order and
    the switch are always there. *)
Definition patchPolicyBody `{IpAddress} (b : PatchPolicy) : option PatchPolicy :=
  let selector_ok s := match s with Some s => selectorSchema s | None => true end in
  match policySlugSchema (pa_slug b) with
  | None => None
  | Some slug =>
      if selector_ok (pa_srcSelector b) && selector_ok (pa_dstSelector b)
         && forallb portRangeSchema (default [] (pa_ports b)) then
        Some (mkPatchPolicy slug (pa_srcSelector b) (pa_dstSelector b) (pa_action b)
                (Some (default [] (pa_ports b))) (pa_protocol b) (Some (default 0 (pa_priority b)))
                (Some (default 0 (pa_orderIndex b))) (Some (default true (pa_enabled b))) (pa_srcPosture b))
      else None
  end.
Definition patchOrgPolicyBody `{IpAddress} (b : PatchPolicy) : option PatchPolicy :=
  match patchPolicyBody b with
  | Some p => match pa_action p with Some Allow => None | Some Deny | None => Some p end
  | None => None
  end.

(** ** Schemas of SSH rules ([packages/api/src/management/ssh-policies.ts]) *)
Inductive SshAction := ssh_accept | ssh_check | ssh_deny.

Record CreateSshPolicy := mkCreateSsh {
  cs_srcSelector : RowSelector; cs_dstSelector : RowSelector; cs_action : SshAction; cs_users : list string;
  cs_record : option bool; cs_recorder : option (option RowSelector); cs_enforceRecorder : option bool;
  cs_checkPeriodSecs : option (option Z); cs_priority : option Z }.

Definition users_ok (users : list string) : bool :=
  forallb (fun u => (1 <=? String.length u)%nat && (String.length u <=? 64)%nat) users && (1 <=? length users)%nat.
Definition period_ok (p : option (option Z)) : bool := match p with Some (Some n) => 0 <? n | _ => true end.
Definition recorder_ok `{IpAddress} (r : option (option RowSelector)) : bool :=
  match r with Some (Some s) => selectorSchema s | _ => true end.

Definition createSshPolicyBody `{IpAddress} (b : CreateSshPolicy) : bool :=
  selectorSchema (cs_srcSelector b) && selectorSchema (cs_dstSelector b) && users_ok (cs_users b)
  && recorder_ok (cs_recorder b) && period_ok (cs_checkPeriodSecs b)
  && match cs_action b, cs_checkPeriodSecs b with
     | ssh_check, (None | Some None) => false
     | _, _ => true
     end.

Record PatchSshPolicy := mkPatchSsh {
  ps_srcSelector : option RowSelector; ps_dstSelector : option RowSelector; ps_action : option SshAction;
  ps_users : option (list string); ps_record : option bool; ps_recorder : option (option RowSelector);
  ps_enforceRecorder : option bool; ps_checkPeriodSecs : option (option Z); ps_priority : option Z }.

Definition patchSshPolicyBody `{IpAddress} (b : PatchSshPolicy) : bool :=
  match ps_srcSelector b with Some s => selectorSchema s | None => true end
  && match ps_dstSelector b with Some s => selectorSchema s | None => true end
  && match ps_users b with Some u => users_ok u | None => true end
  && recorder_ok (ps_recorder b) && period_ok (ps_checkPeriodSecs b).

(** ** Tables *)
Record RuleRow := mkRule {
  ru_id : string; ru_org : string; ru_networkId : option string; ru_scope : rule_scope; ru_slug : option string;
  ru_srcSelector : RowSelector; ru_dstSelector : RowSelector; ru_action : action; ru_ports : list port_range;
  ru_protocol : option RuleProtocol; ru_priority : Z; ru_orderIndex : Z; ru_enabled : bool;
  ru_srcPosture : option (list string) }.
Record SshRow := mkSshRow {
  sp_id : string; sp_networkId : string; sp_srcSelector : RowSelector; sp_dstSelector : RowSelector;
  sp_action : SshAction; sp_users : list string; sp_record : bool; sp_recorder : option RowSelector;
  sp_enforceRecorder : bool; sp_checkPeriodSecs : option Z; sp_priority : Z }.

Record RulesDb := mkRulesDb {
  rd_rules : list RuleRow;
  rd_ssh : list SshRow;
  rd_networks : list NetworkVersion;
  rd_organizations : list (string * Z);
  rd_notifications : list (string * string)
}.

Definition with_rules (db : RulesDb) l := mkRulesDb l (rd_ssh db) (rd_networks db) (rd_organizations db) (rd_notifications db).
Definition with_ssh (db : RulesDb) l := mkRulesDb (rd_rules db) l (rd_networks db) (rd_organizations db) (rd_notifications db).

Inductive rules_error := RulePlanError (e : billing_error) | RuleThrown (message : string).
Definition RulesTx := Tx RulesDb rules_error.
Definition require (b : bool) (message : string) : RulesTx unit := if b then mret tt else throw (RuleThrown message).

(** [bumpNetworkAndNotify] and [bumpOrgAndNotify] *)
Definition bump_net (networkId org : string) (db : RulesDb) : RulesDb :=
  let '(networks, sent) := bumpNetworkAndNotify networkId org (rd_networks db, rd_notifications db) in
  mkRulesDb (rd_rules db) (rd_ssh db) networks (rd_organizations db) sent.
Definition bump_org_rules (org : string) (db : RulesDb) : RulesDb :=
  let '(orgs, sent) := bumpOrgAndNotify org (rd_organizations db, rd_notifications db) in
  mkRulesDb (rd_rules db) (rd_ssh db) (rd_networks db) orgs sent.
Definition announce_network (networkId org : string) : RulesTx unit := update (bump_net networkId org).
Definition announce_org (org : string) : RulesTx unit := update (bump_org_rules org).

Definition rule_network (networkId org : string) (db : RulesDb) : option NetworkVersion :=
  List.find (fun n => (nv_id n =? networkId)%string && (nv_org n =? org)%string) (rd_networks db).
Definition in_rule_network {A} (networkId org : string) (m : RulesTx (reply A)) : RulesTx (reply A) :=
  network ← query (rule_network networkId org);
  match network with None => mret (NotFound "Network not found") | Some _ => m end.

(** ** Access rules ([policies.ts]) *)
Definition same_slug (a b : option string) : bool :=
  match a, b with Some x, Some y => (x =? y)%string | _, _ => false end.
Definition slug_taken (org : string) (slug : option string) (except : option string) (rules : list RuleRow) : bool :=
  existsb (fun r => (ru_org r =? org)%string && same_slug (ru_slug r) slug
                    && match except with Some i => negb (ru_id r =? i)%string | None => true end) rules.

(** [INSERT INTO policies] *)
Definition insert_rule (row : RuleRow) : RulesTx unit :=
  db ← query (fun db => db);
  _ ← require (negb (existsb (fun r => (ru_id r =? ru_id row)%string) (rd_rules db))) "policies_pkey";
  _ ← require (int4 (ru_priority row) && int4 (ru_orderIndex row)) "integer out of range";
  _ ← require (negb (slug_taken (ru_org row) (ru_slug row) None (rd_rules db))) "policies_org_slug_unique";
  update (fun db => with_rules db (rd_rules db ++ [row])).

Definition rule_of (i org : string) (networkId : option string) (scope : rule_scope) (p : ParsedPolicy) : RuleRow :=
  mkRule i org networkId scope (pp_slug p) (pp_srcSelector p) (pp_dstSelector p) (pp_action p) (pp_ports p)
    (pp_protocol p) (pp_priority p) (pp_orderIndex p) (pp_enabled p) (pp_srcPosture p).

(** [UPDATE policies SET … WHERE … RETURNING] *)
Definition patch_rule (p : PatchPolicy) (r : RuleRow) : RuleRow :=
  mkRule (ru_id r) (ru_org r) (ru_networkId r) (ru_scope r)
    (match pa_slug p with Some s => Some s | None => ru_slug r end)
    (default (ru_srcSelector r) (pa_srcSelector p)) (default (ru_dstSelector r) (pa_dstSelector p))
    (default (ru_action r) (pa_action p)) (default (ru_ports r) (pa_ports p))
    (default (ru_protocol r) (pa_protocol p)) (default (ru_priority r) (pa_priority p))
    (default (ru_orderIndex r) (pa_orderIndex p)) (default (ru_enabled r) (pa_enabled p))
    (match pa_srcPosture p with Some l => Some l | None => ru_srcPosture r end).
Definition update_rule (org policyId : string) (hit : RuleRow -> bool) (p : PatchPolicy) : RulesTx RuleRow :=
  found ← query (fun db => List.find hit (rd_rules db));
  row ← or_throw found (RuleThrown "Policy not found");
  db ← query (fun db => db);
  _ ← require (int4 (ru_priority (patch_rule p row)) && int4 (ru_orderIndex (patch_rule p row))) "integer out of range";
  _ ← require (negb (slug_taken org (pa_slug p) (Some policyId) (rd_rules db))) "policies_org_slug_unique";
  _ ← update (fun db => with_rules db (map (fun r => if hit r then patch_rule p r else r) (rd_rules db)));
  mret (patch_rule p row).
Definition delete_rule (hit : RuleRow -> bool) : RulesTx RuleRow :=
  found ← query (fun db => List.find hit (rd_rules db));
  row ← or_throw found (RuleThrown "Policy not found");
  _ ← update (fun db => with_rules db (List.filter (fun r => negb (hit r)) (rd_rules db)));
  mret row.

Definition network_rule (org networkId policyId : string) (r : RuleRow) : bool :=
  (ru_id r =? policyId)%string && match ru_networkId r with Some n => (n =? networkId)%string | None => false end
  && (ru_org r =? org)%string && bool_decide (ru_scope r = Network).
Definition org_rule (org policyId : string) (r : RuleRow) : bool :=
  (ru_id r =? policyId)%string && (ru_org r =? org)%string && bool_decide (ru_scope r = Organization).

Section Routes.
Context `{IpAddress} (enabled : bool) (billing : BillingDb).

Definition createPolicy (org user networkId : string) (body : CreatePolicy) (newId : string) : RulesTx (reply RuleRow) :=
  parsed ← or_throw (createPolicyBody body) (RuleThrown "ZodError");
  in_rule_network networkId org (
    row ← transaction (
      let row := rule_of newId org (Some networkId) Network parsed in
      _ ← insert_rule row;
      _ ← writeAudit (mkAuditInput org user "policy.created" (Some newId) [] None);
      _ ← announce_network networkId org;
      mret row);
    mret (Reply row)).

Definition createOrgPolicy (org user : string) (body : CreatePolicy) (newId : string) : RulesTx (reply RuleRow) :=
  match createOrgPolicyBody body with
  | None => mret (BadRequest "Organization-scoped Allow is not supported")
  | Some data =>
      row ← transaction (
        let row := rule_of newId org None Organization data in
        _ ← insert_rule row;
        _ ← writeAudit (mkAuditInput org user "policy.created" (Some newId) [("scope", "organization")] None);
        _ ← announce_org org;
        mret row);
      mret (Reply row)
  end.

Definition patchPolicy (org user networkId policyId : string) (body : PatchPolicy) : RulesTx (reply RuleRow) :=
  parsed ← or_throw (patchPolicyBody body) (RuleThrown "ZodError");
  in_rule_network networkId org (
    row ← transaction (
      updated ← update_rule org policyId (network_rule org networkId policyId) parsed;
      _ ← writeAudit (mkAuditInput org user "policy.updated" (Some policyId) [] None);
      _ ← announce_network networkId org;
      mret updated);
    mret (Reply row)).

Definition patchOrgPolicy (org user policyId : string) (body : PatchPolicy) : RulesTx (reply RuleRow) :=
  match patchOrgPolicyBody body with
  | None => mret (BadRequest "Organization-scoped Allow is not supported")
  | Some data =>
      row ← transaction (
        updated ← update_rule org policyId (org_rule org policyId) data;
        _ ← writeAudit (mkAuditInput org user "policy.updated" (Some policyId) [("scope", "organization")] None);
        _ ← announce_org org;
        mret updated);
      mret (Reply row)
  end.

Definition deletePolicy (org user networkId policyId : string) : RulesTx (reply unit) :=
  in_rule_network networkId org (
    _ ← transaction (
      _ ← delete_rule (network_rule org networkId policyId);
      _ ← writeAudit (mkAuditInput org user "policy.deleted" (Some policyId) [] None);
      announce_network networkId org);
    mret (Reply tt)).

Definition deleteOrgPolicy (org user policyId : string) : RulesTx (reply unit) :=
  _ ← transaction (
    _ ← delete_rule (org_rule org policyId);
    _ ← writeAudit (mkAuditInput org user "policy.deleted" (Some policyId) [("scope", "organization")] None);
    announce_org org);
  mret (Reply tt).

(** ** SSH rules ([ssh-policies.ts]) *)
Definition assertSshRecordingAllowed (org : string) (record enforceRecorder : option bool) : RulesTx unit :=
  if default false record || default false enforceRecorder then
    match requirePlanFeature enabled billing org sshRecording with
    | Ok _ => mret tt
    | Err e => throw (RulePlanError e)
    end
  else mret tt.

Definition int4_option (z : option Z) : bool := match z with Some z => int4 z | None => true end.

Definition insert_ssh (row : SshRow) : RulesTx unit :=
  db ← query (fun db => db);
  _ ← require (negb (existsb (fun r => (sp_id r =? sp_id row)%string) (rd_ssh db))) "ssh_policies_pkey";
  _ ← require (int4 (sp_priority row) && int4_option (sp_checkPeriodSecs row)) "integer out of range";
  update (fun db => with_ssh db (rd_ssh db ++ [row])).

Definition createSshPolicy (org user networkId : string) (body : CreateSshPolicy) (newId : string) : RulesTx (reply SshRow) :=
  _ ← require (createSshPolicyBody body) "ZodError";
  _ ← assertSshRecordingAllowed org (cs_record body) (cs_enforceRecorder body);
  in_rule_network networkId org (
    row ← transaction (
      let row := mkSshRow newId networkId (cs_srcSelector body) (cs_dstSelector body) (cs_action body) (cs_users body)
                   (default false (cs_record body)) (default None (cs_recorder body))
                   (default false (cs_enforceRecorder body)) (default None (cs_checkPeriodSecs body))
                   (default 0 (cs_priority body)) in
      _ ← insert_ssh row;
      _ ← writeAudit (mkAuditInput org user "ssh_policy.created" (Some newId) [] None);
      _ ← announce_network networkId org;
      mret row);
    mret (Reply row)).

Definition ssh_rule (networkId policyId : string) (r : SshRow) : bool :=
  (sp_id r =? policyId)%string && (sp_networkId r =? networkId)%string.
Definition patch_ssh (p : PatchSshPolicy) (r : SshRow) : SshRow :=
  mkSshRow (sp_id r) (sp_networkId r) (default (sp_srcSelector r) (ps_srcSelector p))
    (default (sp_dstSelector r) (ps_dstSelector p)) (default (sp_action r) (ps_action p))
    (default (sp_users r) (ps_users p)) (default (sp_record r) (ps_record p)) (default (sp_recorder r) (ps_recorder p))
    (default (sp_enforceRecorder r) (ps_enforceRecorder p)) (default (sp_checkPeriodSecs r) (ps_checkPeriodSecs p))
    (default (sp_priority r) (ps_priority p)).
Definition names_a_field (p : PatchSshPolicy) : bool :=
  given (ps_srcSelector p) || given (ps_dstSelector p) || given (ps_action p) || given (ps_users p)
  || given (ps_record p) || given (ps_recorder p) || given (ps_enforceRecorder p) || given (ps_checkPeriodSecs p)
  || given (ps_priority p).

Definition patchSshPolicy (org user networkId policyId : string) (body : PatchSshPolicy) : RulesTx (reply SshRow) :=
  _ ← require (patchSshPolicyBody body) "ZodError";
  _ ← assertSshRecordingAllowed org (ps_record body) (ps_enforceRecorder body);
  in_rule_network networkId org (
    row ← transaction (
      _ ← require (names_a_field body) "No values to set";
      found ← query (fun db => List.find (ssh_rule networkId policyId) (rd_ssh db));
      row ← or_throw found (RuleThrown "SSH policy not found");
      _ ← require (int4 (sp_priority (patch_ssh body row)) && int4_option (sp_checkPeriodSecs (patch_ssh body row)))
            "integer out of range";
      _ ← update (fun db => with_ssh db
            (map (fun r => if ssh_rule networkId policyId r then patch_ssh body r else r) (rd_ssh db)));
      _ ← writeAudit (mkAuditInput org user "ssh_policy.updated" (Some policyId) [] None);
      _ ← announce_network networkId org;
      mret (patch_ssh body row));
    mret (Reply row)).

Definition deleteSshPolicy (org user networkId policyId : string) : RulesTx (reply unit) :=
  in_rule_network networkId org (
    _ ← transaction (
      found ← query (fun db => List.find (ssh_rule networkId policyId) (rd_ssh db));
      _ ← or_throw found (RuleThrown "SSH policy not found");
      _ ← update (fun db => with_ssh db (List.filter (fun r => negb (ssh_rule networkId policyId r)) (rd_ssh db)));
      _ ← writeAudit (mkAuditInput org user "ssh_policy.deleted" (Some policyId) [] None);
      announce_network networkId org);
    mret (Reply tt)).

(** ** Requests *)
Inductive rule_request :=
| PqCreate (networkId : string) (body : CreatePolicy) (newId : string)
| PqCreateOrg (body : CreatePolicy) (newId : string)
| PqPatch (networkId policyId : string) (body : PatchPolicy)
| PqPatchOrg (policyId : string) (body : PatchPolicy)
| PqDelete (networkId policyId : string)
| PqDeleteOrg (policyId : string)
| PqCreateSsh (networkId : string) (body : CreateSshPolicy) (newId : string)
| PqPatchSsh (networkId policyId : string) (body : PatchSshPolicy)
| PqDeleteSsh (networkId policyId : string).

Definition ignore {A} (m : RulesTx A) : RulesTx unit := _ ← m; mret tt.
Definition handle_rule (org user : string) (q : rule_request) : RulesTx unit :=
  match q with
  | PqCreate n body i => ignore (createPolicy org user n body i)
  | PqCreateOrg body i => ignore (createOrgPolicy org user body i)
  | PqPatch n i body => ignore (patchPolicy org user n i body)
  | PqPatchOrg i body => ignore (patchOrgPolicy org user i body)
  | PqDelete n i => ignore (deletePolicy org user n i)
  | PqDeleteOrg i => ignore (deleteOrgPolicy org user i)
  | PqCreateSsh n body i => ignore (createSshPolicy org user n body i)
  | PqPatchSsh n i body => ignore (patchSshPolicy org user n i body)
  | PqDeleteSsh n i => ignore (deleteSshPolicy org user n i)
  end.
Definition serve_rules (s : state RulesDb) (requests : list (string * string * rule_request)) : state RulesDb :=
  foldl (fun s r => (handle_rule r.1.1 r.1.2 r.2 s).1) s requests.
End Routes.

(** ** Slugs *)
#[local] Arguments is_slug_unit : simpl never.

(** Words of letters and digits, with single hyphens between them; [hyphen] tells
    that a word has to begin. *)
Fixpoint slug_words (hyphen : bool) (s : string) : bool :=
  match s with
  | EmptyString => negb hyphen
  | String c rest =>
      if is_slug_unit c then slug_words false rest
      else Ascii.eqb c "-"%char && negb hyphen && slug_words true rest
  end.
Definition is_slug (s : string) : Prop := slug_words true s = true.

Lemma slug_words_weaken s : slug_words true s = true -> slug_words false s = true.
Proof. destruct s as [|c s]; [done|]. cbn. destruct (is_slug_unit c); [done|]. by rewrite andb_false_r. Qed.

Lemma slug_words_snoc h s c : slug_words h s = true -> is_slug_unit c = true -> slug_words h (s +:+ String c "") = true.
Proof.
  revert h. induction s as [|d s IH]; intros h Hs Hc; rewrite ?app_String, ?app_Empty_l; cbn in *; [by rewrite Hc|].
  destruct (is_slug_unit d); [by apply IH|]. apply andb_prop in Hs as [-> Hs]. by apply IH.
Qed.
Lemma slug_words_hyphen h s c :
  slug_words h s = true -> is_slug_unit c = true -> slug_words h (s +:+ String "-" (String c "")) = true.
Proof.
  revert h. induction s as [|d s IH]; intros h Hs Hc; rewrite ?app_String, ?app_Empty_l, ?app_String; cbn in *.
  - apply negb_true_iff in Hs as ->. by rewrite Hc.
  - destruct (is_slug_unit d); [by apply IH|]. apply andb_prop in Hs as [-> Hs]. by apply IH.
Qed.

(** One letter or digit more. *)
Lemma slug_extend out p ch :
  out = "" \/ is_slug out -> is_slug_unit ch = true ->
  is_slug ((if p && (1 <=? String.length out)%nat then out +:+ "-" else out) +:+ String ch "").
Proof.
  intros [->|Ho] Hc; unfold is_slug; [rewrite andb_false_r, app_Empty_l; cbn; by rewrite Hc|].
  destruct (p && _); [|by apply slug_words_snoc]. rewrite app_assoc_str. by apply slug_words_hyphen.
Qed.

Lemma slug_loop_slug s out p :
  out = "" \/ is_slug out -> (String.length out < 128)%nat ->
  let r := slug_loop s out p in (r = "" \/ is_slug r) /\ (String.length r <= 129)%nat.
Proof.
  cbn zeta. revert out p. induction s as [|ch s IH]; intros out p Ho Hl; cbn [slug_loop]; [split; [done|lia]|].
  destruct (is_slug_unit ch) eqn:Hc.
  - set (next := _ +:+ String ch ""). assert (is_slug next) as Hn by by apply slug_extend.
    assert (String.length next <= 129)%nat as Hlen.
    { unfold next. rewrite length_append. destruct (p && _); rewrite ?length_append; cbn; lia. }
    destruct (128 <=? String.length next)%nat eqn:E; [by split; [right|]|].
    apply Nat.leb_gt in E. apply IH; [by right|done].
  - destruct (128 <=? String.length out)%nat eqn:E; [apply Nat.leb_le in E; lia|]. by apply IH.
Qed.

(** A slug is read as itself. *)
Lemma slug_loop_id s out (p : bool) :
  (String.length out + (if p then 1 else 0) + String.length s <= 128)%nat -> (p = true -> out <> "") ->
  slug_words (p || (out =? "")%string) s = true ->
  slug_loop s out p = out +:+ (if p then "-" else "") +:+ s.
Proof.
  revert out p. induction s as [|ch s IH]; intros out p Hl Hp Hs; cbn [slug_loop].
  { cbn in Hs. apply negb_true_iff, orb_false_iff in Hs as [-> _]. cbn. by rewrite app_Empty_r. }
  cbn [slug_words] in Hs. destruct (is_slug_unit ch) eqn:Hc.
  - assert ((if p && (1 <=? String.length out)%nat then out +:+ "-" else out) = out +:+ (if p then "-" else "")) as ->.
    { destruct p; cbn; [|by rewrite app_Empty_r]. destruct out; [by destruct Hp|done]. }
    assert (String.length ((out +:+ (if p then "-" else "")) +:+ String ch "")
            = S (String.length out + (if p then 1 else 0))) as El.
    { rewrite !length_append. destruct p; cbn; lia. }
    rewrite El. cbn [String.length] in Hl.
    assert (forall t, (out +:+ (if p then "-" else "")) +:+ String ch "" +:+ t
              = out +:+ (if p then "-" else "") +:+ String ch t) as Hass by (intros t; by rewrite !app_assoc_str).
    destruct (128 <=? _)%nat eqn:E.
    + apply Nat.leb_le in E. destruct s; [|cbn in Hl; lia]. by rewrite !app_assoc_str.
    + rewrite IH; [|rewrite El; cbn; lia|done|].
      * cbn. by rewrite !app_assoc_str.
      * destruct ((out +:+ _) +:+ String ch "") eqn:Eout; [by apply (f_equal String.length) in Eout; rewrite El in Eout|done].
  - apply andb_prop in Hs as [[->%Ascii.eqb_eq [-> Hne]%negb_true_iff%orb_false_iff]%andb_prop Hs].
    cbn [String.length] in Hl. destruct (128 <=? String.length out)%nat eqn:E; [apply Nat.leb_le in E; lia|].
    rewrite IH; [done|lia|intros _ ->; done|done].
Qed.

Lemma slug_unit_plain c : is_slug_unit c = true -> lower_unit c = c /\ is_space c = false.
Proof.
  unfold is_slug_unit, is_digit, lower_unit, is_space, between. intros Hc.
  repeat match goal with |- context [(?a <=? ?b)%N] => destruct (N.leb_spec a b)
    | H : context [(?a <=? ?b)%N] |- _ => destruct (N.leb_spec a b) end; cbn in *; try done; try lia;
  repeat match goal with |- context [(?a =? ?b)%N] => destruct (N.eqb_spec a b) end; cbn; split; try done; lia.
Qed.

Lemma slug_words_units h s :
  slug_words h s = true ->
  toLowerCase s = s /\ all_units (fun c => negb (is_space c)) s = true
  /\ all_units (fun c => is_slug_unit c || Ascii.eqb c "-"%char) s = true.
Proof.
  revert h. induction s as [|c s IH]; intros h Hs; [done|]. cbn [slug_words] in Hs. cbn [toLowerCase all_units].
  destruct (is_slug_unit c) eqn:Hc.
  - destruct (IH _ Hs) as (-> & -> & ->). destruct (slug_unit_plain c Hc) as [-> ->]. done.
  - apply andb_prop in Hs as [[->%Ascii.eqb_eq _]%andb_prop Hs]. destruct (IH _ Hs) as (-> & -> & ->). done.
Qed.

Lemma is_slug_pattern s : is_slug s -> slug_pattern s = true /\ (1 <= String.length s)%nat.
Proof.
  unfold is_slug. destruct s as [|c s]; [done|]. cbn [slug_words slug_pattern]. destruct (is_slug_unit c) eqn:Hc.
  - intros Hs. apply slug_words_units in Hs as (_ & _ & ->). split; [done|cbn; lia].
  - by rewrite andb_false_r.
Qed.

Lemma slugify_slug s : is_slug s -> (String.length s <= 128)%nat -> slugifyPolicySlug s = s.
Proof.
  intros Hs Hl. unfold slugifyPolicySlug. destruct (slug_words_units _ _ Hs) as (-> & Hsp & _).
  rewrite (trim_no_space s Hsp). rewrite slug_loop_id; [done|cbn; lia|done|done].
Qed.

(** A slug that is accepted consists of words of lower-case letters and digits
    with single hyphens between them, of at most 128 characters, and is accepted
    unchanged when it is given again; a text is refused exactly when it has no
    letter or digit to keep or when its slug has 129 characters, which the loop
    reaches when a hyphen is due at the end. *)
Theorem slug_stable (raw : string) :
  match policySlugSchema (Some raw) with
  | Some (Some s) =>
      s = slugifyPolicySlug raw /\ is_slug s /\ (1 <= String.length s <= 128)%nat /\ policySlugSchema (Some s) = Some (Some s)
  | Some None => False
  | None => slugifyPolicySlug raw = "" \/ (is_slug (slugifyPolicySlug raw) /\ String.length (slugifyPolicySlug raw) = 129%nat)
  end.
Proof.
  destruct (slug_loop_slug (trim (toLowerCase raw)) "" false) as [Hs Hl]; [by left|cbn; lia|].
  fold (slugifyPolicySlug raw) in Hs, Hl. cbn [policySlugSchema]. set (s := slugifyPolicySlug raw) in *.
  destruct Hs as [->|Hs]; [by left|]. destruct (is_slug_pattern s Hs) as [Hp Hn]. rewrite Hp, andb_true_r.
  rewrite (proj2 (Nat.leb_le 1 _) Hn). cbn [andb]. destruct (String.length s <=? 128)%nat eqn:E.
  - apply Nat.leb_le in E. split_and!; [done..|]. rewrite slugify_slug by done.
    by rewrite Hp, (proj2 (Nat.leb_le 1 _) Hn), (proj2 (Nat.leb_le _ 128) E).
  - apply Nat.leb_gt in E. right. split; [done|lia].
Qed.

(** ** What the tables hold *)
Section Invariant.
Context `{IpAddress} (enabled : bool) (billing : BillingDb).

Definition network_org (networks : list NetworkVersion) (n : string) : option string :=
  nv_org <$> List.find (fun x => (nv_id x =? n)%string) networks.

(** A rule of an organization denies; a rule of a network is of a network of its
    organization. *)
Record rule_ok (networks : list NetworkVersion) (r : RuleRow) : Prop := mkRuleOk {
  ro_scope : match ru_scope r, ru_networkId r with
             | Organization, None => ru_action r = Deny
             | Network, Some n => network_org networks n = Some (ru_org r)
             | _, _ => False
             end;
  ro_ports : forallb portRangeSchema (ru_ports r) = true;
  ro_selectors : selectorSchema (ru_srcSelector r) = true /\ selectorSchema (ru_dstSelector r) = true;
  ro_slug : forall s, ru_slug r = Some s -> is_slug s /\ (String.length s <= 128)%nat;
  ro_numbers : int4 (ru_priority r) = true /\ int4 (ru_orderIndex r) = true
}.

Definition slugs_unique (l : list RuleRow) : Prop :=
  forall r r', r ∈ l -> r' ∈ l -> ru_org r = ru_org r' -> same_slug (ru_slug r) (ru_slug r') = true -> ru_id r = ru_id r'.

Record rules_ok (networks : list NetworkVersion) (l : list RuleRow) : Prop := mkRulesOk {
  rl_ids : NoDup (map ru_id l);
  rl_rows : forall r, r ∈ l -> rule_ok networks r;
  rl_slugs : slugs_unique l
}.

(** An SSH rule is of an existing network, for at least one user, and records
    only under a plan with the feature. *)
Record ssh_ok (networks : list NetworkVersion) (r : SshRow) : Prop := mkSshOk {
  so_network : exists org, network_org networks (sp_networkId r) = Some org
    /\ (sp_record r || sp_enforceRecorder r = true -> exists plan, requirePlanFeature enabled billing org sshRecording = Ok plan);
  so_users : users_ok (sp_users r) = true;
  so_period : match sp_checkPeriodSecs r with Some p => 0 < p | None => True end
}.
Record ssh_rules_ok (networks : list NetworkVersion) (l : list SshRow) : Prop := mkSshRulesOk {
  sl_ids : NoDup (map sp_id l);
  sl_rows : forall r, r ∈ l -> ssh_ok networks r
}.

Record rules_wf (db : RulesDb) : Prop := mkRulesWf {
  rw_networks : NoDup (map nv_id (rd_networks db));
  rw_organizations : NoDup (map fst (rd_organizations db));
  rw_rules : rules_ok (rd_networks db) (rd_rules db);
  rw_ssh : ssh_rules_ok (rd_networks db) (rd_ssh db)
}.

(** *** Changes of the table of rules *)
Lemma same_slug_sym a b : same_slug a b = same_slug b a.
Proof. destruct a, b; cbn; [apply String.eqb_sym|done..]. Qed.
Lemma same_slug_Some a b : same_slug a b = true <-> exists s, a = Some s /\ b = Some s.
Proof.
  split; [|intros (s & -> & ->); apply String.eqb_refl].
  destruct a as [x|], b as [y|]; cbn; try done. intros ->%String.eqb_eq. eauto.
Qed.

Lemma slug_free org slug except l r :
  slug_taken org slug except l = false -> r ∈ l -> ru_org r = org -> same_slug (ru_slug r) slug = true ->
  exists i, except = Some i /\ ru_id r = i.
Proof.
  intros Ht Hr Ho Hs. destruct except as [i|].
  - exists i. split; [done|]. destruct (String.eqb_spec (ru_id r) i) as [|Hne]; [done|]. exfalso.
    assert (slug_taken org slug (Some i) l = true); [|congruence]. apply existsb_exists. exists r.
    split; [by apply list_elem_of_In|]. by rewrite Ho, String.eqb_refl, Hs, (proj2 (String.eqb_neq _ _) Hne).
  - exfalso. assert (slug_taken org slug None l = true); [|congruence]. apply existsb_exists. exists r.
    split; [by apply list_elem_of_In|]. by rewrite Ho, String.eqb_refl, Hs.
Qed.

Lemma rules_ok_insert networks l row :
  rules_ok networks l -> rule_ok networks row -> ru_id row ∉ map ru_id l ->
  slug_taken (ru_org row) (ru_slug row) None l = false -> rules_ok networks (l ++ [row]).
Proof.
  intros [Hids Hrows Hslugs] Hrow Hnew Hfree. split.
  - rewrite map_app. apply list.NoDup_app. split_and!; [done| |apply NoDup_singleton].
    by intros x Hx ->%list_elem_of_singleton.
  - intros r [Hr|Hr]%elem_of_app; [auto|]. by apply list_elem_of_singleton in Hr as ->.
  - intros r r' [Hr| ->%list_elem_of_singleton]%elem_of_app [Hr'| ->%list_elem_of_singleton]%elem_of_app Ho Hs; [by apply Hslugs| | |done].
    + by destruct (slug_free _ _ _ _ r Hfree Hr Ho Hs) as (? & ? & _).
    + rewrite same_slug_sym in Hs. by destruct (slug_free _ _ _ _ r' Hfree Hr' (eq_sym Ho) Hs) as (? & ? & _).
Qed.

Lemma rules_ok_delete networks l p : rules_ok networks l -> rules_ok networks (List.filter p l).
Proof.
  intros [Hids Hrows Hslugs]. split.
  - by apply NoDup_map_filter.
  - intros r [Hr _]%elem_of_filter_bool. auto.
  - intros r r' [Hr _]%elem_of_filter_bool [Hr' _]%elem_of_filter_bool. by apply Hslugs.
Qed.

Lemma patched_rule_face p r :
  ru_id (patch_rule p r) = ru_id r /\ ru_org (patch_rule p r) = ru_org r
  /\ ru_networkId (patch_rule p r) = ru_networkId r /\ ru_scope (patch_rule p r) = ru_scope r.
Proof. done. Qed.

Lemma map_hit_ids (hit : RuleRow -> bool) p l : map ru_id (map (fun r => if hit r then patch_rule p r else r) l) = map ru_id l.
Proof. rewrite map_map. apply map_ext. intros r. by destruct (hit r). Qed.

Lemma rules_ok_patch networks l org i hit p :
  (forall r, hit r = true -> ru_id r = i /\ ru_org r = org) ->
  (forall r, r ∈ l -> hit r = true -> rule_ok networks (patch_rule p r)) ->
  slug_taken org (pa_slug p) (Some i) l = false -> rules_ok networks l ->
  rules_ok networks (map (fun r => if hit r then patch_rule p r else r) l).
Proof.
  intros Hhit Hok Hfree [Hids Hrows Hslugs]. split.
  - by rewrite map_hit_ids.
  - intros r (x & -> & Hx)%list_elem_of_fmap. destruct (hit x) eqn:E; auto.
  - intros r r' (x & -> & Hx)%list_elem_of_fmap (y & -> & Hy)%list_elem_of_fmap Ho Hs.
    assert (forall x y, x ∈ l -> y ∈ l -> hit x = true -> hit y = false -> ru_org x = ru_org y ->
      same_slug (ru_slug (patch_rule p x)) (ru_slug y) = true -> ru_id x = ru_id y) as Hmixed.
    { clear x y Hx Hy Ho Hs. intros x y Hx Hy Ex Ey Ho Hs. destruct (Hhit x Ex) as [Hi Horg]. cbn in Hs.
      destruct (pa_slug p) as [s|] eqn:Ep; [|by apply Hslugs]. rewrite same_slug_sym in Hs.
      destruct (slug_free _ _ _ _ y Hfree Hy) as (j & [= <-] & ->); [congruence|done|done]. }
    destruct (hit x) eqn:Ex, (hit y) eqn:Ey; cbn [ru_id ru_org patch_rule] in *.
    + by rewrite (proj1 (Hhit x Ex)), (proj1 (Hhit y Ey)).
    + by apply Hmixed.
    + symmetry. rewrite same_slug_sym in Hs. by apply Hmixed.
    + by apply Hslugs.
Qed.

(** *** What a request does *)
Definition outside {R} (p : R -> bool) (l l' : list R) : Prop :=
  List.filter (fun r => negb (p r)) l' = List.filter (fun r => negb (p r)) l.
Definition of_network (org n : string) (r : RuleRow) : bool :=
  (ru_org r =? org)%string && match ru_networkId r with Some x => (x =? n)%string | None => false end.
Definition of_organization (org : string) (r : RuleRow) : bool :=
  (ru_org r =? org)%string && bool_decide (ru_scope r = Organization).
Definition ssh_of_network (n : string) (r : SshRow) : bool := (sp_networkId r =? n)%string.

(** The rules of one network of the organization, or its own rules, have changed,
    and that has been announced. *)
Inductive rule_change (org : string) (db : RulesDb) : RulesDb -> Prop :=
| change_network n l :
    network_org (rd_networks db) n = Some org -> rules_ok (rd_networks db) l -> outside (of_network org n) (rd_rules db) l ->
    rule_change org db (bump_net n org (with_rules db l))
| change_ssh n l :
    network_org (rd_networks db) n = Some org -> ssh_rules_ok (rd_networks db) l ->
    outside (ssh_of_network n) (rd_ssh db) l -> rule_change org db (bump_net n org (with_ssh db l))
| change_org l :
    rules_ok (rd_networks db) l -> outside (of_organization org) (rd_rules db) l ->
    rule_change org db (bump_org_rules org (with_rules db l)).

Lemma announced {A B C} (m : RulesTx A) input (f : RulesDb -> RulesDb) (k : A -> RulesTx B) (h : B -> C) s :
  (forall x s1, (k x s1).1.1 = f s1.1 /\ exists b, (k x s1).2 = Ok b) ->
  let t := (row ← transaction (x ← m; _ ← writeAudit input; k x); mret (h row)) : RulesTx C in
  (t s).1.1 = s.1 \/ exists a s1, m s = (s1, Ok a) /\ (t s).1.1 = f s1.1.
Proof.
  intros Hk. cbn zeta. unfold transaction, mbind, tx_mbind, tx_bind. destruct (m s) as [s1 [a|e]] eqn:E; [|by left].
  cbn. destruct (Hk a (s1.1, s1.2 ++ [toIngestEvent input])) as [H1 [b H2]].
  destruct (k a _) as [s2 r]. cbn in *. subst r. right. exists a, s1. by split.
Qed.

Lemma outside_snoc {R} (p : R -> bool) l x : p x = true -> outside p l (l ++ [x]).
Proof. intros Hx. unfold outside. rewrite List.filter_app. cbn. rewrite Hx. cbn. apply app_nil_r. Qed.
Lemma outside_map {R} (p hit : R -> bool) f l :
  (forall x, hit x = true -> p x = true /\ p (f x) = true) -> outside p l (map (fun x => if hit x then f x else x) l).
Proof.
  intros Hh. unfold outside. induction l as [|x l IH]; cbn; [done|]. destruct (hit x) eqn:E; [|by rewrite IH].
  destruct (Hh x E) as [-> ->]. done.
Qed.
Lemma outside_filter {R} (p hit : R -> bool) l :
  (forall x, hit x = true -> p x = true) -> outside p l (List.filter (fun x => negb (hit x)) l).
Proof.
  intros Hh. unfold outside. induction l as [|x l IH]; cbn; [done|]. destruct (hit x) eqn:E; cbn; [|by rewrite IH].
  by rewrite (Hh x E).
Qed.

Lemma insert_rule_Ok row s s1 a :
  insert_rule row s = (s1, Ok a) ->
  s1.1 = with_rules s.1 (rd_rules s.1 ++ [row]) /\ ru_id row ∉ map ru_id (rd_rules s.1)
  /\ (int4 (ru_priority row) = true /\ int4 (ru_orderIndex row) = true)
  /\ slug_taken (ru_org row) (ru_slug row) None (rd_rules s.1) = false.
Proof.
  unfold insert_rule, require, query, update, mbind, tx_mbind, tx_bind.
  destruct (existsb _ (rd_rules s.1)) eqn:Hid; [done|]. cbn.
  destruct (int4 (ru_priority row) && int4 (ru_orderIndex row)) eqn:Hn; [|done]. cbn.
  destruct (slug_taken _ _ _ _) eqn:Hs; [done|]. cbn. intros [= <- _]. apply andb_prop in Hn as [Hn1 Hn2].
  split_and!; [done| |done..].
  intros (x & E & Hx)%list_elem_of_fmap. assert (existsb (fun r => (ru_id r =? ru_id row)%string) (rd_rules s.1) = true); [|congruence].
  apply existsb_exists. exists x. split; [by apply list_elem_of_In|]. by rewrite E, String.eqb_refl.
Qed.

Lemma update_rule_Ok org i hit p s s1 a :
  update_rule org i hit p s = (s1, Ok a) ->
  exists row, List.find hit (rd_rules s.1) = Some row
    /\ s1.1 = with_rules s.1 (map (fun r => if hit r then patch_rule p r else r) (rd_rules s.1))
    /\ int4 (ru_priority (patch_rule p row)) = true /\ int4 (ru_orderIndex (patch_rule p row)) = true
    /\ slug_taken org (pa_slug p) (Some i) (rd_rules s.1) = false.
Proof.
  unfold update_rule, require, query, update, mbind, tx_mbind, tx_bind. cbn [fst snd].
  destruct (List.find hit _) as [row|]; [|done]. cbn [or_throw tx_ret fst snd].
  destruct (int4 (ru_priority _) && _) eqn:Hn; [|done]. cbn [mret tx_mret tx_ret].
  destruct (slug_taken _ _ _ _) eqn:Hs; [done|]. cbn. intros [= <- _]. exists row. apply andb_prop in Hn as [Hn1 Hn2]. done.
Qed.

Lemma delete_rule_Ok hit s s1 a :
  delete_rule hit s = (s1, Ok a) -> s1.1 = with_rules s.1 (List.filter (fun r => negb (hit r)) (rd_rules s.1)).
Proof.
  unfold delete_rule, query, update, mbind, tx_mbind, tx_bind. cbn [fst snd].
  destruct (List.find hit _); [|done]. cbn. by intros [= <- _].
Qed.
Lemma owned_network n org db x :
  rules_wf db -> rule_network n org db = Some x -> network_org (rd_networks db) n = Some org.
Proof.
  intros Hwf [Hx [Hi%String.eqb_eq Ho%String.eqb_eq]%andb_prop]%List.find_some. unfold network_org.
  destruct (List.find _ (rd_networks db)) as [y|] eqn:E.
  - apply List.find_some in E as [Hy Ey%String.eqb_eq]. cbn. f_equal. rewrite <- Ho. f_equal.
    apply (NoDup_map_inj nv_id (rd_networks db)); [apply Hwf|by apply list_elem_of_In..|congruence].
  - eapply List.find_none in E; [|exact Hx]. cbn in E. by rewrite Hi, String.eqb_refl in E.
Qed.

Lemma policySlugSchema_ok slug s : policySlugSchema slug = Some (Some s) -> is_slug s /\ (String.length s <= 128)%nat.
Proof.
  destruct slug as [raw|]; [|done]. cbn [policySlugSchema].
  destruct (slug_loop_slug (trim (toLowerCase raw)) "" false) as [Hs _]; [by left|cbn; lia|].
  fold (slugifyPolicySlug raw) in Hs. destruct (_ && _ && _) eqn:E; [|done]. intros [= <-].
  apply andb_prop in E as [[H1%Nat.leb_le H2%Nat.leb_le]%andb_prop _].
  destruct Hs as [Hs|Hs]; [rewrite Hs in H1; cbn in H1; lia|done].
Qed.

Lemma createPolicyBody_ok body p :
  createPolicyBody body = Some p ->
  forallb portRangeSchema (pp_ports p) = true
  /\ (selectorSchema (pp_srcSelector p) = true /\ selectorSchema (pp_dstSelector p) = true)
  /\ (forall s, pp_slug p = Some s -> is_slug s /\ (String.length s <= 128)%nat).
Proof.
  unfold createPolicyBody. destruct (policySlugSchema _) as [slug|] eqn:Es; [|done].
  destruct (_ && _ && _) eqn:E; [|done]. intros [= <-]. apply andb_prop in E as [[H1 H2]%andb_prop H3].
  split_and!; [done..|]. cbn. intros s ->. by eapply policySlugSchema_ok.
Qed.

Lemma patchPolicyBody_ok body p :
  patchPolicyBody body = Some p ->
  forallb portRangeSchema (default [] (pa_ports p)) = true
  /\ (forall s, pa_srcSelector p = Some s -> selectorSchema s = true)
  /\ (forall s, pa_dstSelector p = Some s -> selectorSchema s = true)
  /\ (forall s, pa_slug p = Some s -> is_slug s /\ (String.length s <= 128)%nat).
Proof.
  unfold patchPolicyBody. destruct (policySlugSchema _) as [slug|] eqn:Es; [|done].
  destruct (_ && _ && _) eqn:E; [|done]. intros [= <-]. apply andb_prop in E as [[H1 H2]%andb_prop H3].
  split_and!; cbn; [done|by intros s Hs; rewrite Hs in H1|by intros s Hs; rewrite Hs in H2|].
  intros s ->. by eapply policySlugSchema_ok.
Qed.

Lemma patch_rule_ok networks body p r :
  patchPolicyBody body = Some p -> rule_ok networks r ->
  int4 (ru_priority (patch_rule p r)) = true -> int4 (ru_orderIndex (patch_rule p r)) = true ->
  (ru_scope r = Organization -> pa_action p <> Some Allow) -> rule_ok networks (patch_rule p r).
Proof.
  intros (Hp & Hs & Hd & Hslug)%patchPolicyBody_ok [Hscope Hports [Hsrc Hdst] Hsl _] Hn1 Hn2 Hact.
  split; [| | | |done]; cbn [ru_scope ru_networkId ru_action ru_org ru_ports ru_srcSelector ru_dstSelector ru_slug patch_rule].
  - destruct (ru_scope r), (ru_networkId r); try done. specialize (Hact eq_refl). by destruct (pa_action p) as [[]|].
  - by destruct (pa_ports p).
  - destruct (pa_srcSelector p), (pa_dstSelector p); cbn; auto.
  - destruct (pa_slug p) as [x|]; [|done]. intros y [= <-]. by apply Hslug.
Qed.

(** The rows with an id are one row. *)
Lemma hit_one networks l hit i row r :
  rules_ok networks l -> (forall x, hit x = true -> ru_id x = i) -> List.find hit l = Some row ->
  r ∈ l -> hit r = true -> r = row.
Proof.
  intros Hl Hh [Hrow Hhr]%List.find_some Hr Er.
  apply (NoDup_map_inj ru_id l); [apply Hl|done|by apply list_elem_of_In|]. by rewrite (Hh r Er), (Hh row Hhr).
Qed.

Lemma network_rule_spec org n i r :
  network_rule org n i r = true -> ru_id r = i /\ ru_org r = org /\ ru_scope r = Network /\ of_network org n r = true.
Proof.
  unfold network_rule, of_network.
  intros [[[Hi%String.eqb_eq Hn]%andb_prop Ho]%andb_prop Hs%bool_decide_eq_true]%andb_prop.
  rewrite Ho, Hn. apply String.eqb_eq in Ho. done.
Qed.
Lemma org_rule_spec org i r :
  org_rule org i r = true -> ru_id r = i /\ ru_org r = org /\ ru_scope r = Organization /\ of_organization org r = true.
Proof.
  unfold org_rule, of_organization. intros [[Hi%String.eqb_eq Ho]%andb_prop Hs]%andb_prop.
  rewrite Ho, Hs. apply String.eqb_eq in Ho. apply bool_decide_eq_true in Hs. done.
Qed.

(** A route of a network goes on when the organization has the network. *)
Lemma in_rule_network_cases {A} n org (m : RulesTx (reply A)) s (P : RulesDb -> Prop) :
  P s.1 -> (forall x, rule_network n org s.1 = Some x -> P (m s).1.1) -> P (in_rule_network n org m s).1.1.
Proof.
  intros H0 H1. unfold in_rule_network, query, mbind, tx_mbind, tx_bind. destruct (rule_network _ _ _) eqn:E; [by eapply H1|done].
Qed.

Definition served (org : string) (db db' : RulesDb) : Prop := db' = db \/ rule_change org db db'.
Lemma announced_served {A B C} org (m : RulesTx A) input (f : RulesDb -> RulesDb) (k : A -> RulesTx B) (h : B -> C) s :
  (forall x s1, (k x s1).1.1 = f s1.1 /\ exists b, (k x s1).2 = Ok b) ->
  (forall a s1, m s = (s1, Ok a) -> rule_change org s.1 (f s1.1)) ->
  served org s.1 ((row ← transaction (x ← m; _ ← writeAudit input; k x); mret (h row)) s : _ * result rules_error C).1.1.
Proof.
  intros Hk Hm. destruct (announced m input f k h s Hk) as [E|(a & s1 & Hs & E)]; cbn zeta in E; rewrite E; [by left|].
  right. by eapply Hm.
Qed.

Lemma createPolicy_served org user n body i s :
  rules_wf s.1 -> served org s.1 (createPolicy org user n body i s).1.1.
Proof.
  intros Hwf. unfold createPolicy, mbind at 1, tx_mbind, tx_bind.
  destruct (createPolicyBody body) as [p|] eqn:Hp; [|by left]. cbn [or_throw tx_ret].
  apply in_rule_network_cases; [by left|]. intros x Hx. pose proof (owned_network _ _ _ _ Hwf Hx) as Hn.
  apply (announced_served _ _ _ (bump_net n org)); [by eauto|].
  intros a s1 (-> & Hid & [Hn1 Hn2] & Hslug)%insert_rule_Ok. apply createPolicyBody_ok in Hp as (Hports & Hsel & Hsl).
  apply change_network; [done| |apply outside_snoc; unfold of_network; cbn; by rewrite !String.eqb_refl].
  apply rules_ok_insert; [apply Hwf| |done..]. by split.
Qed.

Lemma createOrgPolicy_served org user body i s :
  rules_wf s.1 -> served org s.1 (createOrgPolicy org user body i s).1.1.
Proof.
  intros Hwf. unfold createOrgPolicy, createOrgPolicyBody. destruct (createPolicyBody body) as [p|] eqn:Hp; [|by left].
  destruct (pp_action p) eqn:Ha; [by left|]. apply (announced_served _ _ _ (bump_org_rules org)); [by eauto|].
  intros a s1 (-> & Hid & [Hn1 Hn2] & Hslug)%insert_rule_Ok. apply createPolicyBody_ok in Hp as (Hports & Hsel & Hsl).
  apply change_org; [|apply outside_snoc; unfold of_organization; cbn; by rewrite String.eqb_refl].
  apply rules_ok_insert; [apply Hwf| |done..]. by split.
Qed.

Lemma patchPolicy_served org user n i body s :
  rules_wf s.1 -> served org s.1 (patchPolicy org user n i body s).1.1.
Proof.
  intros Hwf. unfold patchPolicy, mbind at 1, tx_mbind, tx_bind.
  destruct (patchPolicyBody body) as [p|] eqn:Hp; [|by left]. cbn [or_throw tx_ret].
  apply in_rule_network_cases; [by left|]. intros x Hx. pose proof (owned_network _ _ _ _ Hwf Hx) as Hn.
  apply (announced_served _ _ _ (bump_net n org)); [by eauto|].
  intros a s1 (row & Hrow & -> & Hn1 & Hn2 & Hslug)%update_rule_Ok. pose proof (rw_rules _ Hwf) as Hok.
  apply change_network; [done| |apply outside_map; intros r Hr; apply network_rule_spec in Hr as (_ & _ & _ & Hr); by split].
  apply (rules_ok_patch _ _ org i); [intros r Hr; apply network_rule_spec in Hr as (? & ? & _); done| |done..].
  intros r Hr Hhit. pose proof (hit_one _ _ _ i row r Hok (fun y Hy => proj1 (network_rule_spec _ _ _ y Hy)) Hrow Hr Hhit) as ->.
  eapply patch_rule_ok; [done|by apply Hok|done..|]. apply network_rule_spec in Hhit as (_ & _ & -> & _). done.
Qed.

Lemma patchOrgPolicy_served org user i body s :
  rules_wf s.1 -> served org s.1 (patchOrgPolicy org user i body s).1.1.
Proof.
  intros Hwf. unfold patchOrgPolicy, patchOrgPolicyBody. destruct (patchPolicyBody body) as [p|] eqn:Hp; [|by left].
  destruct (match pa_action p with Some Allow => None | Some Deny | None => Some p end) as [d|] eqn:Ed; [|by left].
  assert (d = p /\ pa_action p <> Some Allow) as [-> Hact] by (by destruct (pa_action p) as [[]|]; simplify_eq).
  apply (announced_served _ _ _ (bump_org_rules org)); [by eauto|].
  intros a s1 (row & Hrow & -> & Hn1 & Hn2 & Hslug)%update_rule_Ok. pose proof (rw_rules _ Hwf) as Hok.
  apply change_org; [|apply outside_map; intros r Hr; apply org_rule_spec in Hr as (_ & _ & _ & Hr); by split].
  apply (rules_ok_patch _ _ org i); [intros r Hr; apply org_rule_spec in Hr as (? & ? & _); done| |done..].
  intros r Hr Hhit. pose proof (hit_one _ _ _ i row r Hok (fun y Hy => proj1 (org_rule_spec _ _ y Hy)) Hrow Hr Hhit) as ->.
  eapply patch_rule_ok; [done|by apply Hok|done..].
Qed.

Lemma deletePolicy_served org user n i s : rules_wf s.1 -> served org s.1 (deletePolicy org user n i s).1.1.
Proof.
  intros Hwf. unfold deletePolicy. apply in_rule_network_cases; [by left|]. intros x Hx. pose proof (owned_network _ _ _ _ Hwf Hx) as Hn.
  apply (announced_served _ _ _ (bump_net n org)); [by eauto|]. intros a s1 ->%delete_rule_Ok.
  apply change_network; [done|apply rules_ok_delete, Hwf|].
  apply outside_filter. intros r Hr. apply network_rule_spec in Hr as (_ & _ & _ & Hr). done.
Qed.

Lemma deleteOrgPolicy_served org user i s : rules_wf s.1 -> served org s.1 (deleteOrgPolicy org user i s).1.1.
Proof.
  intros Hwf. unfold deleteOrgPolicy. apply (announced_served _ _ _ (bump_org_rules org)); [by eauto|].
  intros a s1 ->%delete_rule_Ok.
  apply change_org; [apply rules_ok_delete, Hwf|]. apply outside_filter. intros r Hr. apply org_rule_spec in Hr as (_ & _ & _ & Hr). done.
Qed.
Definition may_record (org : string) : Prop := exists plan, requirePlanFeature enabled billing org sshRecording = Ok plan.

Lemma recording_cases org record enforce s :
  (assertSshRecordingAllowed enabled billing org record enforce s = (s, Ok tt)
    /\ (default false record || default false enforce = true -> may_record org))
  \/ exists e, assertSshRecordingAllowed enabled billing org record enforce s = (s, Err e).
Proof.
  unfold assertSshRecordingAllowed. destruct (_ || _) eqn:E; [|left; split; [done|congruence]].
  destruct (requirePlanFeature _ _ _ _) as [plan|e] eqn:Ep; [left; split; [done|by exists plan]|right; by eexists].
Qed.

Lemma insert_ssh_Ok row s s1 a :
  insert_ssh row s = (s1, Ok a) -> s1.1 = with_ssh s.1 (rd_ssh s.1 ++ [row]) /\ sp_id row ∉ map sp_id (rd_ssh s.1).
Proof.
  unfold insert_ssh, require, query, update, mbind, tx_mbind, tx_bind.
  destruct (existsb _ (rd_ssh s.1)) eqn:Hid; [done|]. cbn. destruct (_ && _); [|done]. cbn. intros [= <- _]. split; [done|].
  intros (x & E & Hx)%list_elem_of_fmap. assert (existsb (fun r => (sp_id r =? sp_id row)%string) (rd_ssh s.1) = true); [|congruence].
  apply existsb_exists. exists x. split; [by apply list_elem_of_In|]. by rewrite E, String.eqb_refl.
Qed.

Lemma ssh_rule_network n i r : ssh_rule n i r = true -> ssh_of_network n r = true.
Proof. unfold ssh_rule, ssh_of_network. by intros [_ ?]%andb_prop. Qed.

Lemma createSshPolicy_served org user n body i s :
  rules_wf s.1 -> served org s.1 (createSshPolicy enabled billing org user n body i s).1.1.
Proof.
  intros Hwf. unfold createSshPolicy, require, mbind at 1 2, tx_mbind, tx_bind.
  destruct (createSshPolicyBody body) eqn:Hb; [|by left]. cbn [mret tx_mret tx_ret].
  destruct (recording_cases org (cs_record body) (cs_enforceRecorder body) s) as [[-> Hrec]|[e ->]]; [|by left].
  apply in_rule_network_cases; [by left|]. intros x Hx. pose proof (owned_network _ _ _ _ Hwf Hx) as Hn.
  apply (announced_served _ _ _ (bump_net n org)); [by eauto|]. intros a s1 (-> & Hid)%insert_ssh_Ok.
  apply change_ssh; [done| |apply outside_snoc; apply String.eqb_refl]. destruct (rw_ssh _ Hwf) as [Hids Hrows]. split.
  - rewrite map_app. apply list.NoDup_app. split_and!; [done| |apply NoDup_singleton]. by intros y Hy ->%list_elem_of_singleton.
  - intros r [Hr|Hr]%elem_of_app; [auto|]. apply list_elem_of_singleton in Hr as ->.
    unfold createSshPolicyBody in Hb. apply andb_prop in Hb as [[[[_ Hu]%andb_prop _]%andb_prop Hp]%andb_prop _].
    split; cbn; [by exists org|done|]. unfold period_ok in Hp. destruct (cs_checkPeriodSecs body) as [[p|]|]; cbn; [lia|done..].
Qed.

Lemma patchSshPolicy_served org user n i body s :
  rules_wf s.1 -> served org s.1 (patchSshPolicy enabled billing org user n i body s).1.1.
Proof.
  intros Hwf. unfold patchSshPolicy, require, mbind at 1 2, tx_mbind, tx_bind.
  destruct (patchSshPolicyBody body) eqn:Hb; [|by left]. cbn [mret tx_mret tx_ret].
  destruct (recording_cases org (ps_record body) (ps_enforceRecorder body) s) as [[-> Hrec]|[e ->]]; [|by left].
  apply in_rule_network_cases; [by left|]. intros x Hx. pose proof (owned_network _ _ _ _ Hwf Hx) as Hn.
  unfold served, transaction, query, update, mbind, tx_mbind, tx_bind.
  destruct (names_a_field body); [|by left]. cbn [mret tx_mret tx_ret fst snd].
  destruct (List.find _ _) as [row|] eqn:Hrow; [|by left]. cbn [or_throw tx_ret fst snd].
  destruct (int4 (sp_priority _) && _); [|by left]. right. cbn [mret tx_mret tx_ret fst snd].
  change (rule_change org s.1 (bump_net n org (with_ssh s.1
    (map (fun r => if ssh_rule n i r then patch_ssh body r else r) (rd_ssh s.1))))).
  apply change_ssh; [done| |apply outside_map; intros r Hr; apply ssh_rule_network in Hr; by split].
  destruct (rw_ssh _ Hwf) as [Hids Hrows]. split.
  - rewrite map_map. erewrite map_ext; [exact Hids|]. intros r. by destruct (ssh_rule n i r).
  - intros r (y & -> & Hy)%list_elem_of_fmap. destruct (ssh_rule n i y) eqn:Ey; [|auto].
    apply ssh_rule_network, String.eqb_eq in Ey. destruct (Hrows y Hy) as [(o & Ho & Hplan) Hu Hp].
    rewrite Ey, Hn in Ho. injection Ho as <-. unfold patchSshPolicyBody in Hb.
    apply andb_prop in Hb as [[[_ Hub]%andb_prop _]%andb_prop Hpb]. split; cbn.
    + exists org. rewrite Ey. split; [done|]. intros Hr. destruct (sp_record y || sp_enforceRecorder y) eqn:Eold; [by apply Hplan|].
      apply Hrec. apply orb_false_iff in Eold as [E1 E2]. rewrite E1, E2 in Hr. done.
    + by destruct (ps_users body).
    + unfold period_ok in Hpb. destruct (ps_checkPeriodSecs body) as [[p|]|]; cbn; [lia|done..].
Qed.

Lemma deleteSshPolicy_served org user n i s : rules_wf s.1 -> served org s.1 (deleteSshPolicy org user n i s).1.1.
Proof.
  intros Hwf. unfold deleteSshPolicy. apply in_rule_network_cases; [by left|]. intros x Hx.
  pose proof (owned_network _ _ _ _ Hwf Hx) as Hn.
  unfold served, transaction, query, update, mbind, tx_mbind, tx_bind. cbn [fst snd].
  destruct (List.find _ _) as [row|]; [|by left]. right. cbn [or_throw tx_ret mret tx_mret fst snd].
  change (rule_change org s.1 (bump_net n org (with_ssh s.1
    (List.filter (fun r => negb (ssh_rule n i r)) (rd_ssh s.1))))).
  apply change_ssh; [done| |apply outside_filter; apply ssh_rule_network]. destruct (rw_ssh _ Hwf) as [Hids Hrows]. split.
  - by apply NoDup_map_filter.
  - intros r [Hr _]%elem_of_filter_bool. auto.
Qed.

Lemma ignore_state {A} (m : RulesTx A) s : (ignore m s).1 = (m s).1.
Proof. unfold ignore, mbind, tx_mbind, tx_bind. by destruct (m s) as [s' [a|e]]. Qed.

Lemma handle_served org user q s : rules_wf s.1 -> served org s.1 (handle_rule enabled billing org user q s).1.1.
Proof.
  intros Hwf. destruct q; cbn [handle_rule]; rewrite ignore_state; auto using createPolicy_served, createOrgPolicy_served,
    patchPolicy_served, patchOrgPolicy_served, deletePolicy_served, deleteOrgPolicy_served, createSshPolicy_served,
    patchSshPolicy_served, deleteSshPolicy_served.
Qed.
(** *** Consequences *)
Lemma bumped_org n org networks m : network_org (bumpNetworkVersion n org networks) m = network_org networks m.
Proof. apply bumpNetworkVersion_find. Qed.
Lemma bumped_org_ids org orgs : map fst (bumpOrgSnapshotVersion org orgs) = map fst orgs.
Proof. unfold bumpOrgSnapshotVersion. rewrite map_map. apply map_ext. intros x. by destruct (_ =? _)%string. Qed.

Lemma rules_ok_owners networks networks' l :
  (forall n, network_org networks' n = network_org networks n) -> rules_ok networks l -> rules_ok networks' l.
Proof.
  intros Ho [H1 H2 H3]. split; [done| |done]. intros r Hr. destruct (H2 r Hr) as [Hs ? ? ? ?]. split; [|done..].
  destruct (ru_scope r), (ru_networkId r); rewrite ?Ho; done.
Qed.
Lemma ssh_ok_owners networks networks' l :
  (forall n, network_org networks' n = network_org networks n) -> ssh_rules_ok networks l -> ssh_rules_ok networks' l.
Proof.
  intros Ho [H1 H2]. split; [done|]. intros r Hr. destruct (H2 r Hr) as [(o & Hn & Hp) ? ?]. split; [|done..].
  exists o. by rewrite Ho.
Qed.

Lemma rule_change_wf org db db' : rules_wf db -> rule_change org db db' -> rules_wf db'.
Proof.
  intros [Hn Ho Hr Hs] [n l Hnet Hl _|n l Hnet Hl _|l Hl _]; split; cbn -[bumpNetworkVersion bumpOrgSnapshotVersion];
    rewrite ?bumpNetworkVersion_ids, ?bumped_org_ids; try done;
    (apply (rules_ok_owners (rd_networks db)) || apply (ssh_ok_owners (rd_networks db))); try done; intros m; apply bumped_org.
Qed.

(** The rows of an organization. *)
Definition rules_view (org : string) (db : RulesDb) :=
  (List.filter (fun r => (ru_org r =? org)%string) (rd_rules db),
   List.filter (fun r => owned_by org (network_org (rd_networks db) (sp_networkId r))) (rd_ssh db),
   List.filter (fun n => (nv_org n =? org)%string) (rd_networks db),
   List.filter (fun o => (o.1 =? org)%string) (rd_organizations db)).

Lemma outside_sub {R} (p q : R -> bool) l l' :
  (forall x, x ∈ l \/ x ∈ l' -> q x = true -> p x = false) -> outside p l l' -> List.filter q l' = List.filter q l.
Proof.
  intros Hq Ho. unfold outside in Ho.
  assert (forall k, (forall x, x ∈ k -> q x = true -> p x = false) ->
    List.filter q (List.filter (fun r => negb (p r)) k) = List.filter q k) as Hk.
  { intros k Hk. apply filter_filter_same. intros x Hx Hqx. by rewrite (Hk x Hx Hqx). }
  rewrite <- (Hk l'), Ho, Hk; [done|..]; intros x Hx; apply Hq; auto.
Qed.


Lemma tuple4_eq {A B C D} (a a' : A) (b b' : B) (c c' : C) (d d' : D) :
  a = a' -> b = b' -> c = c' -> d = d' -> (a, b, c, d) = (a', b', c', d').
Proof. by intros -> -> -> ->. Qed.

Lemma rule_change_view org db db' org' :
  org' <> org -> rule_change org db db' -> rules_view org' db' = rules_view org' db.
Proof.
  intros Hne Hc. unfold rules_view. destruct Hc as [n l Hnet _ Ho|n l Hnet _ Ho|l _ Ho]; cbn -[bumpNetworkVersion bumpOrgSnapshotVersion network_org owned_by].
  - rewrite bumpNetworkVersion_other by done. apply tuple4_eq; [| |done..].
    + apply (outside_sub (of_network org n)); [|done]. intros r _ Hr%String.eqb_eq. unfold of_network.
      by rewrite Hr, (proj2 (String.eqb_neq org' org)).
    + apply filter_ext_elem. intros r _. by rewrite bumped_org.
  - rewrite bumpNetworkVersion_other by done. apply tuple4_eq; [done| |done..].
    rewrite <- (outside_sub (ssh_of_network n) _ (rd_ssh db) l).
    + apply filter_ext_elem. intros r _. by rewrite bumped_org.
    + intros r _ Hr. unfold ssh_of_network. destruct (String.eqb_spec (sp_networkId r) n) as [E|]; [|done].
      rewrite E, Hnet in Hr. cbn in Hr. apply String.eqb_eq in Hr. congruence.
    + done.
  - rewrite bumpOrgSnapshotVersion_other by done. apply tuple4_eq; [|done..].
    apply (outside_sub (of_organization org)); [|done]. intros r _ Hr%String.eqb_eq. unfold of_organization.
    by rewrite Hr, (proj2 (String.eqb_neq org' org)).
Qed.
(** What a snapshot version identifies: the rules of a network with its SSH
    rules, and the rules of an organization. *)
Definition network_version (db : RulesDb) (n : string) : option Z :=
  nv_version <$> List.find (fun x => (nv_id x =? n)%string) (rd_networks db).
Definition org_version (db : RulesDb) (o : string) : option Z :=
  snd <$> List.find (fun x => (x.1 =? o)%string) (rd_organizations db).
Definition network_rules (db : RulesDb) (n : string) :=
  (List.filter (fun r => default false (String.eqb n <$> ru_networkId r)) (rd_rules db),
   List.filter (fun r => (sp_networkId r =? n)%string) (rd_ssh db)).
Definition org_rules (db : RulesDb) (o : string) := List.filter (of_organization o) (rd_rules db).

(** A version that does not go down, and that changes with the rules. *)
Definition identifies {R} (v v' : option Z) (rules rules' : R) : Prop :=
  match v, v' with
  | Some v, Some v' => (v <= v')%Z /\ (v' = v -> rules' = rules)
  | None, None => True
  | _, _ => False
  end.
Definition versioned (db db' : RulesDb) : Prop :=
  (forall n, identifies (network_version db n) (network_version db' n) (network_rules db n) (network_rules db' n))
  /\ (forall o, identifies (org_version db o) (org_version db' o) (org_rules db o) (org_rules db' o)).

Lemma identifies_refl {R} v (rules : R) : identifies v v rules rules.
Proof. destruct v; cbn; [split; [lia|done]|done]. Qed.
Lemma identifies_trans {R} v1 v2 v3 (r1 r2 r3 : R) : identifies v1 v2 r1 r2 -> identifies v2 v3 r2 r3 -> identifies v1 v3 r1 r3.
Proof.
  destruct v1, v2, v3; cbn; try done. intros [H1 E1] [H2 E2]. split; [lia|]. intros ->.
  rewrite E2, E1; [done|lia..].
Qed.
#[local] Instance versioned_pre : PreOrder versioned.
Proof.
  split.
  - intros db. split; intros; apply identifies_refl.
  - intros a b c [H1 H2] [H3 H4]. split; intros; by eapply identifies_trans.
Qed.

Lemma bumped_network_version n org l m :
  nv_version <$> List.find (fun x => (nv_id x =? m)%string) (bumpNetworkVersion n org l)
  = (if (m =? n)%string && owned_by org (network_org l m) then Z.succ else id)
    <$> (nv_version <$> List.find (fun x => (nv_id x =? m)%string) l).
Proof.
  unfold network_org. induction l as [|x l IH]; cbn; [done|].
  destruct (String.eqb_spec (nv_id x) m) as [<-|Hm].
  - destruct ((nv_id x =? n)%string && (nv_org x =? org)%string) eqn:E; cbn; rewrite String.eqb_refl; cbn; by rewrite E.
  - apply String.eqb_neq in Hm. destruct ((nv_id x =? n)%string && (nv_org x =? org)%string); cbn; rewrite Hm; apply IH.
Qed.
Lemma bumped_org_version org l o :
  snd <$> List.find (fun x => (x.1 =? o)%string) (bumpOrgSnapshotVersion org l)
  = (if (o =? org)%string then Z.succ else id) <$> (snd <$> List.find (fun x => (x.1 =? o)%string) l).
Proof.
  induction l as [|x l IH]; cbn; [done|]. destruct (String.eqb_spec x.1 o) as [<-|Ho].
  - destruct (x.1 =? org)%string eqn:E; cbn; rewrite String.eqb_refl; cbn; done.
  - apply String.eqb_neq in Ho. destruct (x.1 =? org)%string; cbn; rewrite Ho; apply IH.
Qed.

Lemma identifies_bump {R} v (b : bool) (r r' : R) :
  (b = false -> r' = r) -> identifies v ((if b then Z.succ else id) <$> v) r r'.
Proof. intros Hr. destruct v as [v|], b; cbn; try done; (split; [lia|]); intros; [lia|by apply Hr]. Qed.

Lemma of_network_other org n r m :
  (m =? n)%string = false -> default false (String.eqb m <$> ru_networkId r) = true -> of_network org n r = false.
Proof.
  unfold of_network. destruct (ru_networkId r) as [k|]; cbn; [|done]. intros Hm ->%String.eqb_eq.
  by rewrite Hm, andb_false_r.
Qed.

(** The rules of a network and those of an organization are apart. *)
Lemma scopes_apart networks l o r m :
  rules_ok networks l -> r ∈ l -> of_organization o r = true -> ru_networkId r = Some m -> False.
Proof.
  intros Hl Hr [_ Hs%bool_decide_eq_true]%andb_prop Hm. destruct (rl_rows _ _ Hl r Hr) as [Hok _ _ _ _].
  by rewrite Hs, Hm in Hok.
Qed.

Lemma network_change_versioned org n db l :
  rules_wf db -> network_org (rd_networks db) n = Some org -> rules_ok (rd_networks db) l ->
  outside (of_network org n) (rd_rules db) l -> versioned db (bump_net n org (with_rules db l)).
Proof.
  intros Hwf Hnet Hl Ho. unfold versioned, network_version, org_version, network_rules, org_rules.
  cbn -[bumpNetworkVersion]. split; [intros m|intros o].
  - rewrite bumped_network_version. apply identifies_bump. intros Hb. f_equal.
    assert ((m =? n)%string = false) as Hm.
    { apply String.eqb_neq. intros ->. rewrite Hnet in Hb. cbn in Hb. by rewrite !String.eqb_refl in Hb. }
    apply (outside_sub (of_network org n)); [|done]. intros r _. by apply of_network_other.
  - rewrite (outside_sub (of_network org n) _ (rd_rules db) l); [apply identifies_refl| |done]. intros r Hr Hor. unfold of_network.
    destruct (ru_networkId r) as [k|] eqn:Ek; [|apply andb_false_r].
    exfalso. destruct Hr; [eapply (scopes_apart (rd_networks db) (rd_rules db) o r k)
      |eapply (scopes_apart (rd_networks db) l o r k)]; try done; apply Hwf.
Qed.

Lemma ssh_change_versioned org n db l :
  network_org (rd_networks db) n = Some org -> outside (ssh_of_network n) (rd_ssh db) l ->
  versioned db (bump_net n org (with_ssh db l)).
Proof.
  intros Hnet Ho. unfold versioned, network_version, org_version, network_rules, org_rules.
  cbn -[bumpNetworkVersion]. split; [intros m|intros o]; [|apply identifies_refl].
  rewrite bumped_network_version. apply identifies_bump. intros Hb. f_equal. eapply outside_sub; [|done].
  intros r _ <-%String.eqb_eq. unfold ssh_of_network. destruct (String.eqb_spec (sp_networkId r) n) as [E|]; [|done].
  rewrite E, Hnet in Hb. cbn in Hb. by rewrite !String.eqb_refl in Hb.
Qed.

Lemma org_change_versioned org db l :
  rules_wf db -> rules_ok (rd_networks db) l -> outside (of_organization org) (rd_rules db) l ->
  versioned db (bump_org_rules org (with_rules db l)).
Proof.
  intros Hwf Hl Ho. unfold versioned, network_version, org_version, network_rules, org_rules.
  cbn -[bumpOrgSnapshotVersion]. split; [intros m|intros o].
  - rewrite (outside_sub (of_organization org) _ (rd_rules db) l); [apply identifies_refl| |done]. intros r Hr Hm.
    destruct (of_organization org r) eqn:Eo; [|done]. exfalso.
    destruct (ru_networkId r) as [k|] eqn:Ek; [|done].
    destruct Hr; [eapply (scopes_apart (rd_networks db) (rd_rules db) org r k)
      |eapply (scopes_apart (rd_networks db) l org r k)]; try done; apply Hwf.
  - rewrite bumped_org_version. apply identifies_bump. intros Hb. eapply outside_sub; [|done].
    intros r _ [<-%String.eqb_eq _]%andb_prop. unfold of_organization. by rewrite Hb.
Qed.

Lemma rule_change_versioned org db db' : rules_wf db -> rule_change org db db' -> versioned db db'.
Proof.
  intros Hwf [n l Hnet Hl Ho|n l Hnet Hl Ho|l Hl Ho].
  - by apply network_change_versioned.
  - by apply ssh_change_versioned.
  - by apply org_change_versioned.
Qed.

(** Every request, in a history: the tables stay well formed, the rows of the
    other organizations stay, and the versions follow. *)
Lemma history_rules h s :
  rules_wf s.1 ->
  rules_wf (serve_rules enabled billing s h).1
  /\ (forall org', Forall (fun r => r.1.1 <> org') h -> rules_view org' (serve_rules enabled billing s h).1 = rules_view org' s.1)
  /\ versioned s.1 (serve_rules enabled billing s h).1.
Proof.
  intros Hwf. induction h as [|r h IH] using rev_ind; [done|].
  destruct IH as (IHw & IHv & IHr). unfold serve_rules. rewrite foldl_app. cbn [foldl].
  fold (serve_rules enabled billing s h). set (t := serve_rules enabled billing s h) in *.
  destruct (handle_served r.1.1 r.1.2 r.2 t IHw) as [E|Hc].
  - rewrite E. split; [done|split; [|done]]. intros org' [Hf _]%Forall_app. by apply IHv.
  - split; [by eapply rule_change_wf|]. split.
    + intros org' [Hf Hr]%Forall_app. rewrite <- (IHv org' Hf). inversion_clear Hr.
      eapply rule_change_view; [|done]. congruence.
    + etransitivity; [exact IHr|]. by eapply rule_change_versioned.
Qed.
(** Whatever requests on access and SSH rules are served, in any order and by
    any organizations, the rows stay well formed: the identifiers are unique; an
    organization-wide rule denies and has no network; a rule of a network belongs
    to the organization of that network; its ports, selectors and numbers are in
    range; its slug is normalised, at most 128 long and the only one of its
    organization; an SSH rule names a user, is of an existing network and records
    only if the plan of that network's organization has recordings. *)
Theorem rules_wellformed h s : rules_wf s.1 -> rules_wf (serve_rules enabled billing s h).1.
Proof. intros Hwf. by apply history_rules. Qed.

(** The requests of other organizations leave the access rules, the SSH
    rules, the networks and the snapshot version of an organization as they are. *)
Theorem rules_isolated h s org :
  rules_wf s.1 -> Forall (fun r => r.1.1 <> org) h ->
  rules_view org (serve_rules enabled billing s h).1 = rules_view org s.1.
Proof. intros Hwf Hh. by apply history_rules. Qed.

(** C29: A snapshot version never goes down, and two moments with the same version
    of a network (of an organization) have the same rules and SSH rules of that
    network (the same organization-wide rules): an agent that has seen the
    version has seen the rules. *)
Theorem version_identifies_rules h s : rules_wf s.1 -> versioned s.1 (serve_rules enabled billing s h).1.
Proof. intros Hwf. by apply history_rules. Qed.
End Invariant.
(** ** Samples *)
Definition sample_rule : RuleRow :=
  mkRule "r1" "acme" (Some "n1") Network (Some "web") (RowTag "eng") (RowTag "web") Allow [mkRange 443 443]
    (Some proto_tcp) 10 3 false None.
Definition sample_ssh : SshRow :=
  mkSshRow "s1" "n1" (RowUser "ana") (RowTag "web") ssh_accept ["root"] false None false None 0.
Definition sample_rules : RulesDb :=
  mkRulesDb [sample_rule] [sample_ssh] [mkNetworkVersion "n1" "acme" 1; mkNetworkVersion "n2" "solo" 4]
    [("acme", 7); ("solo", 2)] [].
Definition sample_deny : CreatePolicy :=
  mkCreatePolicy (Some " No SSH, please ") RowAny (RowTag "db") Deny (Some [mkRange 22 22]) None None None None None.
Definition sample_priority : PatchPolicy :=
  mkPatchPolicy None None None None None None (Some 20) None None None.
Definition sample_requests : list (string * string * rule_request) :=
  [("acme", "ana", PqCreateOrg sample_deny "r2"); ("acme", "ana", PqPatch "n1" "r1" sample_priority);
   ("acme", "ana", PqDeleteSsh "n1" "s1"); ("acme", "ana", PqDelete "n2" "r1")].
Definition sample_served : RulesDb := (serve_rules true sample_billing (sample_rules, []) sample_requests).1.

Lemma sample_rules_wf : rules_wf true sample_billing sample_rules.
Proof.
  split.
  - apply (bool_decide_unpack _); by vm_compute.
  - apply (bool_decide_unpack _); by vm_compute.
  - split; [apply (bool_decide_unpack _); by vm_compute| |].
    + intros r ->%list_elem_of_singleton. split; try done. intros s [= <-]. split; [by vm_compute|cbn; lia].
    + intros r r' ->%list_elem_of_singleton ->%list_elem_of_singleton. done.
  - split; [apply (bool_decide_unpack _); by vm_compute|].
    intros r ->%list_elem_of_singleton. split; try done. by exists "acme".
Qed.

Lemma rules_wellformed_witness : rules_wf true sample_billing sample_served.
Proof. apply (rules_wellformed true sample_billing sample_requests (sample_rules, [])). exact sample_rules_wf. Defined.

Lemma rules_isolated_witness : rules_view "solo" sample_served = rules_view "solo" sample_rules.
Proof.
  apply (rules_isolated true sample_billing sample_requests (sample_rules, []) "solo"); [exact sample_rules_wf|].
  repeat constructor; done.
Defined.

Lemma version_identifies_rules_witness :
  versioned sample_rules sample_served
  /\ network_version sample_rules "n1" = Some 1 /\ network_version sample_served "n1" = Some 3
  /\ org_version sample_served "acme" = Some 8.
Proof.
  split; [|by vm_compute].
  apply (version_identifies_rules true sample_billing sample_requests (sample_rules, [])). exact sample_rules_wf.
Defined.

(** A patch of the priority alone takes the defaults of the other fields: the
    rule for port 443, switched off, is on for every port afterwards. *)
Lemma priority_patch_resets_rule :
  rd_rules (patchPolicy "acme" "ana" "n1" "r1" sample_priority (sample_rules, [])).1.1
  = [mkRule "r1" "acme" (Some "n1") Network (Some "web") (RowTag "eng") (RowTag "web") Allow []
       (Some proto_tcp) 20 0 true None].
Proof. by vm_compute. Qed.

(** The rule of the schema that a check has a period is not one of the patch. *)
Lemma patched_check_has_no_period :
  let check := mkPatchSsh None None (Some ssh_check) None None None None None None in
  createSshPolicyBody (mkCreateSsh RowAny RowAny ssh_check ["root"] None None None None None) = false
  /\ exists row, (patchSshPolicy true sample_billing "acme" "ana" "n1" "s1" check (sample_rules, [])).2 = Ok (Reply row)
       /\ sp_action row = ssh_check /\ sp_checkPeriodSecs row = None.
Proof. split; [by vm_compute|]. eexists. split; [by vm_compute|done]. Qed.

(** A range that ends before it starts is accepted. *)
Lemma empty_range_accepted : portRangeSchema (mkRange 443 80) = true.
Proof. by vm_compute. Qed.
(** The slug stops at 128 characters, but for a hyphen before its last one. *)
Fixpoint repeat_unit (n : nat) (c : ascii) (rest : string) : string :=
  match n with O => rest | S n => String c (repeat_unit n c rest) end.
Lemma slug_of_129_refused :
  String.length (slugifyPolicySlug (repeat_unit 200 "a" "")) = 128%nat
  /\ String.length (slugifyPolicySlug (repeat_unit 127 "a" " b")) = 129%nat
  /\ policySlugSchema (Some (repeat_unit 127 "a" " b")) = None.
Proof. by vm_compute. Qed.
