(* ===== verification/PolicyApi.v ===== *)
(** * The policy document API ([apps/management/src/api/v1/policy-document.ts],
      [api/v1/middleware/policy-auth.ts])

    The handlers for validating, diffing, simulating, applying and rolling
    back policy documents, and the check of who may call them.  Parsing of
    the texts, SHA-256, the ids of the database and better-auth's permission
    check are parameters; request bodies are given as the schemas parse them. *)
From S2P Require Import Prelude Json Codec Plans OrgBilling AuditEvent PolicyTypes Selector Simulate.
From S2P Require Import Validate TestRunner Merge Diff Hash DocumentFromRows ApiKeys Access PolicyIr.

(** ** Access *)
Inductive PolicyAuthMode := mode_read | mode_write | mode_apply.

Definition SESSION_PERMISSIONS (mode : PolicyAuthMode) : list string :=
  match mode with
  | mode_read => ["read"]
  | mode_write => ["create"; "update"; "delete"]
  | mode_apply => ["update"]
  end.

Definition API_KEY_SCOPES (mode : PolicyAuthMode) : string :=
  match mode with
  | mode_read => "policy:read" | mode_write => "policy:write" | mode_apply => "policy:apply"
  end.

(** The [onBeforeHandle] of a mode. *)
Definition requirePolicyAccess {A : AuthApi} (mode : PolicyAuthMode) (req : Request)
    (authContext : option AuthContext) (apiKeyAuth : option VerifiedApiKey) : access :=
  let orgId := orgIdFromParams (req_params req) in
  match apiKeyAuth with
  | Some key =>
      if (orgId =? "")%string || negb (vk_org key =? orgId)%string then Forbidden
      else if negb (hasScope (vk_scopes key) (API_KEY_SCOPES mode)) then Forbidden
      else Granted
  | None =>
      match authContext with
      | None => Unauthorized
      | Some auth =>
          if (orgId =? "")%string || negb (ac_organizationId auth =? orgId)%string then Forbidden
          else if negb (hasPermission (req_headers req) (ac_organizationId auth)
                          [("policy", SESSION_PERMISSIONS mode)]) then Forbidden
          else Granted
      end
  end.

Record PolicyActor := mkPolicyActor { pa_organizationId : string; pa_userId : option string; pa_apiKeyId : option string }.

(** [None]: "Policy auth context missing" is thrown. *)
Definition getPolicyActor (authContext : option AuthContext) (apiKeyAuth : option VerifiedApiKey)
    : option PolicyActor :=
  match apiKeyAuth, authContext with
  | Some key, _ => Some (mkPolicyActor (vk_org key) None (Some (vk_id key)))
  | None, Some auth => Some (mkPolicyActor (ac_organizationId auth) (Some (u_id (ac_user auth))) None)
  | None, None => None
  end.

(** A policy route: the credentials of the request, then the check. *)
Definition policy_route {A : AuthApi} (pathname : string -> string) (sha256 : bytes -> bytes)
    (argon2_verify : jstr -> jstr -> bool) (keys : KeyDb) (now : Z) (mode : PolicyAuthMode)
    (req : Request) : option AuthContext * option VerifiedApiKey * access :=
  let '(authContext, apiKeyAuth) := policyAuthPlugin pathname sha256 argon2_verify keys now req in
  (authContext, apiKeyAuth, requirePolicyAccess mode req authContext apiKeyAuth).

(** ** Requests *)
Record PolicyDocumentInput := mkDocumentInput {
  pd_format : string; pd_content : string; pd_baseRevision : option string }.

Record PolicyRequest := mkPolicyRequest {
  rq_documents : list PolicyDocumentInput;
  rq_force : bool;
  rq_baseRevision : option string
}.

(** A string that is truthy. *)
Definition nonempty_text (o : option string) : option string :=
  match o with Some s => if (s =? "")%string then None else Some s | None => None end.

(** [parsed.baseRevision ?? documents.find((doc) => doc.baseRevision)?.baseRevision] *)
Definition base_revision (rq : PolicyRequest) : option string :=
  match rq_baseRevision rq with
  | Some b => Some b
  | None =>
      match List.find (fun d => match nonempty_text (pd_baseRevision d) with Some _ => true | None => false end)
              (rq_documents rq) with
      | Some d => pd_baseRevision d
      | None => None
      end
  end.

Section Handlers.
Context {E : Type} (parseDocument : PolicyDocumentInput -> result E PolicyDocument).
Context (sha256 : bytes -> bytes) (uuidv7 : nat -> string).

(** The hexadecimal text of the hash as a string. *)
Definition string_of_units (u : jstr) : string := String.string_of_list_ascii (map ascii_of_N u).
Definition hash_text (doc : PolicyDocument) : string := string_of_units (contentHash sha256 doc).

Inductive handler_error :=
| ParseFailed (e : E + MergeConflictError)
| BillingFailed (e : billing_error)
| NoActor
| ApplyFailed (e : apply_error)
| TestsFailed (e : SelectorParseError).

Definition parse_request (documents : list PolicyDocumentInput) : result handler_error PolicyDocument :=
  match parsePolicyDocuments parseDocument documents with Ok d => Ok d | Err e => Err (ParseFailed e) end.

Record ValidateResponse := mkValidateResponse {
  re_valid : bool;
  re_errors : list ValidationIssue;
  re_warnings : list ValidationIssue;
  re_tests : option TestResults
}.

Definition validateHandler (documents : list PolicyDocumentInput) (run_tests : bool)
    : result handler_error ValidateResponse :=
  document ← parse_request documents;
  let validation := validateDocument document in
  if run_tests then
    match runTests document with
    | Err e => Err (TestsFailed e)
    | Ok results =>
        Ok (mkValidateResponse (vr_valid validation && (tr_failed results =? 0)%Z)
              (vr_errors validation) (vr_warnings validation) (Some results))
    end
  else Ok (mkValidateResponse (vr_valid validation) (vr_errors validation) (vr_warnings validation) None).

Definition diffHandler (db : Db) (orgId : string) (documents : list PolicyDocumentInput)
    : result handler_error (list DiffChange) :=
  desired ← parse_request documents;
  Ok (diffDocuments (loadOrganizationPolicyDocument db orgId) desired).

Definition simulateHandler (documents : list PolicyDocumentInput) (scenarios : list scenario)
    : result handler_error (list SimulateResult) :=
  document ← parse_request documents;
  match mapR (fun sc => simulateDocument document (mkScenario (sc_src sc) (sc_dst sc) (sc_port sc)
                          (sc_protocol sc) None)) scenarios with
  | Ok results => Ok results
  | Err e => Err (TestsFailed e)
  end.

Record DriftResponse := mkDrift { dr_hasDrift : bool; dr_liveHash : string; dr_changes : list DiffChange }.

Definition driftHandler (db : Db) (orgId : string) (rq : PolicyRequest)
    : result handler_error DriftResponse :=
  desired ← parse_request (rq_documents rq);
  let live := loadOrganizationPolicyDocument db orgId in
  let liveHash := hash_text live in
  let moved := match nonempty_text (base_revision rq) with
               | Some b => negb (b =? liveHash)%string
               | None => false
               end in
  let changes := diffDocuments live desired in
  Ok (mkDrift (moved || match changes with [] => false | _ => true end) liveHash changes).

Inductive apply_response :=
| Applied (revisionId : string) (message : string)
| Rejected (errors : list ValidationIssue)
| Conflict (message : string)
| NotFound (message : string)
| BadRequest (message : string).

(** The part of [apply] before the transaction: what is to be stored, or the
    answer. It reads the database but is not part of the transaction. *)
Definition applyCheck (enabled : bool) (bdb : BillingDb) (db : Db) (orgId : string)
    (actor : option PolicyActor) (rq : PolicyRequest)
    : result handler_error (apply_response + ApplyInput) :=
  match requirePlanFeature enabled bdb orgId policyAsCode with
  | Err e => Err (BillingFailed e)
  | Ok _ =>
      match actor with
      | None => Err NoActor
      | Some actor =>
          document ← parse_request (rq_documents rq);
          let validation := validateDocument document in
          if negb (vr_valid validation) then Ok (inl (Rejected (vr_errors validation)))
          else
            let liveHash := hash_text (loadOrganizationPolicyDocument db orgId) in
            let input := mkApplyInput orgId document
                           (match nonempty_text (pa_apiKeyId actor) with Some _ => src_api | None => src_dashboard end)
                           (pa_userId actor) (pa_apiKeyId actor) (hash_text document) in
            match nonempty_text (base_revision rq) with
            | Some b =>
                if negb (rq_force rq) && negb (b =? liveHash)%string then
                  Ok (inl (Conflict ("Policy drift detected: live hash " +:+ liveHash
                                     +:+ " does not match base revision " +:+ b)))
                else Ok (inr input)
            | None => Ok (inr input)
            end
      end
  end.

Definition applyCommit (db : Db) (input : ApplyInput) (message : string)
    : Db * result handler_error apply_response :=
  match applyPolicyDocument uuidv7 input db with
  | Ok (db', _, id) => (db', Ok (Applied id message))
  | Err e => (db, Err (ApplyFailed e))
  end.

(** [seen] is the database the checks before the transaction read, [db] the
    one the transaction runs on: other requests may commit in between. *)
Definition applyHandler (enabled : bool) (bdb : BillingDb) (seen db : Db) (orgId : string)
    (actor : option PolicyActor) (rq : PolicyRequest) : Db * result handler_error apply_response :=
  match applyCheck enabled bdb seen orgId actor rq with
  | Err e => (db, Err e)
  | Ok (inl response) => (db, Ok response)
  | Ok (inr input) => applyCommit db input "Policy applied"
  end.

(** The revision is looked up in [seen], before the transaction on [db]. *)
Definition rollbackHandler (seen db : Db) (orgId : string) (actor : option PolicyActor)
    (revisionId : string) : Db * result handler_error apply_response :=
  match actor with
  | None => (db, Err NoActor)
  | Some actor =>
      match List.find (fun r => (rv_id r =? revisionId)%string) (db_policyRevisions seen) with
      | None => (db, Ok (NotFound "Policy revision not found"))
      | Some revision =>
          if negb (rv_org revision =? orgId)%string then (db, Ok (NotFound "Policy revision not found"))
          else match rv_irSnapshot revision with
          | None => (db, Ok (BadRequest "Revision has no stored policy snapshot"))
          | Some snapshot =>
              applyCommit db
                (mkApplyInput orgId snapshot
                   (match nonempty_text (pa_apiKeyId actor) with Some _ => src_api | None => src_dashboard end)
                   (pa_userId actor) (pa_apiKeyId actor) (rv_contentHash revision))
                ("Rolled back to revision " +:+ string_of_Z (rv_version revision))
          end
      end
  end.
End Handlers.

(** ** Lemmas *)
Lemma applyCommit_Applied uuidv7 (E : Type) db input message db' r :
  applyCommit uuidv7 db input message = (db', r : result (handler_error (E := E)) apply_response) ->
  (exists event id, applyPolicyDocument uuidv7 input db = Ok (db', event, id)
                    /\ r = Ok (Applied id message))
  \/ (db' = db /\ exists e, r = Err e).
Proof.
  unfold applyCommit. destruct (applyPolicyDocument uuidv7 input db) as [[[db1 event] id]|e].
  - intros [= <- <-]. left. by exists event, id.
  - intros [= <- <-]. right. split; [done|by eexists].
Qed.

Lemma Forall2_functional {A B} (R : A -> B -> Prop) l k k' :
  (forall x y y', R x y -> R x y' -> y = y') -> Forall2 R l k -> Forall2 R l k' -> k = k'.
Proof.
  intros HR H. revert k'. induction H as [|x y l k Hxy H IH]; intros k' H'; inversion H'; subst; [done|].
  f_equal; [by eapply HR|by apply IH].
Qed.

Lemma stored_acl_functional a b b' : stored_acl a b -> stored_acl a b' -> b = b'.
Proof. intros (s & d & Hs & Hd & ->) (s' & d' & Hs' & Hd' & ->). congruence. Qed.

Lemma stored_grant_functional a b b' : stored_grant a b -> stored_grant a b' -> b = b'.
Proof. intros (s & Hs & ->) (s' & Hs' & ->). congruence. Qed.

(** The same policy, the order of its parts and the SSH rules apart. *)
Record same_policy (d d' : PolicyDocument) : Prop := {
  same_tags : tags d ≡ₚ tags d';
  same_aliases : host_aliases d ≡ₚ host_aliases d';
  same_ipsets : ip_sets d ≡ₚ ip_sets d';
  same_acls : acls d ≡ₚ acls d';
  same_grants : PolicyTypes.grants d ≡ₚ PolicyTypes.grants d';
  same_postures : postures d ≡ₚ postures d';
  same_approvers : auto_approvers d ≡ₚ auto_approvers d';
  same_attributes : node_attributes d ≡ₚ node_attributes d';
  same_tests : tests d = tests d';
  same_default : default_action d = default_action d';
  same_icmp : icmp_policy d = icmp_policy d'
}.

(** An SSH rule without its name, the id of its row. *)
Definition unnamed (rule : SshRule) : SshRule :=
  mkSshRule "" (ssh_src rule) (ssh_dst rule) (ssh_action rule) (ssh_users rule) (ssh_priority rule)
    (ssh_enabled rule).

(** A rule of a document as it is read back, without its name. *)
Definition unnamed_stored (rule : SshRule) : SshRule :=
  match parseSelectorString (default "*" (head (ssh_src rule))),
        parseSelectorString (default "*" (head (ssh_dst rule))) with
  | Ok src, Ok dst => mkSshRule "" [selectorToString src] [selectorToString dst] (ssh_action rule)
                        (ssh_users rule) (ssh_priority rule) true
  | _, _ => rule
  end.

(** [n] copies of every SSH rule of a document, one per network. *)
Definition ssh_per_network (n : nat) (rules : list SshRule) : list SshRule :=
  concat (map (fun rule => repeat (unnamed_stored rule) n) rules).

Lemma unnamed_copies rules networks l :
  Forall2 stored_ssh (ssh_copies rules networks) l ->
  map unnamed l = ssh_per_network (length networks) rules.
Proof.
  intros H. transitivity (map (fun x => unnamed_stored x.1) (ssh_copies rules networks)).
  - symmetry. induction H as [|[rule nid] r k l (name & src & dst & Hs & Hd & ->) H IH]; [done|].
    cbn [map fst]. rewrite IH. f_equal. cbn [fst] in *. unfold unnamed_stored. by rewrite Hs, Hd.
  - clear H. unfold ssh_copies, ssh_per_network. induction rules as [|rule rules IH]; cbn; [done|].
    rewrite map_app, IH. f_equal. clear IH. induction networks as [|n ns IHn]; cbn; [done|by rewrite IHn].
Qed.

(** What is loaded after an apply depends on the document alone, and for the
    SSH rules on the number of networks. *)
Lemma applied_live uuidv7 input db db' event id read :
  applyPolicyDocument uuidv7 input db = Ok (db', event, id) -> reads db' read ->
  map unnamed (ssh_rules (loadOrganizationPolicyDocument read (in_org input)))
  ≡ₚ ssh_per_network (length (network_ids db (in_org input))) (ssh_rules (in_document input)).
Proof.
  intros H Hr.
  destruct (load_reads _ _ Hr (in_org input) (applied_slugs _ _ _ _ _ _ H)) as (_&_&_&_&_&_&_&_&-> & _).
  destruct (load_applied _ _ _ _ _ _ H) as (_&_&_&_&_&_&_&_&S&_). by rewrite (unnamed_copies _ _ _ S).
Qed.

Lemma applied_same_policy uuidv7 input input' db1 db2 db1' db2' event event' id id' read1 read2 :
  applyPolicyDocument uuidv7 input db1 = Ok (db1', event, id) -> reads db1' read1 ->
  applyPolicyDocument uuidv7 input' db2 = Ok (db2', event', id') -> reads db2' read2 ->
  in_document input' = in_document input ->
  same_policy (loadOrganizationPolicyDocument read1 (in_org input))
              (loadOrganizationPolicyDocument read2 (in_org input')).
Proof.
  intros H1 R1 H2 R2 Hd.
  destruct (load_reads _ _ R1 (in_org input) (applied_slugs _ _ _ _ _ _ H1)) as (t1&a1&i1&p1&c1&g1&u1&n1&_&e1&d1&m1).
  destruct (load_reads _ _ R2 (in_org input') (applied_slugs _ _ _ _ _ _ H2)) as (t2&a2&i2&p2&c2&g2&u2&n2&_&e2&d2&m2).
  apply load_applied in H1 as (T1&A1&I1&P1&C1&G1&U1&N1&_&E1&D1&M1).
  apply load_applied in H2 as (T2&A2&I2&P2&C2&G2&U2&N2&_&E2&D2&M2). rewrite Hd in *.
  pose proof (Forall2_functional _ _ _ _ stored_acl_functional C1 C2) as HC.
  pose proof (Forall2_functional _ _ _ _ stored_grant_functional G1 G2) as HG.
  constructor; first [by rewrite t1, t2, T1, T2 | by rewrite a1, a2, A1, A2 | by rewrite i1, i2, I1, I2
    | by rewrite c1, c2, HC | by rewrite g1, g2, HG | by rewrite p1, p2, P1, P2 | by rewrite u1, u2, U1, U2
    | by rewrite n1, n2, N1, N2 | congruence].
Qed.

(** A later state of the database: documents applied for any organization, and
    changes of other tables.  Only [applyPolicyDocument] writes revisions. *)
Inductive later (uuidv7 : nat -> string) (db : Db) : Db -> Prop :=
| later_refl : later uuidv7 db db
| later_apply db1 db2 input event id :
    later uuidv7 db db1 -> applyPolicyDocument uuidv7 input db1 = Ok (db2, event, id) -> later uuidv7 db db2
| later_other db1 db2 :
    later uuidv7 db db1 -> db_policyRevisions db2 = db_policyRevisions db1 -> later uuidv7 db db2.

Lemma later_revisions uuidv7 db db' rev :
  later uuidv7 db db' -> rev ∈ db_policyRevisions db -> rev ∈ db_policyRevisions db'.
Proof.
  intros H Hin. induction H as [|db1 db2 input event id H IH Ha|db1 db2 H IH He]; [done| |by rewrite He].
  destruct (apply_tables _ _ _ _ _ _ Ha) as (ps & gs & ssh & _ & _ & _ & ->).
  cbn [db_policyRevisions]. apply elem_of_app. by left.
Qed.

(** The revision an apply recorded is found again by its id. *)
Lemma find_revision uuidv7 input db0 db1 event id seen :
  applyPolicyDocument uuidv7 input db0 = Ok (db1, event, id) -> later uuidv7 db1 seen ->
  NoDup (map rv_id (db_policyRevisions seen)) ->
  exists rev, List.find (fun r => (rv_id r =? id)%string) (db_policyRevisions seen) = Some rev
    /\ rv_org rev = in_org input /\ rv_irSnapshot rev = Some (in_document input).
Proof.
  intros Ha Hl Hn. destruct (apply_tables _ _ _ _ _ _ Ha) as (ps & gs & ssh & _ & _ & _ & E).
  set (rev := mkRevision id (in_org input) _ _ _ _ _ _) in E. exists rev. split; [|done].
  assert (rev ∈ db_policyRevisions seen) as Hin.
  { apply (later_revisions _ _ _ _ Hl). rewrite E. cbn [db_policyRevisions].
    apply elem_of_app. right. by apply list_elem_of_singleton. }
  destruct (List.find _ _) as [r|] eqn:Hf.
  - apply List.find_some in Hf as [Hr Hid%String.eqb_eq]. f_equal.
    apply (NoDup_map_inj rv_id (db_policyRevisions seen)); [done|by apply list_elem_of_In|done|done].
  - apply list_elem_of_In in Hin. apply (List.find_none _ _ Hf) in Hin.
    by rewrite String.eqb_refl in Hin.
Qed.

(** A handler that answered without touching the database. *)
Ltac unchanged := right; simplify_eq; split; [reflexivity | intros; congruence].

(** The check of a policy route, given the credentials of the request. *)
Lemma requirePolicyAccess_granted {A : AuthApi} (mode : PolicyAuthMode) (req : Request)
    (auth : option AuthContext) (key : option VerifiedApiKey) :
  requirePolicyAccess mode req auth key = Granted
  <-> orgIdFromParams (req_params req) <> ""
      /\ match key with
         | Some k => vk_org k = orgIdFromParams (req_params req)
                     /\ API_KEY_SCOPES mode ∈ vk_scopes k
         | None => exists a, auth = Some a /\ ac_organizationId a = orgIdFromParams (req_params req)
                     /\ hasPermission (req_headers req) (ac_organizationId a)
                          [("policy", SESSION_PERMISSIONS mode)] = true
         end.
Proof.
  unfold requirePolicyAccess, hasScope. set (orgId := orgIdFromParams _).
  assert (forall o, (orgId =? "")%string || negb (o =? orgId)%string = false
                    <-> orgId <> "" /\ o = orgId) as Horg.
  { intros o. rewrite orb_false_iff, negb_false_iff, String.eqb_neq, String.eqb_eq. done. }
  destruct key as [k|].
  - destruct (_ || _) eqn:E; [split; [done|]; intros (? & ? & _); by rewrite (proj2 (Horg _)) in E|].
    apply Horg in E as [? ?].
    assert (existsb (String.eqb (API_KEY_SCOPES mode)) (vk_scopes k) = true
            <-> API_KEY_SCOPES mode ∈ vk_scopes k) as <-.
    { rewrite existsb_exists. setoid_rewrite String.eqb_eq. rewrite list_elem_of_In.
      split; [by intros (? & ? & ->)|by eexists]. }
    destruct (existsb _ _); split; try done. by intros (_ & _ & ?).
  - destruct auth as [a|]; [|split; [done|]; by intros (_ & ? & ? & _)].
    destruct (_ || _) eqn:E.
    + split; [done|]. intros (? & ? & [= <-] & ? & _). by rewrite (proj2 (Horg _)) in E.
    + apply Horg in E as [? Ho]. destruct (hasPermission _ _) eqn:Hp; split; try done; eauto.
      intros (_ & ? & [= <-] & _ & ?). congruence.
Qed.

(** ** Properties *)
(** C25: A policy route answers a request only for the organization in its path,
    and only to a bearer secret that is a live key or access token of that
    organization with the scope of the route, or, without one, to a session of
    one of its members who has the permission. *)
Theorem policy_route_authorized {A : AuthApi} (pathname : string -> string) (sha256 : bytes -> bytes)
    (argon2_verify : jstr -> jstr -> bool) (keys : KeyDb) (now : Z) (db : BillingDb)
    (mode : PolicyAuthMode) (req : Request) :
  AuthLaws db ->
  (policy_route pathname sha256 argon2_verify keys now mode req).2 = Granted ->
  exists org, orgIdFromParams (req_params req) = org /\ org <> ""
    /\ ((exists secret k, bearer (req_headers req) = Some secret
            /\ live_credential sha256 argon2_verify keys (units secret) now k
            /\ vk_org k = org /\ API_KEY_SCOPES mode ∈ vk_scopes k)
        \/ (exists user role, mkMember org (u_id user) role ∈ bd_members db
            /\ (exists session, getSession (req_headers req) = Some (Some user, Some session))
            /\ hasPermission (req_headers req) org [("policy", SESSION_PERMISSIONS mode)] = true)).
Proof.
  intros Laws [Horg H]%requirePolicyAccess_granted. eexists; split; [done|]. split; [done|].
  destruct (apiKeyAuthPlugin sha256 argon2_verify keys now req) as [k|] eqn:Ek; [left|right].
  - unfold apiKeyAuthPlugin in Ek. destruct (bearer _) as [secret|]; [|done].
    destruct (secret =? "")%string; [done|]. destruct H. exists secret, k. split_and!; try done.
    eapply verifyApiKeySecret_sound, Ek.
  - destruct H as (c & Hc & <- & Hp). unfold sessionPlugin in Hc.
    destruct (resolveOrgContext_spec db Laws _ _ _ Hc) as [(s & Hs & _) Hm]. eauto 10.
Qed.

(** C21: applying changes the stored policy only for a valid document of an
    organization with the plan feature; and when the request is not forced and
    names a base revision, only if that is the hash of the policy the handler
    read before the transaction.  A request that names none is not compared.
    In every other case the database stays as it was. *)
Theorem applyHandler_spec {E : Type} (parseDocument : PolicyDocumentInput -> result E PolicyDocument)
    (sha256 : bytes -> bytes) (uuidv7 : nat -> string) (enabled : bool) (bdb : BillingDb)
    (seen db db' : Db) (orgId : string) (actor : option PolicyActor) (rq : PolicyRequest)
    (r : result (handler_error (E := E)) apply_response) :
  applyHandler parseDocument sha256 uuidv7 enabled bdb seen db orgId actor rq = (db', r) ->
  (exists input event id plan a,
     r = Ok (Applied id "Policy applied") /\ actor = Some a
     /\ applyPolicyDocument uuidv7 input db = Ok (db', event, id) /\ in_org input = orgId
     /\ in_userId input = pa_userId a /\ in_apiKeyId input = pa_apiKeyId a
     /\ in_contentHash input = hash_text sha256 (in_document input)
     /\ parsePolicyDocuments parseDocument (rq_documents rq) = Ok (in_document input)
     /\ vr_valid (validateDocument (in_document input)) = true
     /\ requirePlanFeature enabled bdb orgId policyAsCode = Ok plan
     /\ (rq_force rq = true \/ nonempty_text (base_revision rq) = None
         \/ nonempty_text (base_revision rq)
            = Some (hash_text sha256 (loadOrganizationPolicyDocument seen orgId))))
  \/ (db' = db /\ forall id message, r <> Ok (Applied id message)).
Proof.
  unfold applyHandler, applyCheck, parse_request. intros H.
  destruct (requirePlanFeature enabled bdb orgId policyAsCode) as [plan|]; [|unchanged].
  destruct actor as [a|]; [|unchanged].
  destruct (parsePolicyDocuments parseDocument (rq_documents rq)) as [doc|] eqn:Hp;
    cbn [mbind result_bind] in H; [|unchanged].
  destruct (vr_valid (validateDocument doc)) eqn:Hv; cbn [negb] in H; [|unchanged].
  set (input := mkApplyInput _ _ _ _ _ _) in *. set (live := hash_text _ (loadOrganizationPolicyDocument _ _)) in *.
  assert ((applyCommit uuidv7 db input "Policy applied" = (db', r)
           /\ (rq_force rq = true \/ nonempty_text (base_revision rq) = None
               \/ nonempty_text (base_revision rq) = Some live))
          \/ (db' = db /\ forall id message, r <> Ok (Applied id message))) as [[Hc Hb]|Hn]; [| |by right].
  { destruct (nonempty_text (base_revision rq)) as [b|]; [|left; auto].
    destruct (rq_force rq); cbn [negb andb] in H; [left; auto|].
    destruct (String.eqb_spec b live) as [Eb|]; cbn [negb] in H; [left; rewrite Eb; auto|unchanged]. }
  apply applyCommit_Applied in Hc as [(event & id & Ha & ->)|[-> [e ->]]];
    [left|right; split; [done|congruence]]. exists input, event, id, plan, a. by split_and!.
Qed.

(** C22: rolling back to the revision an apply recorded, after any number of
    later applies and other changes, restores the policy that was live after
    that apply: the same tags, aliases, address sets, rules, grants, postures,
    approvers and attributes, and the same SSH rules up to their names, one
    copy for each network the organization then has. *)
Theorem rollback_restores {E : Type} (uuidv7 : nat -> string) (input : ApplyInput)
    (db0 db1 seen db2 db3 read1 read3 : Db) (event : AuditIngestEvent) (id id' message : string)
    (actor : option PolicyActor) :
  applyPolicyDocument uuidv7 input db0 = Ok (db1, event, id) ->
  later uuidv7 db1 seen -> NoDup (map rv_id (db_policyRevisions seen)) ->
  rollbackHandler uuidv7 seen db2 (in_org input) actor id
    = (db3, Ok (Applied id' message) : result (handler_error (E := E)) apply_response) ->
  reads db1 read1 -> reads db3 read3 ->
  let before := loadOrganizationPolicyDocument read1 (in_org input) in
  let after := loadOrganizationPolicyDocument read3 (in_org input) in
  same_policy before after
  /\ map unnamed (ssh_rules before)
     ≡ₚ ssh_per_network (length (network_ids db0 (in_org input))) (ssh_rules (in_document input))
  /\ map unnamed (ssh_rules after)
     ≡ₚ ssh_per_network (length (network_ids db2 (in_org input))) (ssh_rules (in_document input)).
Proof.
  intros H1 Hl Hn H R1 R3. destruct (find_revision _ _ _ _ _ _ _ H1 Hl Hn) as (rev & Hf & Ho & Hs).
  unfold rollbackHandler in H. destruct actor as [a|]; [|done].
  rewrite Hf, Ho, String.eqb_refl, Hs in H. cbn [negb] in H.
  apply applyCommit_Applied in H as [(event' & i & H2 & _)|[_ [e He]]]; [|done].
  split_and!; [|by eapply applied_live|exact (applied_live _ _ _ _ _ _ _ H2 R3)].
  exact (applied_same_policy _ _ _ _ _ _ _ _ _ _ _ _ _ H1 R1 H2 R3 eq_refl).
Qed.

(** ** Witnesses *)
(** A parser that knows two documents. *)
Definition deny_doc : PolicyDocument :=
  mkDocument [mkTag "eng" []] [] []
    [sample_acl "deny-eng" "deny" ["tag:eng"] ["*"] [] Null Organization] [] [] [] [] [] [] Allow IcmpAllow.

Definition toy_parse (d : PolicyDocumentInput) : result string PolicyDocument :=
  if (pd_content d =? "sample")%string then Ok sample_doc
  else if (pd_content d =? "deny")%string then Ok deny_doc
  else Err "unknown document".

Definition toy_sum (m : bytes) : bytes := [(foldl N.add 0 m mod 256)%N].

Definition free_billing : BillingDb := mkBillingDb [] [] [] [] [] [] [] [] [] [].

Definition sample_user : option PolicyActor := Some (mkPolicyActor "acme" (Some "u1") None).

Definition sample_base : string := hash_text toy_sum (loadOrganizationPolicyDocument sample_db "acme").

Definition sample_request (content : string) : PolicyRequest :=
  mkPolicyRequest [mkDocumentInput "json" content None] false (Some sample_base).

Definition run_apply (db : Db) (content : string) : Db * result (handler_error (E := string)) apply_response :=
  applyHandler toy_parse toy_sum sample_id false free_billing db db "acme" sample_user (sample_request content).

Lemma applyHandler_spec_witness :
  exists input, in_org input = "acme" /\ vr_valid (validateDocument (in_document input)) = true
    /\ parsePolicyDocuments toy_parse (rq_documents (sample_request "sample")) = Ok (in_document input).
Proof.
  assert (run_apply sample_db "sample"
          = ((run_apply sample_db "sample").1, Ok (Applied "id-0" "Policy applied"))) as H
    by (vm_compute; reflexivity).
  destruct (applyHandler_spec toy_parse toy_sum sample_id false free_billing sample_db sample_db
    (run_apply sample_db "sample").1 "acme" sample_user (sample_request "sample")
    (Ok (Applied "id-0" "Policy applied")) H) as [Hok|[_ Hno]].
  - destruct Hok as (input & event & id & plan & a & _ & _ & _ & Ho & _ & _ & _ & Hp & Hv & _).
    exists input. split; [exact Ho|]. split; [exact Hv|exact Hp].
  - exfalso. eapply Hno. reflexivity.
Defined.

(** The sample is applied, then another document over it, then rolled back. *)
Definition overwrite_input : ApplyInput := mkApplyInput "acme" deny_doc src_dashboard None None "h2".

Definition overwritten : Db * AuditIngestEvent * string :=
  match applyPolicyDocument sample_id overwrite_input sample_applied.1.1 with
  | Ok r => r
  | Err _ => sample_applied
  end.

Lemma overwritten_applies :
  applyPolicyDocument sample_id overwrite_input sample_applied.1.1
  = Ok (overwritten.1.1, overwritten.1.2, overwritten.2).
Proof. vm_compute. reflexivity. Qed.

Definition rolled_back : Db :=
  (rollbackHandler (E := string) sample_id overwritten.1.1 overwritten.1.1 "acme" sample_user
     sample_applied.2).1.

Lemma overwritten_rolls_back :
  rollbackHandler (E := string) sample_id overwritten.1.1 overwritten.1.1 "acme" sample_user sample_applied.2
  = (rolled_back, Ok (Applied "id-2" "Rolled back to revision 1")).
Proof. vm_compute. reflexivity. Qed.

Lemma overwritten_ids : NoDup (map rv_id (db_policyRevisions overwritten.1.1)).
Proof. refine (bool_decide_eq_true_1 _ _). vm_compute. reflexivity. Qed.

Lemma rollback_restores_witness :
  tags (loadOrganizationPolicyDocument overwritten.1.1 "acme") = tags deny_doc
  /\ same_policy (loadOrganizationPolicyDocument sample_applied.1.1 "acme")
       (loadOrganizationPolicyDocument rolled_back "acme").
Proof.
  split; [vm_compute; reflexivity|].
  exact (proj1 (rollback_restores (E := string) sample_id sample_apply_input sample_db sample_applied.1.1
    overwritten.1.1 overwritten.1.1 rolled_back sample_applied.1.1 rolled_back sample_applied.1.2
    sample_applied.2 "id-2" "Rolled back to revision 1" sample_user sample_applies
    (later_apply _ _ _ _ _ _ _ (later_refl _ _) overwritten_applies) overwritten_ids
    overwritten_rolls_back (reads_refl _) (reads_refl _))).
Defined.

(** ** Findings *)
(** The base revision is compared outside the transaction: of two requests
    checked against the same live policy with the same base revision, both are
    stored, the second over the first, although the live policy it replaces is
    no longer the one of its base revision. *)
Theorem stale_apply_commits :
  exists input1 input2 db1 db2 id1 id2,
    applyCheck toy_parse toy_sum false free_billing sample_db "acme" sample_user (sample_request "sample")
      = Ok (inr input1)
    /\ applyCheck toy_parse toy_sum false free_billing sample_db "acme" sample_user (sample_request "deny")
      = Ok (inr input2)
    /\ applyCommit (E := string) sample_id sample_db input1 "" = (db1, Ok (Applied id1 ""))
    /\ hash_text toy_sum (loadOrganizationPolicyDocument db1 "acme") <> sample_base
    /\ applyCommit (E := string) sample_id db1 input2 "" = (db2, Ok (Applied id2 ""))
    /\ tags (loadOrganizationPolicyDocument db2 "acme") = tags deny_doc.
Proof.
  do 6 eexists. split; [vm_compute; reflexivity|]. split; [vm_compute; reflexivity|].
  split; [vm_compute; reflexivity|]. split; [vm_compute; discriminate|].
  split; [vm_compute; reflexivity|]. vm_compute. reflexivity.
Qed.

(** The live hash depends on the order the database returns rows in: the same
    two tags, read in either order, have different canonical texts, so a base
    revision can be refused although nothing changed. *)
Lemma live_hash_depends_on_order :
  exists db read, reads db read
    /\ stringify (canonicalize (document_json (loadOrganizationPolicyDocument read "acme")))
       <> stringify (canonicalize (document_json (loadOrganizationPolicyDocument db "acme"))).
Proof.
  exists (mkDb [] [] [] [mkTagRow "acme" "a" []; mkTagRow "acme" "b" []] [] [] [] [] [] [] [] [] [] [] 0).
  eexists. split; [apply reads_backwards|]. vm_compute. discriminate.
Qed.

(** A request that is not forced and names no base revision replaces the live
    policy, whatever it is. *)
Lemma unnamed_base_overwrites :
  exists db' id,
    applyHandler toy_parse toy_sum sample_id false free_billing sample_applied.1.1 sample_applied.1.1
      "acme" sample_user (mkPolicyRequest [mkDocumentInput "json" "deny" None] false None)
      = (db', Ok (Applied id "Policy applied"))
    /\ tags (loadOrganizationPolicyDocument sample_applied.1.1 "acme") = tags sample_doc
    /\ tags (loadOrganizationPolicyDocument db' "acme") = tags deny_doc.
Proof.
  do 2 eexists. split; [vm_compute; reflexivity|]. split; vm_compute; reflexivity.
Qed.

(** A document that was just applied is reported as drifted, since it is not
    stored as it was written. *)
Theorem applied_document_drifts :
  exists response,
    driftHandler toy_parse toy_sum (run_apply sample_db "sample").1 "acme"
      (mkPolicyRequest [mkDocumentInput "json" "sample" None] false None) = Ok response
    /\ dr_hasDrift response = true.
Proof. eexists. split; vm_compute; reflexivity. Qed.

Lemma policy_route_authorized_witness :
  exists user role, mkMember "acme" (u_id user) role ∈ bd_members two_orgs.
Proof.
  destruct (@policy_route_authorized (table_auth two_orgs bob true) (fun url => url) no_hash
    (fun _ _ => false) no_keys 0 two_orgs mode_apply bob_request) as (org & Horg & _ & Hr).
  - apply table_auth_laws.
  - vm_compute. reflexivity.
  - vm_compute in Horg. subst org. destruct Hr as [(secret & k & Hb & _)|(user & role & Hm & _)].
    + vm_compute in Hb. discriminate Hb.
    + exists user, role. exact Hm.
Defined.

(** API keys are not looked at by the deletion of an organization: a key of a
    deleted organization goes on opening its policy routes. *)
Lemma deleted_organization_keys_work {A : AuthApi} pathname sha256 argon2_verify keys now db db' org t
    (mode : PolicyAuthMode) (req : Request) :
  softDeleteOrganization db org t = Ok db' ->
  (exists k, apiKeyAuthPlugin sha256 argon2_verify keys now req = Some k /\ vk_org k = org
     /\ API_KEY_SCOPES mode ∈ vk_scopes k) ->
  orgIdFromParams (req_params req) = org -> org <> "" ->
  (policy_route pathname sha256 argon2_verify keys now mode req).2 = Granted.
Proof.
  intros _ (k & Hk & Ho & Hs) <- Hne. apply requirePolicyAccess_granted. rewrite Hk. auto.
Qed.
