(* ===== verification/PolicyEntities.v ===== *)
(** * Tag definitions, aliases, IP sets, grants and auto-approvers
      ([apps/management/src/api/v1/policy-entities.ts],
      [packages/api/src/management/policy-entities.ts])

    The routes that create, change and delete the entities policies refer to,
    behind the checks of [requireTagAccess] and [requirePolicyAccess].  The five
    tables share one shape, [Entity]: rows of an organization with an identifier
    and a name (or slug) that is unique in the organization.  Identifiers made by
    the database and the check that a text is a UUID are parameters. *)
From S2P Require Import Prelude Json Codec AuditEvent Notify Tx OrgBilling DocumentFromRows Ip ApiKeys TagOwnership Access PolicyIr PolicyApi Devices Credentials PolicyRules.

(** ** Tables *)
Record EntityTag := mkTagRow { te_id : string; te_row : TagDefinitionRow }.
Record EntityAlias := mkAliasRow { ha_id : string; ha_org : string; ha_name : string; ha_target : string }.
Record EntityIpSet := mkIpSetRow { is_id : string; is_org : string; is_name : string; is_entries : list string }.
Record EntityGrant := mkGrantRow {
  gr_id : string; gr_org : string; gr_networkId : option string; gr_slug : string; gr_description : option string;
  gr_srcSelectors : list RowSelector; gr_dstSelectors : list RowSelector; gr_ipRules : list json;
  gr_appCapabilities : list json; gr_priority : Z; gr_enabled : bool }.
Record EntityApprover := mkApproverRow {
  ap_id : string; ap_org : string; ap_networkId : option string; ap_slug : string;
  ap_routes : list (string * list string); ap_exitNodes : list string }.

(** The networks are pairs of an identifier and an organization. *)
Record EntitiesDb := mkEntitiesDb {
  en_tags : list EntityTag;
  en_aliases : list EntityAlias;
  en_sets : list EntityIpSet;
  en_grants : list EntityGrant;
  en_approvers : list EntityApprover;
  en_networks : list (string * string);
  en_organizations : list (string * Z);
  en_notifications : list (string * string)
}.

(** A table: its rows in the database, its keys, and what the constraints of its
    columns ask of a row. *)
Class Entity (R : Type) := {
  e_table : EntitiesDb -> list R;
  e_store : list R -> EntitiesDb -> EntitiesDb;
  e_id : R -> string;
  e_org : R -> string;
  e_key : R -> string;
  e_fits : list (string * string) -> R -> bool
}.

(** The foreign key of a network that may be missing. *)
Definition network_fits (networks : list (string * string)) (n : option string) : bool :=
  match n with Some n => existsb (fun x => (x.1 =? n)%string) networks | None => true end.

#[export] Instance tag_entity : Entity EntityTag := {|
  e_table := en_tags;
  e_store l db := mkEntitiesDb l (en_aliases db) (en_sets db) (en_grants db) (en_approvers db) (en_networks db)
                    (en_organizations db) (en_notifications db);
  e_id := te_id; e_org r := td_org (te_row r); e_key r := td_name (te_row r); e_fits _ _ := true |}.
#[export] Instance alias_entity : Entity EntityAlias := {|
  e_table := en_aliases;
  e_store l db := mkEntitiesDb (en_tags db) l (en_sets db) (en_grants db) (en_approvers db) (en_networks db)
                    (en_organizations db) (en_notifications db);
  e_id := ha_id; e_org := ha_org; e_key := ha_name; e_fits _ _ := true |}.
#[export] Instance set_entity : Entity EntityIpSet := {|
  e_table := en_sets;
  e_store l db := mkEntitiesDb (en_tags db) (en_aliases db) l (en_grants db) (en_approvers db) (en_networks db)
                    (en_organizations db) (en_notifications db);
  e_id := is_id; e_org := is_org; e_key := is_name; e_fits _ _ := true |}.
#[export] Instance grant_entity : Entity EntityGrant := {|
  e_table := en_grants;
  e_store l db := mkEntitiesDb (en_tags db) (en_aliases db) (en_sets db) l (en_approvers db) (en_networks db)
                    (en_organizations db) (en_notifications db);
  e_id := gr_id; e_org := gr_org; e_key := gr_slug;
  e_fits networks r := int4 (gr_priority r) && network_fits networks (gr_networkId r) |}.
#[export] Instance approver_entity : Entity EntityApprover := {|
  e_table := en_approvers;
  e_store l db := mkEntitiesDb (en_tags db) (en_aliases db) (en_sets db) (en_grants db) l (en_networks db)
                    (en_organizations db) (en_notifications db);
  e_id := ap_id; e_org := ap_org; e_key := ap_slug; e_fits networks r := network_fits networks (ap_networkId r) |}.

Inductive entity_error := EntityThrown (message : string).
Definition EntityTx := Tx EntitiesDb entity_error.
Definition demand (b : bool) (message : string) : EntityTx unit := if b then mret tt else throw (EntityThrown message).

Definition bump_entities (org : string) (db : EntitiesDb) : EntitiesDb :=
  let '(orgs, sent) := bumpOrgAndNotify org (en_organizations db, en_notifications db) in
  mkEntitiesDb (en_tags db) (en_aliases db) (en_sets db) (en_grants db) (en_approvers db) (en_networks db) orgs sent.
Definition notifyPolicyChange (org actor action target : string) : EntityTx unit :=
  _ ← writeAudit (mkAuditInput org actor action (Some target) [] None);
  update (bump_entities org).

(** ** Statements *)
Section Statements.
Context {R : Type} `{Entity R}.

Definition same_key (org key : string) (r : R) : bool := (e_org r =? org)%string && (e_key r =? key)%string.
Definition row_of (org i : string) (r : R) : bool := (e_id r =? i)%string && (e_org r =? org)%string.

(** [INSERT … RETURNING] *)
Definition insert_entity (row : R) : EntityTx unit :=
  db ← query (fun db => db);
  _ ← demand (negb (existsb (fun r => (e_id r =? e_id row)%string) (e_table db))) "pkey";
  _ ← demand (e_fits (en_networks db) row) "constraint";
  _ ← demand (negb (existsb (same_key (e_org row) (e_key row)) (e_table db))) "unique";
  update (e_store (e_table db ++ [row])).

(** [UPDATE … WHERE id AND organization RETURNING] *)
Definition update_entity (org i : string) (f : R -> R) : EntityTx (option R) :=
  db ← query (fun db => db);
  match List.find (row_of org i) (e_table db) with
  | None => mret None
  | Some row =>
      _ ← demand (e_fits (en_networks db) (f row)) "constraint";
      _ ← demand (negb (existsb (fun r => negb (e_id r =? i)%string && same_key org (e_key (f row)) r) (e_table db)))
            "unique";
      _ ← update (e_store (map (fun r => if row_of org i r then f r else r) (e_table db)));
      mret (Some (f row))
  end.

(** [DELETE … WHERE id AND organization RETURNING] *)
Definition delete_entity (org i : string) : EntityTx (option R) :=
  db ← query (fun db => db);
  match List.find (row_of org i) (e_table db) with
  | None => mret None
  | Some row =>
      _ ← update (e_store (List.filter (fun r => negb (row_of org i r)) (e_table db)));
      mret (Some row)
  end.

(** The transactions of the routes. *)
Definition created (org actor action : string) (row : R) : EntityTx R :=
  transaction (
    _ ← insert_entity row;
    _ ← notifyPolicyChange org actor action (e_id row);
    mret row).
Definition updated (org actor action i : string) (f : R -> R) : EntityTx (option R) :=
  transaction (
    row ← update_entity org i f;
    match row with
    | None => mret None
    | Some row => _ ← notifyPolicyChange org actor action (e_id row); mret (Some row)
    end).
Definition deleted (org actor action i : string) : EntityTx (option R) :=
  transaction (
    row ← delete_entity org i;
    match row with
    | None => mret None
    | Some row => _ ← notifyPolicyChange org actor action (e_id row); mret (Some row)
    end).
Definition or_not_found (message : string) (m : EntityTx (option R)) : EntityTx (reply R) :=
  row ← m; mret match row with Some r => Reply r | None => NotFound message end.
End Statements.
(** ** Schemas *)
Definition tagOwnerSchema (value : string) : bool :=
  (1 <=? String.length value)%nat && (String.length value <=? 256)%nat
  && (startsWith value "user:" || startsWith value "tag:" || (value =? "autogroup:admin")%string).

Record CreateTagDefinition := mkCreateTag { ct_name : string; ct_owners : option (list string) }.
Definition createTagDefinitionBody (b : CreateTagDefinition) : bool :=
  tagNameSchema (ct_name b) && forallb tagOwnerSchema (default [] (ct_owners b)).

(** The [partial()] schemas of zod 4 keep the defaults inside the optional
    properties: the parsed patch has them. *)
Record PatchTagDefinition := mkPatchTag { pt_name : option string; pt_owners : option (list string) }.
Definition patchTagDefinitionBody (b : PatchTagDefinition) : option PatchTagDefinition :=
  if match pt_name b with Some n => tagNameSchema n | None => true end
     && forallb tagOwnerSchema (default [] (pt_owners b))
  then Some (mkPatchTag (pt_name b) (Some (default [] (pt_owners b)))) else None.

Definition entity_name (name : string) : bool := (1 <=? String.length name)%nat && (String.length name <=? 128)%nat.
Definition createHostAliasBody (name target : string) : bool := entity_name name && (1 <=? String.length target)%nat.
Definition patchHostAliasBody (name target : option string) : bool :=
  match name with Some n => entity_name n | None => true end
  && match target with Some t => (1 <=? String.length t)%nat | None => true end.

Definition createIpSetBody (name : string) (entries : option (list string)) : option (string * list string) :=
  if entity_name name then Some (name, default [] entries) else None.
Definition patchIpSetBody (name : option string) (entries : option (list string))
    : option (option string * option (list string)) :=
  if match name with Some n => entity_name n | None => true end then Some (name, Some (default [] entries)) else None.

Record GrantBody := mkGrantBody {
  gb_slug : option string; gb_networkId : option string; gb_description : option string;
  gb_srcSelectors : option (list RowSelector); gb_dstSelectors : option (list RowSelector);
  gb_ipRules : option (list json); gb_appCapabilities : option (list json); gb_priority : option Z;
  gb_enabled : option bool }.

Section Schemas.
Context `{IpAddress} (uuid : string -> bool).

(** Every property of [createGrantBody] is optional or has a default, so it and
    its [partial()] accept and return the same. *)
Definition createGrantBody (b : GrantBody) : option GrantBody :=
  match policySlugSchema (gb_slug b) with
  | None => None
  | Some slug =>
      if match gb_networkId b with Some n => uuid n | None => true end
         && forallb selectorSchema (default [] (gb_srcSelectors b)) && forallb selectorSchema (default [] (gb_dstSelectors b))
      then Some (mkGrantBody slug (gb_networkId b) (gb_description b) (Some (default [] (gb_srcSelectors b)))
                   (Some (default [] (gb_dstSelectors b))) (Some (default [] (gb_ipRules b)))
                   (Some (default [] (gb_appCapabilities b))) (Some (default 0 (gb_priority b)))
                   (Some (default true (gb_enabled b))))
      else None
  end%Z.
Definition patchGrantBody (b : GrantBody) : option GrantBody := createGrantBody b.

Record ApproverBody := mkApproverBody {
  ab_slug : option string; ab_networkId : option string; ab_routes : option (list (string * list string));
  ab_exitNodes : option (list string) }.
Definition createAutoApproverBody (b : ApproverBody) : option ApproverBody :=
  match policySlugSchema (ab_slug b) with
  | None => None
  | Some slug =>
      if match ab_networkId b with Some n => uuid n | None => true end
      then Some (mkApproverBody slug (ab_networkId b) (Some (default [] (ab_routes b))) (Some (default [] (ab_exitNodes b))))
      else None
  end.
End Schemas.
(** ** Routes *)
(** Who acts: a user, or an API key. *)
Record EntityActor := mkEntityActor { ea_userId : option string; ea_apiKeyId : option string }.
(** [actor.userId ?? actor.apiKeyId ?? "system"] *)
Definition actor_name (a : EntityActor) : string :=
  match ea_userId a, ea_apiKeyId a with Some u, _ => u | None, Some k => k | None, None => "system" end.

Definition normal_owner (o : string) : string := if startsWith o "tag:" then "tag:" +:+ normalizeTagName (slice 4 o) else o.

Definition createTagDefinition (org : string) (actor : EntityActor) (body : CreateTagDefinition) (newId : string)
    : EntityTx (reply EntityTag) :=
  _ ← demand (createTagDefinitionBody body) "ZodError";
  let name := normalizeTagName (ct_name body) in
  let create owners :=
    row ← created org (actor_name actor) "tag_definition.created" (mkTagRow newId (mkTagDefinition org name owners));
    mret (Reply row) in
  match map normal_owner (default [] (ct_owners body)) with
  | [] =>
      match truthy_text (ea_userId actor) with
      | Some u => create [defaultOwnerForUser u]
      | None => mret (BadRequest "Tag definition requires at least one owner")
      end
  | owners => create owners
  end.

Definition patch_tag (p : PatchTagDefinition) (r : EntityTag) : EntityTag :=
  mkTagRow (te_id r) (mkTagDefinition (td_org (te_row r))
    (match pt_name p with Some n => normalizeTagName n | None => td_name (te_row r) end)
    (match pt_owners p with Some l => map normal_owner l | None => td_owners (te_row r) end)).
Definition patchTagDefinition (org : string) (actor : EntityActor) (i : string) (body : PatchTagDefinition)
    : EntityTx (reply EntityTag) :=
  parsed ← or_throw (patchTagDefinitionBody body) (EntityThrown "ZodError");
  match pt_owners parsed with
  | Some [] => mret (BadRequest "Tag definition requires at least one owner")
  | _ => or_not_found "Tag definition not found" (updated org (actor_name actor) "tag_definition.updated" i (patch_tag parsed))
  end.
Definition deleteTagDefinition (org : string) (actor : EntityActor) (i : string) : EntityTx (reply EntityTag) :=
  or_not_found "Tag definition not found" (deleted org (actor_name actor) "tag_definition.deleted" i).

Definition createHostAlias (org : string) (actor : EntityActor) (name target newId : string) : EntityTx (reply EntityAlias) :=
  _ ← demand (createHostAliasBody name target) "ZodError";
  row ← created org (actor_name actor) "host_alias.created" (mkAliasRow newId org name target);
  mret (Reply row).
Definition patch_alias (name target : option string) (r : EntityAlias) : EntityAlias :=
  mkAliasRow (ha_id r) (ha_org r) (default (ha_name r) name) (default (ha_target r) target).
Definition patchHostAlias (org : string) (actor : EntityActor) (i : string) (name target : option string)
    : EntityTx (reply EntityAlias) :=
  _ ← demand (patchHostAliasBody name target) "ZodError";
  _ ← demand (given name || given target) "No values to set";
  or_not_found "Host alias not found" (updated org (actor_name actor) "host_alias.updated" i (patch_alias name target)).
Definition deleteHostAlias (org : string) (actor : EntityActor) (i : string) : EntityTx (reply EntityAlias) :=
  or_not_found "Host alias not found" (deleted org (actor_name actor) "host_alias.deleted" i).

Definition createIpSet (org : string) (actor : EntityActor) (name : string) (entries : option (list string)) (newId : string)
    : EntityTx (reply EntityIpSet) :=
  parsed ← or_throw (createIpSetBody name entries) (EntityThrown "ZodError");
  row ← created org (actor_name actor) "ip_set.created" (mkIpSetRow newId org parsed.1 parsed.2);
  mret (Reply row).
Definition patch_set (p : option string * option (list string)) (r : EntityIpSet) : EntityIpSet :=
  mkIpSetRow (is_id r) (is_org r) (default (is_name r) p.1) (default (is_entries r) p.2).
Definition patchIpSet (org : string) (actor : EntityActor) (i : string) (name : option string) (entries : option (list string))
    : EntityTx (reply EntityIpSet) :=
  parsed ← or_throw (patchIpSetBody name entries) (EntityThrown "ZodError");
  or_not_found "IP set not found" (updated org (actor_name actor) "ip_set.updated" i (patch_set parsed)).
Definition deleteIpSet (org : string) (actor : EntityActor) (i : string) : EntityTx (reply EntityIpSet) :=
  or_not_found "IP set not found" (deleted org (actor_name actor) "ip_set.deleted" i).

Section Grants.
Context `{IpAddress} (uuid : string -> bool).

(** The column of the slug is not null. *)
Definition grant_of (i org : string) (b : GrantBody) (slug : string) : EntityGrant :=
  mkGrantRow i org (gb_networkId b) slug (gb_description b) (default [] (gb_srcSelectors b))
    (default [] (gb_dstSelectors b)) (default [] (gb_ipRules b)) (default [] (gb_appCapabilities b))
    (default 0%Z (gb_priority b)) (default true (gb_enabled b)).
Definition createGrant (org : string) (actor : EntityActor) (body : GrantBody) (newId : string) : EntityTx (reply EntityGrant) :=
  parsed ← or_throw (createGrantBody uuid body) (EntityThrown "ZodError");
  slug ← or_throw (gb_slug parsed) (EntityThrown "null value in column slug");
  row ← created org (actor_name actor) "grant.created" (grant_of newId org parsed slug);
  mret (Reply row).
Definition patch_grant (p : GrantBody) (r : EntityGrant) : EntityGrant :=
  mkGrantRow (gr_id r) (gr_org r)
    (match gb_networkId p with Some n => Some n | None => gr_networkId r end)
    (default (gr_slug r) (gb_slug p))
    (match gb_description p with Some d => Some d | None => gr_description r end)
    (default (gr_srcSelectors r) (gb_srcSelectors p)) (default (gr_dstSelectors r) (gb_dstSelectors p))
    (default (gr_ipRules r) (gb_ipRules p)) (default (gr_appCapabilities r) (gb_appCapabilities p))
    (default (gr_priority r) (gb_priority p)) (default (gr_enabled r) (gb_enabled p)).
Definition patchGrant (org : string) (actor : EntityActor) (i : string) (body : GrantBody) : EntityTx (reply EntityGrant) :=
  parsed ← or_throw (patchGrantBody uuid body) (EntityThrown "ZodError");
  or_not_found "Grant not found" (updated org (actor_name actor) "grant.updated" i (patch_grant parsed)).
Definition deleteGrant (org : string) (actor : EntityActor) (i : string) : EntityTx (reply EntityGrant) :=
  or_not_found "Grant not found" (deleted org (actor_name actor) "grant.deleted" i).

Definition createAutoApprover (org : string) (actor : EntityActor) (body : ApproverBody) (newId : string)
    : EntityTx (reply EntityApprover) :=
  parsed ← or_throw (createAutoApproverBody uuid body) (EntityThrown "ZodError");
  slug ← or_throw (ab_slug parsed) (EntityThrown "null value in column slug");
  row ← created org (actor_name actor) "auto_approver.created"
          (mkApproverRow newId org (ab_networkId parsed) slug (default [] (ab_routes parsed)) (default [] (ab_exitNodes parsed)));
  mret (Reply row).
Definition deleteAutoApprover (org : string) (actor : EntityActor) (i : string) : EntityTx (reply EntityApprover) :=
  or_not_found "Auto approver not found" (deleted org (actor_name actor) "auto_approver.deleted" i).
End Grants.
(** ** Requests *)
Inductive tag_op :=
| TagCreate (body : CreateTagDefinition) (newId : string)
| TagPatch (i : string) (body : PatchTagDefinition)
| TagDelete (i : string).
Inductive entity_op :=
| AliasCreate (name target newId : string)
| AliasPatch (i : string) (name target : option string)
| AliasDelete (i : string)
| SetCreate (name : string) (entries : option (list string)) (newId : string)
| SetPatch (i : string) (name : option string) (entries : option (list string))
| SetDelete (i : string)
| GrantCreate (body : GrantBody) (newId : string)
| GrantPatch (i : string) (body : GrantBody)
| GrantDelete (i : string)
| ApproverCreate (body : ApproverBody) (newId : string)
| ApproverDelete (i : string).

Definition discard {X} (m : EntityTx X) : EntityTx unit := _ ← m; mret tt.
Definition handle_tag (org : string) (actor : EntityActor) (op : tag_op) : EntityTx unit :=
  match op with
  | TagCreate body i => discard (createTagDefinition org actor body i)
  | TagPatch i body => discard (patchTagDefinition org actor i body)
  | TagDelete i => discard (deleteTagDefinition org actor i)
  end.

(** A request, with the credentials stored and the time when it is served. *)
Record EntityRequest := mkEntityRequest {
  er_keys : KeyDb; er_now : Z; er_request : Request; er_op : tag_op + entity_op }.
Definition er_org (r : EntityRequest) : string := orgIdFromParams (req_params (er_request r)).

Section Requests.
Context `{IpAddress} (uuid : string -> bool).
Context {A : AuthApi} (pathname : string -> string).
Context (sha256 : bytes -> bytes) (argon2_verify : jstr -> jstr -> bool).

Definition handle_entity (org : string) (actor : EntityActor) (op : entity_op) : EntityTx unit :=
  match op with
  | AliasCreate name target i => discard (createHostAlias org actor name target i)
  | AliasPatch i name target => discard (patchHostAlias org actor i name target)
  | AliasDelete i => discard (deleteHostAlias org actor i)
  | SetCreate name entries i => discard (createIpSet org actor name entries i)
  | SetPatch i name entries => discard (patchIpSet org actor i name entries)
  | SetDelete i => discard (deleteIpSet org actor i)
  | GrantCreate body i => discard (createGrant uuid org actor body i)
  | GrantPatch i body => discard (patchGrant uuid org actor i body)
  | GrantDelete i => discard (deleteGrant org actor i)
  | ApproverCreate body i => discard (createAutoApprover uuid org actor body i)
  | ApproverDelete i => discard (deleteAutoApprover org actor i)
  end.

(** Tag definitions are behind [requireTagAccess("write")], the other entities
    behind [requirePolicyAccess("write")]. *)
Definition entity_access (r : EntityRequest) : option AuthContext * option VerifiedApiKey * access :=
  match er_op r with
  | inl _ => requireTagAccess sha256 argon2_verify (er_keys r) (er_now r) tag_write (er_request r)
  | inr _ => policy_route pathname sha256 argon2_verify (er_keys r) (er_now r) mode_write (er_request r)
  end.

Definition entity_route (r : EntityRequest) : EntityTx unit :=
  let '(authContext, apiKeyAuth, verdict) := entity_access r in
  match verdict with
  | Granted =>
      match er_op r with
      | inl op =>
          actor ← or_throw (getTagActor authContext apiKeyAuth None) (EntityThrown "Tag auth context missing");
          handle_tag (er_org r) (mkEntityActor (ta_userId (ra_actor (tr_actor actor))) (tr_apiKeyId actor)) op
      | inr op =>
          actor ← or_throw (getPolicyActor authContext apiKeyAuth) (EntityThrown "Policy auth context missing");
          handle_entity (er_org r) (mkEntityActor (pa_userId actor) (pa_apiKeyId actor)) op
      end
  | _ => mret tt
  end.
Definition serve_entities (s : state EntitiesDb) (h : list EntityRequest) : state EntitiesDb :=
  foldl (fun s r => (entity_route r s).1) s h.
End Requests.
(** ** Well-formed tables *)
(** Names are keys inside an organization, identifiers everywhere. *)
Record table_ok {R} `{Entity R} (ok : R -> Prop) (l : list R) : Prop := mkTableOk {
  tb_ids : NoDup (map e_id l);
  tb_keys : forall r r', r ∈ l -> r' ∈ l -> e_org r = e_org r' -> e_key r = e_key r' -> e_id r = e_id r';
  tb_rows : forall r, r ∈ l -> ok r
}.

Section TableLemmas.
Context {R : Type} `{Entity R} (ok : R -> Prop).
Implicit Types (l : list R) (r row : R).

Lemma same_key_spec org key r : same_key org key r = true <-> e_org r = org /\ e_key r = key.
Proof. unfold same_key. by rewrite andb_true_iff, !String.eqb_eq. Qed.
Lemma row_of_spec org i r : row_of org i r = true <-> e_id r = i /\ e_org r = org.
Proof. unfold row_of. by rewrite andb_true_iff, !String.eqb_eq. Qed.

Lemma existsb_false_elem (p : R -> bool) l r : existsb p l = false -> r ∈ l -> p r = false.
Proof.
  intros Hl Hr. destruct (p r) eqn:E; [|done]. rewrite <- Hl. symmetry. apply existsb_exists. exists r.
  split; [by apply list_elem_of_In|done].
Qed.

Lemma table_insert l row :
  table_ok ok l -> existsb (fun r => (e_id r =? e_id row)%string) l = false ->
  existsb (same_key (e_org row) (e_key row)) l = false -> ok row -> table_ok ok (l ++ [row]).
Proof.
  intros [Hi Hk Hr] Hid Hkey Hrow.
  assert (forall r, r ∈ l -> e_org r = e_org row -> e_key r = e_key row -> False) as Hfresh.
  { intros r Hin Ho Hkk. pose proof (existsb_false_elem _ _ _ Hkey Hin) as Hf.
    assert (same_key (e_org row) (e_key row) r = true) by (by apply same_key_spec). congruence. }
  split.
  - rewrite map_app. apply list.NoDup_app. split; [done|]. split; [|apply NoDup_singleton].
    intros x (r & -> & Hin)%list_elem_of_fmap He%list_elem_of_singleton.
    pose proof (existsb_false_elem _ _ _ Hid Hin) as Hf. cbn in Hf. by rewrite He, String.eqb_refl in Hf.
  - intros r r' [H1|H1%list_elem_of_singleton]%elem_of_app [H2|H2%list_elem_of_singleton]%elem_of_app Ho Hkk; subst; try done.
    + by apply Hk.
    + by destruct (Hfresh r).
    + by destruct (Hfresh r').
  - intros r [H1|H1%list_elem_of_singleton]%elem_of_app; subst; auto.
Qed.

Lemma table_delete l (p : R -> bool) : table_ok ok l -> table_ok ok (List.filter p l).
Proof.
  intros [Hi Hk Hr]. split; [by apply NoDup_map_filter| |].
  - intros r r' [H1 _]%elem_of_filter_bool [H2 _]%elem_of_filter_bool. by apply Hk.
  - intros r [H1 _]%elem_of_filter_bool. auto.
Qed.

Lemma ids_inj l r r' : table_ok ok l -> r ∈ l -> r' ∈ l -> e_id r = e_id r' -> r = r'.
Proof. intros [Hi _ _] Hr Hr' He. by eapply NoDup_map_inj. Qed.

Lemma table_update l org i (f : R -> R) row :
  table_ok ok l -> List.find (row_of org i) l = Some row ->
  (forall r, e_id (f r) = e_id r /\ e_org (f r) = e_org r) -> ok (f row) ->
  existsb (fun r => negb (e_id r =? i)%string && same_key org (e_key (f row)) r) l = false ->
  table_ok ok (map (fun r => if row_of org i r then f r else r) l).
Proof.
  intros Hok [Hin Hrow]%List.find_some Hf Hnew Hkey. apply list_elem_of_In in Hin.
  apply row_of_spec in Hrow as [Hid Horg].
  assert (forall r, r ∈ l -> row_of org i r = true -> r = row) as Honly.
  { intros r Hr [He _]%row_of_spec. apply (ids_inj l); congruence. }
  assert (forall r, r ∈ l -> e_org r = org -> e_key r = e_key (f row) -> e_id r = i) as Hfree.
  { intros r Hr Ho Hkk. pose proof (existsb_false_elem _ _ _ Hkey Hr) as Hx. cbn in Hx.
    assert (same_key org (e_key (f row)) r = true) as Hs by (by apply same_key_spec). rewrite Hs, andb_true_r in Hx.
    apply negb_false_iff in Hx. by apply String.eqb_eq. }
  pose proof Hok as [Hi Hk Hr]. split.
  - rewrite map_map. erewrite map_ext; [exact Hi|]. intros r. cbn. destruct (row_of org i r); [apply Hf|done].
  - intros x x' (r & -> & H1)%list_elem_of_fmap (r' & -> & H2)%list_elem_of_fmap.
    destruct (row_of org i r) eqn:E1, (row_of org i r') eqn:E2.
    + rewrite (Honly r H1 E1), (Honly r' H2 E2). done.
    + rewrite (Honly r H1 E1), !(proj1 (Hf row)), (proj2 (Hf row)), Hid, Horg. intros Ho Hkk. symmetry. by apply Hfree.
    + rewrite (Honly r' H2 E2), !(proj1 (Hf row)), (proj2 (Hf row)), Hid, Horg. intros Ho Hkk. by apply Hfree.
    + by apply Hk.
  - intros x (r & -> & H1)%list_elem_of_fmap. destruct (row_of org i r) eqn:E1; [by rewrite (Honly r H1 E1)|auto].
Qed.
End TableLemmas.
(** ** What the transactions change *)
Class EntityLaws (R : Type) `{Entity R} := {
  e_table_store : forall l db, e_table (e_store l db) = l;
  e_networks_store : forall l db, en_networks (e_store l db) = en_networks db
}.
#[export] Instance tag_laws : EntityLaws EntityTag.
Proof. by split. Qed.
#[export] Instance alias_laws : EntityLaws EntityAlias.
Proof. by split. Qed.
#[export] Instance set_laws : EntityLaws EntityIpSet.
Proof. by split. Qed.
#[export] Instance grant_laws : EntityLaws EntityGrant.
Proof. by split. Qed.
#[export] Instance approver_laws : EntityLaws EntityApprover.
Proof. by split. Qed.

(** The rows of an organization in one table have changed, which is announced. *)
Definition changed {R} `{Entity R} (ok : R -> Prop) (org : string) (db db' : EntitiesDb) : Prop :=
  exists l, table_ok ok l /\ outside (fun r => (e_org r =? org)%string) (e_table db) l
            /\ db' = bump_entities org (e_store l db).

Section Transactions.
Context {R : Type} `{EntityLaws R} (ok : list (string * string) -> R -> Prop).
Notation valid s := (table_ok (ok (en_networks s.1)) (e_table s.1)).
Notation effect org s s' := (s'.1 = s.1 \/ changed (ok (en_networks s.1)) org s.1 s'.1).

Lemma demand_cases b message s :
  (b = true /\ demand b message s = (s, Ok tt)) \/ (b = false /\ demand b message s = (s, Err (EntityThrown message))).
Proof. destruct b; [by left|by right]. Qed.

Lemma created_effect org actor action row s :
  valid s -> e_org row = org -> (e_fits (en_networks s.1) row = true -> ok (en_networks s.1) row) ->
  effect org s (created org actor action row s).1.
Proof.
  intros Hv Ho Hok. unfold created, insert_entity, transaction, query, mbind, tx_mbind, tx_bind.
  destruct (demand_cases (negb (existsb (fun r => (e_id r =? e_id row)%string) (e_table s.1))) "pkey" s)
    as [[E1 ->]|[_ ->]]; [|by left].
  destruct (demand_cases (e_fits (en_networks s.1) row) "constraint" s) as [[E2 ->]|[_ ->]]; [|by left].
  destruct (demand_cases (negb (existsb (same_key (e_org row) (e_key row)) (e_table s.1))) "unique" s)
    as [[E3 ->]|[_ ->]]; [|by left].
  right. exists (e_table s.1 ++ [row]). split; [|split; [|done]].
  - apply negb_true_iff in E1, E3. apply table_insert; auto.
  - apply outside_snoc. by apply String.eqb_eq.
Qed.

Lemma updated_effect org actor action i f s :
  valid s -> (forall r, e_id (f r) = e_id r /\ e_org (f r) = e_org r) ->
  (forall r, r ∈ e_table s.1 -> ok (en_networks s.1) r -> e_fits (en_networks s.1) (f r) = true -> ok (en_networks s.1) (f r)) ->
  effect org s (updated org actor action i f s).1.
Proof.
  intros Hv Hf Hok. unfold updated, update_entity, transaction, query, mbind, tx_mbind, tx_bind.
  destruct (List.find (row_of org i) (e_table s.1)) as [row|] eqn:E; [|by left].
  destruct (demand_cases (e_fits (en_networks s.1) (f row)) "constraint" s) as [[E2 ->]|[_ ->]]; [|by left].
  destruct (demand_cases (negb (existsb (fun r => negb (e_id r =? i)%string && same_key org (e_key (f row)) r)
    (e_table s.1))) "unique" s) as [[E3 ->]|[_ ->]]; [|by left].
  right. eexists. split; [|split; [|done]].
  - apply negb_true_iff in E3. eapply table_update; try done.
    pose proof E as [Hin _]%List.find_some. apply list_elem_of_In in Hin. apply Hok; [done| |done]. by apply Hv.
  - clear -Hf. unfold outside. induction (e_table s.1) as [|r l IH]; cbn; [done|].
    destruct (row_of org i r) eqn:Er.
    + rewrite (proj2 (Hf r)). apply row_of_spec in Er as [_ ->]. rewrite String.eqb_refl. exact IH.
    + by rewrite IH.
Qed.

Lemma deleted_effect org actor action i s : valid s -> effect org s (deleted org actor action i s).1.
Proof.
  intros Hv. unfold deleted, delete_entity, transaction, query, mbind, tx_mbind, tx_bind.
  destruct (List.find (row_of org i) (e_table s.1)) as [row|] eqn:E; [|by left].
  right. eexists. split; [|split; [|done]].
  - by apply table_delete.
  - apply outside_filter. intros r [_ Ho]%row_of_spec. by apply String.eqb_eq.
Qed.

Lemma or_not_found_effect message (m : EntityTx (option R)) s : (or_not_found message m s).1 = (m s).1.
Proof. unfold or_not_found, mbind, tx_mbind, tx_bind. by destruct (m s) as [? []]. Qed.
End Transactions.

Lemma discard_effect {X} (m : EntityTx X) s : (discard m s).1 = (m s).1.
Proof. unfold discard, mbind, tx_mbind, tx_bind. by destruct (m s) as [? []]. Qed.
Lemma replied_effect {X} (m : EntityTx X) s : ((row ← m; mret (Reply row)) s : _ * result entity_error (reply X)).1 = (m s).1.
Proof. unfold mbind, tx_mbind, tx_bind. by destruct (m s) as [? []]. Qed.
(** ** Valid rows *)
Definition owner_kind (o : string) : bool :=
  startsWith o "user:" || startsWith o "tag:" || (o =? "autogroup:admin")%string.
Definition slug_ok (s : string) : Prop := is_slug s /\ (String.length s <= 128)%nat.

(** A tag has an owner. *)
Record tag_ok (r : EntityTag) : Prop := mkTagOk {
  tk_name : tagNameSchema (td_name (te_row r)) = true;
  tk_owned : td_owners (te_row r) <> [];
  tk_owners : forallb owner_kind (td_owners (te_row r)) = true
}.
Definition alias_ok (r : EntityAlias) : Prop := entity_name (ha_name r) = true /\ ha_target r <> "".
Definition set_ok (r : EntityIpSet) : Prop := entity_name (is_name r) = true.
Definition approver_ok (networks : list (string * string)) (r : EntityApprover) : Prop :=
  slug_ok (ap_slug r) /\ network_fits networks (ap_networkId r) = true.

Section Valid.
Context `{IpAddress} (uuid : string -> bool).

Record grant_ok (networks : list (string * string)) (r : EntityGrant) : Prop := mkGrantOk {
  go_slug : slug_ok (gr_slug r);
  go_src : forallb selectorSchema (gr_srcSelectors r) = true;
  go_dst : forallb selectorSchema (gr_dstSelectors r) = true;
  go_fits : e_fits networks r = true
}.

Record entities_wf (db : EntitiesDb) : Prop := mkEntitiesWf {
  ew_tags : table_ok tag_ok (en_tags db);
  ew_aliases : table_ok alias_ok (en_aliases db);
  ew_sets : table_ok set_ok (en_sets db);
  ew_grants : table_ok (grant_ok (en_networks db)) (en_grants db);
  ew_approvers : table_ok (approver_ok (en_networks db)) (en_approvers db)
}.

Inductive entity_change (org : string) (db db' : EntitiesDb) : Prop :=
| tags_changed : changed tag_ok org db db' -> entity_change org db db'
| aliases_changed : changed alias_ok org db db' -> entity_change org db db'
| sets_changed : changed set_ok org db db' -> entity_change org db db'
| grants_changed : changed (grant_ok (en_networks db)) org db db' -> entity_change org db db'
| approvers_changed : changed (approver_ok (en_networks db)) org db db' -> entity_change org db db'.
Definition entity_step (org : string) (db db' : EntitiesDb) : Prop := db' = db \/ entity_change org db db'.

(** *** The routes *)
Lemma normal_owner_kind o : tagOwnerSchema o = true -> owner_kind (normal_owner o) = true.
Proof.
  intros [_ Hk]%andb_prop. unfold normal_owner. destruct (startsWith o "tag:") eqn:E; [|unfold owner_kind; by rewrite E].
  unfold owner_kind. assert (startsWith ("tag:" +:+ normalizeTagName (slice 4 o)) "tag:" = true) as ->.
  { apply startsWith_iff. by eexists. }
  by rewrite orb_true_r.
Qed.
Lemma normal_owners_kind l : forallb tagOwnerSchema l = true -> forallb owner_kind (map normal_owner l) = true.
Proof.
  intros Hl. rewrite forallb_forall in *. intros x (o & <- & Ho)%List.in_map_iff. by apply normal_owner_kind, Hl.
Qed.
Lemma default_owner_kind u : owner_kind (defaultOwnerForUser u) = true.
Proof.
  unfold owner_kind, defaultOwnerForUser. assert (startsWith ("user:" +:+ u) "user:" = true) as ->; [|done].
  apply startsWith_iff. by eexists.
Qed.

Lemma created_step {R} `{EntityLaws R} (ok : list (string * string) -> R -> Prop) org actor action row s :
  table_ok (ok (en_networks s.1)) (e_table s.1) ->
  (forall db', changed (ok (en_networks s.1)) org s.1 db' -> entity_change org s.1 db') ->
  e_org row = org -> (e_fits (en_networks s.1) row = true -> ok (en_networks s.1) row) ->
  entity_step org s.1 (created org actor action row s).1.1.
Proof. intros Hv Hc Ho Hok. destruct (created_effect ok org actor action row s Hv Ho Hok); [by left|right; auto]. Qed.
Lemma updated_step {R} `{EntityLaws R} (ok : list (string * string) -> R -> Prop) org actor action i f message s :
  table_ok (ok (en_networks s.1)) (e_table s.1) ->
  (forall db', changed (ok (en_networks s.1)) org s.1 db' -> entity_change org s.1 db') ->
  (forall r, e_id (f r) = e_id r /\ e_org (f r) = e_org r) ->
  (forall r, ok (en_networks s.1) r -> e_fits (en_networks s.1) (f r) = true -> ok (en_networks s.1) (f r)) ->
  entity_step org s.1 (or_not_found message (updated org actor action i f) s).1.1.
Proof.
  intros Hv Hc Hf Hok. rewrite or_not_found_effect.
  destruct (updated_effect ok org actor action i f s Hv Hf (fun r _ => Hok r)); [by left|right; auto].
Qed.
Lemma deleted_step {R} `{EntityLaws R} (ok : list (string * string) -> R -> Prop) org actor action i message s :
  table_ok (ok (en_networks s.1)) (e_table s.1) ->
  (forall db', changed (ok (en_networks s.1)) org s.1 db' -> entity_change org s.1 db') ->
  entity_step org s.1 (or_not_found message (deleted (R := R) org actor action i) s).1.1.
Proof.
  intros Hv Hc. rewrite or_not_found_effect.
  destruct (deleted_effect ok org actor action i s Hv); [by left|right; auto].
Qed.

Lemma tag_row_ok name owners i org :
  tagNameSchema name = true -> owners <> [] -> forallb owner_kind owners = true ->
  tag_ok (mkTagRow i (mkTagDefinition org (normalizeTagName name) owners)).
Proof. intros Hn Ho Hk. by split; cbn; rewrite ?normalize_valid. Qed.

Lemma createTagDefinition_step org actor body i s :
  entities_wf s.1 -> entity_step org s.1 (createTagDefinition org actor body i s).1.1.
Proof.
  intros Hwf. unfold createTagDefinition, createTagDefinitionBody. unfold mbind at 1, tx_mbind at 1, tx_bind at 1.
  destruct (demand_cases (tagNameSchema (ct_name body) && forallb tagOwnerSchema (default [] (ct_owners body))) "ZodError" s)
    as [[[Hn Ho]%andb_prop ->]|[_ ->]]; [|by left].
  apply normal_owners_kind in Ho. cbn zeta beta.
  destruct (map normal_owner (default [] (ct_owners body))) as [|o l].
  - destruct (truthy_text (ea_userId actor)) as [u|]; [|by left]. rewrite replied_effect.
    apply (created_step (fun _ => tag_ok)); [apply Hwf|by constructor|done|]. intros _.
    apply tag_row_ok; [done..|]. cbn. by rewrite default_owner_kind.
  - rewrite replied_effect. apply (created_step (fun _ => tag_ok)); [apply Hwf|by constructor|done|]. intros _.
    by apply tag_row_ok.
Qed.
Lemma patchTagDefinition_step org actor body i s :
  entities_wf s.1 -> entity_step org s.1 (patchTagDefinition org actor i body s).1.1.
Proof.
  intros Hwf. unfold patchTagDefinition, patchTagDefinitionBody. destruct (_ && _) eqn:E; [|by left].
  apply andb_prop in E as [Hn Ho]. apply normal_owners_kind in Ho. unfold mbind, tx_mbind, tx_bind. cbn -[or_not_found].
  destruct (default [] (pt_owners body)) as [|o l] eqn:El; [by left|].
  apply (updated_step (fun _ => tag_ok)); [apply Hwf|by constructor|done|]. intros r [H1 H2 H3] _.
  split; cbn; [|done|done]. destruct (pt_name body); [by rewrite normalize_valid|done].
Qed.
(** A step of a handler after its body is parsed. *)
Lemma demand_step {X} b message (m : EntityTx X) org s :
  (b = true -> entity_step org s.1 (m s).1.1) -> entity_step org s.1 ((_ ← demand b message; m) s).1.1.
Proof. intros Hm. destruct b; [by apply Hm|by left]. Qed.
Lemma parsed_step {X Y} (o : option Y) e (m : Y -> EntityTx X) org s :
  (forall y, o = Some y -> entity_step org s.1 (m y s).1.1) -> entity_step org s.1 ((y ← or_throw o e; m y) s).1.1.
Proof. intros Hm. destruct o; [by apply Hm|by left]. Qed.

Lemma createHostAlias_step org actor name target i s :
  entities_wf s.1 -> entity_step org s.1 (createHostAlias org actor name target i s).1.1.
Proof.
  intros Hwf. apply demand_step. intros [Hn Ht%Nat.leb_le]%andb_prop. rewrite replied_effect.
  apply (created_step (fun _ => alias_ok)); [apply Hwf|by constructor|done|]. intros _. split; [done|].
  cbn. intros ->. cbn in Ht. lia.
Qed.
Lemma patchHostAlias_step org actor name target i s :
  entities_wf s.1 -> entity_step org s.1 (patchHostAlias org actor i name target s).1.1.
Proof.
  intros Hwf. apply demand_step. intros [Hn Ht]%andb_prop. apply demand_step. intros _.
  apply (updated_step (fun _ => alias_ok)); [apply Hwf|by constructor|done|]. intros r [H1 H2] _. split; cbn.
  - by destruct name.
  - destruct target as [t|]; [|done]. cbn. intros ->. done.
Qed.

Lemma createIpSet_step org actor name entries i s :
  entities_wf s.1 -> entity_step org s.1 (createIpSet org actor name entries i s).1.1.
Proof.
  intros Hwf. apply parsed_step. unfold createIpSetBody. intros p Hp. destruct (entity_name name) eqn:E; [|done].
  injection Hp as <-. rewrite replied_effect. by apply (created_step (fun _ => set_ok)); [apply Hwf|constructor| |].
Qed.
Lemma patchIpSet_step org actor name entries i s :
  entities_wf s.1 -> entity_step org s.1 (patchIpSet org actor i name entries s).1.1.
Proof.
  intros Hwf. apply parsed_step. unfold patchIpSetBody. intros p Hp. case_match eqn:E; [|done]. injection Hp as <-.
  apply (updated_step (fun _ => set_ok)); [apply Hwf|by constructor|done|]. intros r Hr _. unfold set_ok. cbn.
  by destruct name.
Qed.

Lemma createGrantBody_ok b p :
  createGrantBody uuid b = Some p ->
  (forall s, gb_slug p = Some s -> slug_ok s) /\ forallb selectorSchema (default [] (gb_srcSelectors p)) = true
  /\ forallb selectorSchema (default [] (gb_dstSelectors p)) = true.
Proof.
  unfold createGrantBody. destruct (policySlugSchema (gb_slug b)) as [slug|] eqn:Es; [|done].
  destruct (_ && _ && _) eqn:E; [|done]. intros [= <-]. apply andb_prop in E as [[_ ?]%andb_prop ?].
  split; [|done]. cbn. intros s ->. by eapply policySlugSchema_ok.
Qed.
Lemma createGrant_step org actor body i s :
  entities_wf s.1 -> entity_step org s.1 (createGrant uuid org actor body i s).1.1.
Proof.
  intros Hwf. apply parsed_step. intros p (Hs & H1 & H2)%createGrantBody_ok. apply parsed_step. intros slug Hslug.
  rewrite replied_effect. apply (created_step grant_ok); [apply Hwf|by constructor|done|]. intros Hf.
  split; [by apply Hs|done|done|done].
Qed.
Lemma patchGrant_step org actor body i s :
  entities_wf s.1 -> entity_step org s.1 (patchGrant uuid org actor i body s).1.1.
Proof.
  intros Hwf. apply parsed_step. intros p (Hs & H1 & H2)%createGrantBody_ok.
  apply (updated_step grant_ok); [apply Hwf|by constructor|done|]. intros r [G1 G2 G3 G4] Hf. split; [| | |done]; cbn.
  - destruct (gb_slug p); [by apply Hs|done].
  - by destruct (gb_srcSelectors p).
  - by destruct (gb_dstSelectors p).
Qed.

Lemma createAutoApprover_step org actor body i s :
  entities_wf s.1 -> entity_step org s.1 (createAutoApprover uuid org actor body i s).1.1.
Proof.
  intros Hwf. apply parsed_step. unfold createAutoApproverBody. intros p Hp.
  destruct (policySlugSchema (ab_slug body)) as [slug|] eqn:Es; [|done]. case_match; [|done]. injection Hp as <-.
  apply parsed_step. cbn. intros sl ->. rewrite replied_effect.
  apply (created_step approver_ok); [apply Hwf|by constructor|done|]. intros Hf. split; [|done].
  by eapply policySlugSchema_ok.
Qed.

Lemma handle_tag_step org actor op s : entities_wf s.1 -> entity_step org s.1 (handle_tag org actor op s).1.1.
Proof.
  intros Hwf. destruct op; cbn [handle_tag]; rewrite discard_effect.
  - by apply createTagDefinition_step.
  - by apply patchTagDefinition_step.
  - by apply (deleted_step (fun _ => tag_ok)); [apply Hwf|constructor].
Qed.
Lemma handle_entity_step org actor op s : entities_wf s.1 -> entity_step org s.1 (handle_entity uuid org actor op s).1.1.
Proof.
  intros Hwf. destruct op; cbn [handle_entity]; rewrite discard_effect;
    auto using createHostAlias_step, patchHostAlias_step, createIpSet_step, patchIpSet_step, createGrant_step,
      patchGrant_step, createAutoApprover_step.
  - by apply (deleted_step (fun _ => alias_ok)); [apply Hwf|constructor].
  - by apply (deleted_step (fun _ => set_ok)); [apply Hwf|constructor].
  - by apply (deleted_step grant_ok); [apply Hwf|constructor].
  - by apply (deleted_step approver_ok); [apply Hwf|constructor].
Qed.
(** *** Consequences *)
Definition of_org {R} `{Entity R} (org : string) (db : EntitiesDb) : list R :=
  List.filter (fun r => (e_org r =? org)%string) (e_table db).
(** The entities of an organization. *)
Definition entities_of (org : string) (db : EntitiesDb)
    : list EntityTag * list EntityAlias * list EntityIpSet * list EntityGrant * list EntityApprover :=
  (of_org org db, of_org org db, of_org org db, of_org org db, of_org org db).
Definition entity_version (db : EntitiesDb) (org : string) : option Z :=
  snd <$> List.find (fun x => (x.1 =? org)%string) (en_organizations db).

Lemma entity_change_wf org db db' : entities_wf db -> entity_change org db db' -> entities_wf db'.
Proof. intros [H1 H2 H3 H4 H5] [(l & Hl & _ & ->)|(l & Hl & _ & ->)|(l & Hl & _ & ->)|(l & Hl & _ & ->)|(l & Hl & _ & ->)]; by split. Qed.

Lemma outside_org {R} `{Entity R} org org' l l' :
  org' <> org -> outside (fun r => (e_org r =? org)%string) l l' ->
  List.filter (fun r => (e_org r =? org')%string) l' = List.filter (fun r => (e_org r =? org')%string) l.
Proof.
  intros Hne Ho. eapply outside_sub; [|exact Ho]. intros r _ Hr%String.eqb_eq. apply String.eqb_neq. congruence.
Qed.
Lemma entity_change_other org org' db db' :
  org' <> org -> entity_change org db db' -> entities_of org' db' = entities_of org' db.
Proof.
  intros Hne [(l & _ & Ho & ->)|(l & _ & Ho & ->)|(l & _ & Ho & ->)|(l & _ & Ho & ->)|(l & _ & Ho & ->)];
    apply (outside_org _ org') in Ho; try done; unfold entities_of, of_org; cbn in *; by rewrite Ho.
Qed.
Lemma entity_change_organizations org db db' :
  entity_change org db db' -> en_organizations db' = bumpOrgSnapshotVersion org (en_organizations db).
Proof. by intros [(l & _ & _ & ->)|(l & _ & _ & ->)|(l & _ & _ & ->)|(l & _ & _ & ->)|(l & _ & _ & ->)]. Qed.

Lemma entity_change_version org db db' o :
  entity_change org db db' -> identifies (entity_version db o) (entity_version db' o) (entities_of o db) (entities_of o db').
Proof.
  intros Hc. unfold entity_version. rewrite (entity_change_organizations _ _ _ Hc), bumped_org_version.
  apply identifies_bump. intros Ho%String.eqb_neq. by eapply entity_change_other.
Qed.

Context {A : AuthApi} (pathname : string -> string).
Context (sha256 : bytes -> bytes) (argon2_verify : jstr -> jstr -> bool).
Notation access_of r := (entity_access pathname sha256 argon2_verify r).2.
Notation route r := (entity_route uuid pathname sha256 argon2_verify r).
Notation serve := (serve_entities uuid pathname sha256 argon2_verify).

Lemma entity_route_step r s :
  entities_wf s.1 ->
  (route r s).1.1 = s.1 \/ (access_of r = Granted /\ entity_change (er_org r) s.1 (route r s).1.1).
Proof.
  intros Hwf. unfold entity_route. destruct (entity_access _ _ _ r) as [[auth key] verdict]. cbn [snd].
  destruct verdict; try by left. destruct (er_op r) as [op|op].
  - destruct (getTagActor auth key None) as [actor|]; [|by left]. cbn [or_throw].
    unfold mbind, tx_mbind, tx_bind, tx_ret.
    destruct (handle_tag_step (er_org r) (mkEntityActor (ta_userId (ra_actor (tr_actor actor))) (tr_apiKeyId actor)) op s Hwf);
      auto.
  - destruct (getPolicyActor auth key) as [actor|]; [|by left]. cbn [or_throw].
    unfold mbind, tx_mbind, tx_bind, tx_ret.
    destruct (handle_entity_step (er_org r) (mkEntityActor (pa_userId actor) (pa_apiKeyId actor)) op s Hwf); auto.
Qed.

Lemma history_entities h s :
  entities_wf s.1 ->
  entities_wf (serve s h).1
  /\ (forall org, Forall (fun r => er_org r = org -> access_of r <> Granted) h ->
        entities_of org (serve s h).1 = entities_of org s.1)
  /\ (forall org, identifies (entity_version s.1 org) (entity_version (serve s h).1 org)
        (entities_of org s.1) (entities_of org (serve s h).1)).
Proof.
  intros Hwf. induction h as [|r h IH] using rev_ind.
  { split; [done|]. split; [done|]. intros org. apply identifies_refl. }
  destruct IH as (IHw & IHa & IHv). unfold serve_entities. rewrite foldl_app. cbn [foldl].
  fold (serve s h). set (t := serve s h) in *. destruct (entity_route_step r t IHw) as [E|[Ha Hc]].
  - rewrite E. split; [done|]. split; [|done]. intros org [Hf _]%Forall_app. by apply IHa.
  - split; [by eapply entity_change_wf|]. split.
    + intros org [Hf Hr]%Forall_app. rewrite <- (IHa org Hf). inversion_clear Hr as [|? ? Hn _].
      eapply entity_change_other; [|exact Hc]. intros ->. by apply Hn.
    + intros org. eapply identifies_trans; [apply IHv|]. by eapply entity_change_version.
Qed.

(** Over every history of requests on tag definitions, aliases, IP sets, grants
    and auto-approvers the tables stay well formed: identifiers are unique, names
    and slugs are unique in an organization, every tag definition has a valid
    name and at least one owner, slugs are normalised, selectors are valid and
    the networks that are named exist. *)
Theorem entities_wellformed h s : entities_wf s.1 -> entities_wf (serve s h).1.
Proof. intros Hwf. by apply history_entities. Qed.


(** The snapshot version of an organization never goes down, and as long as
    it is the same the entities of the organization are the same. *)
Theorem version_identifies_entities h s org :
  entities_wf s.1 ->
  identifies (entity_version s.1 org) (entity_version (serve s h).1 org) (entities_of org s.1) (entities_of org (serve s h).1).
Proof. intros Hwf. by apply history_entities. Qed.
End Valid.
(** ** The owner of a new tag *)
(** The definitions as [lib/tag-ownership.ts] reads them. *)
Definition tag_view (db : EntitiesDb) (deviceTags : list DeviceTagRow) (devices : list (string * string)) : TagDb :=
  mkTagDb (map te_row (en_tags db)) deviceTags devices (en_organizations db) (en_notifications db).

Lemma created_Ok {R} `{EntityLaws R} org actor action (row r : R) s s' :
  created org actor action row s = (s', Ok r) ->
  r = row /\ existsb (same_key (e_org row) (e_key row)) (e_table s.1) = false
  /\ s'.1 = bump_entities org (e_store (e_table s.1 ++ [row]) s.1).
Proof.
  unfold created, insert_entity, transaction, query, mbind, tx_mbind, tx_bind.
  destruct (demand_cases (negb (existsb (fun r => (e_id r =? e_id row)%string) (e_table s.1))) "pkey" s)
    as [[E1 ->]|[_ ->]]; [|done].
  destruct (demand_cases (e_fits (en_networks s.1) row) "constraint" s) as [[E2 ->]|[_ ->]]; [|done].
  destruct (demand_cases (negb (existsb (same_key (e_org row) (e_key row)) (e_table s.1))) "unique" s)
    as [[E3 ->]|[_ ->]]; [|done].
  cbn. intros [= <- <-]. apply negb_true_iff in E3. done.
Qed.

Lemma find_new_definition l org name owners i :
  existsb (same_key org name) l = false ->
  List.find (fun d => (td_org d =? org)%string && (td_name d =? name)%string)
    (map te_row (l ++ [mkTagRow i (mkTagDefinition org name owners)])) = Some (mkTagDefinition org name owners).
Proof.
  induction l as [|r l IH]; cbn; [by rewrite !String.eqb_refl|]. intros [Hr Hl]%orb_false_iff.
  unfold same_key in Hr. cbn in Hr. rewrite Hr. by apply IH.
Qed.

(** A member who creates a tag definition without owners may assign the tag,
    whatever their role and the tags of their devices. *)
Theorem creator_assigns_tag org u email endpoint body i s s' row deviceTags devices :
  createTagDefinition org (mkEntityActor (Some u) None) body i s = (s', Ok (Reply row)) ->
  default [] (ct_owners body) = [] ->
  canAssignTag (tag_view s'.1 deviceTags devices) org (mkTagActor (Some u) email false endpoint) (ct_name body) = Some true.
Proof.
  unfold createTagDefinition. intros Hc Ho. rewrite Ho in Hc. apply tx_bind_Ok in Hc as (s1 & [] & Hd & Hc).
  assert (s1 = s) as -> by (destruct (createTagDefinitionBody body); by inversion Hd). clear Hd.
  cbn in Hc. destruct (String.eqb_spec u "") as [|Hu]; [done|].
  apply tx_bind_Ok in Hc as (s2 & r & Hr & Hm). injection Hm as -> <-.
  apply created_Ok in Hr as (-> & Hkey & Hs).
  destruct (canAssignTag_decides (tag_view s'.1 deviceTags devices) org (mkTagActor (Some u) email false endpoint) (ct_name body))
    as (b & -> & Hb).
  f_equal. apply Hb. right. eexists. split.
  - unfold find_definition, tag_view. rewrite Hs. cbn -[map app]. by apply find_new_definition.
  - cbn. eapply (reaches_direct _ _ _ _ (defaultOwnerForUser u)); [by left|]. unfold direct, defaultOwnerForUser.
    assert (startsWith ("user:" +:+ u) "user:" = true) as -> by (apply startsWith_iff; by eexists).
    assert (("user:" +:+ u =? "autogroup:admin")%string = false) as -> by done.
    change 5%nat with (String.length "user:"). rewrite slice_app. unfold user_matches. cbn [ta_userId truthy_text].
    by rewrite (proj2 (String.eqb_neq u "") Hu), String.eqb_refl.
Qed.

(** ** Samples *)
Definition sample_entities : EntitiesDb :=
  mkEntitiesDb [mkTagRow "t1" (mkTagDefinition "acme" "ops" ["user:bob"])]
    [mkAliasRow "h1" "beta" "db" "10.0.0.9"]
    [mkIpSetRow "i1" "acme" "office" ["192.0.2.0/24"]]
    [mkGrantRow "g1" "acme" (Some "n1") "ops-web" None [RowTag "ops"] [RowTag "web"] [] [] 5 false] []
    [("n1", "acme"); ("n2", "beta")] [("acme", 7%Z); ("beta", 2%Z)] [].
Definition bob_asks (op : tag_op + entity_op) : EntityRequest := mkEntityRequest no_keys 0 bob_request op.
Definition no_grant : GrantBody := mkGrantBody None None None None None None None None None.
Definition sample_entity_requests : list EntityRequest :=
  [bob_asks (inl (TagCreate (mkCreateTag "web" None) "t2"));
   bob_asks (inr (AliasCreate "db" "10.0.0.7" "h2"));
   bob_asks (inr (GrantPatch "g1" no_grant));
   bob_asks (inr (SetDelete "i1"))].
Definition permitted_server : AuthApi := table_auth two_orgs bob true.
Definition entities_after : EntitiesDb :=
  (@serve_entities _ any_uuid permitted_server (fun url => url) no_hash (fun _ _ => false) (sample_entities, [])
     sample_entity_requests).1.
Definition entities_refused : EntitiesDb :=
  (@serve_entities _ any_uuid (table_auth two_orgs bob false) (fun url => url) no_hash (fun _ _ => false)
     (sample_entities, []) sample_entity_requests).1.

Lemma table_ok_nil {R} `{Entity R} (ok : R -> Prop) : table_ok ok [].
Proof. split; [constructor|..]; intros r; [intros r'|]; by intros ?%elem_of_nil. Qed.
Lemma table_ok_one {R} `{Entity R} (ok : R -> Prop) row : ok row -> table_ok ok [row].
Proof. intros Hok. apply (table_insert ok []); [apply table_ok_nil|done..]. Qed.
Lemma sample_entities_wf : entities_wf sample_entities.
Proof.
  split; [apply table_ok_one..|apply table_ok_nil].
  - by split.
  - by split.
  - done.
  - split; [split; [by vm_compute|cbn; lia]|done|done|done].
Qed.

(** The tag, the alias and the grant are there, the version has moved by four. *)
Lemma entities_wellformed_witness :
  entities_wf entities_after /\ length (en_tags entities_after) = 2%nat /\ length (en_aliases entities_after) = 2%nat.
Proof.
  split; [|by vm_compute].
  apply (@entities_wellformed _ any_uuid permitted_server (fun url => url) no_hash (fun _ _ => false)
    sample_entity_requests (sample_entities, [])).
  exact sample_entities_wf.
Defined.


Lemma version_identifies_entities_witness :
  identifies (entity_version sample_entities "acme") (entity_version entities_after "acme")
    (entities_of "acme" sample_entities) (entities_of "acme" entities_after)
  /\ entity_version entities_after "acme" = Some 11%Z.
Proof.
  split; [|by vm_compute].
  apply (@version_identifies_entities _ any_uuid permitted_server (fun url => url) no_hash (fun _ _ => false)
    sample_entity_requests (sample_entities, []) "acme").
  exact sample_entities_wf.
Defined.

Definition web_created :=
  createTagDefinition "acme" (mkEntityActor (Some "bob") None) (mkCreateTag "web" None) "t2" (sample_entities, []).
Lemma creator_assigns_tag_witness :
  canAssignTag (tag_view web_created.1.1 [] []) "acme" (mkTagActor (Some "bob") None false None) "web" = Some true.
Proof.
  apply (creator_assigns_tag "acme" "bob" None None (mkCreateTag "web" None) "t2" (sample_entities, []) web_created.1
    (mkTagRow "t2" (mkTagDefinition "acme" "web" ["user:bob"])) [] []); by vm_compute.
Defined.

(** A tag cannot be renamed by a patch of its name: the schema adds [owners: []],
    which the handler refuses. *)
Lemma tag_rename_refused org actor i name s :
  tagNameSchema name = true ->
  (patchTagDefinition org actor i (mkPatchTag (Some name) None) s).2
  = Ok (BadRequest "Tag definition requires at least one owner").
Proof. intros Hn. unfold patchTagDefinition, patchTagDefinitionBody. cbn [pt_name]. by rewrite Hn. Qed.

(** Renaming an IP set empties it. *)
Lemma set_rename_empties :
  en_sets (patchIpSet "acme" (mkEntityActor (Some "bob") None) "i1" (Some "hq") None (sample_entities, [])).1.1
  = [mkIpSetRow "i1" "acme" "hq" []].
Proof. by vm_compute. Qed.

(** Any patch of a grant takes the defaults of the fields it does not name: this
    one, which names none, removes the selectors and switches the grant on. *)
Lemma empty_patch_resets_grant :
  en_grants (patchGrant any_uuid "acme" (mkEntityActor (Some "bob") None) "g1" no_grant (sample_entities, [])).1.1
  = [mkGrantRow "g1" "acme" (Some "n1") "ops-web" None [] [] [] [] 0 true].
Proof. by vm_compute. Qed.

(** A grant can name a network of another organization. *)
Lemma grant_for_foreign_network :
  exists row, (createGrant any_uuid "acme" (mkEntityActor (Some "bob") None)
    (mkGrantBody (Some "g2") (Some "n2") None None None None None None None) "g2" (sample_entities, [])).2 = Ok (Reply row)
    /\ gr_networkId row = Some "n2" /\ ("n2", "beta") ∈ en_networks sample_entities.
Proof. eexists. split; [by vm_compute|]. split; [done|]. right. left. Qed.

(** The schema lets the slug of a grant be missing, the column does not. *)
Lemma grant_without_slug_throws :
  createGrantBody any_uuid no_grant <> None
  /\ (createGrant any_uuid "acme" (mkEntityActor (Some "bob") None) no_grant "g2" (sample_entities, [])).2
     = Err (EntityThrown "null value in column slug").
Proof. split; by vm_compute. Qed.

