(* ===== verification/RustStd.v ===== *)
(** * Text of the Rust programs

    What the Rust sources use of [str]: white space and ASCII case, unsigned
    numbers, and splitting.  A string holds the code points of the text, up to
    255. *)
From S2P Require Import Prelude.

(** [char::is_whitespace]. *)
Definition is_whitespace (c : ascii) : bool :=
  between 9 13 c || (code c =? 32)%N || (code c =? 133)%N || (code c =? 160)%N.

Fixpoint trim_start (s : string) : string :=
  match s with
  | EmptyString => EmptyString
  | String c r => if is_whitespace c then trim_start r else s
  end.

Fixpoint trim_end (s : string) : string :=
  match s with
  | EmptyString => EmptyString
  | String c r =>
      match trim_end r with
      | EmptyString => if is_whitespace c then EmptyString else String c EmptyString
      | r' => String c r'
      end
  end.

Definition rs_trim (s : string) : string := trim_end (trim_start s).

Definition ascii_lower (c : ascii) : ascii :=
  if between 65 90 c then ascii_of_N (code c + 32) else c.

Fixpoint to_ascii_lowercase (s : string) : string :=
  match s with
  | EmptyString => EmptyString
  | String c r => String (ascii_lower c) (to_ascii_lowercase r)
  end.

Definition eq_ignore_ascii_case (s t : string) : bool :=
  (to_ascii_lowercase s =? to_ascii_lowercase t)%string.

Definition is_ascii_hexdigit (c : ascii) : bool :=
  is_digit c || between 65 70 c || between 97 102 c.

(** [s.parse()] at an unsigned type with values below [bound]: digits after an
    optional plus sign. *)
Definition parse_unsigned (bound : Z) (s : string) : option Z :=
  let ds := match s with String c r => if Ascii.eqb c "+" then r else s | _ => s end in
  if (ds =? "")%string || negb (all_units is_digit ds) then None
  else if (digits_value ds <? bound)%Z then Some (digits_value ds) else None.

Definition parse_u8 : string -> option Z := parse_unsigned (2 ^ 8).
Definition parse_u16 : string -> option Z := parse_unsigned (2 ^ 16).

Definition strip_prefix (p s : string) : option string :=
  if startsWith s p then Some (slice (String.length p) s) else None.

Fixpoint split_once (sep : ascii) (s : string) : option (string * string) :=
  match s with
  | EmptyString => None
  | String c r =>
      if Ascii.eqb c sep then Some (EmptyString, r)
      else match split_once sep r with
           | Some (a, b) => Some (String c a, b)
           | None => None
           end
  end.

(** [s.rsplitn(2, sep)] when it yields two parts: the text before and after the
    last separator. *)
Definition rsplit_once (sep : ascii) (s : string) : option (string * string) :=
  match rev (split_unit sep s) with
  | last :: b :: before => Some (join (String sep "") (rev (b :: before)), last)
  | _ => None
  end.

(** [s.strip_suffix(p)] *)
Fixpoint strip_suffix (p s : string) : option string :=
  if (s =? p)%string then Some EmptyString
  else match s with
       | EmptyString => None
       | String c r => match strip_suffix p r with Some x => Some (String c x) | None => None end
       end.

(** [s.len()]: the bytes of the UTF-8 text. *)
Fixpoint rs_len (s : string) : nat :=
  match s with
  | EmptyString => 0
  | String c r => (if (code c <? 128)%N then 1 else 2) + rs_len r
  end.

(** [s.trim_end_matches(c)] for one character. *)
Fixpoint trim_end_matches (ch : ascii) (s : string) : string :=
  match s with
  | EmptyString => EmptyString
  | String c r =>
      match trim_end_matches ch r with
      | EmptyString => if Ascii.eqb c ch then EmptyString else String c EmptyString
      | r' => String c r'
      end
  end.

(** ** Lemmas *)
Lemma eq_ignore_ascii_case_refl s : eq_ignore_ascii_case s s = true.
Proof. apply String.eqb_refl. Qed.

Lemma ascii_lower_idemp c : ascii_lower (ascii_lower c) = ascii_lower c.
Proof. destruct c as [[] [] [] [] [] [] [] []]; reflexivity. Qed.

Lemma to_ascii_lowercase_idemp s : to_ascii_lowercase (to_ascii_lowercase s) = to_ascii_lowercase s.
Proof. induction s as [|c s IH]; cbn; [done|]. by rewrite ascii_lower_idemp, IH. Qed.

(** A decimal number below the bound is read back. *)
Lemma parse_unsigned_string_of_Z bound n :
  (0 <= n < bound)%Z -> parse_unsigned bound (string_of_Z n) = Some n.
Proof.
  intros Hn. rewrite string_of_Z_nonneg by lia.
  destruct (string_of_N_spec (Z.to_N n)) as (c & ds & -> & Hd & Hv).
  assert (Ascii.eqb c "+"%char = false) as Hc
    by (apply is_digit_not_sign; by apply andb_prop in Hd as [??]).
  unfold parse_unsigned. rewrite Hc, Hd, Hv. cbn [String.eqb negb orb].
  rewrite Z2N.id by lia. by rewrite (proj2 (Z.ltb_lt n bound)) by lia.
Qed.

(** What is read is below the bound. *)
Lemma parse_unsigned_bound bound s n : parse_unsigned bound s = Some n -> (0 <= n < bound)%Z.
Proof.
  unfold parse_unsigned. set (ds := match s with String c r => _ | _ => _ end).
  destruct ((ds =? "")%string || _); [done|].
  destruct (digits_value ds <? bound)%Z eqn:E; [|done]. intros [= <-].
  split; [|lia]. unfold digits_value. case_match; lia.
Qed.

Lemma split_once_lacks sep a b :
  lacks sep a = true -> split_once sep (a +:+ String sep b) = Some (a, b).
Proof.
  induction a as [|c a IH]; intros H.
  - rewrite app_Empty_l. cbn [split_once]. by rewrite Ascii.eqb_refl.
  - rewrite app_String. cbn [split_once]. apply andb_prop in H as [Hc%negb_true_iff Ha].
    rewrite Hc. by rewrite IH.
Qed.
