(* ===== verification/NetPolicy.v ===== *)
(** * Policy bundles on the agent ([crates/tunnet-common/src/policy.rs])

    The rules an agent enforces, their evaluation against a flow, the SSH
    rules, the merge of the organization's bundle with a network's, and the
    signature check.  [Action] and [DefaultAction] are the type [action] of the
    policy documents, [RuleScope] is [rule_scope], [IcmpPolicy] is [icmp].
    The crates [ipnet], [base64] and [ed25519_dalek] and the serialisation of
    the signed tuple are parameters. *)
From S2P Require Import Prelude PolicyTypes RustStd.

(** ** Addresses *)
Inductive IpAddr := V4 (a : Z) | V6 (a : Z).
#[export] Instance IpAddr_eq_dec : EqDecision IpAddr.
Proof. solve_decision. Defined.

(** [ipnet::IpNet] with the one method the policy uses. *)
Class IpNetLib := { IpNet : Type; net_contains : IpNet -> IpAddr -> bool }.

(** ** Data *)
Inductive Protocol := Tcp | Udp | Icmp | Icmpv6 | AnyProtocol | OtherProtocol (n : Z).
#[export] Instance Protocol_eq_dec : EqDecision Protocol.
Proof. solve_decision. Defined.

Definition from_ip_number (n : Z) : Protocol :=
  if (n =? 6)%Z then Tcp
  else if (n =? 17)%Z then Udp
  else if (n =? 1)%Z then Icmp
  else if (n =? 58)%Z then Icmpv6
  else OtherProtocol n.

Definition ip_number (p : Protocol) : option Z :=
  match p with
  | Tcp => Some 6%Z
  | Udp => Some 17%Z
  | Icmp => Some 1%Z
  | Icmpv6 => Some 58%Z
  | AnyProtocol => None
  | OtherProtocol n => Some n
  end.

Definition matches_rule (self : Protocol) (rule : option Protocol) : bool :=
  match rule with
  | None | Some AnyProtocol => true
  | Some p => bool_decide (p = self)
  end.

Definition is_icmp (p : Protocol) : bool :=
  match p with Icmp | Icmpv6 => true | _ => false end.

Record PortRange := mkPortRange { pr_start : Z; pr_end : Z }.
#[export] Instance PortRange_eq_dec : EqDecision PortRange.
Proof. solve_decision. Defined.

Definition port_contains (r : PortRange) (p : Z) : bool :=
  (pr_start r <=? p)%Z && (p <=? pr_end r)%Z.

Inductive EvalReason :=
| OrgDeny | NetworkDeny | NetworkAllow | DefaultAllow | DefaultDeny | IcmpPolicyReason | PostureSkip.
#[export] Instance EvalReason_eq_dec : EqDecision EvalReason.
Proof. solve_decision. Defined.

Record EvalVerdict := mkVerdict {
  ev_action : action;
  ev_reason : EvalReason;
  ev_rule_slug : option string;
  ev_scope : option rule_scope
}.

Inductive SshAction := SshAccept | SshCheck | SshDeny.
Inductive Direction := Inbound | Outbound.

(** [posture_enforcement] of a bundle. *)
Record PostureEnforcementConfig := mkEnforcement {
  pe_mode : string;
  pe_grace_period_minutes : Z;
  pe_recheck_on_fail_secs : Z;
  pe_notify_user : bool;
  pe_notify_admin : bool;
  pe_auto_reauthorize : bool
}.

Definition default_enforcement : PostureEnforcementConfig :=
  mkEnforcement "monitor" 30 60 true false true.

Section Bundles.
Context {L : IpNetLib}.

Inductive Selector :=
| SAny
| SEndpoint (id : string)
| STag (t : string)
| SNetwork (n : string)
| SCidr (net : IpNet)
| SUser (id : string).

Record PolicyRule := mkPolicyRule {
  r_src : Selector;
  r_dst : Selector;
  r_action : action;
  r_ports : list PortRange;
  r_protocol : option Protocol;
  r_priority : Z;
  r_order_index : Z;
  r_scope : rule_scope;
  r_enabled : bool;
  r_slug : option string;
  r_src_posture : list string
}.

Record SshPolicyRule := mkSshRule {
  s_src : Selector;
  s_dst : Selector;
  s_action : SshAction;
  s_users : list string;
  s_record : bool;
  s_recorder : option Selector;
  s_enforce_recorder : bool;
  s_check_period_secs : option Z;
  s_priority : Z
}.

Record PolicyBundle := mkBundle {
  b_rules : list PolicyRule;
  b_ssh_rules : list SshPolicyRule;
  b_version : Z;
  b_signature : string;
  b_default_action : action;
  b_icmp_policy : icmp;
  b_postures : gmap string (list string);
  b_default_src_posture : list string;
  b_posture_enforcement : option PostureEnforcementConfig
}.

Definition default_bundle : PolicyBundle :=
  mkBundle [] [] 0 "" Allow IcmpAllow ∅ [] None.

(** ** Selectors *)
Definition user_tag_matches (id : string) (tags : list string) : bool :=
  existsb (fun x => (x =? "user:" +:+ id)%string || eq_ignore_ascii_case x id) tags.

Definition matches_endpoint (sel : Selector) (endpoint_hex : string) (tags : list string)
    (network : string) (ip : option Z) : bool :=
  match sel with
  | SAny => true
  | SEndpoint id => eq_ignore_ascii_case id endpoint_hex
  | STag t => existsb (String.eqb t) tags
  | SNetwork n => (n =? network)%string
  | SCidr net => match ip with Some ip => net_contains net (V4 ip) | None => false end
  | SUser id => user_tag_matches id tags
  end.

Definition matches_ipv6_endpoint (sel : Selector) (endpoint_hex : string) (tags : list string)
    (network : string) (ipv6 : option Z) : bool :=
  match sel with
  | SAny => true
  | SEndpoint id => eq_ignore_ascii_case id endpoint_hex
  | STag t => existsb (String.eqb t) tags
  | SNetwork n => (n =? network)%string
  | SCidr net => match ipv6 with Some ip => net_contains net (V6 ip) | None => false end
  | SUser id => user_tag_matches id tags
  end.

(** ** Flows *)
Record FlowEndpoint := mkEndpoint {
  fe_hex : string;
  fe_tags : list string;
  fe_network : string;
  fe_ip : option Z
}.

Definition external (ip : option Z) : FlowEndpoint := mkEndpoint "" [] "" ip.

Record FlowContext := mkFlow {
  fl_src : FlowEndpoint;
  fl_dst : FlowEndpoint;
  fl_protocol : Protocol;
  fl_dst_port : option Z;
  fl_src_posture_ok : bool
}.

Record EvalCtx := mkEvalCtx {
  ec_self_endpoint_hex : string;
  ec_self_ip : Z;
  ec_self_tags : list string;
  ec_self_network : string;
  ec_peer_endpoint_hex : string;
  ec_peer_ip : option Z;
  ec_peer_tags : list string;
  ec_peer_network : string;
  ec_dst_port : option Z;
  ec_protocol : Protocol;
  ec_src_posture_ok : bool
}.

(** [Ipv6EvalCtx] has the same fields, with IPv6 addresses. *)
Definition Ipv6EvalCtx := EvalCtx.

Definition proto_port_ok (r : PolicyRule) (protocol : Protocol) (dst_port : option Z) : bool :=
  if negb (matches_rule protocol (r_protocol r)) then false
  else if is_icmp protocol then true
  else
    let port_ok :=
      match r_ports r, dst_port with
      | [], _ => true
      | ports, Some p => existsb (fun pr => port_contains pr p) ports
      | _, None => false
      end in
    match protocol with
    | OtherProtocol _ => match r_ports r with [] => true | _ => false end
    | _ => port_ok
    end.

Definition rule_matches_flow (r : PolicyRule) (flow : FlowContext) : bool :=
  let src := fl_src flow in
  let dst := fl_dst flow in
  let src_ok := matches_endpoint (r_src r) (fe_hex src) (fe_tags src) (fe_network src) (fe_ip src) in
  let dst_ok := matches_endpoint (r_dst r) (fe_hex dst) (fe_tags dst) (fe_network dst) (fe_ip dst) in
  if negb src_ok || negb dst_ok then false
  else proto_port_ok r (fl_protocol flow) (fl_dst_port flow).

Definition rule_matches_with
    (matches : Selector -> string -> list string -> string -> option Z -> bool)
    (r : PolicyRule) (ctx : EvalCtx) (direction : Direction) : bool :=
  let self sel := matches sel (ec_self_endpoint_hex ctx) (ec_self_tags ctx)
                    (ec_self_network ctx) (Some (ec_self_ip ctx)) in
  let peer sel := matches sel (ec_peer_endpoint_hex ctx) (ec_peer_tags ctx)
                    (ec_peer_network ctx) (ec_peer_ip ctx) in
  let '(src_ok, dst_ok) :=
    match direction with
    | Inbound => (peer (r_src r), self (r_dst r))
    | Outbound => (self (r_src r), peer (r_dst r))
    end in
  if negb src_ok || negb dst_ok then false
  else proto_port_ok r (ec_protocol ctx) (ec_dst_port ctx).

Definition rule_matches_v4 := rule_matches_with matches_endpoint.
Definition rule_matches_v6 := rule_matches_with matches_ipv6_endpoint.

(** ** Evaluation *)
Definition rule_before (a b : PolicyRule) : bool :=
  (r_order_index a <? r_order_index b)%Z
  || ((r_order_index a =? r_order_index b)%Z && (r_priority a <=? r_priority b)%Z).

Definition has_posture (r : PolicyRule) : bool :=
  match r_src_posture r with [] => false | _ => true end.

Definition phase_candidate (scope : rule_scope) (act : action) (r : PolicyRule) : bool :=
  r_enabled r && bool_decide (r_scope r = scope) && bool_decide (r_action r = act).

(** The loop over the sorted candidates: the rule found, and [posture_skip]
    after the loop. *)
Fixpoint phase_loop (candidates : list PolicyRule) (matcher : PolicyRule -> bool)
    (src_posture_ok : bool) (posture_skip : option PolicyRule)
    : option PolicyRule * option PolicyRule :=
  match candidates with
  | [] => (None, posture_skip)
  | rule :: rest =>
      if negb (matcher rule) then phase_loop rest matcher src_posture_ok posture_skip
      else if has_posture rule && negb src_posture_ok then
        phase_loop rest matcher src_posture_ok
          (match posture_skip with None => Some rule | Some _ => posture_skip end)
      else (Some rule, posture_skip)
  end.

Definition first_matching_in_phase (rules : list PolicyRule) (scope : rule_scope) (act : action)
    (matcher : PolicyRule -> bool) (src_posture_ok : bool) (posture_skip : option PolicyRule)
    : option PolicyRule * option PolicyRule :=
  phase_loop (sort_by rule_before (List.filter (phase_candidate scope act) rules))
    matcher src_posture_ok posture_skip.

Definition rule_verdict (act : action) (reason : EvalReason) (r : PolicyRule) : EvalVerdict :=
  mkVerdict act reason (r_slug r) (Some (r_scope r)).

Definition icmp_verdict (act : action) : EvalVerdict := mkVerdict act IcmpPolicyReason None None.

Definition default_verdict (default : action) : EvalVerdict :=
  match default with
  | Allow => mkVerdict Allow DefaultAllow None None
  | Deny => mkVerdict Deny DefaultDeny None None
  end.

Definition evaluate_phases (bundle : PolicyBundle) (matcher : PolicyRule -> bool)
    (src_posture_ok : bool) : EvalVerdict :=
  let first scope act skip :=
    first_matching_in_phase (b_rules bundle) scope act matcher src_posture_ok skip in
  let '(org_denied, skip1) := first Organization Deny None in
  match org_denied with
  | Some rule => rule_verdict Deny OrgDeny rule
  | None =>
  let '(net_denied, skip2) := first Network Deny skip1 in
  match net_denied with
  | Some rule => rule_verdict Deny NetworkDeny rule
  | None =>
  let '(net_allowed, skip3) := first Network Allow skip2 in
  match net_allowed with
  | Some rule => rule_verdict Allow NetworkAllow rule
  | None =>
  match skip3 with
  | Some rule => rule_verdict (b_default_action bundle) PostureSkip rule
  | None => default_verdict (b_default_action bundle)
  end end end end.

(** The ICMP policy before the phases, the same in the three evaluators. *)
Definition gate_icmp (bundle : PolicyBundle) (protocol : Protocol) (phases : EvalVerdict)
    : EvalVerdict :=
  match protocol, b_icmp_policy bundle with
  | Icmp, IcmpAllow => icmp_verdict Allow
  | Icmp, IcmpDeny => icmp_verdict Deny
  | _, _ => phases
  end.

Definition evaluate_flow (bundle : PolicyBundle) (flow : FlowContext) : EvalVerdict :=
  gate_icmp bundle (fl_protocol flow)
    (evaluate_phases bundle (fun r => rule_matches_flow r flow) (fl_src_posture_ok flow)).

Definition evaluate_detailed (bundle : PolicyBundle) (ctx : EvalCtx) (direction : Direction)
    : EvalVerdict :=
  gate_icmp bundle (ec_protocol ctx)
    (evaluate_phases bundle (fun r => rule_matches_v4 r ctx direction) (ec_src_posture_ok ctx)).

Definition evaluate (bundle : PolicyBundle) (ctx : EvalCtx) (direction : Direction) : action :=
  ev_action (evaluate_detailed bundle ctx direction).

Definition evaluate_ipv6_detailed (bundle : PolicyBundle) (ctx : Ipv6EvalCtx)
    (direction : Direction) : EvalVerdict :=
  gate_icmp bundle (ec_protocol ctx)
    (evaluate_phases bundle (fun r => rule_matches_v6 r ctx direction) (ec_src_posture_ok ctx)).

Definition evaluate_ipv6 (bundle : PolicyBundle) (ctx : Ipv6EvalCtx) (direction : Direction)
    : action := ev_action (evaluate_ipv6_detailed bundle ctx direction).

(** ** SSH rules *)
Definition AUTOGROUP_NONROOT : string := "autogroup:nonroot".
Definition AUTOGROUP_LOCAL : string := "autogroup:local".

Record SshEvalCtx := mkSshCtx {
  sx_src_endpoint_hex : string;
  sx_src_tags : list string;
  sx_src_network : string;
  sx_dst_endpoint_hex : string;
  sx_dst_tags : list string;
  sx_dst_network : string;
  sx_requested_user : string;
  sx_local_accounts : list string
}.

Definition ssh_user_allowed (users : list string) (requested : string)
    (local_accounts : list string) : bool :=
  match users with
  | [] => false
  | _ =>
      existsb (fun u =>
        if (u =? AUTOGROUP_NONROOT)%string then negb (requested =? "root")%string
        else if (u =? AUTOGROUP_LOCAL)%string then
          existsb (fun account => eq_ignore_ascii_case account requested) local_accounts
        else (u =? requested)%string) users
  end.

Definition ssh_rule_matches (rule : SshPolicyRule) (ctx : SshEvalCtx) : bool :=
  let src_ok := matches_endpoint (s_src rule) (sx_src_endpoint_hex ctx) (sx_src_tags ctx)
                  (sx_src_network ctx) None in
  let dst_ok := matches_endpoint (s_dst rule) (sx_dst_endpoint_hex ctx) (sx_dst_tags ctx)
                  (sx_dst_network ctx) None in
  if negb src_ok || negb dst_ok then false
  else ssh_user_allowed (s_users rule) (sx_requested_user ctx) (sx_local_accounts ctx).

(** Highest priority first; rules of one priority stay in their order. *)
Definition evaluate_ssh (rules : list SshPolicyRule) (ctx : SshEvalCtx) : option SshPolicyRule :=
  List.find (fun rule => ssh_rule_matches rule ctx)
    (sort_by (fun a b => (s_priority b <=? s_priority a)%Z) rules).

(** ** Merging the organization's bundle with a network's *)
Definition with_scope (scope : rule_scope) (r : PolicyRule) : PolicyRule :=
  mkPolicyRule (r_src r) (r_dst r) (r_action r) (r_ports r) (r_protocol r) (r_priority r)
    (r_order_index r) scope (r_enabled r) (r_slug r) (r_src_posture r).

Definition merge_policy_bundles (org network : PolicyBundle) : PolicyBundle :=
  mkBundle
    (map (with_scope Organization) (b_rules org) ++ map (with_scope Network) (b_rules network))
    (b_ssh_rules org ++ b_ssh_rules network)
    (Z.max (b_version org) (b_version network))
    ""
    (b_default_action network)
    (b_icmp_policy network)
    (b_postures network ∪ b_postures org)
    (match b_default_src_posture network with
     | [] => b_default_src_posture org
     | l => l
     end)
    (match b_posture_enforcement network with
     | Some c => Some c
     | None => b_posture_enforcement org
     end).

(** ** Signatures *)
Section Signature.
(** [serde_json::to_vec], the standard base64 decoder, and [verify] of the
    verifying key. *)
Context (to_vec : list PolicyRule * list SshPolicyRule * Z * action * icmp -> option (list N)).
Context (base64_decode : string -> option (list N)).
Context (verify : list N -> list N -> bool).

Inductive ProtocolError := BadSignature.

Definition policy_bundle_sign_bytes (b : PolicyBundle) : option (list N) :=
  to_vec (b_rules b, b_ssh_rules b, b_version b, b_default_action b, b_icmp_policy b).

Definition verify_policy_bundle_signature (bundle : PolicyBundle) : result ProtocolError unit :=
  if (b_signature bundle =? "")%string then
    match b_rules bundle, b_ssh_rules bundle with
    | [], [] => Ok tt
    | _, _ => Err BadSignature
    end
  else
    match policy_bundle_sign_bytes bundle, base64_decode (b_signature bundle) with
    | Some sign_bytes, Some sig_bytes =>
        if negb (length sig_bytes =? 64)%nat then Err BadSignature
        else if verify sign_bytes sig_bytes then Ok tt else Err BadSignature
    | _, _ => Err BadSignature
    end.
End Signature.

(** ** The phases, declaratively *)
Definition takes_effect (src_posture_ok : bool) (r : PolicyRule) : bool :=
  negb (has_posture r) || src_posture_ok.

Section Phases.
Context (rules : list PolicyRule) (matcher : PolicyRule -> bool) (ok : bool).

(** Some enabled rule of the scope and action matches and its posture
    requirement is met. *)
Definition settles (scope : rule_scope) (act : action) : Prop :=
  exists r, r ∈ rules /\ phase_candidate scope act r = true /\ matcher r = true
            /\ takes_effect ok r = true.

Lemma phase_loop_found c skip :
  (phase_loop c matcher ok skip).1 = List.find (fun r => matcher r && takes_effect ok r) c.
Proof.
  revert skip; induction c as [|r c IH]; intros skip; cbn; [done|].
  unfold takes_effect in *. destruct (matcher r); cbn; [|done].
  destruct (has_posture r), ok; cbn; done.
Qed.

Lemma elem_of_phase_candidates scope act r :
  r ∈ sort_by rule_before (List.filter (phase_candidate scope act) rules)
  <-> r ∈ rules /\ phase_candidate scope act r = true.
Proof. by rewrite elem_of_sort_by, elem_of_filter_bool. Qed.

Lemma first_matching_None scope act skip :
  (first_matching_in_phase rules scope act matcher ok skip).1 = None <-> ~ settles scope act.
Proof.
  unfold first_matching_in_phase. rewrite phase_loop_found, eq_None_not_Some, find_is_Some.
  unfold settles. setoid_rewrite elem_of_phase_candidates. setoid_rewrite andb_true_iff.
  naive_solver.
Qed.

Lemma first_matching_Some scope act skip r :
  (first_matching_in_phase rules scope act matcher ok skip).1 = Some r -> settles scope act.
Proof.
  intros E. destruct (find_is_Some (fun r => matcher r && takes_effect ok r)
    (sort_by rule_before (List.filter (phase_candidate scope act) rules))) as [Hf _].
  unfold first_matching_in_phase in E. rewrite phase_loop_found in E.
  destruct Hf as (x & [Hx Hc]%elem_of_phase_candidates & [Hm He]%andb_prop); [by rewrite E|].
  by exists x.
Qed.
End Phases.

(** When the phases allow, and which phase decided. *)
Lemma evaluate_phases_spec bundle matcher ok :
  let v := evaluate_phases bundle matcher ok in
  let settled := settles (b_rules bundle) matcher ok in
  (ev_action v = Allow
   <-> ~ settled Organization Deny /\ ~ settled Network Deny
       /\ (settled Network Allow \/ b_default_action bundle = Allow))
  /\ (ev_reason v = OrgDeny <-> settled Organization Deny).
Proof.
  cbn zeta. unfold evaluate_phases.
  set (rules := b_rules bundle).
  pose proof (first_matching_None rules matcher ok) as N.
  pose proof (first_matching_Some rules matcher ok) as S.
  destruct (first_matching_in_phase rules Organization Deny matcher ok None) as [[r1|] s1] eqn:E1.
  { specialize (S Organization Deny None r1). rewrite E1 in S. cbn in *. naive_solver. }
  pose proof (N Organization Deny None) as N1. rewrite E1 in N1.
  destruct (first_matching_in_phase rules Network Deny matcher ok s1) as [[r2|] s2] eqn:E2.
  { specialize (S Network Deny s1 r2). rewrite E2 in S. cbn in *. naive_solver. }
  pose proof (N Network Deny s1) as N2. rewrite E2 in N2.
  destruct (first_matching_in_phase rules Network Allow matcher ok s2) as [[r3|] s3] eqn:E3.
  { specialize (S Network Allow s2 r3). rewrite E3 in S. cbn in *. naive_solver. }
  pose proof (N Network Allow s2) as N3. rewrite E3 in N3. cbn in *.
  destruct s3; [cbn | destruct (b_default_action bundle); cbn]; naive_solver.
Qed.

(** The three evaluators differ in the flow they describe only. *)
Definition flow_of (ctx : EvalCtx) (direction : Direction) : FlowContext :=
  let self := mkEndpoint (ec_self_endpoint_hex ctx) (ec_self_tags ctx) (ec_self_network ctx)
                (Some (ec_self_ip ctx)) in
  let peer := mkEndpoint (ec_peer_endpoint_hex ctx) (ec_peer_tags ctx) (ec_peer_network ctx)
                (ec_peer_ip ctx) in
  let '(src, dst) := match direction with Inbound => (peer, self) | Outbound => (self, peer) end in
  mkFlow src dst (ec_protocol ctx) (ec_dst_port ctx) (ec_src_posture_ok ctx).

Lemma evaluate_detailed_flow bundle ctx direction :
  evaluate_detailed bundle ctx direction = evaluate_flow bundle (flow_of ctx direction).
Proof. by destruct direction. Qed.

Lemma settles_merged org network matcher ok scope act :
  (forall s r, matcher (with_scope s r) = matcher r) ->
  settles (b_rules (merge_policy_bundles org network)) matcher ok scope act
  <-> exists r, r ∈ b_rules (match scope with Organization => org | Network => network end)
        /\ r_enabled r = true /\ r_action r = act /\ matcher r = true /\ takes_effect ok r = true.
Proof.
  intros Hm. unfold settles, phase_candidate. cbn [merge_policy_bundles b_rules].
  setoid_rewrite elem_of_app. setoid_rewrite list_elem_of_fmap.
  setoid_rewrite andb_true_iff. setoid_rewrite andb_true_iff.
  setoid_rewrite bool_decide_eq_true. split.
  - intros (r & [(x & -> & Hx)|(x & -> & Hx)] & [[He Hs] Ha] & Hma & Ht); cbn in He, Hs, Ha;
      rewrite Hm in Hma; subst scope; exists x; by split_and!.
  - intros (r & Hr & He & Ha & Hma & Ht). exists (with_scope scope r). rewrite Hm.
    split; [|by split_and!]. destruct scope; [left|right]; by exists r.
Qed.

Lemma rule_matches_flow_scope s r flow :
  rule_matches_flow (with_scope s r) flow = rule_matches_flow r flow.
Proof. done. Qed.

(** ** Properties *)
(** C4: what an agent lets through.  ICMP follows the ICMP policy when that is
    allow or deny; any other flow is allowed exactly when no effective deny
    rule of the organization or the network matches and an effective allow
    rule of the network matches or the default is to allow. *)
Theorem evaluate_flow_allow_iff (bundle : PolicyBundle) (flow : FlowContext) :
  let settled := settles (b_rules bundle) (fun r => rule_matches_flow r flow)
                   (fl_src_posture_ok flow) in
  ev_action (evaluate_flow bundle flow) = Allow
  <-> match fl_protocol flow, b_icmp_policy bundle with
      | Icmp, IcmpAllow => True
      | Icmp, IcmpDeny => False
      | _, _ => ~ settled Organization Deny /\ ~ settled Network Deny
                /\ (settled Network Allow \/ b_default_action bundle = Allow)
      end.
Proof.
  cbn zeta. unfold evaluate_flow, gate_icmp.
  pose proof (proj1 (evaluate_phases_spec bundle (fun r => rule_matches_flow r flow)
                       (fl_src_posture_ok flow))) as H.
  destruct (fl_protocol flow), (b_icmp_policy bundle); try exact H; by split.
Qed.

(** C5: what the merge of an organization's bundle with a network's gives.  For
    every protocol but ICMP, and for ICMP when the network's ICMP policy is
    "acl": an effective deny rule of the organization denies whatever the
    network's bundle says, allow rules of the organization allow nothing, and a
    flow is allowed exactly when neither bundle denies it and the network allows
    it.  Otherwise the network's ICMP policy decides alone, also against a deny
    rule of the organization. *)
Theorem merged_org_rules (org network : PolicyBundle) (flow : FlowContext) :
  let effective_rule (b : PolicyBundle) (act : action) :=
    exists r, r ∈ b_rules b /\ r_enabled r = true /\ r_action r = act
      /\ rule_matches_flow r flow = true /\ takes_effect (fl_src_posture_ok flow) r = true in
  let v := evaluate_flow (merge_policy_bundles org network) flow in
  match fl_protocol flow, b_icmp_policy network with
  | Icmp, IcmpAllow => ev_action v = Allow /\ ev_reason v = IcmpPolicyReason
  | Icmp, IcmpDeny => ev_action v = Deny /\ ev_reason v = IcmpPolicyReason
  | _, _ =>
      (ev_reason v = OrgDeny <-> effective_rule org Deny)
      /\ (ev_action v = Allow
          <-> ~ effective_rule org Deny /\ ~ effective_rule network Deny
              /\ (effective_rule network Allow \/ b_default_action network = Allow))
  end.
Proof.
  cbn zeta. unfold evaluate_flow.
  pose proof (evaluate_phases_spec (merge_policy_bundles org network)
    (fun r => rule_matches_flow r flow) (fl_src_posture_ok flow)) as [HA HR].
  set (m := fun r => rule_matches_flow r flow) in *. set (ok := fl_src_posture_ok flow) in *.
  rewrite (settles_merged org network m ok Organization Deny),
    (settles_merged org network m ok Network Deny),
    (settles_merged org network m ok Network Allow) in HA by done.
  rewrite (settles_merged org network m ok Organization Deny) in HR by done.
  unfold gate_icmp. cbn [b_icmp_policy merge_policy_bundles].
  destruct (fl_protocol flow), (b_icmp_policy network); try exact (conj HR HA); done.
Qed.

(** an SSH request is decided by the matching rule of the highest priority,
    the first one listed among equals; without a matching rule there is no
    decision, which the caller reads as deny. *)
Theorem evaluate_ssh_spec (rules : list SshPolicyRule) (ctx : SshEvalCtx) :
  match evaluate_ssh rules ctx with
  | Some rule =>
      rule ∈ rules /\ ssh_rule_matches rule ctx = true
      /\ (forall r, r ∈ rules -> ssh_rule_matches r ctx = true -> s_priority r <= s_priority rule)%Z
      /\ List.find (fun r => ssh_rule_matches r ctx)
           (List.filter (fun r => s_priority r =? s_priority rule)%Z rules) = Some rule
  | None => forall r, r ∈ rules -> ssh_rule_matches r ctx = false
  end.
Proof.
  unfold evaluate_ssh. destruct (List.find _ _) as [rule|] eqn:E.
  - apply find_sort_by in E as (Hin & Hm & Hmax & Hf); [|lia..].
    split_and!; try done.
    + intros r Hr Hm'. specialize (Hmax r Hr Hm'). lia.
    + rewrite <- Hf. f_equal. apply List.filter_ext. intros r. unfold tied. lia.
  - intros r Hr. rewrite <- (elem_of_sort_by (fun a b => (s_priority b <=? s_priority a)%Z)) in Hr.
    eapply List.find_none in E; [exact E|]. by apply list_elem_of_In.
Qed.

(** The signature does not cover the posture definitions, the default posture
    and the enforcement settings of a bundle: they can be replaced without
    invalidating it. *)
Theorem signature_ignores_postures to_vec base64_decode verify (b : PolicyBundle)
    (p : gmap string (list string)) (d : list string) (e : option PostureEnforcementConfig) :
  verify_policy_bundle_signature to_vec base64_decode verify
    (mkBundle (b_rules b) (b_ssh_rules b) (b_version b) (b_signature b) (b_default_action b)
       (b_icmp_policy b) p d e)
  = verify_policy_bundle_signature to_vec base64_decode verify b.
Proof. done. Qed.

(** ICMPv6 passes the ICMP policy: with the policy "deny" and no rules, an
    ICMPv6 flow gets the default action. *)
Theorem icmpv6_ignores_icmp_policy (bundle : PolicyBundle) (ctx : Ipv6EvalCtx)
    (direction : Direction) :
  ec_protocol ctx = Icmpv6 -> b_rules bundle = [] ->
  evaluate_ipv6 bundle ctx direction = b_default_action bundle.
Proof.
  intros Hp Hr. unfold evaluate_ipv6, evaluate_ipv6_detailed, gate_icmp, evaluate_phases. rewrite Hp, Hr.
  cbn. by destruct (b_default_action bundle).
Qed.
End Bundles.

(** ** Witnesses *)
(** IPv4 networks as an address and a prefix length. *)
Definition sample_nets : IpNetLib :=
  {| IpNet := Z * Z;
     net_contains net ip :=
       match ip with
       | V4 a => (Z.shiftr a (32 - net.2) =? Z.shiftr net.1 (32 - net.2))%Z
       | V6 _ => false
       end |}.

#[local] Existing Instance sample_nets.

Definition sample_rule (src dst : Selector) (act : action) (port : Z) : PolicyRule :=
  mkPolicyRule src dst act [mkPortRange port port] (Some Tcp) 100 0 Network true None [].

Definition sample_bundle (rules : list PolicyRule) (default : action) : PolicyBundle :=
  mkBundle rules [] 1 "" default IcmpAllow ∅ [] None.

Definition sample_net : PolicyBundle := sample_bundle [sample_rule SAny SAny Allow 22] Allow.

(** A network that allows ICMP lets the ping through that the organization
    denies to everyone. *)
Lemma network_icmp_overrides_org :
  let deny_all := sample_bundle [mkPolicyRule SAny SAny Deny [] None 100 0 Organization true None []] Deny in
  let ping := mkFlow (mkEndpoint "aa" [] "net" (Some 1%Z)) (mkEndpoint "bb" [] "net" (Some 2%Z)) Icmp None true in
  ev_action (evaluate_flow deny_all (mkFlow (fl_src ping) (fl_dst ping) Tcp (Some 22%Z) true)) = Deny
  /\ ev_action (evaluate_flow (merge_policy_bundles deny_all sample_net) ping) = Allow.
Proof. by vm_compute. Qed.
