(* ===== verification/Packet.v ===== *)
(** * Packets ([crates/tunnet-common/src/packet/mod.rs] and [frag.rs])

    The view of a packet the data plane decides on, and the cache of first
    fragments.  Slicing bytes is done by [etherparse] and not modelled.  Times
    are nanoseconds of the monotonic clock; an operation that reads the clock
    twice takes both readings.  The order of the list of cached fragments is
    the iteration order of the hash map, which the code leaves open. *)
From S2P Require Import Prelude RustStd NetPolicy.
Local Open Scope Z_scope.

Definition secs (n : Z) : Z := n * 1000000000.

(** ** TCP flags *)
Module TcpFlags.
Definition FIN : Z := 1.
Definition SYN : Z := 2.
Definition RST : Z := 4.
Definition PSH : Z := 8.
Definition ACK : Z := 16.
Definition URG : Z := 32.
End TcpFlags.

Definition flag (flags bit : Z) : bool := negb (Z.land flags bit =? 0).

(** ** The packet view *)
Inductive IpMeta :=
| IpV4 (src dst protocol identification header_len ttl : Z)
| IpV6 (src dst next_header hop_limit header_len : Z) (identification : option Z).

Definition ip_src (m : IpMeta) : IpAddr :=
  match m with IpV4 src _ _ _ _ _ => V4 src | IpV6 src _ _ _ _ _ => V6 src end.
Definition ip_dst (m : IpMeta) : IpAddr :=
  match m with IpV4 _ dst _ _ _ _ => V4 dst | IpV6 _ dst _ _ _ _ => V6 dst end.
Definition v4_src (m : IpMeta) : option Z :=
  match m with IpV4 src _ _ _ _ _ => Some src | IpV6 _ _ _ _ _ _ => None end.
Definition v4_dst (m : IpMeta) : option Z :=
  match m with IpV4 _ dst _ _ _ _ => Some dst | IpV6 _ _ _ _ _ _ => None end.
Definition ip_protocol (m : IpMeta) : Z :=
  match m with IpV4 _ _ p _ _ _ => p | IpV6 _ _ nh _ _ _ => nh end.

Inductive Fragmentation :=
| NotFragmented
| First (identification : Z) (more : bool)
| Later (identification : Z) (offset : Z) (more : bool).

Definition frag_identification (f : Fragmentation) : option Z :=
  match f with
  | NotFragmented => None
  | First identification _ | Later identification _ _ => Some identification
  end.

Inductive Transport :=
| TTcp (src_port dst_port flags seq ack header_len payload_len : Z)
| TUdp (src_port dst_port payload_len : Z)
| TIcmpv4 (type_u8 code : Z) (echo_id echo_seq : option Z) (payload_len : Z)
| TIcmpv6 (type_u8 code payload_len : Z)
| TOther (protocol payload_len : Z)
| TLaterFragment (protocol identification offset : Z) (more : bool).

Definition transport_protocol (t : Transport) : Protocol :=
  match t with
  | TTcp _ _ _ _ _ _ _ => Tcp
  | TUdp _ _ _ => Udp
  | TIcmpv4 _ _ _ _ _ => Icmp
  | TIcmpv6 _ _ _ => Icmpv6
  | TOther p _ | TLaterFragment p _ _ _ => from_ip_number p
  end.

Definition transport_src_port (t : Transport) : option Z :=
  match t with
  | TTcp s _ _ _ _ _ _ | TUdp s _ _ => Some s
  | TIcmpv4 _ _ echo_id _ _ => echo_id
  | _ => None
  end.

Definition transport_dst_port (t : Transport) : option Z :=
  match t with
  | TTcp _ d _ _ _ _ _ | TUdp _ d _ => Some d
  | TIcmpv4 _ _ _ echo_seq _ => echo_seq
  | _ => None
  end.

Definition transport_tcp_flags (t : Transport) : option Z :=
  match t with TTcp _ _ f _ _ _ _ => Some f | _ => None end.

Definition is_later_fragment (t : Transport) : bool :=
  match t with TLaterFragment _ _ _ _ => true | _ => false end.

(** The bytes themselves are not looked at by the code modelled here. *)
Record Packet := mkPacket {
  pk_wire_len : Z;
  pk_ip : IpMeta;
  pk_fragmentation : Fragmentation;
  pk_transport : Transport
}.

(** ** What policy sees of the transport *)
Record ResolvedL4 := mkL4 {
  l4_protocol : Protocol;
  l4_src_port : option Z;
  l4_dst_port : option Z;
  l4_tcp_flags : option Z;
  l4_icmp_type : option Z;
  l4_icmp_id : option Z;
  l4_icmp_seq : option Z
}.

Inductive CachedTransport :=
| CTcp (src_port dst_port flags : Z)
| CUdp (src_port dst_port : Z)
| CIcmpv4 (type_u8 code : Z) (echo_id echo_seq : option Z)
| CIcmpv6 (type_u8 code : Z)
| COther (protocol : Z).

Definition cache_transport (t : Transport) : option CachedTransport :=
  match t with
  | TTcp s d f _ _ _ _ => Some (CTcp s d f)
  | TUdp s d _ => Some (CUdp s d)
  | TIcmpv4 ty c id seq _ => Some (CIcmpv4 ty c id seq)
  | TIcmpv6 ty c _ => Some (CIcmpv6 ty c)
  | TOther p _ => Some (COther p)
  | TLaterFragment _ _ _ _ => None
  end.

Definition cached_protocol (t : CachedTransport) : Protocol :=
  match t with
  | CTcp _ _ _ => Tcp
  | CUdp _ _ => Udp
  | CIcmpv4 _ _ _ _ => Icmp
  | CIcmpv6 _ _ => Icmpv6
  | COther p => from_ip_number p
  end.

Definition cached_src_port (t : CachedTransport) : option Z :=
  match t with
  | CTcp s _ _ | CUdp s _ => Some s
  | CIcmpv4 _ _ echo_id _ => echo_id
  | _ => None
  end.

Definition cached_dst_port (t : CachedTransport) : option Z :=
  match t with
  | CTcp _ d _ | CUdp _ d => Some d
  | CIcmpv4 _ _ _ echo_seq => echo_seq
  | _ => None
  end.

Definition to_resolved (t : CachedTransport) : ResolvedL4 :=
  mkL4 (cached_protocol t) (cached_src_port t) (cached_dst_port t)
    (match t with CTcp _ _ f => Some f | _ => None end)
    (match t with CIcmpv4 ty _ _ _ | CIcmpv6 ty _ => Some ty | _ => None end)
    (match t with CIcmpv4 _ _ id _ => id | _ => None end)
    (match t with CIcmpv4 _ _ _ seq => seq | _ => None end).

Definition resolved_from_transport (t : Transport) : option ResolvedL4 :=
  to_resolved <$> cache_transport t.

(** ** The fragment table *)
Definition FRAGMENT_TTL : Z := secs 2.
Definition MAX_FRAGMENT_ENTRIES : nat := Z.to_nat 4096.

Record FragKey := mkFragKey {
  fk_src : IpAddr;
  fk_dst : IpAddr;
  fk_protocol : Z;
  fk_identification : Z
}.
#[export] Instance FragKey_eq_dec : EqDecision FragKey.
Proof. solve_decision. Defined.

Record Entry := mkEntry { en_transport : CachedTransport; en_expires : Z }.

Record FragmentTable := mkFragments {
  ft_map : list (FragKey * Entry);
  ft_ttl : Z;
  ft_cap : nat
}.

Definition new_fragments : FragmentTable := mkFragments [] FRAGMENT_TTL MAX_FRAGMENT_ENTRIES.

Definition key_for (packet : Packet) : option FragKey :=
  identification ← frag_identification (pk_fragmentation packet);
  Some (mkFragKey (ip_src (pk_ip packet)) (ip_dst (pk_ip packet)) (ip_protocol (pk_ip packet))
          identification).

Definition with_map (t : FragmentTable) (m : list (FragKey * Entry)) : FragmentTable :=
  mkFragments m (ft_ttl t) (ft_cap t).

Definition contains_key (t : FragmentTable) (k : FragKey) : bool := bool_decide (k ∈ (ft_map t).*1).

Definition evict_expired (t : FragmentTable) (now : Z) : FragmentTable :=
  with_map t (List.filter (fun e => now <? en_expires e.2) (ft_map t)).

(** [min_by_key]: the first entry with the least expiry. *)
Fixpoint oldest (m : list (FragKey * Entry)) : option (FragKey * Entry) :=
  match m with
  | [] => None
  | e :: rest =>
      match oldest rest with
      | Some o => if en_expires o.2 <? en_expires e.2 then Some o else Some e
      | None => Some e
      end
  end.

Definition remove_key (t : FragmentTable) (k : FragKey) : FragmentTable :=
  with_map t (List.filter (fun e => negb (bool_decide (e.1 = k))) (ft_map t)).

Definition evict_oldest (t : FragmentTable) : FragmentTable :=
  match oldest (ft_map t) with Some o => remove_key t o.1 | None => t end.

Definition full_for (t : FragmentTable) (k : FragKey) : bool :=
  (ft_cap t <=? length (ft_map t))%nat && negb (contains_key t k).

Definition remember (t : FragmentTable) (packet : Packet) (now now' : Z) : FragmentTable :=
  match pk_fragmentation packet with
  | First _ _ =>
      match key_for packet, cache_transport (pk_transport packet) with
      | Some key, Some transport =>
          let t1 := evict_expired t now in
          let t2 := if full_for t1 key then evict_oldest t1 else t1 in
          if full_for t2 key then t2
          else with_map t2 (map_set (ft_map t2) key (mkEntry transport (now' + ft_ttl t)))
      | _, _ => t
      end
  | _ => t
  end.

Definition lookup_fragment (t : FragmentTable) (packet : Packet) (now now' : Z)
    : FragmentTable * option CachedTransport :=
  match key_for packet with
  | None => (t, None)
  | Some key =>
      let t1 := evict_expired t now in
      match map_get (ft_map t1) key with
      | None => (t1, None)
      | Some entry =>
          if en_expires entry <=? now' then (remove_key t1 key, None)
          else (t1, Some (en_transport entry))
      end
  end.

Definition resolve (t : FragmentTable) (packet : Packet) (now now' : Z)
    : FragmentTable * option ResolvedL4 :=
  if is_later_fragment (pk_transport packet) then
    let '(t', c) := lookup_fragment t packet now now' in (t', to_resolved <$> c)
  else (remember t packet now now', resolved_from_transport (pk_transport packet)).

Definition clear_fragments (t : FragmentTable) : FragmentTable := with_map t [].

(** ** Lemmas *)
Lemma elem_of_evict t now e : e ∈ ft_map (evict_expired t now) <-> e ∈ ft_map t /\ now < en_expires e.2.
Proof. cbn. rewrite elem_of_filter_bool. by rewrite Z.ltb_lt. Qed.

Lemma elem_of_remove_key t k e : e ∈ ft_map (remove_key t k) <-> e ∈ ft_map t /\ e.1 <> k.
Proof. cbn. rewrite elem_of_filter_bool, negb_true_iff, bool_decide_eq_false. done. Qed.

Lemma NoDup_filter_fst {V} (p : FragKey * V -> bool) m : NoDup m.*1 -> NoDup (List.filter p m).*1.
Proof.
  intros H. induction m as [|e m IH]; [done|]. cbn in H |- *.
  apply list.NoDup_cons in H as [He H]. destruct (p e); cbn; [|auto].
  apply list.NoDup_cons. split; [|auto]. intros (x & E & Hx)%list_elem_of_fmap.
  apply elem_of_filter_bool in Hx as [Hx _]. apply He. rewrite E. by apply list_elem_of_fmap_2.
Qed.

Lemma length_filter_fst {V} (p : FragKey * V -> bool) (m : list (FragKey * V)) :
  (length (List.filter p m) <= length m)%nat.
Proof. induction m as [|e m IH]; cbn; [lia|]. destruct (p e); cbn; lia. Qed.

Lemma oldest_elem m o : oldest m = Some o -> o ∈ m.
Proof.
  revert o. induction m as [|e m IH]; [done|]. cbn. intros o.
  destruct (oldest m) as [o'|]; [|intros [= ->]; left].
  destruct (en_expires o'.2 <? en_expires e.2); intros [= ->]; [right; auto|left].
Qed.

Lemma remove_key_length t k :
  NoDup (ft_map t).*1 -> k ∈ (ft_map t).*1 ->
  S (length (ft_map (remove_key t k))) = length (ft_map t).
Proof.
  cbn. induction (ft_map t) as [|[k' e] m IH]; cbn; [by intros _ ?%elem_of_nil|].
  intros [He Hn]%list.NoDup_cons Hk.
  destruct (decide (k' = k)) as [->|Hne].
  - rewrite bool_decide_eq_true_2 by done. cbn. f_equal.
    clear IH Hn Hk. induction m as [|[k' x] m IH]; [done|]. cbn in He |- *.
    apply not_elem_of_cons in He as [Hx He]. rewrite bool_decide_eq_false_2 by congruence.
    cbn. by rewrite IH.
  - apply elem_of_cons in Hk as [->|Hk]; [done|].
    rewrite bool_decide_eq_false_2 by done. cbn. by rewrite IH.
Qed.

(** No key twice, and never more than the capacity. *)
Definition fragments_wf (t : FragmentTable) : Prop :=
  NoDup (ft_map t).*1 /\ (length (ft_map t) <= ft_cap t)%nat.

Lemma evict_expired_wf t now : fragments_wf t -> fragments_wf (evict_expired t now).
Proof.
  intros [Hn Hl]. split; cbn; [by apply NoDup_filter_fst|].
  etransitivity; [apply length_filter_fst|done].
Qed.

Lemma remove_key_wf t k : fragments_wf t -> fragments_wf (remove_key t k).
Proof.
  intros [Hn Hl]. split; cbn; [by apply NoDup_filter_fst|].
  etransitivity; [apply length_filter_fst|done].
Qed.

Lemma evict_oldest_wf t : fragments_wf t -> fragments_wf (evict_oldest t).
Proof. intros H. unfold evict_oldest. destruct (oldest _); [by apply remove_key_wf|done]. Qed.

Lemma map_set_length {V} (m : list (FragKey * V)) k v :
  length (map_set m k v) = if decide (k ∈ m.*1) then length m else S (length m).
Proof.
  rewrite <- (length_fmap fst), map_set_keys. destruct (decide _).
  - by rewrite length_fmap.
  - rewrite length_app, length_fmap. cbn. lia.
Qed.

Lemma insert_wf t k e : fragments_wf t -> full_for t k = false ->
  fragments_wf (with_map t (map_set (ft_map t) k e)).
Proof.
  intros [Hn Hl] Hf. split; cbn; [by apply NoDup_map_set|].
  rewrite map_set_length. unfold full_for, contains_key in Hf.
  destruct (decide _) as [Hk|Hk]; [done|]. rewrite bool_decide_eq_false_2 in Hf by done.
  cbn in Hf. rewrite andb_true_r in Hf. apply Nat.leb_gt in Hf. lia.
Qed.

Lemma ft_cap_remember t p now now' :
  ft_cap (remember t p now now') = ft_cap t /\ ft_ttl (remember t p now now') = ft_ttl t.
Proof. unfold remember, evict_oldest. repeat case_match; done. Qed.

Lemma remember_wf t p now now' : fragments_wf t -> fragments_wf (remember t p now now').
Proof.
  intros H. unfold remember. destruct (pk_fragmentation p); try done.
  destruct (key_for p) as [key|]; [|done]. destruct (cache_transport _); [|done].
  set (t1 := evict_expired t now).
  assert (fragments_wf (if full_for t1 key then evict_oldest t1 else t1)) as H2.
  { destruct (full_for t1 key); [apply evict_oldest_wf|]; by apply evict_expired_wf. }
  destruct (full_for (if full_for t1 key then evict_oldest t1 else t1) key) eqn:E; [done|].
  by apply insert_wf.
Qed.

Lemma lookup_fragment_wf t p now now' : fragments_wf t -> fragments_wf (lookup_fragment t p now now').1.
Proof.
  intros H. unfold lookup_fragment. destruct (key_for p); [|done].
  apply (evict_expired_wf _ now) in H. destruct (map_get _ _) as [entry|]; [|done].
  destruct (en_expires entry <=? now'); cbn [fst]; auto using remove_key_wf.
Qed.

Lemma resolve_wf t p now now' : fragments_wf t -> fragments_wf (resolve t p now now').1.
Proof.
  intros H. unfold resolve. destruct (is_later_fragment _); [|by apply remember_wf].
  pose proof (lookup_fragment_wf t p now now' H) as Hl. by destruct (lookup_fragment _ _ _ _).
Qed.

(** ** Provenance

    A run resolves packets one after the other; each comes with the two clock
    readings of its call. *)
Definition feed (t : FragmentTable) (packets : list (Packet * Z * Z)) : FragmentTable :=
  foldl (fun t '(p, now, now') => (resolve t p now now').1) t packets.

(** The entry [e] under [key] is the transport of a first fragment in
    [packets]. *)
Definition comes_from (packets : list (Packet * Z * Z)) (ttl : Z) (key : FragKey) (e : Entry) : Prop :=
  exists p now now', (p, now, now') ∈ packets /\ (exists id more, pk_fragmentation p = First id more)
    /\ key_for p = Some key /\ cache_transport (pk_transport p) = Some (en_transport e)
    /\ en_expires e = now' + ttl.

Definition all_from (packets : list (Packet * Z * Z)) (t : FragmentTable) : Prop :=
  forall key e, (key, e) ∈ ft_map t -> comes_from packets (ft_ttl t) key e.

Lemma all_from_sub packets t t' :
  all_from packets t -> ft_ttl t' = ft_ttl t -> (forall e, e ∈ ft_map t' -> e ∈ ft_map t) ->
  all_from packets t'.
Proof. intros H Ht Hs key e He. rewrite Ht. by apply H, Hs. Qed.

Lemma all_from_evict packets t now : all_from packets t -> all_from packets (evict_expired t now).
Proof. intros H. apply (all_from_sub _ t); [done..|]. intros e He. by apply elem_of_evict in He as [? _]. Qed.

Lemma all_from_remove packets t k : all_from packets t -> all_from packets (remove_key t k).
Proof. intros H. apply (all_from_sub _ t); [done..|]. intros e He. by apply elem_of_remove_key in He as [? _]. Qed.

Lemma elem_of_map_set {V} (m : list (FragKey * V)) k v k' v' :
  (k', v') ∈ map_set m k v -> (k' = k /\ v' = v) \/ (k', v') ∈ m.
Proof.
  induction m as [|[a b] m IH]; cbn.
  - intros [[= -> ->]|?%elem_of_nil]%elem_of_cons; [by left|done].
  - destruct (decide (a = k)) as [->|]; intros [[= -> ->]|H]%elem_of_cons; rewrite ?elem_of_cons; auto.
    destruct (IH H); auto.
Qed.

Lemma all_from_remember packets t p now now' :
  (p, now, now') ∈ packets -> all_from packets t -> all_from packets (remember t p now now').
Proof.
  intros Hp H. unfold remember. destruct (pk_fragmentation p) as [|id more|] eqn:Ef; [done| |done].
  destruct (key_for p) as [key|] eqn:Ek; [|done].
  destruct (cache_transport _) as [c|] eqn:Ec; [|done].
  set (t1 := evict_expired t now). set (t2 := if full_for t1 key then evict_oldest t1 else t1).
  assert (all_from packets t2 /\ ft_ttl t2 = ft_ttl t) as [H2 Ht].
  { subst t2. destruct (full_for t1 key); [|split; [by apply all_from_evict|done]].
    unfold evict_oldest. destruct (oldest _); (split; [|done]); [apply all_from_remove|]; by apply all_from_evict. }
  destruct (full_for t2 key); [done|].
  intros k' e' [[-> ->]|He]%elem_of_map_set; cbn; rewrite Ht.
  - exists p, now, now'. by split_and!; eauto.
  - rewrite <- Ht. by apply H2.
Qed.

Lemma all_from_resolve packets t p now now' :
  (p, now, now') ∈ packets -> all_from packets t -> all_from packets (resolve t p now now').1.
Proof.
  intros Hp H. unfold resolve. destruct (is_later_fragment _); [|by apply all_from_remember].
  unfold lookup_fragment. destruct (key_for p); [|done].
  apply (all_from_evict _ _ now) in H. destruct (map_get _ _) as [entry|]; [|done].
  destruct (en_expires entry <=? now'); cbn [fst]; auto using all_from_remove.
Qed.

Lemma all_from_feed packets t extra :
  all_from extra t -> all_from (extra ++ packets) (feed t packets).
Proof.
  revert t extra. induction packets as [|[[p now] now'] packets IH]; intros t extra H; cbn.
  - by rewrite app_nil_r.
  - rewrite (cons_middle _ extra packets), app_assoc. apply IH.
    apply all_from_resolve; [apply elem_of_app; right; left|].
    intros key e He. destruct (H key e He) as (q & n & n' & Hq & ?).
    exists q, n, n'. split; [apply elem_of_app; by left|done].
Qed.

Lemma resolve_params t p now now' :
  ft_cap (resolve t p now now').1 = ft_cap t /\ ft_ttl (resolve t p now now').1 = ft_ttl t.
Proof.
  unfold resolve, lookup_fragment. destruct (is_later_fragment _); [|by apply ft_cap_remember].
  destruct (key_for p); [|done]. destruct (map_get _ _) as [entry|]; [|done].
  by destruct (en_expires entry <=? now').
Qed.

Lemma feed_wf t packets :
  fragments_wf t ->
  fragments_wf (feed t packets) /\ ft_cap (feed t packets) = ft_cap t
  /\ ft_ttl (feed t packets) = ft_ttl t.
Proof.
  revert t. induction packets as [|[[p now] now'] packets IH]; intros t H; [done|].
  destruct (IH _ (resolve_wf t p now now' H)) as (Hw & Hc & Ht).
  destruct (resolve_params t p now now') as [Hc' Ht'].
  split; [exact Hw|]. split; [exact (eq_trans Hc Hc')|exact (eq_trans Ht Ht')].
Qed.

Lemma new_fragments_wf : fragments_wf new_fragments.
Proof. split; cbn; [constructor|lia]. Qed.

(** A new entry always finds a place. *)
Lemma remember_get t p now now' id more key c :
  fragments_wf t -> (0 < ft_cap t)%nat -> pk_fragmentation p = First id more ->
  key_for p = Some key -> cache_transport (pk_transport p) = Some c ->
  map_get (ft_map (remember t p now now')) key = Some (mkEntry c (now' + ft_ttl t)).
Proof.
  intros Hwf Hcap Ef Ek Ec. unfold remember. rewrite Ef, Ek, Ec.
  set (t1 := evict_expired t now). apply (evict_expired_wf _ now) in Hwf. fold t1 in Hwf.
  set (t2 := if full_for t1 key then evict_oldest t1 else t1).
  assert (full_for t2 key = false) as ->.
  { subst t2. destruct (full_for t1 key) eqn:E; [|done].
    unfold full_for in E |- *. apply andb_prop in E as [Hl Hk]. apply Nat.leb_le in Hl.
    unfold evict_oldest. destruct (oldest (ft_map t1)) as [o|] eqn:Eo.
    - apply oldest_elem in Eo.
      pose proof (remove_key_length t1 o.1 (proj1 Hwf) (list_elem_of_fmap_2 fst _ _ Eo)) as Hlen.
      destruct Hwf as [_ Hwf]. apply andb_false_iff. left. apply Nat.leb_gt. cbn in *. lia.
    - destruct (ft_map t1) as [|e m] eqn:Em; [cbn in Hl; cbn in Hcap; lia|].
      cbn in Eo. repeat case_match; done. }
  cbn. rewrite map_get_set, decide_True by done. done.
Qed.

(** ** Properties *)
(** C10: fragments are resolved from first fragments only, and the cache is
    bounded.  Whatever packets arrived, the transport policy sees for a later
    fragment is the one of a first fragment of the same datagram that arrived
    less than two seconds earlier, and the table holds at most 4096 entries. *)
Theorem later_fragment_provenance (packets : list (Packet * Z * Z)) (p : Packet) (now now' : Z)
    (l4 : ResolvedL4) :
  is_later_fragment (pk_transport p) = true ->
  (resolve (feed new_fragments packets) p now now').2 = Some l4 ->
  (length (ft_map (feed new_fragments packets)) <= MAX_FRAGMENT_ENTRIES)%nat
  /\ exists p0 t0 t0' c,
       (p0, t0, t0') ∈ packets /\ (exists id more, pk_fragmentation p0 = First id more)
       /\ key_for p0 = key_for p /\ cache_transport (pk_transport p0) = Some c
       /\ l4 = to_resolved c /\ now' < t0' + FRAGMENT_TTL.
Proof.
  intros Hl Hr. set (t := feed new_fragments packets) in *.
  destruct (feed_wf new_fragments packets new_fragments_wf) as ([_ Hlen] & Hc & Ht). fold t in Hlen, Hc, Ht.
  split; [by rewrite Hc in Hlen|].
  assert (all_from packets t) as Hall by (apply (all_from_feed packets new_fragments []); by intros ?? ?%elem_of_nil).
  unfold resolve, lookup_fragment in Hr. rewrite Hl in Hr.
  destruct (key_for p) as [key|] eqn:Ek; [|done].
  destruct (map_get _ key) as [e|] eqn:Eg; [|done].
  destruct (en_expires e <=? now') eqn:Ee; [done|].
  apply map_get_elem, elem_of_evict in Eg as [Hin _].
  destruct (Hall _ _ Hin) as (p0 & t0 & t0' & Hp & Hf & Hk & Hct & Hx).
  exists p0, t0, t0', (en_transport e). cbn in Hr. injection Hr as <-.
  split_and!; try done. rewrite Ht in Hx. cbn in Hx. lia.
Qed.

(** fragments of one datagram are not lost: right after its first fragment
    was resolved, with any history before, a later fragment is resolved to the
    same transport, as long as it arrives within two seconds. *)
Theorem later_fragment_resolves (packets : list (Packet * Z * Z)) (p0 p : Packet)
    (t0 t0' now now' id : Z) (more : bool) (key : FragKey) (c : CachedTransport) :
  pk_fragmentation p0 = First id more -> key_for p0 = Some key -> key_for p = Some key ->
  cache_transport (pk_transport p0) = Some c -> is_later_fragment (pk_transport p) = true ->
  now < t0' + FRAGMENT_TTL -> now' < t0' + FRAGMENT_TTL ->
  (resolve (feed new_fragments (packets ++ [(p0, t0, t0')])) p now now').2 = Some (to_resolved c).
Proof.
  intros Ef Ek0 Ek Ec Hl Hn Hn'.
  unfold feed. rewrite foldl_app. cbn [foldl]. fold (feed new_fragments packets).
  destruct (feed_wf new_fragments packets new_fragments_wf) as (Hw & Hc & Ht).
  set (t := feed new_fragments packets) in *.
  assert (is_later_fragment (pk_transport p0) = false) as Hl0 by (by destruct (pk_transport p0)).
  unfold resolve at 2. rewrite Hl0. cbn [fst].
  assert (0 < ft_cap t)%nat as Hcap by (rewrite Hc; apply (Z2Nat.inj_lt 0 4096); lia).
  pose proof (remember_get t p0 t0 t0' id more key c Hw Hcap Ef Ek0 Ec) as Hg. rewrite Ht in Hg.
  unfold resolve, lookup_fragment. rewrite Hl, Ek.
  assert (map_get (ft_map (evict_expired (remember t p0 t0 t0') now)) key
          = Some (mkEntry c (t0' + FRAGMENT_TTL))) as ->.
  { apply map_get_Some.
    - apply evict_expired_wf, remember_wf, Hw.
    - apply elem_of_evict. split; [by apply map_get_elem|done]. }
  cbn [en_expires en_transport]. rewrite (proj2 (Z.leb_gt _ _)) by exact Hn'. done.
Qed.

(** ** Witnesses *)
Definition sample_first : Packet :=
  mkPacket 1500 (IpV4 1 2 17 7 20 64) (First 7 true) (TUdp 5000 53 1400).
Definition sample_later : Packet :=
  mkPacket 600 (IpV4 1 2 17 7 20 64) (Later 7 185 false) (TLaterFragment 17 7 185 false).

Lemma later_fragment_provenance_witness :
  exists p0 t0 t0', (p0, t0, t0') ∈ [(sample_first, 0, 0)] /\ key_for p0 = key_for sample_later.
Proof.
  destruct (later_fragment_provenance [(sample_first, 0, 0)] sample_later (secs 1) (secs 1)
    (mkL4 Udp (Some 5000) (Some 53) None None None None)) as (_ & p0 & t0 & t0' & c & Hp & _ & Hk & _).
  - reflexivity.
  - vm_compute. reflexivity.
  - exists p0, t0, t0'. exact (conj Hp Hk).
Defined.

Lemma later_fragment_resolves_witness :
  (resolve (feed new_fragments ([] ++ [(sample_first, 0, 0)])) sample_later (secs 1) (secs 1)).2
  = Some (to_resolved (CUdp 5000 53)).
Proof.
  apply (later_fragment_resolves [] sample_first sample_later 0 0 (secs 1) (secs 1) 7 true
    (mkFragKey (V4 1) (V4 2) 17 7)); reflexivity.
Defined.
