(* ===== verification/Routing.v ===== *)
(** * The routing table of an agent ([crates/tunnet-core/src/routing.rs])

    Memberships and routes of each network are kept as slices; every change
    rebuilds the lookup tables from all slices in the order of their network
    ids.  Network ids are their 128-bit numbers, addresses their 32-bit
    numbers.  The hash maps are finite maps; the operations that iterate over
    one take the order of the iteration as an argument.  [ipnet::Ipv4Net], the
    prefix trie and the parser of endpoint ids are parameters; a [PeerInfo]
    keeps the text of its endpoint id, from which its [endpoint] is parsed. *)
From S2P Require Import Prelude RustStd.
Local Open Scope Z_scope.

(** [ipnet::Ipv4Net]. *)
Class Ipv4NetLib := {
  Ipv4Net : Type;
  prefix_len : Ipv4Net -> Z;
  v4_contains : Ipv4Net -> Z -> bool;
  net_network : Ipv4Net -> Z;
  net_broadcast : Ipv4Net -> Z
}.

(** [prefix_trie::PrefixMap] with keys [Net]; the argument of [pm_get_lpm] is
    the address of a [/32]. *)
Class PrefixMapLib (Net Value : Type) := {
  PrefixMap : Type;
  pm_new : PrefixMap;
  pm_contains_key : PrefixMap -> Net -> bool;
  pm_insert : PrefixMap -> Net -> Value -> PrefixMap;
  pm_get_lpm : PrefixMap -> Z -> option (Net * Value)
}.

(** ** Data *)
Record PeerInfo := mkPeer {
  pi_endpoint_hex : string;
  pi_hostname : string;
  pi_ip : Z;
  pi_tags : list string;
  pi_network_id : Z;
  pi_network_name : string;
  pi_ssh_host_key : option string
}.

Record PeerEntry := mkPeerEntry {
  pn_ip : Z;
  pn_endpoint_id : string;
  pn_hostname : string;
  pn_tags : list string;
  pn_ssh_host_key : option string
}.

Record HostnameRoute := mkHostnameRoute {
  hr_hostname : string;
  hr_via_endpoint_id : string;
  hr_via_ip : Z;
  hr_is_wildcard : bool;
  hr_target_ip : option Z
}.

Record HostnameRouteInfo := mkHostnameInfo {
  hi_peer : PeerInfo;
  hi_is_wildcard : bool;
  hi_target_ip : option Z;
  hi_hostname : string
}.

Record DnsConfig := mkDns {
  dns_suffix : string;
  dns_upstream : list string;
  dns_dnssec : bool
}.

Definition default_dns_upstream : list string := ["udp+tcp://1.1.1.1:53"; "udp+tcp://8.8.8.8:53"].
Definition default_dns : DnsConfig := mkDns "tunnet" default_dns_upstream false.

Inductive SplitTunnelMode := STInclude | STExclude.

Definition u64_max : Z := 2 ^ 64 - 1.

(** *** [std::net::Ipv4Addr] *)
Definition octet (i : Z) (ip : Z) : Z := Z.land (Z.shiftr ip (8 * (3 - i))) 255.
Definition is_multicast (ip : Z) : bool := (224 <=? octet 0 ip) && (octet 0 ip <=? 239).
Definition is_broadcast (ip : Z) : bool := ip =? 2 ^ 32 - 1.
Definition is_loopback (ip : Z) : bool := octet 0 ip =? 127.
Definition is_link_local (ip : Z) : bool := (octet 0 ip =? 169) && (octet 1 ip =? 254).
Definition is_unspecified (ip : Z) : bool := ip =? 0.

Definition is_mesh_or_link_local (ip : Z) : bool :=
  is_loopback ip || is_link_local ip || is_broadcast ip || is_unspecified ip.

Definition is_rfc1918 (ip : Z) : bool :=
  (octet 0 ip =? 10)
  || (octet 0 ip =? 172) && (16 <=? octet 1 ip) && (octet 1 ip <=? 31)
  || (octet 0 ip =? 192) && (octet 1 ip =? 168).

Definition hostname_matches_wildcard (host suffix : string) : bool :=
  (host =? suffix)%string
  || match strip_suffix suffix host with Some rest => endsWith rest "." | None => false end.

(** [entry(k).or_insert(v)] *)
Definition or_insert {K V} `{Countable K} (k : K) (v : V) (m : gmap K V) : gmap K V :=
  match m !! k with Some _ => m | None => <[k := v]> m end.

Section Routing.
Context {N : Ipv4NetLib} {M : PrefixMapLib Ipv4Net PeerInfo}.
(** Whether [parse::<EndpointId>()] succeeds. *)
Context (valid_endpoint : string -> bool).

Definition cidr_overlaps (a b : Ipv4Net) : bool :=
  v4_contains a (net_network b) || v4_contains a (net_broadcast b)
  || v4_contains b (net_network a) || v4_contains b (net_broadcast a).

Record SubnetRoute := mkSubnetRoute {
  sr_cidr : Ipv4Net;
  sr_via_endpoint_id : string;
  sr_via_ip : Z
}.

Record ExitNodeInfo := mkExitNode {
  xn_endpoint_id : string;
  xn_via_ip : Z;
  xn_allowed_cidrs : list Ipv4Net
}.

Record DeviceProfile := mkProfile {
  dp_exit_node_endpoint_id : option string;
  dp_split_tunnel_mode : SplitTunnelMode;
  dp_split_tunnel_cidrs : list Ipv4Net;
  dp_allow_local_lan : bool
}.

Definition default_profile : DeviceProfile := mkProfile None STExclude [] true.

Record NetworkSlice := mkSlice {
  sl_peers : list PeerEntry;
  sl_subnet_routes : list SubnetRoute;
  sl_hostname_routes : list HostnameRoute;
  sl_exit_nodes : list ExitNodeInfo;
  sl_profile : DeviceProfile;
  sl_dns : DnsConfig;
  sl_network_name : string;
  sl_self_endpoint_id : string;
  sl_peer_cidr : option Ipv4Net
}.

Record Tables := mkTables {
  tb_by_ip : gmap Z PeerInfo;
  tb_by_network_ip : gmap (Z * Z) PeerInfo;
  tb_by_endpoint : gmap string PeerInfo;
  tb_by_hostname : gmap string PeerInfo;
  tb_subnets : PrefixMap;
  tb_advertised : list Ipv4Net;
  tb_hostname_exact : gmap string HostnameRouteInfo;
  tb_hostname_wildcards : list HostnameRouteInfo;
  tb_advertised_hostnames : list HostnameRouteInfo;
  tb_dns_suffix : string;
  tb_network_name : string;
  tb_exit_node : option PeerInfo;
  tb_allow_local_lan : bool;
  tb_version : Z
}.

(** [slices] is the [BTreeMap], in the order of its keys; [changes] the last
    value sent to the watch channel. *)
Record RoutingTable := mkRouting {
  rt_inner : Tables;
  rt_slices : list (Z * NetworkSlice);
  rt_change_seq : Z;
  rt_changes : Z
}.

Definition fresh_tables (version : Z) : Tables :=
  mkTables ∅ ∅ ∅ ∅ pm_new [] ∅ [] [] "tunnet" "" None true version.

Definition new_routing : RoutingTable := mkRouting (fresh_tables 0) [] 0 0.

(** ** Rebuilding the tables *)
Definition peer_info (network_id : Z) (slice : NetworkSlice) (p : PeerEntry) : PeerInfo :=
  mkPeer (pn_endpoint_id p) (pn_hostname p) (pn_ip p) (pn_tags p) network_id
    (sl_network_name slice) (pn_ssh_host_key p).

Definition with_members (t : Tables) by_ip by_network_ip by_endpoint by_hostname : Tables :=
  mkTables by_ip by_network_ip by_endpoint by_hostname (tb_subnets t) (tb_advertised t)
    (tb_hostname_exact t) (tb_hostname_wildcards t) (tb_advertised_hostnames t) (tb_dns_suffix t)
    (tb_network_name t) (tb_exit_node t) (tb_allow_local_lan t) (tb_version t).

(** One peer of a slice, with [local_by_endpoint] of the slice. *)
Definition add_peer (network_id : Z) (slice : NetworkSlice)
    (s : Tables * gmap string PeerInfo) (p : PeerEntry) : Tables * gmap string PeerInfo :=
  let '(t, local) := s in
  if negb (valid_endpoint (pn_endpoint_id p)) then s
  else
    let info := peer_info network_id slice p in
    let host := to_ascii_lowercase (pn_hostname p) in
    let key := if (sl_network_name slice =? "")%string then host
               else host +:+ "." +:+ sl_network_name slice in
    (with_members t
       (or_insert (pn_ip p) info (tb_by_ip t))
       (<[(network_id, pn_ip p) := info]> (tb_by_network_ip t))
       (or_insert (pn_endpoint_id p) info (tb_by_endpoint t))
       (if (pn_hostname p =? "")%string then tb_by_hostname t
        else <[key := info]> (or_insert host info (tb_by_hostname t))),
     <[pn_endpoint_id p := info]> local).

Definition peer_for_via (by_endpoint : gmap string PeerInfo) (via_endpoint_id : string)
    (via_ip : Z) (network_id : Z) (network_name : string) : option PeerInfo :=
  match by_endpoint !! via_endpoint_id with
  | Some existing => Some existing
  | None =>
      if negb (valid_endpoint via_endpoint_id) then None
      else Some (mkPeer via_endpoint_id "" via_ip [] network_id network_name None)
  end.

Definition with_subnets (t : Tables) (subnets : PrefixMap) (advertised : list Ipv4Net) : Tables :=
  mkTables (tb_by_ip t) (tb_by_network_ip t) (tb_by_endpoint t) (tb_by_hostname t) subnets
    advertised (tb_hostname_exact t) (tb_hostname_wildcards t) (tb_advertised_hostnames t)
    (tb_dns_suffix t) (tb_network_name t) (tb_exit_node t) (tb_allow_local_lan t) (tb_version t).

Definition insert_new (peer : PeerInfo) (m : PrefixMap) (cidr : Ipv4Net) : PrefixMap :=
  if negb (pm_contains_key m cidr) then pm_insert m cidr peer else m.

Definition add_subnet_route (network_id : Z) (slice : NetworkSlice)
    (local : gmap string PeerInfo) (t : Tables) (route : SubnetRoute) : Tables :=
  if (sr_via_endpoint_id route =? sl_self_endpoint_id slice)%string then
    with_subnets t (tb_subnets t) (tb_advertised t ++ [sr_cidr route])
  else
    match peer_for_via local (sr_via_endpoint_id route) (sr_via_ip route) network_id
            (sl_network_name slice) with
    | None => t
    | Some peer => with_subnets t (insert_new peer (tb_subnets t) (sr_cidr route)) (tb_advertised t)
    end.

Definition advertise_exit (slice : NetworkSlice) (t : Tables) (exit : ExitNodeInfo) : Tables :=
  if (xn_endpoint_id exit =? sl_self_endpoint_id slice)%string
  then with_subnets t (tb_subnets t) (tb_advertised t ++ xn_allowed_cidrs exit)
  else t.

Definition with_exit (t : Tables) (peer : PeerInfo) (allow_local_lan : bool) : Tables :=
  mkTables (tb_by_ip t) (tb_by_network_ip t) (tb_by_endpoint t) (tb_by_hostname t) (tb_subnets t)
    (tb_advertised t) (tb_hostname_exact t) (tb_hostname_wildcards t) (tb_advertised_hostnames t)
    (tb_dns_suffix t) (tb_network_name t) (Some peer) allow_local_lan (tb_version t).

Definition select_exit (network_id : Z) (slice : NetworkSlice) (local : gmap string PeerInfo)
    (t : Tables) : Tables :=
  match dp_exit_node_endpoint_id (sl_profile slice) with
  | None => t
  | Some exit_id =>
      match List.find (fun e => (xn_endpoint_id e =? exit_id)%string) (sl_exit_nodes slice) with
      | None => t
      | Some exit =>
          match peer_for_via local (xn_endpoint_id exit) (xn_via_ip exit) network_id
                  (sl_network_name slice) with
          | None => t
          | Some peer =>
              let t1 := with_subnets t
                (foldl (insert_new peer) (tb_subnets t) (xn_allowed_cidrs exit))
                (tb_advertised t) in
              match tb_exit_node t1 with
              | Some _ => t1
              | None => with_exit t1 peer (dp_allow_local_lan (sl_profile slice))
              end
          end
      end
  end.

Definition with_hostnames (t : Tables) (exact : gmap string HostnameRouteInfo)
    (wildcards advertised : list HostnameRouteInfo) : Tables :=
  mkTables (tb_by_ip t) (tb_by_network_ip t) (tb_by_endpoint t) (tb_by_hostname t) (tb_subnets t)
    (tb_advertised t) exact wildcards advertised (tb_dns_suffix t) (tb_network_name t)
    (tb_exit_node t) (tb_allow_local_lan t) (tb_version t).

Definition add_hostname_route (network_id : Z) (slice : NetworkSlice)
    (local : gmap string PeerInfo) (t : Tables) (route : HostnameRoute) : Tables :=
  let hostname := to_ascii_lowercase (hr_hostname route) in
  match peer_for_via local (hr_via_endpoint_id route) (hr_via_ip route) network_id
          (sl_network_name slice) with
  | None => t
  | Some peer =>
      let info := mkHostnameInfo peer (hr_is_wildcard route) (hr_target_ip route) hostname in
      if (hr_via_endpoint_id route =? sl_self_endpoint_id slice)%string then
        with_hostnames t (tb_hostname_exact t) (tb_hostname_wildcards t)
          (tb_advertised_hostnames t ++ [info])
      else if negb (hr_is_wildcard route) then
        with_hostnames t (<[hostname := info]> (tb_hostname_exact t)) (tb_hostname_wildcards t)
          (tb_advertised_hostnames t)
      else
        with_hostnames t (tb_hostname_exact t) (tb_hostname_wildcards t ++ [info])
          (tb_advertised_hostnames t)
  end.

Definition with_names (t : Tables) (suffix network_name : string) : Tables :=
  mkTables (tb_by_ip t) (tb_by_network_ip t) (tb_by_endpoint t) (tb_by_hostname t) (tb_subnets t)
    (tb_advertised t) (tb_hostname_exact t) (tb_hostname_wildcards t) (tb_advertised_hostnames t)
    suffix network_name (tb_exit_node t) (tb_allow_local_lan t) (tb_version t).

(** The peers of a slice, and the routes of a slice over its peers. *)
Definition add_peers (network_id : Z) (slice : NetworkSlice) (t : Tables) :
    Tables * gmap string PeerInfo :=
  foldl (add_peer network_id slice)
    (with_names t (dns_suffix (sl_dns slice))
       (if (tb_network_name t =? "")%string then sl_network_name slice else tb_network_name t), ∅)
    (sl_peers slice).

Definition add_routes (network_id : Z) (slice : NetworkSlice) (local : gmap string PeerInfo)
    (t : Tables) : Tables :=
  let t1 := foldl (add_subnet_route network_id slice local) t (sl_subnet_routes slice) in
  let t2 := foldl (advertise_exit slice) t1 (sl_exit_nodes slice) in
  let t3 := select_exit network_id slice local t2 in
  foldl (add_hostname_route network_id slice local) t3 (sl_hostname_routes slice).

Definition add_slice (t : Tables) (s : Z * NetworkSlice) : Tables :=
  let '(t1, local) := add_peers s.1 s.2 t in add_routes s.1 s.2 local t1.

Definition longest_first : list HostnameRouteInfo -> list HostnameRouteInfo :=
  sort_by (fun a b => (rs_len (hi_hostname b) <=? rs_len (hi_hostname a))%nat).

Definition build (version : Z) (slices : list (Z * NetworkSlice)) : Tables :=
  let t := foldl add_slice (fresh_tables version) slices in
  with_hostnames t (tb_hostname_exact t) (longest_first (tb_hostname_wildcards t))
    (tb_advertised_hostnames t).

Definition rebuild (rt : RoutingTable) (version : option Z) : RoutingTable :=
  let version := match version with
                 | Some v => v
                 | None => Z.min u64_max (tb_version (rt_inner rt) + 1)
                 end in
  mkRouting (build version (sort_by (fun a b => (a.1 <=? b.1)) (rt_slices rt)))
    (rt_slices rt) ((rt_change_seq rt + 1) mod 2 ^ 64) version.

(** ** Changing the table *)
Fixpoint bt_insert {V} (k : Z) (v : V) (m : list (Z * V)) : list (Z * V) :=
  match m with
  | [] => [(k, v)]
  | (k', v') :: r =>
      if k <? k' then (k, v) :: m
      else if k =? k' then (k, v) :: r
      else (k', v') :: bt_insert k v r
  end.

Definition bt_remove {V} (k : Z) (m : list (Z * V)) : list (Z * V) :=
  List.filter (fun e => negb (e.1 =? k)) m.

Definition set_slices (rt : RoutingTable) (slices : list (Z * NetworkSlice)) : RoutingTable :=
  mkRouting (rt_inner rt) slices (rt_change_seq rt) (rt_changes rt).

Definition replace (rt : RoutingTable) (peers : list PeerEntry) (subnet_routes : list SubnetRoute)
    (hostname_routes : list HostnameRoute) (exit_nodes : list ExitNodeInfo)
    (profile : DeviceProfile) (dns : DnsConfig) (network_name : string) (network_id : Z)
    (self_endpoint_id : string) (version : Z) : RoutingTable :=
  rebuild
    (set_slices rt
       [(network_id, mkSlice peers subnet_routes hostname_routes exit_nodes profile dns
           (to_ascii_lowercase network_name) self_endpoint_id None)])
    (Some version).

Definition clear_managed (rt : RoutingTable) (network_id : Z) (self_endpoint_id : string) :
    RoutingTable :=
  replace rt [] [] [] [] default_profile default_dns "" network_id self_endpoint_id
    (tb_version (rt_inner rt)).

Definition plan_conflict (network_id : Z) (plan : Ipv4Net) (s : Z * NetworkSlice) : bool :=
  negb (s.1 =? network_id)
  && match sl_peer_cidr s.2 with
     | Some other_plan => cidr_overlaps plan other_plan
     | None => false
     end.

Definition replace_network_with_plan (rt : RoutingTable) (network_id : Z) (peers : list PeerEntry)
    (dns : DnsConfig) (network_name self_endpoint_id : string) (version : Z)
    (peer_cidr : option Ipv4Net) : RoutingTable :=
  if match peer_cidr with
     | Some plan => existsb (plan_conflict network_id plan) (rt_slices rt)
     | None => false
     end
  then rt
  else
    rebuild
      (set_slices rt
         (bt_insert network_id
            (mkSlice peers [] [] [] default_profile dns (to_ascii_lowercase network_name)
               self_endpoint_id peer_cidr)
            (rt_slices rt)))
      (Some version).

Definition replace_network (rt : RoutingTable) (network_id : Z) (peers : list PeerEntry)
    (dns : DnsConfig) (network_name self_endpoint_id : string) (version : Z) : RoutingTable :=
  replace_network_with_plan rt network_id peers dns network_name self_endpoint_id version None.

Definition remove_network (rt : RoutingTable) (network_id : Z) : RoutingTable :=
  rebuild (set_slices rt (bt_remove network_id (rt_slices rt))) None.

(** [*existing = peer.clone()] for the first peer with the endpoint, or a push. *)
Fixpoint upsert_peer (peer : PeerEntry) (peers : list PeerEntry) : list PeerEntry :=
  match peers with
  | [] => [peer]
  | p :: r => if (pn_endpoint_id p =? pn_endpoint_id peer)%string then peer :: r
              else p :: upsert_peer peer r
  end.

Definition delta_peers (added : list PeerEntry) (removed : list string) (self_endpoint_id : string)
    (peers : list PeerEntry) : list PeerEntry :=
  foldl (fun ps peer => if (pn_endpoint_id peer =? self_endpoint_id)%string then ps
                        else upsert_peer peer ps)
    (List.filter (fun p => negb (pn_endpoint_id p =? self_endpoint_id)%string
                           && negb (existsb (String.eqb (pn_endpoint_id p)) removed)) peers)
    added.

Definition apply_peer_delta (rt : RoutingTable) (network_id : Z) (added : list PeerEntry)
    (removed : list string) (version : Z) (self_endpoint_id network_name : string) : RoutingTable :=
  match map_get (rt_slices rt) network_id with
  | None => rt
  | Some s =>
      let name := if negb (network_name =? "")%string then to_ascii_lowercase network_name
                  else sl_network_name s in
      rebuild
        (set_slices rt
           (map_set (rt_slices rt) network_id
              (mkSlice (delta_peers added removed self_endpoint_id (sl_peers s))
                 (sl_subnet_routes s) (sl_hostname_routes s) (sl_exit_nodes s) (sl_profile s)
                 (sl_dns s) name (sl_self_endpoint_id s) (sl_peer_cidr s))))
        (Some version)
  end.

(** ** Lookups *)
Definition lookup_network_ip (rt : RoutingTable) (network_id ip : Z) : option PeerInfo :=
  tb_by_network_ip (rt_inner rt) !! (network_id, ip).

(** [order] is the order in which the hash map yields its entries. *)
Definition lookup_endpoint_in (order : list ((Z * Z) * PeerInfo)) (network_id : Z) (hex : string) :
    option PeerInfo :=
  snd <$> List.find (fun e => (e.1.1 =? network_id) && (pi_endpoint_hex e.2 =? hex)%string) order.

Definition lookup_ip (rt : RoutingTable) (ip : Z) : option PeerInfo :=
  if is_multicast ip || is_broadcast ip then None
  else
    let tables := rt_inner rt in
    match tb_by_ip tables !! ip with
    | Some peer => Some peer
    | None =>
        let exit :=
          if negb (is_mesh_or_link_local ip) && negb (tb_allow_local_lan tables && is_rfc1918 ip)
          then tb_exit_node tables else None in
        match pm_get_lpm (tb_subnets tables) ip with
        | Some (prefix, peer) =>
            if negb (tb_allow_local_lan tables && is_rfc1918 ip && (prefix_len prefix =? 0))
            then Some peer else exit
        | None => exit
        end
    end.

Definition exit_node (rt : RoutingTable) : option PeerInfo := tb_exit_node (rt_inner rt).

Definition is_exit_node (rt : RoutingTable) : bool :=
  existsb (fun n => prefix_len n =? 0) (tb_advertised (rt_inner rt)).

Definition lookup_endpoint (rt : RoutingTable) (hex : string) : option PeerInfo :=
  tb_by_endpoint (rt_inner rt) !! hex.

Definition lookup_hostname_route (rt : RoutingTable) (host : string) : option HostnameRouteInfo :=
  let host := to_ascii_lowercase host in
  match tb_hostname_exact (rt_inner rt) !! host with
  | Some info => Some info
  | None => List.find (fun info => hostname_matches_wildcard host (hi_hostname info))
              (tb_hostname_wildcards (rt_inner rt))
  end.

Definition lookup_hostname (rt : RoutingTable) (host : string) : option PeerInfo :=
  let host := to_ascii_lowercase host in
  match tb_by_hostname (rt_inner rt) !! host with
  | Some peer => Some peer
  | None => hi_peer <$> lookup_hostname_route rt host
  end.

Definition is_advertised_destination (rt : RoutingTable) (ip : Z) : bool :=
  existsb (fun net => v4_contains net ip) (tb_advertised (rt_inner rt)).

Definition is_advertised_hostname (rt : RoutingTable) (host : string) : bool :=
  let host := to_ascii_lowercase host in
  existsb (fun info => if hi_is_wildcard info then hostname_matches_wildcard host (hi_hostname info)
                       else (hi_hostname info =? host)%string)
    (tb_advertised_hostnames (rt_inner rt)).

(** ** PeerDNS *)
Definition dns_bare (tables : Tables) (name : string) : string :=
  let suffix := "." +:+ tb_dns_suffix tables in
  let lower := to_ascii_lowercase (trim_end_matches "." name) in
  trim_end_matches "." (default lower (strip_suffix suffix lower)).

Definition peer_fqdn (peer : PeerInfo) : string :=
  let host := to_ascii_lowercase (pi_hostname peer) in
  if (pi_network_name peer =? "")%string then host else host +:+ "." +:+ pi_network_name peer.

(** The test of the loop over [by_network_ip.values()]. *)
Definition answers_to (bare : string) (peer : PeerInfo) : bool :=
  negb (pi_hostname peer =? "")%string
  && ((bare =? to_ascii_lowercase (pi_hostname peer))%string || (bare =? peer_fqdn peer)%string).

Definition dns_peer_name (tables : Tables) (bare : string) : string :=
  if (tb_network_name tables =? "")%string then bare
  else default bare (strip_suffix ("." +:+ tb_network_name tables) bare).

(** [order] is the order in which [by_network_ip.values()] yields the peers. *)
Definition resolve_dns_a (rt : RoutingTable) (order : list PeerInfo) (name : string) : option Z :=
  let tables := rt_inner rt in
  let bare := dns_bare tables name in
  match List.find (answers_to bare) order with
  | Some peer => Some (pi_ip peer)
  | None => pi_ip <$> tb_by_hostname tables !! dns_peer_name tables bare
  end.

Definition resolve_dns_txt (rt : RoutingTable) (order : list PeerInfo) (name : string) :
    option string :=
  let tables := rt_inner rt in
  let bare := dns_bare tables name in
  match List.find (answers_to bare) order with
  | Some peer => pi_ssh_host_key peer
  | None =>
      match tb_by_hostname tables !! dns_peer_name tables bare ≫= pi_ssh_host_key with
      | Some key => Some key
      | None => tb_by_hostname tables !! bare ≫= pi_ssh_host_key
      end
  end.

Definition resolve_dns_ptr (rt : RoutingTable) (ip : Z) : option string :=
  peer ← tb_by_ip (rt_inner rt) !! ip;
  if (pi_hostname peer =? "")%string then None
  else
    let host := to_ascii_lowercase (pi_hostname peer) in
    Some (if (pi_network_name peer =? "")%string
          then host +:+ "." +:+ tb_dns_suffix (rt_inner rt)
          else host +:+ "." +:+ pi_network_name peer +:+ "." +:+ tb_dns_suffix (rt_inner rt)).

(** ** The operations as steps *)
Inductive rt_step (rt : RoutingTable) : RoutingTable -> Prop :=
| step_replace peers subnet_routes hostname_routes exit_nodes profile dns name nid self v :
    rt_step rt (replace rt peers subnet_routes hostname_routes exit_nodes profile dns name nid self v)
| step_clear nid self : rt_step rt (clear_managed rt nid self)
| step_network nid peers dns name self v plan :
    rt_step rt (replace_network_with_plan rt nid peers dns name self v plan)
| step_remove nid : rt_step rt (remove_network rt nid)
| step_delta nid added removed v self name :
    rt_step rt (apply_peer_delta rt nid added removed v self name).

Inductive rt_reachable : RoutingTable -> Prop :=
| reach_new : rt_reachable new_routing
| reach_step rt rt' : rt_reachable rt -> rt_step rt rt' -> rt_reachable rt'.

(** ** Reference definitions *)

(** The members of all slices with a usable endpoint id, in the order of the
    slices and of their peers. *)
Definition slice_members (s : Z * NetworkSlice) : list PeerInfo :=
  map (peer_info s.1 s.2) (List.filter (fun p => valid_endpoint (pn_endpoint_id p)) (sl_peers s.2)).

Definition members (slices : list (Z * NetworkSlice)) : list PeerInfo := concat (map slice_members slices).

Definition find_last {A} (p : A -> bool) (l : list A) : option A := List.find p (rev l).

(** No two networks have overlapping address plans. *)
Definition plans_disjoint (slices : list (Z * NetworkSlice)) : Prop :=
  forall a b p q, a ∈ slices -> b ∈ slices -> a.1 <> b.1 ->
    sl_peer_cidr a.2 = Some p -> sl_peer_cidr b.2 = Some q -> cidr_overlaps p q = false.

Definition sorted_ids {V} (m : list (Z * V)) : Prop := StronglySorted (fun a b => a.1 < b.1) m.

(** ** Lemmas: maps filled from a list *)
Lemma foldl_or_insert {K} `{Countable K} (key : PeerInfo -> K) l (m : gmap K PeerInfo) k :
  foldl (fun m i => or_insert (key i) i m) m l !! k
  = match m !! k with Some v => Some v | None => List.find (fun i => bool_decide (key i = k)) l end.
Proof.
  revert m. induction l as [|x l IH]; intros m; cbn; [by destruct (m !! k)|].
  rewrite IH. unfold or_insert. case_bool_decide as E.
  - subst k. destruct (m !! key x) as [v|] eqn:Em; [by rewrite Em|]. by rewrite lookup_insert_eq.
  - destruct (m !! key x); [done|]. by rewrite lookup_insert_ne.
Qed.

Lemma foldl_insert {K} `{Countable K} (key : PeerInfo -> K) l (m : gmap K PeerInfo) k :
  foldl (fun m i => <[key i := i]> m) m l !! k
  = match find_last (fun i => bool_decide (key i = k)) l with Some v => Some v | None => m !! k end.
Proof.
  unfold find_last. induction l as [|x l IH] using rev_ind; [done|].
  rewrite foldl_app, rev_app_distr. cbn. case_bool_decide as E.
  - subst k. by rewrite lookup_insert_eq.
  - by rewrite lookup_insert_ne, IH.
Qed.

(** *** Frames *)
Definition member_maps (t : Tables) := (tb_by_ip t, tb_by_network_ip t, tb_by_endpoint t).

Lemma foldl_frame {A B C} (proj : A -> C) (f : A -> B -> A) l a :
  (forall a b, proj (f a b) = proj a) -> proj (foldl f a l) = proj a.
Proof. intros Hf. revert a. induction l as [|b l IH]; intros a; cbn; [done|]. by rewrite IH. Qed.

Lemma select_exit_frame nid s local t : member_maps (select_exit nid s local t) = member_maps t.
Proof. unfold select_exit. by repeat (case_match; try done). Qed.

Lemma add_routes_frame nid s local t : member_maps (add_routes nid s local t) = member_maps t.
Proof.
  unfold add_routes. rewrite foldl_frame, select_exit_frame, !foldl_frame; [done| | |].
  - intros a b. unfold add_subnet_route. by repeat case_match.
  - intros a b. unfold advertise_exit. by case_match.
  - intros a b. unfold add_hostname_route. by repeat case_match.
Qed.

Definition add_member
    (m : gmap Z PeerInfo * gmap (Z * Z) PeerInfo * gmap string PeerInfo) (i : PeerInfo) :=
  (or_insert (pi_ip i) i m.1.1, <[(pi_network_id i, pi_ip i) := i]> m.1.2,
   or_insert (pi_endpoint_hex i) i m.2).

Lemma add_peers_members nid s t :
  member_maps (add_peers nid s t).1 = foldl add_member (member_maps t) (slice_members (nid, s)).
Proof.
  unfold add_peers, slice_members. cbn [fst snd].
  set (t0 := with_names t _ _). change (member_maps t) with (member_maps t0).
  clearbody t0. generalize (∅ : gmap string PeerInfo). revert t0.
  induction (sl_peers s) as [|p l IH]; intros t0 local; [done|].
  cbn [foldl List.filter]. unfold add_peer at 2. destruct (valid_endpoint _); cbn [negb].
  - rewrite IH. done.
  - apply IH.
Qed.

Lemma add_slice_members t s :
  member_maps (add_slice t s) = foldl add_member (member_maps t) (slice_members s).
Proof.
  destruct s as [nid s]. unfold add_slice. cbn [fst snd].
  pose proof (add_peers_members nid s t) as Hp.
  destruct (add_peers nid s t) as [t1 local]. by rewrite add_routes_frame.
Qed.

Lemma foldl_slices_members t slices :
  member_maps (foldl add_slice t slices) = foldl add_member (member_maps t) (members slices).
Proof.
  unfold members. revert t. induction slices as [|s l IH]; intros t; [done|].
  cbn [foldl map concat]. by rewrite IH, add_slice_members, foldl_app.
Qed.

Lemma foldl_add_member l m :
  foldl add_member m l
  = (foldl (fun m i => or_insert (pi_ip i) i m) m.1.1 l,
     foldl (fun m i => <[(pi_network_id i, pi_ip i) := i]> m) m.1.2 l,
     foldl (fun m i => or_insert (pi_endpoint_hex i) i m) m.2 l).
Proof. revert m. induction l as [|i l IH]; intros [[a b] c]; [done|]. cbn. by rewrite IH. Qed.

Lemma build_member_maps v slices :
  member_maps (build v slices)
  = (foldl (fun m i => or_insert (pi_ip i) i m) ∅ (members slices),
     foldl (fun m i => <[(pi_network_id i, pi_ip i) := i]> m) ∅ (members slices),
     foldl (fun m i => or_insert (pi_endpoint_hex i) i m) ∅ (members slices)).
Proof.
  transitivity (member_maps (foldl add_slice (fresh_tables v) slices)); [done|].
  by rewrite foldl_slices_members, foldl_add_member.
Qed.

(** *** The ordered map of slices *)
Lemma sort_by_id {A} (le : A -> A -> bool) l :
  StronglySorted (fun a b => le a b = true) l -> sort_by le l = l.
Proof.
  induction 1 as [|x l Hs IH Hx]; [done|]. cbn [sort_by foldr]. fold (sort_by le l).
  rewrite IH. destruct Hx as [|y l Hxy]; cbn; [done|]. by rewrite Hxy.
Qed.

Lemma sorted_ids_sort {V} (m : list (Z * V)) :
  sorted_ids m -> sort_by (fun a b => a.1 <=? b.1) m = m.
Proof.
  intros Hm. apply sort_by_id. induction Hm as [|x l Hs IH Hx]; constructor; [done|].
  eapply List.Forall_impl; [|exact Hx]. cbn. intros a Ha. lia.
Qed.

Lemma bt_insert_elem {V} k (v : V) m e :
  sorted_ids m -> e ∈ bt_insert k v m -> e = (k, v) \/ (e ∈ m /\ e.1 <> k).
Proof.
  intros Hm. induction Hm as [|[k' v'] r Hs IH Hx]; cbn; [rewrite list_elem_of_singleton; auto|].
  pose proof (proj1 (list.Forall_forall _ _) Hx) as Hlt.
  destruct (k <? k') eqn:E1; [|destruct (k =? k') eqn:E2]; rewrite !elem_of_cons.
  - intros [->|[->|He]]; [by left| |]; right; (split; [tauto|]); [cbn; lia|].
    specialize (Hlt e He). cbn in Hlt. lia.
  - intros [->|He]; [by left|]. right. split; [tauto|]. specialize (Hlt e He). cbn in Hlt. lia.
  - intros [->|[->|[He Hk]]%IH]; [|tauto|tauto]. right. cbn. split; [tauto|lia].
Qed.

Lemma bt_insert_sorted {V} k (v : V) m : sorted_ids m -> sorted_ids (bt_insert k v m).
Proof.
  induction 1 as [|[k' v'] r Hs IH Hx]; cbn; [by repeat constructor|].
  destruct (k <? k') eqn:E1; [|destruct (k =? k') eqn:E2].
  - constructor; [by constructor|]. constructor; [cbn; lia|].
    eapply List.Forall_impl; [|exact Hx]. cbn. intros. lia.
  - constructor; [done|]. eapply List.Forall_impl; [|exact Hx]. cbn. intros. lia.
  - constructor; [done|]. apply list.Forall_forall. intros e [->|[He _]]%bt_insert_elem; [cbn; lia| |done].
    by apply (proj1 (list.Forall_forall _ _) Hx).
Qed.

Lemma map_set_sorted {V} k (v : V) m :
  sorted_ids m -> k ∈ m.*1 -> sorted_ids (map_set m k v).
Proof.
  intros Hm. induction Hm as [|[k' v'] r Hs IH Hx]; cbn; [by intros ?%elem_of_nil|].
  intros Hk. destruct (decide (k' = k)) as [->|Hne].
  - constructor; [done|]. eapply List.Forall_impl; [|exact Hx]. cbn. intros. lia.
  - apply elem_of_cons in Hk as [?|Hk]; [congruence|]. constructor; [by apply IH|].
    apply list.Forall_forall. intros e He.
    assert (e.1 ∈ r.*1) as Hr.
    { assert (e.1 ∈ (map_set r k v).*1) as H1 by (apply list_elem_of_fmap; by exists e).
      apply elem_of_map_set_keys in H1 as [->|H1]; done. }
    apply list_elem_of_fmap in Hr as (e' & Heq & He').
    pose proof (proj1 (list.Forall_forall _ _) Hx e' He') as Hlt. cbn in *. lia.
Qed.

Lemma bt_remove_sorted {V} k (m : list (Z * V)) : sorted_ids m -> sorted_ids (bt_remove k m).
Proof.
  induction 1 as [|x r Hs IH Hx]; cbn; [constructor|]. case_match; [|done].
  constructor; [done|]. apply list.Forall_forall. intros e [He _]%elem_of_filter_bool.
  by apply (proj1 (list.Forall_forall _ _) Hx).
Qed.

Lemma map_set_elem {V} k (v : V) m e :
  sorted_ids m -> e ∈ map_set m k v -> e = (k, v) \/ (e ∈ m /\ e.1 <> k).
Proof.
  intros Hm. induction Hm as [|[k' v'] r Hs IH Hx]; cbn; [rewrite list_elem_of_singleton; auto|].
  destruct (decide (k' = k)) as [->|Hne]; rewrite !elem_of_cons.
  - intros [->|He]; [by left|]. right. split; [by right|].
    pose proof (proj1 (list.Forall_forall _ _) Hx e He) as Hlt. cbn in Hlt. lia.
  - intros [->|[->|[He Hk]]%IH]; cbn; tauto.
Qed.

(** *** Invariants of the reachable tables *)
Definition rt_inv (rt : RoutingTable) : Prop :=
  sorted_ids (rt_slices rt) /\ plans_disjoint (rt_slices rt)
  /\ rt_inner rt = build (tb_version (rt_inner rt)) (rt_slices rt).

Lemma foldl_version slices t : tb_version (foldl add_slice t slices) = tb_version t.
Proof.
  apply foldl_frame. intros a [nid s]. unfold add_slice. cbn [fst snd].
  assert (tb_version (add_peers nid s a).1 = tb_version a) as Hp.
  { unfold add_peers. apply (foldl_frame (fun x => tb_version x.1)).
    intros [b local] p. unfold add_peer. by case_match. }
  destruct (add_peers nid s a) as [t1 local]. cbn in Hp. rewrite <- Hp. unfold add_routes.
  rewrite foldl_frame; [|intros; unfold add_hostname_route; by repeat case_match].
  assert (forall t, tb_version (select_exit nid s local t) = tb_version t) as ->
    by (intros; unfold select_exit; by repeat (case_match; try done)).
  rewrite !foldl_frame; [done| |].
  - intros; unfold add_subnet_route; by repeat case_match.
  - intros; unfold advertise_exit; by case_match.
Qed.

Lemma build_version v slices : tb_version (build v slices) = v.
Proof. unfold build. cbn. by rewrite foldl_version. Qed.

Lemma rebuild_inv rt v :
  sorted_ids (rt_slices rt) -> plans_disjoint (rt_slices rt) -> rt_inv (rebuild rt v).
Proof.
  intros Hs Hp. split_and!; [done|done|]. unfold rebuild.
  cbn [rt_inner rt_slices]. by rewrite build_version, sorted_ids_sort.
Qed.

Lemma cidr_overlaps_comm a b : cidr_overlaps a b = cidr_overlaps b a.
Proof. unfold cidr_overlaps. by destruct (v4_contains _ _), (v4_contains _ _), (v4_contains _ _), (v4_contains _ _). Qed.

(** Replacing one slice keeps the plans apart when its plan conflicts with none. *)
Lemma plans_disjoint_replace slices slices' k s :
  plans_disjoint slices ->
  (forall e, e ∈ slices' -> e = (k, s) \/ (e ∈ slices /\ e.1 <> k)) ->
  (forall e p q, e ∈ slices -> e.1 <> k -> sl_peer_cidr e.2 = Some p -> sl_peer_cidr s = Some q ->
     cidr_overlaps q p = false) ->
  plans_disjoint slices'.
Proof.
  intros Hd Hin Hk a b p q Ha Hb Hne Hp Hq.
  apply Hin in Ha as [->|[Ha Ha']]; apply Hin in Hb as [->|[Hb Hb']]; cbn in *; [done|..].
  - by eapply Hk.
  - rewrite cidr_overlaps_comm. by eapply Hk.
  - by eapply (Hd a b).
Qed.

Lemma rt_step_inv rt rt' : rt_inv rt -> rt_step rt rt' -> rt_inv rt'.
Proof.
  assert (forall k s, sorted_ids [(k, s : NetworkSlice)] /\ plans_disjoint [(k, s)]) as Hone.
  { intros k s. split; [by repeat constructor|].
    intros a b p q ->%list_elem_of_singleton ->%list_elem_of_singleton []. done. }
  intros (Hs & Hp & Hb) []; unfold clear_managed, replace; try (apply rebuild_inv; apply Hone).
  - unfold replace_network_with_plan. case_match eqn:Hc; [done|].
    apply rebuild_inv; [by apply bt_insert_sorted|].
    eapply plans_disjoint_replace; [done|intros e; by apply bt_insert_elem|].
    cbn. intros e p q He Hne Hep ->.
    destruct (cidr_overlaps q p) eqn:Ho; [|done]. exfalso.
    apply not_true_iff_false in Hc. apply Hc, existsb_exists. exists e.
    split; [by apply list_elem_of_In|]. unfold plan_conflict. rewrite Hep, Ho.
    by rewrite (proj2 (Z.eqb_neq _ _) Hne).
  - apply rebuild_inv; [by apply bt_remove_sorted|].
    intros a b p q [Ha _]%elem_of_filter_bool [Hb' _]%elem_of_filter_bool. by apply Hp.
  - unfold apply_peer_delta. case_match eqn:Hg; [|done].
    pose proof (map_get_elem _ _ _ Hg) as Hin. apply rebuild_inv.
    + apply map_set_sorted; [done|]. apply list_elem_of_fmap. by eexists (_, _).
    + eapply plans_disjoint_replace; [done|intros e; by apply map_set_elem|].
      cbn. intros e p q He Hne Hep Hq. rewrite cidr_overlaps_comm. by eapply (Hp e (_, _)).
Qed.

Lemma rt_reachable_inv rt : rt_reachable rt -> rt_inv rt.
Proof.
  induction 1 as [|rt rt' _ IH Hs]; [|by eapply rt_step_inv].
  split_and!; [constructor| |done]. by intros a b p q ?%elem_of_nil.
Qed.

(** Every lookup of a reachable table, in terms of the members of its slices. *)
Lemma reachable_lookups rt :
  rt_reachable rt ->
  (forall nid ip, lookup_network_ip rt nid ip
     = find_last (fun i => bool_decide ((pi_network_id i, pi_ip i) = (nid, ip))) (members (rt_slices rt)))
  /\ (forall ip, tb_by_ip (rt_inner rt) !! ip
       = List.find (fun i => bool_decide (pi_ip i = ip)) (members (rt_slices rt)))
  /\ (forall hex, lookup_endpoint rt hex
       = List.find (fun i => bool_decide (pi_endpoint_hex i = hex)) (members (rt_slices rt))).
Proof.
  intros (Hs & _ & Hb)%rt_reachable_inv.
  pose proof (build_member_maps (tb_version (rt_inner rt)) (rt_slices rt)) as Hm.
  rewrite <- Hb in Hm. injection Hm as H1 H2 H3. unfold lookup_network_ip, lookup_endpoint.
  rewrite H1, H2, H3. split_and!; intros.
  - rewrite (foldl_insert (fun i => (pi_network_id i, pi_ip i))). by case_match.
  - by rewrite foldl_or_insert.
  - by rewrite foldl_or_insert.
Qed.

(** *** Where the routes of the tables come from *)
Definition speaks_for (s : Z * NetworkSlice) (p : PeerInfo) : Prop :=
  valid_endpoint (pi_endpoint_hex p) = true /\ pi_network_id p = s.1.

(** [p] is the exit node the profile of the slice selects. *)
Definition exit_of (s : Z * NetworkSlice) (p : PeerInfo) : Prop :=
  speaks_for s p /\ dp_exit_node_endpoint_id (sl_profile s.2) = Some (pi_endpoint_hex p)
  /\ exists x, x ∈ sl_exit_nodes s.2 /\ xn_endpoint_id x = pi_endpoint_hex p.

(** [p] is the gateway of a route of the slice for [cidr], or its exit node
    with [cidr] among what it carries. *)
Definition carries (s : Z * NetworkSlice) (cidr : Ipv4Net) (p : PeerInfo) : Prop :=
  speaks_for s p
  /\ ((exists r, r ∈ sl_subnet_routes s.2 /\ sr_cidr r = cidr /\ sr_via_endpoint_id r = pi_endpoint_hex p
         /\ pi_endpoint_hex p <> sl_self_endpoint_id s.2)
      \/ (dp_exit_node_endpoint_id (sl_profile s.2) = Some (pi_endpoint_hex p)
          /\ exists x, x ∈ sl_exit_nodes s.2 /\ xn_endpoint_id x = pi_endpoint_hex p
                /\ cidr ∈ xn_allowed_cidrs x)).

(** What [prefix_trie] documents: a lookup finds an inserted entry whose prefix
    contains the address. *)
Class PrefixMapLaws := {
  pm_entries : PrefixMap -> list (Ipv4Net * PeerInfo);
  pm_entries_new : pm_entries pm_new = [];
  pm_entries_insert m c v e : e ∈ pm_entries (pm_insert m c v) -> e = (c, v) \/ e ∈ pm_entries m;
  pm_get_lpm_entry m ip e : pm_get_lpm m ip = Some e -> e ∈ pm_entries m /\ v4_contains e.1 ip = true
}.

Context {ML : PrefixMapLaws}.

Definition routes_from (slices : list (Z * NetworkSlice)) (t : Tables) : Prop :=
  (forall e, e ∈ pm_entries (tb_subnets t) -> exists s, s ∈ slices /\ carries s e.1 e.2)
  /\ (forall p, tb_exit_node t = Some p -> exists s, s ∈ slices /\ exit_of s p).

Definition local_ok (s : Z * NetworkSlice) (local : gmap string PeerInfo) : Prop :=
  forall hex p, local !! hex = Some p -> pi_endpoint_hex p = hex /\ speaks_for s p.

Lemma peer_for_via_ok s local via ip name p :
  local_ok s local -> peer_for_via local via ip s.1 name = Some p ->
  pi_endpoint_hex p = via /\ speaks_for s p.
Proof.
  intros Hl. unfold peer_for_via. case_match eqn:E; [intros [= <-]; by apply Hl|].
  destruct (valid_endpoint via) eqn:Hv; [|done]. intros [= <-]. done.
Qed.

Lemma insert_new_entries p m c e :
  e ∈ pm_entries (insert_new p m c) -> e = (c, p) \/ e ∈ pm_entries m.
Proof. unfold insert_new. case_match; [apply pm_entries_insert|auto]. Qed.

Lemma foldl_insert_new_entries p cs m e :
  e ∈ pm_entries (foldl (insert_new p) m cs) -> (e.1 ∈ cs /\ e.2 = p) \/ e ∈ pm_entries m.
Proof.
  revert m. induction cs as [|c cs IH]; intros m; cbn; [auto|].
  intros [[He <-]|[->|He]%insert_new_entries]%IH; rewrite ?elem_of_cons; auto.
Qed.

(** A fold whose steps keep a property, each step over an element of the list. *)
Lemma foldl_keep {A B} (P : A -> Prop) (f : A -> B -> A) l a :
  P a -> (forall a b, b ∈ l -> P a -> P (f a b)) -> P (foldl f a l).
Proof.
  revert a. induction l as [|b l IH]; intros a Ha Hf; cbn; [done|].
  apply IH; [apply Hf; [left|done]|]. intros a' b' Hb. apply Hf. by right.
Qed.

Lemma subnet_route_from slices s local t route :
  s ∈ slices -> local_ok s local -> route ∈ sl_subnet_routes s.2 ->
  routes_from slices t -> routes_from slices (add_subnet_route s.1 s.2 local t route).
Proof.
  intros Hs Hl Hr [H1 H2]. unfold add_subnet_route.
  destruct (sr_via_endpoint_id route =? sl_self_endpoint_id s.2)%string eqn:Eself; [done|].
  apply String.eqb_neq in Eself. case_match eqn:Ev; [|done].
  apply peer_for_via_ok in Ev as [Hv Hok]; [|done].
  split; [|done]. cbn. intros e [->|He]%insert_new_entries; [|by apply H1].
  exists s. split; [done|]. split; [done|]. left. exists route. cbn. by rewrite Hv.
Qed.

Lemma select_exit_from slices s local t :
  s ∈ slices -> local_ok s local -> routes_from slices t ->
  routes_from slices (select_exit s.1 s.2 local t).
Proof.
  intros Hs Hl Hr. unfold select_exit.
  destruct (dp_exit_node_endpoint_id _) as [exit_id|] eqn:Ex; [|done].
  destruct (List.find _ _) as [x|] eqn:Ef; [|done].
  destruct (peer_for_via _ _ _ _ _) as [p|] eqn:Ev; [|done].
  apply find_some in Ef as [Hin%list_elem_of_In Heq%String.eqb_eq].
  apply peer_for_via_ok in Ev as [Hv Hok]; [|done]. destruct Hr as [H1 H2]. subst.
  assert (forall e, e ∈ pm_entries (foldl (insert_new p) (tb_subnets t) (xn_allowed_cidrs x)) ->
            exists s, s ∈ slices /\ carries s e.1 e.2) as Hsub.
  { intros e [[He <-]|He]%foldl_insert_new_entries; [|by apply H1].
    exists s. split; [done|]. split; [done|]. right. rewrite Hv. split; [done|]. by exists x. }
  cbn [tb_exit_node with_subnets]. case_match eqn:Et; split; cbn; [done|..].
  - intros q Hq. apply H2. congruence.
  - done.
  - intros q [= <-]. exists s. split; [done|]. split; [done|]. rewrite Hv. split; [done|]. by exists x.
Qed.

Lemma add_peers_local nid s t :
  local_ok (nid, s) (add_peers nid s t).2
  /\ tb_subnets (add_peers nid s t).1 = tb_subnets t
  /\ tb_exit_node (add_peers nid s t).1 = tb_exit_node t.
Proof.
  unfold add_peers. set (t0 := with_names _ _ _).
  apply (foldl_keep (fun x => local_ok (nid, s) x.2 /\ tb_subnets x.1 = tb_subnets t
                              /\ tb_exit_node x.1 = tb_exit_node t)); [done|].
  intros [a local] p _ (Hl & Ha1 & Ha2). unfold add_peer.
  destruct (valid_endpoint (pn_endpoint_id p)) eqn:Hv; [|done]. split_and!; [|done|done].
  cbn. intros hex q. destruct (decide (pn_endpoint_id p = hex)) as [<-|Hne].
  - rewrite lookup_insert_eq. intros [= <-]. done.
  - rewrite lookup_insert_ne by done. apply Hl.
Qed.

Lemma add_slice_from slices s t :
  s ∈ slices -> routes_from slices t -> routes_from slices (add_slice t s).
Proof.
  destruct s as [nid s]. intros Hs Ht. unfold add_slice. cbn [fst snd].
  pose proof (add_peers_local nid s t) as (Hl & H1 & H2).
  destruct (add_peers nid s t) as [t1 local]. cbn in *.
  assert (routes_from slices t1) as Ht1 by (unfold routes_from; by rewrite H1, H2).
  unfold add_routes. apply foldl_keep.
  - apply (select_exit_from slices (nid, s)); [done..|]. apply foldl_keep.
    + apply foldl_keep; [done|]. intros a r Hr Ha. by apply (subnet_route_from slices (nid, s)).
    + intros a x _ Ha. unfold advertise_exit. by case_match.
  - intros a r _ Ha. unfold add_hostname_route. by repeat case_match.
Qed.

Lemma reachable_routes_from rt : rt_reachable rt -> routes_from (rt_slices rt) (rt_inner rt).
Proof.
  intros (_ & _ & ->)%rt_reachable_inv. unfold build.
  change (routes_from (rt_slices rt)
            (foldl add_slice (fresh_tables (tb_version (rt_inner rt))) (rt_slices rt))).
  apply foldl_keep.
  - split; [|done]. cbn. rewrite pm_entries_new. by intros e ?%elem_of_nil.
  - intros a s Hs. by apply add_slice_from.
Qed.

(** *** Membership changes *)
Lemma find_last_filter {A} (p : A -> bool) l l' :
  List.filter p l = List.filter p l' -> find_last p l = find_last p l'.
Proof.
  assert (forall l, List.find p l = head (List.filter p l)) as Hf.
  { clear. induction l as [|x l IH]; cbn; [done|]. by destruct (p x). }
  intros He. unfold find_last. by rewrite !Hf, !List.filter_rev, He.
Qed.

Lemma find_last_some {A} (p : A -> bool) l x : find_last p l = Some x -> x ∈ l /\ p x = true.
Proof.
  unfold find_last. intros [Hin Hp]%find_some. split; [|done].
  apply list_elem_of_In. by apply in_rev.
Qed.

Lemma find_last_is_Some {A} (p : A -> bool) l x : x ∈ l -> p x = true -> is_Some (find_last p l).
Proof.
  intros Hin Hp. unfold find_last. destruct (List.find p (rev l)) eqn:E; [done|].
  pose proof (find_none _ _ E x) as Hn. rewrite Hn in Hp; [done|].
  apply in_rev. rewrite rev_involutive. by apply list_elem_of_In.
Qed.

Lemma elem_of_slice_members s p :
  p ∈ slice_members s <->
  exists e, e ∈ sl_peers s.2 /\ valid_endpoint (pn_endpoint_id e) = true /\ p = peer_info s.1 s.2 e.
Proof.
  unfold slice_members. rewrite list_elem_of_fmap. setoid_rewrite elem_of_filter_bool. naive_solver.
Qed.

Lemma elem_of_members slices p : p ∈ members slices <-> exists s, s ∈ slices /\ p ∈ slice_members s.
Proof. unfold members. rewrite <- elem_of_concat_map. done. Qed.

Lemma members_other_network nid nid' ip slices (s : NetworkSlice) :
  nid' <> nid ->
  let p i := bool_decide ((pi_network_id i, pi_ip i) = (nid', ip)) in
  nid ∈ slices.*1 -> sorted_ids slices ->
  List.filter p (members (map_set slices nid s)) = List.filter p (members slices).
Proof.
  intros Hne p.
  assert (forall s, List.filter p (slice_members (nid, s)) = []) as Hnil.
  { intros s'. unfold slice_members. cbn [fst snd].
    generalize (List.filter (fun p => valid_endpoint (pn_endpoint_id p)) (sl_peers s')).
    induction l as [|e l IH]; [done|]. cbn [map List.filter].
    assert (p (peer_info nid s' e) = false) as -> by (apply bool_decide_eq_false_2; cbn; congruence).
    done. }
  unfold members. induction slices as [|[k s0] r IH]; cbn; [by intros ?%elem_of_nil|].
  intros Hk Hs. inversion_clear Hs. rewrite filter_app. destruct (decide (k = nid)) as [->|Hk'].
  - cbn. by rewrite filter_app, !Hnil.
  - cbn. rewrite filter_app. apply elem_of_cons in Hk as [?|Hk]; [congruence|]. by rewrite IH.
Qed.

Lemma elem_of_upsert a l p : p ∈ upsert_peer a l -> p = a \/ p ∈ l.
Proof.
  induction l as [|x l IH]; cbn; [rewrite list_elem_of_singleton; auto|].
  case_match; rewrite !elem_of_cons; [tauto|]. intros [?|?%IH]; tauto.
Qed.

Lemma upsert_keeps a l p :
  p ∈ l -> pn_endpoint_id p <> pn_endpoint_id a -> p ∈ upsert_peer a l.
Proof.
  induction l as [|x l IH]; cbn; [by intros ?%elem_of_nil|].
  destruct (pn_endpoint_id x =? pn_endpoint_id a)%string eqn:E; rewrite !elem_of_cons.
  - apply String.eqb_eq in E. intros [->|?] ?; [done|by right].
  - intros [->|?] ?; [by left|right; by apply IH].
Qed.

Lemma upsert_has a l : a ∈ upsert_peer a l.
Proof. induction l as [|x l IH]; cbn; [left|]. case_match; [left|by right]. Qed.

(** What the peers of a slice are after a change of its membership. *)
Lemma delta_peers_sound added removed self peers p :
  p ∈ delta_peers added removed self peers ->
  pn_endpoint_id p <> self /\ (pn_endpoint_id p ∈ removed -> p ∈ added).
Proof.
  unfold delta_peers. set (kept := List.filter _ peers).
  assert (p ∈ kept -> pn_endpoint_id p <> self /\ pn_endpoint_id p ∉ removed) as Hk.
  { intros [_ [H1%negb_true_iff%String.eqb_neq H2%negb_true_iff]%andb_prop]%elem_of_filter_bool.
    split; [done|]. intros Hin. apply not_true_iff_false in H2. apply H2, existsb_exists.
    exists (pn_endpoint_id p). split; [by apply list_elem_of_In|apply String.eqb_refl]. }
  clearbody kept. intros Hp.
  assert (p ∈ kept \/ p ∈ added /\ pn_endpoint_id p <> self) as [Hin|[Hin Hself]]; [|naive_solver..].
  revert Hp. clear Hk. apply (foldl_keep (fun ps => p ∈ ps -> p ∈ kept \/ p ∈ added /\ pn_endpoint_id p <> self));
    [auto|]. intros ps a Ha IH. destruct (_ =? self)%string eqn:E; [done|].
  intros [->|Hp]%elem_of_upsert; [|auto]. right. split; [done|]. by apply String.eqb_neq.
Qed.

Lemma delta_peers_added pre a post removed self peers :
  pn_endpoint_id a <> self -> pn_endpoint_id a ∉ map pn_endpoint_id post ->
  a ∈ delta_peers (pre ++ a :: post) removed self peers.
Proof.
  intros Hself Hpost. unfold delta_peers. rewrite foldl_app. cbn [foldl].
  rewrite (proj2 (String.eqb_neq _ _) Hself). apply foldl_keep; [apply upsert_has|].
  intros ps b Hb Hin. case_match; [done|]. apply upsert_keeps; [done|].
  intros Heq. apply Hpost. rewrite Heq. apply list_elem_of_fmap. by exists b.
Qed.

(** ** Properties *)

(** C8: After any sequence of table changes the lookups agree with the current
    slices: an address of a network leads to the last usable member of that
    network listed with it, an endpoint id to its first usable listing, no two
    networks have overlapping address plans, and the tables are those a
    rebuild from the slices gives. *)
Theorem lookups_follow_slices rt :
  rt_reachable rt ->
  (forall nid ip, lookup_network_ip rt nid ip
     = find_last (fun i => bool_decide ((pi_network_id i, pi_ip i) = (nid, ip))) (members (rt_slices rt)))
  /\ (forall hex, lookup_endpoint rt hex
       = List.find (fun i => bool_decide (pi_endpoint_hex i = hex)) (members (rt_slices rt)))
  /\ plans_disjoint (rt_slices rt)
  /\ rt_inner rt = build (tb_version (rt_inner rt)) (rt_slices rt).
Proof.
  intros H. destruct (reachable_lookups rt H) as (H1 & _ & H3).
  apply rt_reachable_inv in H as (_ & Hp & Hb). done.
Qed.

(** C7: Where a packet is sent: never for a multicast or broadcast address; to
    the first member listed with the address when there is one; otherwise to
    the gateway of a route containing it, which for a private address kept on
    the LAN is not a default route; otherwise to the selected exit node, and
    then for no loopback or link-local address and for no private address kept
    on the LAN. *)
Theorem lookup_ip_target rt ip p :
  rt_reachable rt -> lookup_ip rt ip = Some p ->
  let lan := tb_allow_local_lan (rt_inner rt) && is_rfc1918 ip in
  let direct := List.find (fun i => bool_decide (pi_ip i = ip)) (members (rt_slices rt)) in
  is_multicast ip = false /\ is_broadcast ip = false
  /\ (direct = Some p
      \/ direct = None
         /\ ((exists s cidr, s ∈ rt_slices rt /\ carries s cidr p /\ v4_contains cidr ip = true
                /\ (lan = true -> prefix_len cidr <> 0))
             \/ (exists s, s ∈ rt_slices rt /\ exit_of s p)
                /\ is_mesh_or_link_local ip = false /\ lan = false)).
Proof.
  intros H Hlk lan direct. destruct (reachable_lookups rt H) as (_ & Hd & _).
  apply reachable_routes_from in H as [Hsub Hexit].
  unfold lookup_ip in Hlk. destruct (is_multicast ip); [done|].
  destruct (is_broadcast ip); [done|]. cbn [orb] in Hlk. rewrite Hd in Hlk. fold direct lan in Hlk.
  split_and!; [done..|]. destruct direct as [q|]; [left; congruence|]. right. split; [done|].
  set (exit := if negb _ && _ then _ else _) in Hlk.
  assert (exit = Some p -> (exists s, s ∈ rt_slices rt /\ exit_of s p)
            /\ is_mesh_or_link_local ip = false /\ lan = false) as Hx.
  { unfold exit. destruct (is_mesh_or_link_local ip); [done|]. destruct lan; [done|]. cbn. eauto. }
  destruct (pm_get_lpm _ ip) as [[c q]|] eqn:El; [|by right; apply Hx].
  apply pm_get_lpm_entry in El as [He Hc]. destruct (Hsub _ He) as (s & Hs & Hcar). cbn in *.
  destruct lan; cbn in Hlk.
  - destruct (prefix_len c =? 0) eqn:E; [right; by apply Hx|]. injection Hlk as <-.
    left. exists s, c. split_and!; [done..|]. intros _. lia.
  - injection Hlk as <-. left. by exists s, c.
Qed.

(** A membership change of a network takes effect at once and only there:
    afterwards its addresses lead to no endpoint that was removed and not added
    again, nor to the device itself; every usable added peer's address is
    found; and the addresses of every other network lead where they led. *)
Theorem peer_delta_effective rt nid s added removed v self name :
  rt_reachable rt -> map_get (rt_slices rt) nid = Some s ->
  let rt' := apply_peer_delta rt nid added removed v self name in
  (forall ip p, lookup_network_ip rt' nid ip = Some p ->
     pi_endpoint_hex p <> self
     /\ (pi_endpoint_hex p ∈ removed ->
         exists a, a ∈ added /\ pn_endpoint_id a = pi_endpoint_hex p /\ pn_ip a = ip))
  /\ (forall pre a post, added = pre ++ a :: post -> pn_endpoint_id a <> self ->
        pn_endpoint_id a ∉ map pn_endpoint_id post -> valid_endpoint (pn_endpoint_id a) = true ->
        is_Some (lookup_network_ip rt' nid (pn_ip a)))
  /\ (forall nid' ip, nid' <> nid -> lookup_network_ip rt' nid' ip = lookup_network_ip rt nid' ip).
Proof.
  intros Hr Hg rt'.
  assert (rt_reachable rt') as Hr' by (eapply reach_step; [done|constructor]).
  pose proof (proj1 (rt_reachable_inv rt Hr)) as Hs.
  pose proof (proj1 (rt_reachable_inv rt' Hr')) as Hs'.
  destruct (reachable_lookups rt Hr) as [Hl _], (reachable_lookups rt' Hr') as [Hl' _].
  set (s' := mkSlice (delta_peers added removed self (sl_peers s)) (sl_subnet_routes s)
               (sl_hostname_routes s) (sl_exit_nodes s) (sl_profile s) (sl_dns s)
               (if negb (name =? "")%string then to_ascii_lowercase name else sl_network_name s)
               (sl_self_endpoint_id s) (sl_peer_cidr s)).
  assert (rt_slices rt' = map_set (rt_slices rt) nid s') as Hsl
    by (unfold rt', apply_peer_delta; by rewrite Hg).
  rewrite Hsl in Hl'. split_and!.
  - intros ip p. rewrite Hl'. intros [Hin [= Hn Hip]%bool_decide_eq_true]%find_last_some.
    apply elem_of_members in Hin as (s0 & Hs0 & (e & He & _ & ->)%elem_of_slice_members).
    apply map_set_elem in Hs0 as [->|[_ Hne]]; [|cbn in *; congruence|done].
    cbn in *. apply delta_peers_sound in He as [H1 H2]. split; [done|].
    intros Hrem. exists e. auto.
  - intros pre a post Hadd Hself Hpost Hv. rewrite Hl'.
    eapply (find_last_is_Some _ _ (peer_info nid s' a)); [|by apply bool_decide_eq_true].
    apply elem_of_members. exists (nid, s'). split.
    + apply map_get_elem. by rewrite map_get_set, decide_True.
    + apply elem_of_slice_members. exists a. split_and!; [|done..]. cbn. subst added.
      by apply delta_peers_added.
  - intros nid' ip Hne. rewrite Hl, Hl'. apply find_last_filter, members_other_network; [done| |done].
    apply map_get_elem in Hg. apply list_elem_of_fmap. by exists (nid, s).
Qed.

End Routing.

(** ** Sample networks

    An address block as its first address and prefix length, and the prefix
    map as a list searched for the longest matching block. *)
#[local] Instance sample_v4nets : Ipv4NetLib := {|
  Ipv4Net := Z * Z;
  prefix_len n := n.2;
  v4_contains n ip := Z.shiftr n.1 (32 - n.2) =? Z.shiftr ip (32 - n.2);
  net_network n := Z.shiftl (Z.shiftr n.1 (32 - n.2)) (32 - n.2);
  net_broadcast n := Z.lor n.1 (Z.ones (32 - n.2))
|}.

Definition longer (a b : (Z * Z) * PeerInfo) : bool := b.1.2 <=? a.1.2.

#[local] Instance sample_prefix_map : PrefixMapLib (Z * Z) PeerInfo := {|
  PrefixMap := list ((Z * Z) * PeerInfo);
  pm_new := [];
  pm_contains_key m n := existsb (fun e => (e.1.1 =? n.1) && (e.1.2 =? n.2)) m;
  pm_insert m n v := (n, v) :: m;
  pm_get_lpm m ip := List.find (fun e => v4_contains e.1 ip) (sort_by longer m)
|}.

#[local] Instance sample_laws : PrefixMapLaws.
Proof.
  refine {| pm_entries m := m |}; [done| |].
  - intros m c v e. apply elem_of_cons.
  - intros m ip e [Hin%list_elem_of_In Hp]%find_some. by rewrite elem_of_sort_by in Hin.
Defined.

Definition sample_endpoint (s : string) : bool := negb (s =? "")%string.
Definition ip4 (a b c d : Z) : Z := ((a * 256 + b) * 256 + c) * 256 + d.

Definition gateway : PeerEntry := mkPeerEntry (ip4 100 64 0 2) "gw" "Gateway" ["tag:gw"] None.
Definition laptop : PeerEntry := mkPeerEntry (ip4 100 64 0 3) "lap" "laptop" [] None.

Definition sample_table : RoutingTable :=
  replace sample_endpoint new_routing [gateway; laptop]
    [mkSubnetRoute (ip4 192 168 7 0, 24) "gw" (ip4 100 64 0 2)] []
    [mkExitNode "gw" (ip4 100 64 0 2) [(0, 0)]]
    (mkProfile (Some "gw") STExclude [] true) default_dns "Corp" 7 "me" 3.

Lemma sample_reachable : rt_reachable sample_endpoint sample_table.
Proof. eapply reach_step; [apply reach_new|apply step_replace]. Defined.

Lemma lookups_follow_slices_witness :
  lookup_network_ip sample_table 7 (ip4 100 64 0 3)
  = Some (mkPeer "lap" "laptop" (ip4 100 64 0 3) [] 7 "corp" None)
  /\ plans_disjoint (rt_slices sample_table).
Proof.
  destruct (lookups_follow_slices _ _ sample_reachable) as (H1 & _ & H3 & _).
  split; [rewrite H1; vm_compute; reflexivity|exact H3].
Defined.

(** A public address leaves through the exit node, an address of the routed
    subnet through its gateway, and another private address stays local. *)
Lemma lookup_ip_target_witness :
  lookup_ip sample_table (ip4 192 168 9 1) = None
  /\ pi_endpoint_hex <$> lookup_ip sample_table (ip4 192 168 7 9) = Some "gw"
  /\ is_multicast (ip4 8 8 8 8) = false /\ is_broadcast (ip4 8 8 8 8) = false.
Proof.
  split; [vm_compute; reflexivity|]. split; [vm_compute; reflexivity|].
  destruct (lookup_ip_target sample_endpoint sample_table (ip4 8 8 8 8)
              (mkPeer "gw" "Gateway" (ip4 100 64 0 2) ["tag:gw"] 7 "corp" None)) as (H1 & H2 & _);
    [exact sample_reachable|vm_compute; reflexivity|]. exact (conj H1 H2).
Defined.

Definition without_gateway : RoutingTable :=
  apply_peer_delta sample_endpoint sample_table 7 [] ["gw"] 4 "me" "".

Lemma peer_delta_effective_witness :
  pi_endpoint_hex <$> lookup_network_ip without_gateway 7 (ip4 100 64 0 2) <> Some "gw"
  /\ lookup_network_ip without_gateway 8 (ip4 100 64 0 2) = lookup_network_ip sample_table 8 (ip4 100 64 0 2).
Proof.
  destruct (peer_delta_effective sample_endpoint sample_table 7
              (snd (nth 0 (rt_slices sample_table) (0, mkSlice [] [] [] [] default_profile default_dns "" "" None)))
              [] ["gw"] 4 "me" "") as (H1 & _ & H3); [exact sample_reachable|reflexivity|].
  split; [|apply H3; lia].
  destruct (lookup_network_ip without_gateway 7 (ip4 100 64 0 2)) as [p|] eqn:E; [|discriminate].
  intros [= Hp]. destruct (H1 _ _ E) as [_ Hr]. rewrite Hp in Hr.
  destruct Hr as (a & Ha & _); [left|]. by apply elem_of_nil in Ha.
Defined.

(** A name two networks share resolves to the address the hash map happens to
    yield first. *)
Definition twin_table : RoutingTable :=
  replace_network sample_endpoint
    (replace_network sample_endpoint new_routing 1
       [mkPeerEntry (ip4 100 64 0 2) "a" "db" [] None] default_dns "one" "me" 1)
    2 [mkPeerEntry (ip4 100 65 0 2) "b" "db" [] None] default_dns "two" "me" 2.

Lemma dns_answer_depends_on_order :
  exists order order',
    order ≡ₚ order' /\ order ≡ₚ (map_to_list (tb_by_network_ip (rt_inner twin_table))).*2
    /\ resolve_dns_a twin_table order "db.tunnet" <> resolve_dns_a twin_table order' "db.tunnet".
Proof.
  exists (map_to_list (tb_by_network_ip (rt_inner twin_table))).*2,
         (rev (map_to_list (tb_by_network_ip (rt_inner twin_table))).*2).
  split; [apply Permutation_rev|]. split; [done|]. vm_compute. discriminate.
Qed.

(** A gateway that leaves the membership keeps receiving the packets of its
    subnet routes until the next full table. *)
Lemma removed_gateway_still_routed :
  lookup_endpoint without_gateway "gw" = None
  /\ pi_endpoint_hex <$> lookup_ip without_gateway (ip4 192 168 7 9) = Some "gw".
Proof. split; vm_compute; reflexivity. Qed.
