(* ===== verification/Conntrack.v ===== *)
(** * Connection tracking

    The flow tables of [crates/tunnet-core/src/acl.rs] and
    [crates/tunnet-core/src/direct/firewall.rs], which hold the same code: flow
    keys, the phases of a flow, its expiry, admission of a packet of a known
    flow, opening a flow, and the periodic collection.  Times are nanoseconds;
    each operation takes its reading of the clock as an argument. *)
From S2P Require Import Prelude NetPolicy Packet.
Local Open Scope Z_scope.

Definition TCP_ACTIVE_TTL : Z := secs 300.
Definition TCP_TIME_WAIT_TTL : Z := secs 10.
Definition UDP_TTL : Z := secs 30.
Definition ICMP_TTL : Z := secs 10.

Record FlowKey := mkFlowKey {
  fk_proto : Z;
  fk_src : Z;
  fk_sport : Z;
  fk_dst : Z;
  fk_dport : Z
}.
#[export] Instance FlowKey_eq_dec : EqDecision FlowKey.
Proof. solve_decision. Defined.

Definition reverse_key (k : FlowKey) : FlowKey :=
  mkFlowKey (fk_proto k) (fk_dst k) (fk_dport k) (fk_src k) (fk_sport k).

Inductive TcpPhase := SynSent | Established | TimeWait.
Inductive FlowPhase := PhTcp (p : TcpPhase) | PhUdp | PhIcmp.

Record FlowState := mkFlowState { fs_phase : FlowPhase; fs_last_seen : Z }.

(** [DashMap<FlowKey, FlowState>]; nothing depends on its order. *)
Definition conntrack := list (FlowKey * FlowState).

Definition flow_ttl (p : FlowPhase) : Z :=
  match p with
  | PhTcp TimeWait => TCP_TIME_WAIT_TTL
  | PhTcp _ => TCP_ACTIVE_TTL
  | PhUdp => UDP_TTL
  | PhIcmp => ICMP_TTL
  end.

(** [duration_since] is zero when the clock reads earlier. *)
Definition is_expired (st : FlowState) (now : Z) : bool :=
  flow_ttl (fs_phase st) <? Z.max 0 (now - fs_last_seen st).

Definition collect (ct : conntrack) (now : Z) : conntrack :=
  List.filter (fun e => negb (is_expired e.2 now)) ct.

(** What a packet does to the entry of its flow, and whether it passes. *)
Definition touch (direction : Direction) (tcp_flags now : Z) (st : FlowState) : FlowState * bool :=
  let closing := flag tcp_flags TcpFlags.RST || flag tcp_flags TcpFlags.FIN in
  match fs_phase st with
  | PhTcp SynSent =>
      if match direction with Inbound => true | Outbound => false end
         || flag tcp_flags TcpFlags.ACK || flag tcp_flags TcpFlags.RST
      then (mkFlowState (PhTcp (if closing then TimeWait else Established)) now, true)
      else match direction with
           | Outbound => (mkFlowState (fs_phase st) now, true)
           | Inbound => (st, false)
           end
  | PhTcp Established =>
      (mkFlowState (if closing then PhTcp TimeWait else fs_phase st) now, true)
  | PhTcp TimeWait | PhUdp | PhIcmp => (mkFlowState (fs_phase st) now, true)
  end.

(** From [get_mut] on: the entry of a key is dropped or touched. *)
Definition admit_known (ct : conntrack) (direction : Direction) (tcp_flags now : Z) (key : FlowKey) :
    conntrack * bool :=
  match map_get ct key with
  | None => (ct, false)
  | Some st =>
      if is_expired st now then (List.filter (fun e => bool_decide (e.1 <> key)) ct, false)
      else let '(st', ok) := touch direction tcp_flags now st in (map_set ct key st', ok)
  end.

Definition conntrack_allows (ct : conntrack) (direction : Direction) (fwd rev : FlowKey)
    (tcp_flags now : Z) : conntrack * bool :=
  if bool_decide (fwd ∈ ct.*1) then admit_known ct direction tcp_flags now fwd
  else if bool_decide (rev ∈ ct.*1) then admit_known ct direction tcp_flags now rev
  else (ct, false).

Definition opening_phase (proto : Protocol) (tcp_flags : Z) : option FlowPhase :=
  match proto with
  | Tcp =>
      Some (PhTcp
        (if flag tcp_flags TcpFlags.SYN && negb (flag tcp_flags TcpFlags.ACK) then SynSent
         else if flag tcp_flags TcpFlags.FIN || flag tcp_flags TcpFlags.RST then TimeWait
         else Established))
  | Udp => Some PhUdp
  | Icmp | Icmpv6 => Some PhIcmp
  | AnyProtocol | OtherProtocol _ => None
  end.

(** The closure of [and_modify]. *)
Definition refresh (phase : FlowPhase) (now : Z) (st : FlowState) : FlowState :=
  mkFlowState
    (match fs_phase st, phase with
     | PhTcp SynSent, PhTcp Established => phase
     | _, PhTcp TimeWait => phase
     | p, _ => p
     end) now.

Definition open_or_refresh_flow (ct : conntrack) (key : FlowKey) (proto : Protocol)
    (tcp_flags now : Z) : conntrack :=
  match opening_phase proto tcp_flags with
  | None => ct
  | Some phase =>
      map_set ct key
        match map_get ct key with
        | Some st => refresh phase now st
        | None => mkFlowState phase now
        end
  end.

(** ** Lemmas *)

(** An unexpired entry passes every packet of its flow, in both directions. *)
Lemma touch_allows direction flags now st :
  (touch direction flags now st).2 = true /\ fs_last_seen (touch direction flags now st).1 = now.
Proof. unfold touch. by destruct (fs_phase st) as [[]| |], direction; repeat case_match. Qed.

Lemma flow_ttl_bound p : flow_ttl p <= TCP_ACTIVE_TTL.
Proof. by destruct p as [[]| |]. Qed.

Lemma not_expired st now : is_expired st now = false -> now - fs_last_seen st <= TCP_ACTIVE_TTL.
Proof. unfold is_expired. pose proof (flow_ttl_bound (fs_phase st)). lia. Qed.

(** Every entry satisfies a property of its key and of when it was last seen. *)
Definition tracked (P : FlowKey -> Z -> Prop) (ct : conntrack) : Prop :=
  NoDup ct.*1 /\ forall k st, map_get ct k = Some st -> P k (fs_last_seen st).

Lemma tracked_nil P : tracked P [].
Proof. by split; [constructor|]. Qed.

Lemma tracked_mono (P Q : FlowKey -> Z -> Prop) ct :
  (forall k t, P k t -> Q k t) -> tracked P ct -> tracked Q ct.
Proof. intros Hpq [Hn H]. split; [done|]. intros k st Hk. by apply Hpq, H. Qed.

Lemma tracked_set P ct k st : tracked P ct -> P k (fs_last_seen st) -> tracked P (map_set ct k st).
Proof.
  intros [Hn H] Hk. split; [by apply NoDup_map_set|]. intros k' st'. rewrite map_get_set.
  case_decide as E; [|apply H]. subst. by intros [= <-].
Qed.

Lemma tracked_filter P p ct : tracked P ct -> tracked P (List.filter p ct).
Proof.
  intros [Hn H]. assert (NoDup (List.filter p ct).*1) as Hn'.
  { revert Hn. clear. induction ct as [|e l IH]; cbn; [done|]. intros [He Hn]%list.NoDup_cons.
    destruct (p e); [|by apply IH]. cbn. apply list.NoDup_cons. split; [|by apply IH].
    intros (x & Hx & [Hin _]%elem_of_filter_bool)%list_elem_of_fmap. apply He.
    apply list_elem_of_fmap. by exists x. }
  split; [done|]. intros k st [Hin _]%map_get_elem%elem_of_filter_bool.
  by apply H, (map_get_Some ct k st Hn).
Qed.

Lemma admit_known_true P ct direction flags now k ct' :
  tracked P ct -> admit_known ct direction flags now k = (ct', true) ->
  exists t, P k t /\ now - t <= TCP_ACTIVE_TTL.
Proof.
  intros [_ H]. unfold admit_known. destruct (map_get ct k) as [st|] eqn:E; [|done].
  destruct (is_expired st now) eqn:Ex; [done|]. intros _. exists (fs_last_seen st).
  split; [by apply H|by apply not_expired].
Qed.

Lemma tracked_admit_known (P : FlowKey -> Z -> Prop) ct direction flags now k :
  tracked P ct -> (forall t, P k t -> P k now) -> tracked P (admit_known ct direction flags now k).1.
Proof.
  intros Ht Hp. unfold admit_known. destruct (map_get ct k) as [st|] eqn:E; [|done].
  case_match; [by apply tracked_filter|].
  pose proof (touch_allows direction flags now st) as [_ Hs].
  destruct (touch _ _ _ _) as [st' ok]. cbn in *. apply tracked_set; [done|]. rewrite Hs.
  eapply Hp. by apply Ht.
Qed.

(** A packet that passes belongs to a tracked flow seen within the longest
    lifetime of an entry. *)
Lemma conntrack_allows_true P ct direction fwd rev flags now ct' :
  tracked P ct -> conntrack_allows ct direction fwd rev flags now = (ct', true) ->
  exists k t, (k = fwd \/ k = rev) /\ P k t /\ now - t <= TCP_ACTIVE_TTL.
Proof.
  intros Ht. unfold conntrack_allows.
  repeat case_bool_decide; [intros [t ?]%(admit_known_true P); [|done]..|done]; eauto 6.
Qed.

Lemma tracked_allows P ct direction fwd rev flags now :
  tracked P ct ->
  (forall k t, k = fwd \/ k = rev -> P k t -> P k now) ->
  tracked P (conntrack_allows ct direction fwd rev flags now).1.
Proof.
  intros Ht Hp. unfold conntrack_allows.
  repeat case_bool_decide; [apply tracked_admit_known; eauto..|done].
Qed.

Lemma tracked_open P ct key proto flags now :
  tracked P ct -> P key now -> tracked P (open_or_refresh_flow ct key proto flags now).
Proof.
  intros Ht Hp. unfold open_or_refresh_flow. case_match; [|done]. apply tracked_set; [done|].
  by case_match.
Qed.

Lemma elem_of_remove (ct : conntrack) k k' :
  k' ∈ (List.filter (fun e => bool_decide (e.1 <> k)) ct).*1 <-> k' ∈ ct.*1 /\ k' <> k.
Proof.
  rewrite !list_elem_of_fmap. split.
  - intros (x & -> & [Hin Hb%bool_decide_eq_true]%elem_of_filter_bool). eauto.
  - intros [(x & -> & Hin) Hne]. exists x. split; [done|]. apply elem_of_filter_bool.
    split; [done|]. by apply bool_decide_eq_true.
Qed.

(** A packet that the table does not pass leaves it, but for its own entry. *)
Lemma admit_known_false ct direction flags now k ct' :
  admit_known ct direction flags now k = (ct', false) -> k ∈ ct.*1 ->
  ct' = List.filter (fun e => bool_decide (e.1 <> k)) ct.
Proof.
  unfold admit_known. intros H Hk. destruct (map_get ct k) as [st|] eqn:E.
  - destruct (is_expired st now); [congruence|].
    pose proof (touch_allows direction flags now st) as [Ha _].
    destruct (touch _ _ _ _) as [st' ok]. cbn in Ha. congruence.
  - apply map_get_None in E. done.
Qed.

Lemma tracked_allows_false P ct direction fwd rev flags now ct' :
  tracked P ct -> conntrack_allows ct direction fwd rev flags now = (ct', false) -> tracked P ct'.
Proof.
  intros Ht. unfold conntrack_allows.
  repeat case_bool_decide; [intros ->%admit_known_false; [by apply tracked_filter|done]..|].
  by intros [= <-].
Qed.

(** *** At most one direction of a flow has an entry *)
Lemma reverse_key_involutive k : reverse_key (reverse_key k) = k.
Proof. by destruct k. Qed.

Definition one_way (ct : conntrack) : Prop :=
  forall k, k ∈ ct.*1 -> reverse_key k ∈ ct.*1 -> reverse_key k = k.

Lemma one_way_sub (ct ct' : conntrack) :
  (forall k, k ∈ ct'.*1 -> k ∈ ct.*1) -> one_way ct -> one_way ct'.
Proof. intros Hs H k Hk Hr. apply H; auto. Qed.

Lemma one_way_filter p ct : one_way ct -> one_way (List.filter p ct).
Proof.
  apply one_way_sub. intros k (x & -> & [Hin _]%elem_of_filter_bool)%list_elem_of_fmap.
  apply list_elem_of_fmap. eauto.
Qed.

Lemma map_set_same_keys (ct : conntrack) k st k' : k ∈ ct.*1 -> k' ∈ (map_set ct k st).*1 -> k' ∈ ct.*1.
Proof. intros Hk [->|?]%elem_of_map_set_keys; done. Qed.

Lemma one_way_allows ct direction fwd rev flags now :
  one_way ct -> one_way (conntrack_allows ct direction fwd rev flags now).1.
Proof.
  assert (forall k, k ∈ ct.*1 -> one_way ct -> one_way (admit_known ct direction flags now k).1) as H.
  { intros k Hk Ho. unfold admit_known. destruct (map_get ct k); [|done]. case_match; [by apply one_way_filter|].
    destruct (touch _ _ _ _). cbn. eapply one_way_sub; [|done]. intros k'. by apply map_set_same_keys. }
  intros Ho. unfold conntrack_allows. repeat case_bool_decide; [by apply H..|done].
Qed.

Lemma allows_false_absent ct direction k flags now ct' :
  one_way ct -> conntrack_allows ct direction k (reverse_key k) flags now = (ct', false) ->
  k ∉ ct'.*1 /\ reverse_key k ∉ ct'.*1.
Proof.
  intros Ho. unfold conntrack_allows. repeat case_bool_decide; [intros ->%admit_known_false; [|done]..|].
  - rewrite !elem_of_remove. split; [tauto|]. intros [Hr Hne]. by apply Hne, Ho.
  - rewrite !elem_of_remove. tauto.
  - by intros [= <-].
Qed.

Lemma one_way_open ct key proto flags now :
  one_way ct -> key ∉ ct.*1 -> reverse_key key ∉ ct.*1 ->
  one_way (open_or_refresh_flow ct key proto flags now).
Proof.
  intros Ho H1 H2. unfold open_or_refresh_flow. case_match; [|done].
  intros k [->|Hk]%elem_of_map_set_keys [Hr|Hr]%elem_of_map_set_keys; [done|done| |by apply Ho].
  exfalso. apply H2. rewrite <- Hr, reverse_key_involutive. done.
Qed.

(** An unexpired entry passes the packets of its flow, in both directions. *)
Lemma allows_present ct direction k flags now k0 st :
  one_way ct -> map_get ct k0 = Some st -> is_expired st now = false ->
  k = k0 \/ k = reverse_key k0 ->
  (conntrack_allows ct direction k (reverse_key k) flags now).2 = true.
Proof.
  intros Ho Hg Hx Hk.
  assert (k0 ∈ ct.*1) as Hin by (apply map_get_elem in Hg; apply list_elem_of_fmap; by exists (k0, st)).
  assert (snd (admit_known ct direction flags now k0) = true) as Ha.
  { unfold admit_known. rewrite Hg, Hx. pose proof (touch_allows direction flags now st) as [Ha _].
    by destruct (touch _ _ _ _). }
  unfold conntrack_allows. destruct Hk as [->| ->].
  - by rewrite bool_decide_true.
  - rewrite reverse_key_involutive. case_bool_decide as E; [by rewrite (Ho _ Hin E)|].
    by rewrite bool_decide_true.
Qed.

(** The entry a passing packet leaves behind. *)
Lemma allows_true_entry ct direction k flags now ct' :
  conntrack_allows ct direction k (reverse_key k) flags now = (ct', true) ->
  exists k0 st, (k0 = k \/ k0 = reverse_key k) /\ map_get ct' k0 = Some st /\ fs_last_seen st = now.
Proof.
  assert (forall k0, admit_known ct direction flags now k0 = (ct', true) ->
            exists st, map_get ct' k0 = Some st /\ fs_last_seen st = now) as H.
  { intros k0. unfold admit_known. destruct (map_get ct k0) as [st|]; [|done].
    case_match; [done|]. pose proof (touch_allows direction flags now st) as [_ Hs].
    destruct (touch _ _ _ _) as [st' ok]. intros [= <- _]. exists st'.
    by rewrite map_get_set, decide_True. }
  unfold conntrack_allows. repeat case_bool_decide; [intros [st ?]%H..|done]; eauto 6.
Qed.

Lemma open_entry ct key proto flags now phase :
  opening_phase proto flags = Some phase ->
  exists st, map_get (open_or_refresh_flow ct key proto flags now) key = Some st /\ fs_last_seen st = now.
Proof.
  intros Hph. unfold open_or_refresh_flow. rewrite Hph, map_get_set, decide_True by done.
  eexists; split; [done|]. by case_match.
Qed.

Lemma fresh_entry st now : now - fs_last_seen st <= TCP_TIME_WAIT_TTL -> is_expired st now = false.
Proof.
  unfold is_expired. destruct (fs_phase st) as [[]| |]; cbn;
    unfold TCP_ACTIVE_TTL, TCP_TIME_WAIT_TTL, UDP_TTL, ICMP_TTL, secs; lia.
Qed.

(** *** An entry seen within ten seconds survives *)
Definition alive (ct : conntrack) (k : FlowKey) (until : Z) : Prop :=
  exists st, map_get ct k = Some st /\ until - fs_last_seen st <= TCP_TIME_WAIT_TTL.

Lemma alive_not_expired until now st :
  until - fs_last_seen st <= TCP_TIME_WAIT_TTL -> now <= until -> is_expired st now = false.
Proof. intros Hs Hn. apply fresh_entry. lia. Qed.

Lemma map_get_filter_keep (p : FlowKey * FlowState -> bool) (ct : conntrack) k st :
  map_get ct k = Some st -> p (k, st) = true -> map_get (List.filter p ct) k = Some st.
Proof.
  induction ct as [|[k' st'] l IH]; cbn; [done|]. case_decide as E.
  - subst k'. intros [= ->] ->. cbn. by rewrite decide_True.
  - intros Hg Hp. destruct (p (k', st')); cbn; [rewrite decide_False by done|]; by apply IH.
Qed.

Lemma alive_collect ct k until now : alive ct k until -> now <= until -> alive (collect ct now) k until.
Proof.
  intros (st & Hg & Hs) Hn. exists st. split; [|done]. apply map_get_filter_keep; [done|].
  cbn. by rewrite (alive_not_expired until).
Qed.

Lemma alive_set ct k k' st until :
  alive ct k until -> until - fs_last_seen st <= TCP_TIME_WAIT_TTL -> alive (map_set ct k' st) k until.
Proof.
  intros (st0 & Hg & Hs) Hst. unfold alive. rewrite map_get_set. case_decide; [by exists st|by exists st0].
Qed.

Lemma alive_admit ct direction flags now k k' until :
  alive ct k until -> now <= until -> until - now <= TCP_TIME_WAIT_TTL ->
  alive (admit_known ct direction flags now k').1 k until.
Proof.
  intros Ha Hn Hw. unfold admit_known. destruct (map_get ct k') as [st'|] eqn:E; [|done].
  destruct (is_expired st' now) eqn:Ex.
  - destruct Ha as (st & Hg & Hs). exists st. split; [|done]. apply map_get_filter_keep; [done|].
    apply bool_decide_eq_true. cbn. intros ->. rewrite E in Hg. injection Hg as ->.
    by rewrite (alive_not_expired until) in Ex.
  - pose proof (touch_allows direction flags now st') as [_ Hl]. destruct (touch _ _ _ _) as [st2 ok]. cbn in *.
    apply alive_set; [done|]. by rewrite Hl.
Qed.

Lemma alive_allows ct direction k1 k2 flags now k until :
  alive ct k until -> now <= until -> until - now <= TCP_TIME_WAIT_TTL ->
  alive (conntrack_allows ct direction k1 k2 flags now).1 k until.
Proof. intros. unfold conntrack_allows. repeat case_bool_decide; by try apply alive_admit. Qed.

Lemma alive_open ct key proto flags now k until :
  alive ct k until -> until - now <= TCP_TIME_WAIT_TTL -> alive (open_or_refresh_flow ct key proto flags now) k until.
Proof.
  intros Ha Hw. unfold open_or_refresh_flow. case_match; [|done]. apply alive_set; [done|]. by case_match.
Qed.
