(* ===== verification/Acl.v ===== *)
(** * The policy engine of an agent ([crates/tunnet-core/src/acl.rs])

    Every packet to or from a mesh peer is admitted when it belongs to a
    tracked flow or when the policy bundle allows it, in which case it opens a
    flow.  The engine's shared cells are the fields of one record; a packet is
    evaluated in one step, with its clock readings as arguments, and the
    collector is a step of its own. *)
From S2P Require Import Prelude PolicyTypes RustStd NetPolicy Packet Routing Conntrack.
Local Open Scope Z_scope.

Definition DENY_LOG_CAP : nat := 64.

Record SelfIdentity := mkSelf {
  si_endpoint_hex : string;
  si_ip : Z;
  si_tags : list string;
  si_network : string
}.

Record AclDenyRecord := mkDeny {
  dr_peer_endpoint : string;
  dr_dst_port : option Z;
  dr_protocol : string;
  dr_reason : string;
  dr_rule_slug : option string;
  dr_scope : option string;
  dr_at_unix : Z
}.

(** [format!("{proto:?}").to_lowercase()] *)
Definition protocol_text (p : Protocol) : string :=
  match p with
  | Tcp => "tcp"
  | Udp => "udp"
  | Icmp => "icmp"
  | Icmpv6 => "icmpv6"
  | AnyProtocol => "any"
  | OtherProtocol n => "other(" +:+ string_of_Z n +:+ ")"
  end.

Definition reason_text (r : EvalReason) : string :=
  match r with
  | OrgDeny => "org_deny"
  | NetworkDeny => "network_deny"
  | NetworkAllow => "network_allow"
  | DefaultAllow => "default_allow"
  | DefaultDeny => "default_deny"
  | IcmpPolicyReason => "icmp_policy"
  | PostureSkip => "posture_skip"
  end.

Definition scope_text (s : rule_scope) : string :=
  match s with Organization => "organization" | Network => "network" end.

Definition proto_num (proto : Protocol) : option Z :=
  match proto with
  | Tcp => Some 6
  | Udp => Some 17
  | Icmp => Some 1
  | Icmpv6 => Some 58
  | OtherProtocol n => Some n
  | AnyProtocol => None
  end.

Definition flow_key (proto : Protocol) (src dst : Z) (src_port dst_port : option Z) : option FlowKey :=
  n ← proto_num proto;
  if n =? 1 then Some (mkFlowKey n (Z.min src dst) (default 0 src_port) (Z.max src dst) 0)
  else Some (mkFlowKey n src (default 0 src_port) dst (default 0 dst_port)).

(** The readings of the clocks while one packet is evaluated. *)
Record Clock := mkClock {
  at_evict : Z;
  at_fragment : Z;
  at_conntrack : Z;
  at_open : Z;
  at_unix : Z
}.

Section Acl.
Context {L : IpNetLib} {N : Ipv4NetLib} {M : PrefixMapLib Ipv4Net PeerInfo}.

Record AclEngine := mkEngine {
  ae_self_id : SelfIdentity;
  ae_routes : RoutingTable;
  ae_bundle : PolicyBundle;
  ae_stale : bool;
  ae_src_posture_ok : bool;
  ae_deny_log : list AclDenyRecord;
  ae_conntrack : conntrack;
  ae_fragments : FragmentTable
}.

Definition new_engine (self_id : SelfIdentity) (routes : RoutingTable) (bundle : PolicyBundle) : AclEngine :=
  mkEngine self_id routes bundle false true [] [] new_fragments.

Definition with_conntrack (e : AclEngine) (ct : conntrack) : AclEngine :=
  mkEngine (ae_self_id e) (ae_routes e) (ae_bundle e) (ae_stale e) (ae_src_posture_ok e)
    (ae_deny_log e) ct (ae_fragments e).

Definition with_fragments (e : AclEngine) (fr : FragmentTable) : AclEngine :=
  mkEngine (ae_self_id e) (ae_routes e) (ae_bundle e) (ae_stale e) (ae_src_posture_ok e)
    (ae_deny_log e) (ae_conntrack e) fr.

Definition set_src_posture_ok (e : AclEngine) (ok : bool) : AclEngine :=
  mkEngine (ae_self_id e) (ae_routes e) (ae_bundle e) (ae_stale e) ok
    (ae_deny_log e) (ae_conntrack e) (ae_fragments e).

Definition replace_bundle (e : AclEngine) (b : PolicyBundle) : AclEngine :=
  mkEngine (ae_self_id e) (ae_routes e) b false (ae_src_posture_ok e)
    (ae_deny_log e) [] (clear_fragments (ae_fragments e)).

Definition flush_conntrack (e : AclEngine) : AclEngine := with_conntrack e [].

Definition replace_self_tags (e : AclEngine) (tags : list string) : AclEngine :=
  let current := ae_self_id e in
  if bool_decide (si_tags current = tags) then e
  else
    mkEngine (mkSelf (si_endpoint_hex current) (si_ip current) tags (si_network current))
      (ae_routes e) (ae_bundle e) (ae_stale e) (ae_src_posture_ok e)
      (ae_deny_log e) (ae_conntrack e) (ae_fragments e).

Definition mark_stale (e : AclEngine) : AclEngine :=
  mkEngine (ae_self_id e) (ae_routes e) (ae_bundle e) true (ae_src_posture_ok e)
    (ae_deny_log e) (ae_conntrack e) (ae_fragments e).

(** The routing table is shared with the rest of the agent, which changes it. *)
Definition with_routes (e : AclEngine) (routes : RoutingTable) : AclEngine :=
  mkEngine (ae_self_id e) routes (ae_bundle e) (ae_stale e) (ae_src_posture_ok e)
    (ae_deny_log e) (ae_conntrack e) (ae_fragments e).

(** ** Identities *)
Definition self_endpoint (e : AclEngine) : FlowEndpoint :=
  let id := ae_self_id e in
  mkEndpoint (si_endpoint_hex id) (si_tags id) (si_network id) (Some (si_ip id)).

Definition peer_endpoint (e : AclEngine) (peer_hex : string) : FlowEndpoint :=
  let network := si_network (ae_self_id e) in
  match lookup_endpoint (ae_routes e) peer_hex with
  | Some p => mkEndpoint peer_hex (pi_tags p) network (Some (pi_ip p))
  | None => mkEndpoint peer_hex [] network None
  end.

(** ** Evaluation *)
Definition record_deny (e : AclEngine) (peer_hex : string) (dst_port : option Z) (proto : Protocol)
    (verdict : EvalVerdict) (unix : Z) : AclEngine :=
  let record := mkDeny peer_hex dst_port (protocol_text proto) (reason_text (ev_reason verdict))
                  (ev_rule_slug verdict) (scope_text <$> ev_scope verdict) unix in
  let log := if (DENY_LOG_CAP <=? length (ae_deny_log e))%nat then tail (ae_deny_log e)
             else ae_deny_log e in
  mkEngine (ae_self_id e) (ae_routes e) (ae_bundle e) (ae_stale e) (ae_src_posture_ok e)
    (log ++ [record]) (ae_conntrack e) (ae_fragments e).

Definition posture_required (b : PolicyBundle) : bool :=
  negb (bool_decide (b_default_src_posture b = []))
  || existsb (fun r => negb (bool_decide (r_src_posture r = []))) (b_rules b).

Definition default_allow : EvalVerdict := mkVerdict Allow DefaultAllow None None.
Definition default_deny : EvalVerdict := mkVerdict Deny DefaultDeny None None.

Definition acl_evaluate_flow (e : AclEngine) (flow : FlowContext) (peer_hex : string) (unix : Z) :
    AclEngine * EvalVerdict :=
  let bundle := ae_bundle e in
  let flow := mkFlow (fl_src flow) (fl_dst flow) (fl_protocol flow) (fl_dst_port flow)
                (if posture_required bundle then fl_src_posture_ok flow else true) in
  let verdict := evaluate_flow bundle flow in
  match ev_action verdict with
  | Deny =>
      if ae_stale e && (length (b_rules bundle) =? 0)%nat
         && bool_decide (b_default_action bundle = Allow)
      then (e, default_allow)
      else (record_deny e peer_hex (fl_dst_port flow) (fl_protocol flow) verdict unix, verdict)
  | Allow => (e, verdict)
  end.

Definition allow_flow (e : AclEngine) (flow : FlowContext) (peer_hex : string) (unix : Z) :
    AclEngine * bool :=
  let '(e', v) := acl_evaluate_flow e flow peer_hex unix in (e', bool_decide (ev_action v = Allow)).

(** The flow the policy is asked about: the peer's side has the address on the
    wire. *)
Definition packet_flow (e : AclEngine) (peer_hex : string) (src dst : Z) (direction : Direction)
    (l4 : ResolvedL4) : FlowContext :=
  let at_ip (side : FlowEndpoint) ip := mkEndpoint (fe_hex side) (fe_tags side) (fe_network side) (Some ip) in
  let '(src_side, dst_side) :=
    match direction with
    | Outbound => (self_endpoint e, at_ip (peer_endpoint e peer_hex) dst)
    | Inbound => (at_ip (peer_endpoint e peer_hex) src, self_endpoint e)
    end in
  mkFlow src_side dst_side (l4_protocol l4) (l4_dst_port l4) (ae_src_posture_ok e).

Definition acl_check (e : AclEngine) (peer_hex : string) (src dst : Z) (direction : Direction)
    (l4 : ResolvedL4) (c : Clock) : AclEngine * EvalVerdict :=
  let tcp_flags := default 0 (l4_tcp_flags l4) in
  let key := flow_key (l4_protocol l4) src dst (l4_src_port l4) (l4_dst_port l4) in
  let '(ct, known) :=
    match key with
    | Some k => conntrack_allows (ae_conntrack e) direction k (reverse_key k) tcp_flags (at_conntrack c)
    | None => (ae_conntrack e, false)
    end in
  let e1 := with_conntrack e ct in
  if known then (e1, default_allow)
  else
    let '(e2, verdict) := acl_evaluate_flow e1 (packet_flow e1 peer_hex src dst direction l4) peer_hex (at_unix c) in
    match ev_action verdict with
    | Deny => (e2, verdict)
    | Allow =>
        (match key with
         | Some k => with_conntrack e2
             (open_or_refresh_flow (ae_conntrack e2) k (l4_protocol l4) tcp_flags (at_open c))
         | None => e2
         end, verdict)
    end.

Definition evaluate_packet (e : AclEngine) (peer_hex : string) (direction : Direction)
    (packet : Packet) (c : Clock) : AclEngine * EvalVerdict :=
  match v4_src (pk_ip packet), v4_dst (pk_ip packet) with
  | Some src, Some dst =>
      let '(fr, l4) := resolve (ae_fragments e) packet (at_evict c) (at_fragment c) in
      let e1 := with_fragments e fr in
      match l4 with
      | Some l4 => acl_check e1 peer_hex src dst direction l4 c
      | None => (e1, default_deny)
      end
  | _, _ => (e, default_deny)
  end.

Definition allow_packet (e : AclEngine) (peer_hex : string) (direction : Direction)
    (packet : Packet) (c : Clock) : AclEngine * bool :=
  let '(e', v) := evaluate_packet e peer_hex direction packet c in
  (e', bool_decide (ev_action v = Allow)).

(** The collector's retain. *)
Definition collect_flows (e : AclEngine) (now : Z) : AclEngine :=
  with_conntrack e (collect (ae_conntrack e) now).

(** ** What can happen to an engine *)
Inductive AclEvent :=
| EvPacket (peer_hex : string) (direction : Direction) (packet : Packet) (c : Clock)
| EvFlow (flow : FlowContext) (peer_hex : string) (unix : Z)
| EvReplaceBundle (b : PolicyBundle)
| EvFlush
| EvSelfTags (tags : list string)
| EvStale
| EvPosture (ok : bool)
| EvCollect (now : Z)
| EvRoutes (routes : RoutingTable).

Definition acl_step (e : AclEngine) (ev : AclEvent) : AclEngine :=
  match ev with
  | EvPacket peer direction packet c => (evaluate_packet e peer direction packet c).1
  | EvFlow flow peer unix => (acl_evaluate_flow e flow peer unix).1
  | EvReplaceBundle b => replace_bundle e b
  | EvFlush => flush_conntrack e
  | EvSelfTags tags => replace_self_tags e tags
  | EvStale => mark_stale e
  | EvPosture ok => set_src_posture_ok e ok
  | EvCollect now => collect_flows e now
  | EvRoutes routes => with_routes e routes
  end.

Definition acl_run (e : AclEngine) (trace : list AclEvent) : AclEngine := foldl acl_step e trace.

(** ** Reference definitions *)

(** What the engine sees of a packet. *)
Definition packet_view (e : AclEngine) (packet : Packet) (c : Clock) : option (Z * Z * ResolvedL4) :=
  src ← v4_src (pk_ip packet);
  dst ← v4_dst (pk_ip packet);
  l4 ← (resolve (ae_fragments e) packet (at_evict c) (at_fragment c)).2;
  Some (src, dst, l4).

Definition packet_key (e : AclEngine) (packet : Packet) (c : Clock) : option FlowKey :=
  v ← packet_view e packet c;
  flow_key (l4_protocol v.2) v.1.1 v.1.2 (l4_src_port v.2) (l4_dst_port v.2).

(** The policy as it stands allows the packet. *)
Definition policy_allows (e : AclEngine) (peer_hex : string) (direction : Direction)
    (packet : Packet) (c : Clock) : Prop :=
  exists v, packet_view e packet c = Some v
    /\ ev_action (acl_evaluate_flow e (packet_flow e peer_hex v.1.1 v.1.2 direction v.2) peer_hex (at_unix c)).2
       = Allow.

Definition admits (e : AclEngine) (peer_hex : string) (direction : Direction) (packet : Packet) (c : Clock) : Prop :=
  ev_action (evaluate_packet e peer_hex direction packet c).2 = Allow.

Definition resets (ev : AclEvent) : bool :=
  match ev with EvReplaceBundle _ | EvFlush => true | _ => false end.

(** Since the last reset of the flow table the policy allowed a packet of the
    flow. *)
Definition opened (e0 : AclEngine) (trace : list AclEvent) (k : FlowKey) : Prop :=
  exists pre peer direction packet c post,
    trace = pre ++ EvPacket peer direction packet c :: post
    /\ Forall (fun ev => resets ev = false) post
    /\ packet_key (acl_run e0 pre) packet c = Some k
    /\ policy_allows (acl_run e0 pre) peer direction packet c.

(** A packet of the flow, in either direction, was admitted at time [t]. *)
Definition seen (e0 : AclEngine) (trace : list AclEvent) (k : FlowKey) (t : Z) : Prop :=
  exists pre peer direction packet c post k',
    trace = pre ++ EvPacket peer direction packet c :: post
    /\ packet_key (acl_run e0 pre) packet c = Some k' /\ (k = k' \/ k = reverse_key k')
    /\ admits (acl_run e0 pre) peer direction packet c
    /\ (t = at_conntrack c \/ t = at_open c).

(** ** Lemmas *)
Lemma evaluate_flow_frame e flow peer unix :
  let e' := (acl_evaluate_flow e flow peer unix).1 in
  ae_conntrack e' = ae_conntrack e /\ ae_bundle e' = ae_bundle e /\ ae_fragments e' = ae_fragments e.
Proof. unfold acl_evaluate_flow. by repeat case_match. Qed.

Lemma evaluate_flow_verdict_frame e e' flow peer unix :
  ae_bundle e' = ae_bundle e -> ae_stale e' = ae_stale e ->
  (acl_evaluate_flow e' flow peer unix).2 = (acl_evaluate_flow e flow peer unix).2.
Proof. unfold acl_evaluate_flow. intros -> ->. by repeat case_match. Qed.

Lemma policy_allows_view e peer direction packet c v :
  packet_view e packet c = Some v ->
  policy_allows e peer direction packet c
  <-> ev_action (acl_evaluate_flow e (packet_flow e peer v.1.1 v.1.2 direction v.2) peer (at_unix c)).2
      = Allow.
Proof. intros Hv. unfold policy_allows. rewrite Hv. split; [intros (? & [= <-] & H)|]; eauto. Qed.

(** A packet is admitted through the flow table or by the policy, and changes
    the flow table accordingly. *)
Lemma evaluate_packet_cases e peer direction packet c v :
  packet_view e packet c = Some v ->
  let key := packet_key e packet c in
  let e' := (evaluate_packet e peer direction packet c).1 in
  let flags := default 0 (l4_tcp_flags v.2) in
  let ct := match key with
            | Some k => conntrack_allows (ae_conntrack e) direction k (reverse_key k) flags (at_conntrack c)
            | None => (ae_conntrack e, false)
            end in
  (ct.2 = true /\ admits e peer direction packet c /\ ae_conntrack e' = ct.1)
  \/ (ct.2 = false /\ policy_allows e peer direction packet c /\ admits e peer direction packet c
      /\ ae_conntrack e'
         = match key with
           | Some k => open_or_refresh_flow ct.1 k (l4_protocol v.2) flags (at_open c)
           | None => ct.1
           end)
  \/ (ct.2 = false /\ ~ policy_allows e peer direction packet c /\ ~ admits e peer direction packet c
      /\ ae_conntrack e' = ct.1).
Proof.
  intros Hv. cbn zeta. rewrite (policy_allows_view _ _ _ _ _ _ Hv). unfold packet_key. rewrite Hv.
  unfold admits, evaluate_packet.
  unfold packet_view in Hv.
  destruct (v4_src (pk_ip packet)) as [src|]; [|done]. destruct (v4_dst (pk_ip packet)) as [dst|]; [|done].
  destruct (resolve _ _ _ _) as [fr [l4|]]; [|done]. cbn in Hv. injection Hv as <-. cbn [fst snd mbind option_bind].
  unfold acl_check. set (key := flow_key _ _ _ _ _). set (flags := default 0 _).
  cbn [ae_conntrack with_fragments].
  destruct (match key with Some k => _ | None => _ end) as [ct known]. cbn [fst snd].
  destruct known; [by left|]. right.
  set (e1 := with_conntrack (with_fragments e fr) ct).
  assert ((acl_evaluate_flow e1 (packet_flow e1 peer src dst direction l4) peer (at_unix c)).2
          = (acl_evaluate_flow e (packet_flow e peer src dst direction l4) peer (at_unix c)).2) as Hsame
    by (by apply evaluate_flow_verdict_frame).
  pose proof (evaluate_flow_frame e1 (packet_flow e1 peer src dst direction l4) peer (at_unix c)) as (Hct & _).
  destruct (acl_evaluate_flow e1 _ _ _) as [e2 verdict]. cbn [fst snd] in *. rewrite <- Hsame.
  cbn [ae_conntrack with_conntrack e1] in Hct.
  destruct (ev_action verdict) eqn:Ea.
  - left. split_and!; [done..|]. case_match; cbn; by rewrite Hct.
  - right. split_and!; [done| |cbn; congruence|done]. congruence.
Qed.

Lemma evaluate_packet_unseen e peer direction packet c :
  packet_view e packet c = None ->
  ae_conntrack (evaluate_packet e peer direction packet c).1 = ae_conntrack e
  /\ ~ admits e peer direction packet c.
Proof.
  unfold packet_view, admits, evaluate_packet.
  destruct (v4_src (pk_ip packet)); [|done]. destruct (v4_dst (pk_ip packet)); [|done].
  by destruct (resolve _ _ _ _) as [fr [l4|]].
Qed.

Lemma acl_run_snoc e0 trace ev : acl_run e0 (trace ++ [ev]) = acl_step (acl_run e0 trace) ev.
Proof. unfold acl_run. by rewrite foldl_app. Qed.

Lemma opened_snoc e0 trace ev k :
  resets ev = false -> opened e0 trace k -> opened e0 (trace ++ [ev]) k.
Proof.
  intros Hr (pre & peer & d & p & c & post & -> & Hf & H). exists pre, peer, d, p, c, (post ++ [ev]).
  split; [by rewrite <- app_assoc|]. split; [|done]. apply Forall_app. auto.
Qed.

Lemma seen_snoc e0 trace ev k t : seen e0 trace k t -> seen e0 (trace ++ [ev]) k t.
Proof.
  intros (pre & peer & d & p & c & post & k' & -> & H). exists pre, peer, d, p, c, (post ++ [ev]), k'.
  split; [by rewrite <- app_assoc|done].
Qed.

(** Every entry of the flow table was opened by the policy since the last reset
    and was last seen when a packet of its flow was admitted. *)
Definition justified (e0 : AclEngine) (trace : list AclEvent) (k : FlowKey) (t : Z) : Prop :=
  opened e0 trace k /\ seen e0 trace k t.

Lemma justified_packet e0 trace peer direction packet c :
  let e := acl_run e0 trace in
  let trace' := trace ++ [EvPacket peer direction packet c] in
  tracked (justified e0 trace) (ae_conntrack e) ->
  tracked (justified e0 trace') (ae_conntrack (evaluate_packet e peer direction packet c).1).
Proof.
  intros e trace' Ht.
  assert (tracked (justified e0 trace') (ae_conntrack e)) as Ht'.
  { eapply tracked_mono; [|exact Ht]. intros k t [Ho Hs]. split; [by apply opened_snoc|by apply seen_snoc]. }
  destruct (packet_view e packet c) as [v|] eqn:Hv;
    [|rewrite (proj1 (evaluate_packet_unseen e peer direction packet c Hv)); done].
  assert (forall k k' t, packet_key e packet c = Some k -> k' = k \/ k' = reverse_key k ->
            admits e peer direction packet c -> t = at_conntrack c \/ t = at_open c ->
            seen e0 trace' k' t) as Hseen
    by (intros k k' t Hk Hk' Ha Htm; by exists trace, peer, direction, packet, c, [], k).
  pose proof (evaluate_packet_cases e peer direction packet c v Hv) as Hc. cbn zeta in Hc.
  destruct (packet_key e packet c) as [k|] eqn:Hk;
    [|destruct Hc as [(_ & _ & ->)|[(_ & _ & _ & ->)|(_ & _ & _ & ->)]]; done].
  destruct (conntrack_allows _ _ _ _ _ _) as [ct ok] eqn:Ect. cbn [fst snd] in Hc.
  destruct Hc as [(-> & Ha & ->)|[(-> & Hp & Ha & ->)|(-> & _ & _ & ->)]].
  - change ct with (ct, true).1. rewrite <- Ect. apply tracked_allows; [done|].
    intros k' t Hk' [Ho _]. split; [done|]. eapply Hseen; eauto.
  - apply tracked_open; [by eapply tracked_allows_false|]. split; [|eapply Hseen; eauto].
    exists trace, peer, direction, packet, c, []. by split_and!; [|constructor|..].
  - by eapply tracked_allows_false.
Qed.

Lemma justified_run self routes bundle trace :
  let e0 := new_engine self routes bundle in
  tracked (justified e0 trace) (ae_conntrack (acl_run e0 trace)).
Proof.
  intros e0. induction trace as [|ev trace IH] using rev_ind; [apply tracked_nil|].
  rewrite acl_run_snoc.
  assert (resets ev = false ->
    tracked (justified e0 (trace ++ [ev])) (ae_conntrack (acl_run e0 trace))) as Hm.
  { intros Hr. eapply tracked_mono; [|exact IH]. intros k t [Ho Hs].
    split; [by apply opened_snoc|by apply seen_snoc]. }
  destruct ev as [peer direction packet c|flow peer unix|b| |tags| |ok|now|routes']; cbn [acl_step].
  - by apply justified_packet.
  - rewrite (proj1 (evaluate_flow_frame _ _ _ _)). by apply Hm.
  - apply tracked_nil.
  - apply tracked_nil.
  - unfold replace_self_tags. case_match; by apply Hm.
  - by apply Hm.
  - by apply Hm.
  - by apply tracked_filter, Hm.
  - by apply Hm.
Qed.

Lemma one_way_packet e peer direction packet c :
  one_way (ae_conntrack e) -> one_way (ae_conntrack (evaluate_packet e peer direction packet c).1).
Proof.
  intros Ho. destruct (packet_view e packet c) as [v|] eqn:Hv;
    [|by rewrite (proj1 (evaluate_packet_unseen e peer direction packet c Hv))].
  pose proof (evaluate_packet_cases e peer direction packet c v Hv) as Hc. cbn zeta in Hc.
  destruct (packet_key e packet c) as [k|] eqn:Hk;
    [|destruct Hc as [(_ & _ & ->)|[(_ & _ & _ & ->)|(_ & _ & _ & ->)]]; done].
  pose proof (one_way_allows (ae_conntrack e) direction k (reverse_key k)
                (default 0 (l4_tcp_flags v.2)) (at_conntrack c) Ho) as Ho'.
  destruct (conntrack_allows _ _ _ _ _ _) as [ct ok] eqn:Ect. cbn [fst snd] in *.
  destruct Hc as [(-> & Ha & ->)|[(-> & Hp & Ha & ->)|(-> & _ & _ & ->)]]; [done| |done].
  apply allows_false_absent in Ect as [H1 H2]; [|done]. by apply one_way_open.
Qed.

Lemma one_way_run self routes bundle trace :
  one_way (ae_conntrack (acl_run (new_engine self routes bundle) trace)).
Proof.
  induction trace as [|ev trace IH] using rev_ind; [by intros k ?%elem_of_nil|].
  rewrite acl_run_snoc.
  destruct ev; cbn [acl_step];
    [by apply one_way_packet
    |by rewrite (proj1 (evaluate_flow_frame _ _ _ _))
    |by intros k ?%elem_of_nil|by intros k ?%elem_of_nil
    |unfold replace_self_tags; by case_match|done|done|by apply one_way_filter|done].
Qed.

Lemma bundle_kept e0 pre post :
  Forall (fun ev => resets ev = false) post ->
  ae_bundle (acl_run e0 (pre ++ post)) = ae_bundle (acl_run e0 pre).
Proof.
  induction post as [|ev post IH] using rev_ind; [by rewrite app_nil_r|].
  intros [Hp Hev]%Forall_app. inversion_clear Hev as [|? ? Hr _].
  rewrite app_assoc, acl_run_snoc, <- IH by done. set (e := acl_run e0 (pre ++ post)).
  destruct ev; cbn in *; try done.
  - unfold evaluate_packet, acl_check. repeat case_match; try done; simplify_eq.
    all: match goal with
         | H : acl_evaluate_flow ?e ?f ?p ?u = _ |- _ =>
             pose proof (evaluate_flow_frame e f p u) as (_ & Hb & _); rewrite H in Hb; exact Hb
         end.
  - apply evaluate_flow_frame.
  - unfold replace_self_tags. by case_match.
Qed.

(** The clock readings an event makes are between two times. *)
Definition reads_within (lo hi : Z) (ev : AclEvent) : Prop :=
  match ev with
  | EvPacket _ _ _ c => lo <= at_conntrack c <= hi /\ lo <= at_open c <= hi
  | EvCollect now => now <= hi
  | _ => True
  end.

Lemma alive_packet e peer direction packet c k until :
  alive (ae_conntrack e) k until ->
  reads_within (until - TCP_TIME_WAIT_TTL) until (EvPacket peer direction packet c) ->
  alive (ae_conntrack (evaluate_packet e peer direction packet c).1) k until.
Proof.
  intros Ha [H1 H2]. destruct (packet_view e packet c) as [v|] eqn:Hv;
    [|by rewrite (proj1 (evaluate_packet_unseen e peer direction packet c Hv))].
  pose proof (evaluate_packet_cases e peer direction packet c v Hv) as Hc. cbn zeta in Hc.
  destruct (packet_key e packet c) as [key|];
    [|destruct Hc as [(_ & _ & ->)|[(_ & _ & _ & ->)|(_ & _ & _ & ->)]]; done].
  pose proof (alive_allows (ae_conntrack e) direction key (reverse_key key) (default 0 (l4_tcp_flags v.2))
                (at_conntrack c) k until Ha) as Hal.
  destruct Hc as [(_ & _ & ->)|[(_ & _ & _ & ->)|(_ & _ & _ & ->)]]; [apply Hal; lia| |apply Hal; lia].
  apply alive_open; [apply Hal|]; lia.
Qed.

Lemma alive_run e mid k until :
  alive (ae_conntrack e) k until -> Forall (fun ev => resets ev = false) mid ->
  Forall (reads_within (until - TCP_TIME_WAIT_TTL) until) mid ->
  alive (ae_conntrack (acl_run e mid)) k until.
Proof.
  revert e. induction mid as [|ev mid IH]; intros e Ha Hres Hread; [done|].
  inversion_clear Hres as [|? ? Hr Hres']. inversion_clear Hread as [|? ? Hw Hread'].
  apply IH; [|done..]. destruct ev; cbn [acl_step]; try done.
  - by apply alive_packet.
  - by rewrite (proj1 (evaluate_flow_frame _ _ _ _)).
  - unfold replace_self_tags. by case_match.
  - by apply alive_collect.
Qed.

(** An admitted packet leaves an entry of its flow. *)
Lemma packet_alive e peer direction packet c v key until :
  admits e peer direction packet c -> packet_view e packet c = Some v -> packet_key e packet c = Some key ->
  opening_phase (l4_protocol v.2) (default 0 (l4_tcp_flags v.2)) <> None ->
  until - at_conntrack c <= TCP_TIME_WAIT_TTL -> until - at_open c <= TCP_TIME_WAIT_TTL ->
  exists k0, (k0 = key \/ k0 = reverse_key key)
    /\ alive (ae_conntrack (evaluate_packet e peer direction packet c).1) k0 until.
Proof.
  intros Ha Hv Hk Hop H1 H2. pose proof (evaluate_packet_cases e peer direction packet c v Hv) as Hc. cbn zeta in Hc.
  rewrite Hk in Hc. destruct (conntrack_allows _ _ _ _ _ _) as [ct ok] eqn:Ect. cbn [fst snd] in Hc.
  destruct Hc as [(-> & _ & ->)|[(_ & _ & _ & ->)|(_ & _ & Hn & _)]]; [| |done].
  - apply allows_true_entry in Ect as (k0 & st & Hk0 & Hg & Hs). exists k0. split; [done|]. exists st.
    split; [done|lia].
  - destruct (opening_phase _ _) as [phase|] eqn:Eph; [|done].
    destruct (open_entry ct key _ _ (at_open c) phase Eph) as (st & Hg & Hs). exists key. split; [by left|].
    exists st. split; [done|lia].
Qed.

(** ** Properties *)

(** C2: Every packet an engine admits, whatever happened before, is allowed by
    the policy as it stands, or belongs to a flow a packet of which the policy
    in force allowed since the flow table was last reset, and of which a packet
    was admitted no more than five minutes earlier. *)
Theorem admitted_packet_justified self routes bundle trace peer direction packet c :
  let e0 := new_engine self routes bundle in
  let e := acl_run e0 trace in
  admits e peer direction packet c ->
  policy_allows e peer direction packet c
  \/ exists key k t, packet_key e packet c = Some key /\ (k = key \/ k = reverse_key key)
     /\ (exists pre peer' direction' packet' c' post,
           trace = pre ++ EvPacket peer' direction' packet' c' :: post
           /\ packet_key (acl_run e0 pre) packet' c' = Some k
           /\ policy_allows (acl_run e0 pre) peer' direction' packet' c'
           /\ ae_bundle (acl_run e0 pre) = ae_bundle e)
     /\ seen e0 trace k t /\ at_conntrack c - t <= TCP_ACTIVE_TTL.
Proof.
  intros e0 e Ha. pose proof (justified_run self routes bundle trace) as Ht.
  cbn zeta in Ht. fold e0 e in Ht.
  destruct (packet_view e packet c) as [v|] eqn:Hv;
    [|by apply (proj2 (evaluate_packet_unseen e peer direction packet c Hv)) in Ha].
  pose proof (evaluate_packet_cases e peer direction packet c v Hv) as Hc. cbn zeta in Hc.
  destruct (packet_key e packet c) as [key|] eqn:Hk; [|by destruct Hc as [(? & _)|[(_ & ? & _)|(_ & _ & ? & _)]]; auto].
  destruct (conntrack_allows _ _ _ _ _ _) as [ct ok] eqn:Ect. cbn [fst snd] in Hc.
  destruct Hc as [(-> & _)|[(_ & Hp & _)|(_ & _ & Hn & _)]]; [|by left|done]. right.
  apply (conntrack_allows_true (justified e0 trace)) in Ect as (k & t & Hkk & [Ho Hs] & Hd); [|exact Ht].
  exists key, k, t. split_and!; [done|done| |done|done].
  destruct Ho as (pre & peer' & d' & p' & c' & post & Heq & Hf & Hk' & Hp').
  exists pre, peer', d', p', c', post. split_and!; [done..|]. unfold e. rewrite Heq.
  change (?x :: post) with ([x] ++ post). symmetry. apply bundle_kept. by constructor.
Qed.

(** C3: An admitted packet of a tracked protocol keeps its flow open for ten
    seconds: whatever else happens to the engine in between, other packets of the
    same or of other flows and collections of the flow table included, every
    later packet of the flow, in either direction, is admitted whatever the
    policy says of it, as long as the flow table is not reset, no reading of the
    clock goes back before the first packet, and the last one is at most ten
    seconds after it. *)
Theorem flow_stays_open self routes bundle trace peer direction packet c v key mid peer' direction' packet' c' key' :
  let e := acl_run (new_engine self routes bundle) trace in
  let e' := acl_run (evaluate_packet e peer direction packet c).1 mid in
  admits e peer direction packet c ->
  packet_view e packet c = Some v -> packet_key e packet c = Some key ->
  opening_phase (l4_protocol v.2) (default 0 (l4_tcp_flags v.2)) <> None ->
  Forall (fun ev => resets ev = false) mid ->
  Forall (reads_within (at_conntrack c' - TCP_TIME_WAIT_TTL) (at_conntrack c')) mid ->
  packet_key e' packet' c' = Some key' -> key' = key \/ key' = reverse_key key ->
  at_conntrack c' - at_conntrack c <= TCP_TIME_WAIT_TTL ->
  at_conntrack c' - at_open c <= TCP_TIME_WAIT_TTL ->
  admits e' peer' direction' packet' c'.
Proof.
  intros e e' Ha Hv Hk Hop Hres Hread Hk' Hkk H1 H2.
  assert (one_way (ae_conntrack e')) as Ho.
  { unfold e', e. change (evaluate_packet _ _ _ _ _).1 with (acl_step e (EvPacket peer direction packet c)).
    unfold e. rewrite <- acl_run_snoc. unfold acl_run. rewrite <- foldl_app. apply one_way_run. }
  destruct (packet_alive e peer direction packet c v key (at_conntrack c')) as (k0 & Hk0 & Hal); [done..|].
  apply (alive_run _ mid k0) in Hal as (st & Hg & Hs); [|done..]. fold e' in Hg.
  destruct (packet_view e' packet' c') as [v'|] eqn:Hv';
    [|unfold packet_key in Hk'; by rewrite Hv' in Hk'].
  pose proof (evaluate_packet_cases e' peer' direction' packet' c' v' Hv') as Hc. cbn zeta in Hc.
  rewrite Hk' in Hc.
  rewrite (allows_present _ _ key' _ _ k0 st) in Hc; [|done..|by apply fresh_entry|].
  - by destruct Hc as [(_ & ? & _)|[(? & _)|(? & _)]].
  - destruct Hkk as [->| ->], Hk0 as [->| ->]; rewrite ?reverse_key_involutive; auto.
Qed.

(** While the poll fails, an open network without rules lets ICMP through that
    its ICMP policy denies. *)
Lemma stale_ignores_icmp_policy e flow peer unix :
  ae_stale e = true -> b_rules (ae_bundle e) = [] -> b_default_action (ae_bundle e) = Allow ->
  fl_protocol flow = Icmp -> b_icmp_policy (ae_bundle e) = IcmpDeny ->
  ev_action (acl_evaluate_flow (mkEngine (ae_self_id e) (ae_routes e) (ae_bundle e) false
     (ae_src_posture_ok e) (ae_deny_log e) (ae_conntrack e) (ae_fragments e)) flow peer unix).2 = Deny
  /\ ev_action (acl_evaluate_flow e flow peer unix).2 = Allow.
Proof.
  intros Hs Hr Hd Hp Hi. unfold acl_evaluate_flow. cbn [ae_bundle ae_stale].
  unfold evaluate_flow, gate_icmp. cbn [fl_protocol]. by rewrite Hp, Hi, Hs, Hr, Hd.
Qed.
End Acl.

(** ** Samples *)
#[local] Existing Instances sample_nets sample_v4nets sample_prefix_map.

(** A device that may reach any peer's web port and accepts nothing else. *)
Definition web_only : PolicyBundle :=
  mkBundle [mkPolicyRule SAny SAny Allow [mkPortRange 80 80] (Some Tcp) 100 0 Network true None []]
    [] 1 "" Deny IcmpDeny ∅ [] None.

Definition sample_self : SelfIdentity := mkSelf "me" (ip4 100 64 0 1) [] "net".
Definition at_time (t : Z) : Clock := mkClock t t t t 0.

Definition tcp_packet (src dst sport dport flags : Z) : Packet :=
  mkPacket 40 (IpV4 src dst 6 0 20 64) NotFragmented (TTcp sport dport flags 1 1 20 0).

Definition request : Packet := tcp_packet (ip4 100 64 0 1) (ip4 100 64 0 2) 52000 80 TcpFlags.SYN.
Definition response : Packet :=
  tcp_packet (ip4 100 64 0 2) (ip4 100 64 0 1) 80 52000 (TcpFlags.SYN + TcpFlags.ACK).

Definition sample_trace : list AclEvent := [EvPacket "bb" Outbound request (at_time 0)].
Definition sample_engine : AclEngine := acl_run (new_engine sample_self new_routing web_only) sample_trace.

(** The response is admitted although no rule allows it, since the request
    opened its flow. *)
Lemma admitted_packet_justified_witness :
  ~ policy_allows sample_engine "bb" Inbound response (at_time (secs 1))
  /\ exists pre peer direction packet c post,
       sample_trace = pre ++ EvPacket peer direction packet c :: post
       /\ policy_allows (acl_run (new_engine sample_self new_routing web_only) pre) peer direction packet c.
Proof.
  assert (~ policy_allows sample_engine "bb" Inbound response (at_time (secs 1))) as Hn.
  { intros (v & Hv & Ha). vm_compute in Hv. injection Hv as <-. vm_compute in Ha. discriminate. }
  split; [exact Hn|].
  destruct (admitted_packet_justified sample_self new_routing web_only sample_trace "bb" Inbound
              response (at_time (secs 1))) as [Hp|(key & k & t & _ & _ & Ho & _)].
  - vm_compute. reflexivity.
  - exfalso. exact (Hn Hp).
  - destruct Ho as (pre & peer & d & p & c & post & Heq & _ & Hp & _).
    exists pre, peer, d, p, c, post. exact (conj Heq Hp).
Defined.

(** A retransmission and a collection come in between. *)
Definition between : list AclEvent :=
  [EvPacket "bb" Outbound request (at_time (secs 3)); EvCollect (secs 8)].

Lemma flow_stays_open_witness :
  admits (acl_run sample_engine between) "bb" Inbound response (at_time (secs 9)).
Proof.
  apply (flow_stays_open sample_self new_routing web_only [] "bb" Outbound request (at_time 0)
           (ip4 100 64 0 1, ip4 100 64 0 2, mkL4 Tcp (Some 52000) (Some 80) (Some TcpFlags.SYN) None None None)
           (mkFlowKey 6 (ip4 100 64 0 1) 52000 (ip4 100 64 0 2) 80) between "bb" Inbound response
           (at_time (secs 9)) (mkFlowKey 6 (ip4 100 64 0 2) 80 (ip4 100 64 0 1) 52000));
    [vm_compute; reflexivity..|vm_compute; discriminate|repeat constructor|
    |vm_compute; reflexivity|right; reflexivity|vm_compute; discriminate|vm_compute; discriminate].
  repeat constructor; vm_compute; discriminate.
Defined.
