(* ===== verification/Firewall.v ===== *)
(** * The local firewall of Direct networks

    [crates/tunnet-core/src/direct/firewall.rs] with the commands of
    [crates/tunnet-core/src/local_api/handlers.rs] that edit it, and the reply
    of [crates/tunnet-common/src/packet/build.rs] to a rejected packet.  The
    texts of network ids and the builder that turns a reply into bytes are
    parameters. *)
From S2P Require Import Prelude RustStd NetPolicy Packet Conntrack.
Local Open Scope Z_scope.

(** ** Rules and configuration *)
Inductive FirewallDirection := FwIn | FwOut.
Inductive FirewallAction := FwAllow | FwDeny | FwReject.
#[export] Instance FirewallDirection_eq_dec : EqDecision FirewallDirection.
Proof. solve_decision. Defined.
#[export] Instance FirewallAction_eq_dec : EqDecision FirewallAction.
Proof. solve_decision. Defined.

Inductive PeerFilter :=
| PfAny
| PfEndpoint (id : string)
| PfHostname (h : string)
| PfNetworkId (n : string).

Record FirewallRule := mkFwRule {
  fw_direction : FirewallDirection;
  fw_action : FirewallAction;
  fw_protocol : Protocol;
  fw_ports : list PortRange;
  fw_peer : PeerFilter
}.

Record FirewallConfig := mkFwConfig {
  fc_enabled : bool;
  fc_rules : list FirewallRule;
  fc_version : Z
}.

Definition default_firewall : FirewallConfig := mkFwConfig true [] 1.

(** A [u64] incremented in the release profile, which wraps. *)
Definition inc_u64 (v : Z) : Z := (v + 1) mod 2 ^ 64.

Definition add_rule (c : FirewallConfig) (r : FirewallRule) : FirewallConfig :=
  mkFwConfig (fc_enabled c) (fc_rules c ++ [r]) (inc_u64 (fc_version c)).

Definition remove_at (c : FirewallConfig) (index : nat) : result string FirewallConfig :=
  if (length (fc_rules c) <=? index)%nat then Err "rule index out of range"
  else Ok (mkFwConfig (fc_enabled c) (take index (fc_rules c) ++ drop (S index) (fc_rules c))
             (inc_u64 (fc_version c))).

Definition parse_port_part (part : string) : result string PortRange :=
  let part := rs_trim part in
  match split_once "-" part with
  | Some (a, b) =>
      match parse_u16 a with
      | None => Err "port range start"
      | Some start =>
          match parse_u16 b with
          | None => Err "port range end"
          | Some last => Ok (mkPortRange start last)
          end
      end
  | None => match parse_u16 part with None => Err "port" | Some p => Ok (mkPortRange p p) end
  end.

Definition parse_port_spec (s : string) : result string (list PortRange) :=
  if (s =? "")%string || (s =? "*")%string then Ok []
  else mapR parse_port_part (split_unit "," s).

Definition parse_peer_filter (s : option string) : PeerFilter :=
  match rs_trim <$> s with
  | None => PfAny
  | Some s =>
      if (s =? "")%string then PfAny
      else if (s =? "*")%string || eq_ignore_ascii_case s "any" then PfAny
      else match strip_prefix "endpoint:" s with Some rest => PfEndpoint rest | None =>
           match strip_prefix "host:" s with Some rest => PfHostname rest | None =>
           match strip_prefix "hostname:" s with Some rest => PfHostname rest | None =>
           match strip_prefix "network:" s with Some rest => PfNetworkId rest | None =>
           if (rs_len s =? 64)%nat && all_units is_ascii_hexdigit s then PfEndpoint s
           else PfHostname s
           end end end end
  end.

Definition peer_filter_display (p : PeerFilter) : option string :=
  match p with
  | PfAny => None
  | PfEndpoint e => Some ("endpoint:" +:+ e)
  | PfHostname h => Some ("host:" +:+ h)
  | PfNetworkId n => Some ("network:" +:+ n)
  end.

(** *** The commands, on the stored configuration *)
Definition parse_fw_direction (s : string) : result string FirewallDirection :=
  if (s =? "in")%string || (s =? "inbound")%string then Ok FwIn
  else if (s =? "out")%string || (s =? "outbound")%string then Ok FwOut
  else Err "direction must be 'in' or 'out'".

Definition parse_fw_action (s : string) : result string FirewallAction :=
  if (s =? "allow")%string then Ok FwAllow
  else if (s =? "deny")%string then Ok FwDeny
  else if (s =? "reject")%string then Ok FwReject
  else Err "action must be 'allow', 'deny', or 'reject'".

Definition parse_fw_protocol (s : string) : result string Protocol :=
  let s := to_ascii_lowercase s in
  if (s =? "tcp")%string then Ok Tcp
  else if (s =? "udp")%string then Ok Udp
  else if (s =? "icmp")%string then Ok Icmp
  else if (s =? "icmpv6")%string then Ok Icmpv6
  else if (s =? "any")%string then Ok AnyProtocol
  else Err "protocol must be tcp|udp|icmp|any".

Definition direct_firewall_add (cfg : FirewallConfig) (direction action protocol : string)
    (port peer : option string) : result string FirewallConfig :=
  direction ← parse_fw_direction direction;
  action ← parse_fw_action action;
  protocol ← parse_fw_protocol protocol;
  ports ← parse_port_spec (default "" port);
  Ok (add_rule (mkFwConfig true (fc_rules cfg) (fc_version cfg))
        (mkFwRule direction action protocol ports (parse_peer_filter peer))).

Definition direct_firewall_off (cfg : FirewallConfig) : FirewallConfig :=
  mkFwConfig false (fc_rules cfg) (inc_u64 (fc_version cfg)).

Definition direct_firewall_remove (cfg : FirewallConfig) (index : nat) : result string FirewallConfig :=
  remove_at cfg index.

Definition direct_firewall_reset : FirewallConfig := default_firewall.

(** ** Flow keys *)
Definition forward_key (src dst : Z) (l4 : ResolvedL4) : option FlowKey :=
  proto ← ip_number (l4_protocol l4);
  if is_icmp (l4_protocol l4)
  then Some (mkFlowKey proto (Z.min src dst) (default 0 (l4_icmp_id l4)) (Z.max src dst) 0)
  else Some (mkFlowKey proto src (default 0 (l4_src_port l4)) dst (default 0 (l4_dst_port l4))).

Definition backward_key (src dst : Z) (l4 : ResolvedL4) : option FlowKey :=
  if is_icmp (l4_protocol l4) then forward_key src dst l4
  else proto ← ip_number (l4_protocol l4);
       Some (mkFlowKey proto dst (default 0 (l4_dst_port l4)) src (default 0 (l4_src_port l4))).

(** ** The reply to a rejected packet *)
Inductive UnreachCode := UnreachPort | UnreachHostProhibited.

(** The arguments of the packet builder: a reset, or an unreachable message
    quoting the first bytes of the packet. *)
Inductive RejectReply :=
| TcpReset (src dst sport dport seq ack : Z)
| IcmpUnreach (src dst : Z) (code : UnreachCode) (quoted : Z).

Definition ip_header_len (m : IpMeta) : Z :=
  match m with IpV4 _ _ _ _ header_len _ => header_len | IpV6 _ _ _ _ header_len _ => header_len end.

Definition synthesize_tcp_rst (packet : Packet) (src_port dst_port flags seq ack : Z) : option RejectReply :=
  orig_src ← v4_src (pk_ip packet);
  orig_dst ← v4_dst (pk_ip packet);
  Some (TcpReset orig_dst orig_src dst_port src_port
          (if flag flags TcpFlags.ACK then ack else 0) ((seq + 1) mod 2 ^ 32)).

(** [raw_len] is the length of the packet's bytes. *)
Definition synthesize_icmp_unreach (raw_len : Z) (packet : Packet) : option RejectReply :=
  orig_src ← v4_src (pk_ip packet);
  orig_dst ← v4_dst (pk_ip packet);
  Some (IcmpUnreach orig_dst orig_src
          (match pk_transport packet with TUdp _ _ _ => UnreachPort | _ => UnreachHostProhibited end)
          (Z.min (Z.min raw_len (ip_header_len (pk_ip packet) + 8)) 28)).

Definition synthesize_reject (raw_len : Z) (packet : Packet) : option RejectReply :=
  match pk_transport packet with
  | TTcp src_port dst_port flags seq ack _ _ => synthesize_tcp_rst packet src_port dst_port flags seq ack
  | TUdp _ _ _ | TIcmpv4 _ _ _ _ _ => synthesize_icmp_unreach raw_len packet
  | _ => None
  end.

(** ** The engine *)
Inductive EvalResult :=
| FwResAllow
| FwResDeny
| FwResReject (reply : list N).

Section Engine.
(** [Uuid::to_string], [str::parse::<Uuid>], and the builder of [etherparse],
    which may fail. *)
Context (uuid_text : Z -> string) (parse_uuid : string -> option Z).
Context (build_packet : RejectReply -> option (list N)).

Record FirewallEngine := mkFirewall {
  fe_enabled : bool;
  fe_local_rules : list FirewallRule;
  fe_suggested_rules : list FirewallRule;
  fe_version : Z;
  fe_conntrack : conntrack;
  fe_fragments : FragmentTable;
  fe_allowed : Z;
  fe_denied : Z;
  fe_rejected : Z;
  fe_self_ip : Z
}.

Definition from_config (cfg : FirewallConfig) (self_ip : Z) : FirewallEngine :=
  mkFirewall (fc_enabled cfg) (fc_rules cfg) [] (fc_version cfg) [] new_fragments 0 0 0 self_ip.

Definition with_rules (f : FirewallEngine) enabled rules suggested version : FirewallEngine :=
  mkFirewall enabled rules suggested version (fe_conntrack f) (fe_fragments f)
    (fe_allowed f) (fe_denied f) (fe_rejected f) (fe_self_ip f).

Definition with_flows (f : FirewallEngine) (ct : conntrack) (fr : FragmentTable) : FirewallEngine :=
  mkFirewall (fe_enabled f) (fe_local_rules f) (fe_suggested_rules f) (fe_version f) ct fr
    (fe_allowed f) (fe_denied f) (fe_rejected f) (fe_self_ip f).

Definition count (f : FirewallEngine) (allowed denied rejected : bool) : FirewallEngine :=
  let inc (b : bool) n := if b then inc_u64 n else n in
  mkFirewall (fe_enabled f) (fe_local_rules f) (fe_suggested_rules f) (fe_version f)
    (fe_conntrack f) (fe_fragments f) (inc allowed (fe_allowed f)) (inc denied (fe_denied f))
    (inc rejected (fe_rejected f)) (fe_self_ip f).

Definition reload_local (f : FirewallEngine) (cfg : FirewallConfig) : FirewallEngine :=
  with_rules f (fc_enabled cfg) (fc_rules cfg) (fe_suggested_rules f) (fc_version cfg).

Definition set_suggested (f : FirewallEngine) (rules : list FirewallRule) : FirewallEngine :=
  with_rules f (fe_enabled f) (fe_local_rules f) rules (fe_version f).

Definition clear_suggested (f : FirewallEngine) : FirewallEngine := set_suggested f [].

Definition fw_flush_conntrack (f : FirewallEngine) : FirewallEngine :=
  with_flows f [] (clear_fragments (fe_fragments f)).

Definition set_self_ip (f : FirewallEngine) (ip : Z) : FirewallEngine :=
  mkFirewall (fe_enabled f) (fe_local_rules f) (fe_suggested_rules f) (fe_version f)
    (fe_conntrack f) (fe_fragments f) (fe_allowed f) (fe_denied f) (fe_rejected f) ip.

(** The remote side of a packet: its endpoint, hostname and network. *)
Record Peer := mkFwPeer {
  fp_hex : option string;
  fp_hostname : option string;
  fp_network : option Z
}.

Definition peer_matches (filter : PeerFilter) (p : Peer) : bool :=
  match filter with
  | PfAny => true
  | PfEndpoint id => match fp_hex p with Some h => eq_ignore_ascii_case h id | None => false end
  | PfHostname h => match fp_hostname p with Some n => eq_ignore_ascii_case n h | None => false end
  | PfNetworkId n =>
      match fp_network p with
      | None => false
      | Some id => eq_ignore_ascii_case (uuid_text id) n || bool_decide (parse_uuid n = Some id)
      end
  end.

Definition want_direction (d : Direction) : FirewallDirection :=
  match d with Inbound => FwIn | Outbound => FwOut end.

Definition fw_rule_matches (direction : Direction) (l4 : ResolvedL4) (p : Peer) (rule : FirewallRule) : bool :=
  bool_decide (fw_direction rule = want_direction direction)
  && matches_rule (l4_protocol l4) (Some (fw_protocol rule))
  && (if negb (bool_decide (fw_ports rule = [])) && negb (is_icmp (l4_protocol l4)) then
        match l4_dst_port l4 with
        | Some port => existsb (fun r => port_contains r port) (fw_ports rule)
        | None => false
        end
      else true)
  && peer_matches (fw_peer rule) p.

Definition match_rules (rules : list FirewallRule) (direction : Direction) (l4 : ResolvedL4) (p : Peer) :
    option FirewallAction :=
  fw_action <$> List.find (fw_rule_matches direction l4 p) rules.

Definition default_policy (direction : Direction) (l4 : ResolvedL4) (p : Peer) : FirewallAction :=
  match direction with
  | Outbound => FwAllow
  | Inbound =>
      match fp_hex p with
      | Some _ => FwAllow
      | None =>
          match l4_protocol l4, l4_icmp_type l4 with
          | Icmp, Some t => if (t =? 0) || (t =? 8) then FwAllow else FwDeny
          | _, _ => FwDeny
          end
      end
  end.

Definition apply_action (f : FirewallEngine) (act : FirewallAction) (raw_len : Z) (packet : Packet)
    (src dst : Z) (l4 : ResolvedL4) (at_open : Z) : FirewallEngine * EvalResult :=
  match act with
  | FwAllow =>
      let ct := match forward_key src dst l4 with
                | Some key => open_or_refresh_flow (fe_conntrack f) key (l4_protocol l4)
                                (default 0 (l4_tcp_flags l4)) at_open
                | None => fe_conntrack f
                end in
      (count (with_flows f ct (fe_fragments f)) true false false, FwResAllow)
  | FwDeny => (count f false true false, FwResDeny)
  | FwReject =>
      (count f false false true,
       FwResReject (default [] (synthesize_reject raw_len packet ≫= build_packet)))
  end.

(** The readings of the clock while one packet is evaluated. *)
Record FwClock := mkFwClock { fk_evict : Z; fk_fragment : Z; fk_conntrack : Z; fk_open : Z }.

(** The connection table's answer. *)
Definition fw_conntrack_allows (ct : conntrack) (direction : Direction) (src dst : Z) (l4 : ResolvedL4)
    (now : Z) : conntrack * bool :=
  match forward_key src dst l4, backward_key src dst l4 with
  | Some fwd, Some rev => conntrack_allows ct direction fwd rev (default 0 (l4_tcp_flags l4)) now
  | _, _ => (ct, false)
  end.

Definition fw_evaluate (f : FirewallEngine) (direction : Direction) (raw_len : Z) (packet : Packet)
    (p : Peer) (c : FwClock) : FirewallEngine * EvalResult :=
  if negb (fe_enabled f) then (count f true false false, FwResAllow)
  else
    match v4_src (pk_ip packet), v4_dst (pk_ip packet) with
    | Some src, Some dst =>
        let '(fr, l4) := resolve (fe_fragments f) packet (fk_evict c) (fk_fragment c) in
        match l4 with
        | None => (count (with_flows f (fe_conntrack f) fr) false true false, FwResDeny)
        | Some l4 =>
            let '(ct, known) := fw_conntrack_allows (fe_conntrack f) direction src dst l4 (fk_conntrack c) in
            let f1 := with_flows f ct fr in
            if known then (count f1 true false false, FwResAllow)
            else
              match match_rules (fe_local_rules f1) direction l4 p with
              | Some act => apply_action f1 act raw_len packet src dst l4 (fk_open c)
              | None =>
                  match match_rules (fe_suggested_rules f1) direction l4 p with
                  | Some act => apply_action f1 act raw_len packet src dst l4 (fk_open c)
                  | None => apply_action f1 (default_policy direction l4 p) raw_len packet src dst l4 (fk_open c)
                  end
              end
        end
    | _, _ => (count f false true false, FwResDeny)
    end.

Definition fw_collect (f : FirewallEngine) (now : Z) : FirewallEngine :=
  with_flows f (collect (fe_conntrack f) now) (fe_fragments f).

(** ** What can happen to a firewall *)
Inductive FwEvent :=
| FwPacket (direction : Direction) (raw_len : Z) (packet : Packet) (p : Peer) (c : FwClock)
| FwReload (cfg : FirewallConfig)
| FwSuggested (rules : list FirewallRule)
| FwFlush
| FwSelfIp (ip : Z)
| FwCollect (now : Z).

Definition fw_step (f : FirewallEngine) (ev : FwEvent) : FirewallEngine :=
  match ev with
  | FwPacket direction raw_len packet p c => (fw_evaluate f direction raw_len packet p c).1
  | FwReload cfg => reload_local f cfg
  | FwSuggested rules => set_suggested f rules
  | FwFlush => fw_flush_conntrack f
  | FwSelfIp ip => set_self_ip f ip
  | FwCollect now => fw_collect f now
  end.

Definition fw_run (f : FirewallEngine) (trace : list FwEvent) : FirewallEngine := foldl fw_step f trace.

(** ** Reference definitions *)
Definition fw_view (f : FirewallEngine) (packet : Packet) (c : FwClock) : option (Z * Z * ResolvedL4) :=
  src ← v4_src (pk_ip packet);
  dst ← v4_dst (pk_ip packet);
  l4 ← (resolve (fe_fragments f) packet (fk_evict c) (fk_fragment c)).2;
  Some (src, dst, l4).

Definition fw_key (f : FirewallEngine) (packet : Packet) (c : FwClock) : option FlowKey :=
  v ← fw_view f packet c; forward_key v.1.1 v.1.2 v.2.

(** What the rules say of a packet: the first matching local rule, else the
    first matching suggested rule, else the default. *)
Definition rules_say (f : FirewallEngine) (direction : Direction) (l4 : ResolvedL4) (p : Peer) : FirewallAction :=
  default (default_policy direction l4 p)
    (head (map fw_action (List.filter (fw_rule_matches direction l4 p)
             (fe_local_rules f ++ fe_suggested_rules f)))).

Definition rules_allow (f : FirewallEngine) (direction : Direction) (packet : Packet) (p : Peer) (c : FwClock) : Prop :=
  exists v, fw_view f packet c = Some v /\ rules_say f direction v.2 p = FwAllow.

Definition fw_admits (f : FirewallEngine) (direction : Direction) (raw_len : Z) (packet : Packet) (p : Peer)
    (c : FwClock) : Prop := (fw_evaluate f direction raw_len packet p c).2 = FwResAllow.

Definition fw_opened (f0 : FirewallEngine) (trace : list FwEvent) (k : FlowKey) (t : Z) : Prop :=
  (exists pre direction raw_len packet p c post,
     trace = pre ++ FwPacket direction raw_len packet p c :: post
     /\ Forall (fun ev => ev <> FwFlush) post
     /\ fw_key (fw_run f0 pre) packet c = Some k
     /\ rules_allow (fw_run f0 pre) direction packet p c)
  /\ (exists pre direction raw_len packet p c post k',
        trace = pre ++ FwPacket direction raw_len packet p c :: post
        /\ fw_key (fw_run f0 pre) packet c = Some k' /\ (k = k' \/ k = reverse_key k')
        /\ fw_admits (fw_run f0 pre) direction raw_len packet p c
        /\ (t = fk_conntrack c \/ t = fk_open c)).

(** ** Lemmas *)
Lemma match_rules_head rules direction l4 p :
  match_rules rules direction l4 p
  = head (map fw_action (List.filter (fw_rule_matches direction l4 p) rules)).
Proof.
  unfold match_rules. induction rules as [|r l IH]; cbn; [done|]. by destruct (fw_rule_matches _ _ _ r).
Qed.

Lemma head_app {A} (l k : list A) : head (l ++ k) = match head l with Some x => Some x | None => head k end.
Proof. by destruct l. Qed.

Lemma fw_dispatch f direction raw_len packet src dst l4 p t :
  match match_rules (fe_local_rules f) direction l4 p with
  | Some act => apply_action f act raw_len packet src dst l4 t
  | None =>
      match match_rules (fe_suggested_rules f) direction l4 p with
      | Some act => apply_action f act raw_len packet src dst l4 t
      | None => apply_action f (default_policy direction l4 p) raw_len packet src dst l4 t
      end
  end = apply_action f (rules_say f direction l4 p) raw_len packet src dst l4 t.
Proof.
  rewrite !match_rules_head. unfold rules_say. rewrite List.filter_app, map_app, head_app.
  by repeat case_match.
Qed.

(** The reverse key of an ICMP packet is its forward key; otherwise it is the
    forward key reversed. *)
Lemma backward_key_spec src dst l4 k :
  forward_key src dst l4 = Some k ->
  exists r, backward_key src dst l4 = Some r /\ (r = k \/ r = reverse_key k).
Proof.
  unfold forward_key, backward_key. destruct (ip_number (l4_protocol l4)) as [n|] eqn:E; [|done].
  cbn. destruct (is_icmp _) eqn:Ei; intros [= <-]; [unfold forward_key; rewrite E; cbn; rewrite Ei|];
    eexists; split; [done|by left|done|by right].
Qed.

Lemma fw_evaluate_cases f direction raw_len packet p c v :
  fe_enabled f = true -> fw_view f packet c = Some v ->
  let f' := (fw_evaluate f direction raw_len packet p c).1 in
  let ct := fw_conntrack_allows (fe_conntrack f) direction v.1.1 v.1.2 v.2 (fk_conntrack c) in
  (ct.2 = true /\ fw_admits f direction raw_len packet p c /\ fe_conntrack f' = ct.1)
  \/ (ct.2 = false /\ rules_allow f direction packet p c /\ fw_admits f direction raw_len packet p c
      /\ fe_conntrack f'
         = match fw_key f packet c with
           | Some k => open_or_refresh_flow ct.1 k (l4_protocol v.2) (default 0 (l4_tcp_flags v.2)) (fk_open c)
           | None => ct.1
           end)
  \/ (ct.2 = false /\ ~ fw_admits f direction raw_len packet p c /\ fe_conntrack f' = ct.1).
Proof.
  intros He Hv. cbn zeta.
  assert (rules_allow f direction packet p c <-> rules_say f direction v.2 p = FwAllow) as ->
    by (unfold rules_allow; rewrite Hv; split; [intros (? & [= <-] & ?)|]; eauto).
  unfold fw_key. rewrite Hv. unfold fw_admits, fw_evaluate. rewrite He.
  unfold fw_view in Hv.
  destruct (v4_src (pk_ip packet)) as [src|]; [|done]. destruct (v4_dst (pk_ip packet)) as [dst|]; [|done].
  destruct (resolve _ _ _ _) as [fr [l4|]]; [|done]. cbn in Hv. injection Hv as <-.
  cbn [fst snd mbind option_bind negb].
  destruct (fw_conntrack_allows _ _ _ _ _ _) as [ct known]. cbn [fst snd].
  destruct known; [by left|]. right. rewrite fw_dispatch.
  change (rules_say (with_flows f ct fr) direction l4 p) with (rules_say f direction l4 p).
  destruct (rules_say f direction l4 p); cbn; [left|right; by split_and!..].
  split_and!; [done..|]. by case_match.
Qed.

Lemma fw_evaluate_skipped f direction raw_len packet p c :
  fe_enabled f = false \/ fw_view f packet c = None ->
  fe_conntrack (fw_evaluate f direction raw_len packet p c).1 = fe_conntrack f
  /\ (fw_admits f direction raw_len packet p c -> fe_enabled f = false).
Proof.
  unfold fw_admits, fw_evaluate, fw_view. destruct (fe_enabled f); [|done]. cbn [negb].
  intros [?|Hv]; [done|]. destruct (v4_src (pk_ip packet)); [|done].
  destruct (v4_dst (pk_ip packet)); [|done]. by destruct (resolve _ _ _ _) as [fr [l4|]].
Qed.

Lemma fw_conntrack_keyed f direction packet c v ct ok :
  fw_view f packet c = Some v ->
  fw_conntrack_allows (fe_conntrack f) direction v.1.1 v.1.2 v.2 (fk_conntrack c) = (ct, ok) ->
  match fw_key f packet c with
  | Some k => exists r, (r = k \/ r = reverse_key k)
      /\ conntrack_allows (fe_conntrack f) direction k r (default 0 (l4_tcp_flags v.2)) (fk_conntrack c) = (ct, ok)
  | None => ct = fe_conntrack f /\ ok = false
  end.
Proof.
  intros Hv. unfold fw_key, fw_conntrack_allows. rewrite Hv. cbn.
  destruct (forward_key _ _ _) as [k|] eqn:Ek; [|intros [= <- <-]; done].
  destruct (backward_key_spec _ _ _ _ Ek) as (r & -> & Hr). eauto.
Qed.

Lemma fw_run_snoc f0 trace ev : fw_run f0 (trace ++ [ev]) = fw_step (fw_run f0 trace) ev.
Proof. unfold fw_run. by rewrite foldl_app. Qed.

Lemma fw_opened_snoc f0 trace ev k t :
  ev <> FwFlush -> fw_opened f0 trace k t -> fw_opened f0 (trace ++ [ev]) k t.
Proof.
  intros Hev [(pre & d & n & q & p & c & post & -> & Hf & H) (pre' & d' & n' & q' & p' & c' & post' & k' & Heq & H')].
  split.
  - exists pre, d, n, q, p, c, (post ++ [ev]). split; [by rewrite <- app_assoc|]. split; [|done].
    apply Forall_app. auto.
  - exists pre', d', n', q', p', c', (post' ++ [ev]), k'. split; [|done]. rewrite Heq. by rewrite <- app_assoc.
Qed.

Lemma fw_opened_packet f0 trace direction raw_len packet p c :
  let f := fw_run f0 trace in
  let trace' := trace ++ [FwPacket direction raw_len packet p c] in
  tracked (fw_opened f0 trace) (fe_conntrack f) ->
  tracked (fw_opened f0 trace') (fe_conntrack (fw_evaluate f direction raw_len packet p c).1).
Proof.
  intros f trace' Ht.
  assert (tracked (fw_opened f0 trace') (fe_conntrack f)) as Ht'
    by (eapply tracked_mono; [|exact Ht]; intros k t; by apply fw_opened_snoc).
  destruct (fe_enabled f) eqn:He; [|rewrite (proj1 (fw_evaluate_skipped f _ _ _ _ _ (or_introl He))); done].
  destruct (fw_view f packet c) as [v|] eqn:Hv;
    [|rewrite (proj1 (fw_evaluate_skipped f _ _ _ _ _ (or_intror Hv))); done].
  pose proof (fw_evaluate_cases f direction raw_len packet p c v He Hv) as Hc. cbn zeta in Hc.
  destruct (fw_conntrack_allows _ _ _ _ _ _) as [ct ok] eqn:Ect.
  apply (fw_conntrack_keyed f direction packet c v _ _ Hv) in Ect. cbn [fst snd] in Hc.
  destruct (fw_key f packet c) as [k|] eqn:Hk;
    [|destruct Ect as [-> ->]; by destruct Hc as [(_ & _ & ->)|[(_ & _ & _ & ->)|(_ & _ & ->)]]].
  destruct Ect as (r & Hr & Ect).
  destruct Hc as [(-> & Ha & ->)|[(-> & Hp & Ha & ->)|(-> & _ & ->)]].
  - change ct with (ct, true).1. rewrite <- Ect. apply tracked_allows; [done|].
    intros k' t Hk' [Ho _]. split; [done|]. exists trace, direction, raw_len, packet, p, c, [], k.
    split_and!; [done|done| |done|by left]. destruct Hk' as [->| ->]; [by left|done].
  - apply tracked_open; [by eapply tracked_allows_false|]. split.
    + exists trace, direction, raw_len, packet, p, c, []. by split_and!; [|constructor|..].
    + exists trace, direction, raw_len, packet, p, c, [], k. split_and!; [done|done|by left|done|by right].
  - by eapply tracked_allows_false.
Qed.

Lemma fw_opened_run cfg self_ip trace :
  let f0 := from_config cfg self_ip in
  tracked (fw_opened f0 trace) (fe_conntrack (fw_run f0 trace)).
Proof.
  intros f0. induction trace as [|ev trace IH] using rev_ind; [apply tracked_nil|].
  rewrite fw_run_snoc.
  assert (ev <> FwFlush -> tracked (fw_opened f0 (trace ++ [ev])) (fe_conntrack (fw_run f0 trace))) as Hm
    by (intros; eapply tracked_mono; [|exact IH]; intros k t; by apply fw_opened_snoc).
  destruct ev; cbn [fw_step]; [by apply fw_opened_packet|by apply Hm|by apply Hm|apply tracked_nil
    |by apply Hm|by apply tracked_filter, Hm].
Qed.

(** ** Properties *)

(** C6: Every packet the local firewall lets through, whatever happened before,
    passes because the firewall is off, because the first matching local rule,
    else the first matching suggested rule, else the default policy allows it,
    or because it belongs to a flow of which a packet was so allowed since the
    connection table was last flushed and of which a packet passed within the
    last five minutes.  A deny or reject decision passes no packet outside
    such a flow. *)
Theorem firewall_admission_justified cfg self_ip trace direction raw_len packet p c :
  let f0 := from_config cfg self_ip in
  let f := fw_run f0 trace in
  fw_admits f direction raw_len packet p c ->
  fe_enabled f = false
  \/ rules_allow f direction packet p c
  \/ exists key k t, fw_key f packet c = Some key /\ (k = key \/ k = reverse_key key)
       /\ fw_opened f0 trace k t /\ fk_conntrack c - t <= TCP_ACTIVE_TTL.
Proof.
  intros f0 f Ha. pose proof (fw_opened_run cfg self_ip trace) as Ht. cbn zeta in Ht. fold f0 f in Ht.
  destruct (fe_enabled f) eqn:He; [right|by left].
  destruct (fw_view f packet c) as [v|] eqn:Hv;
    [|by apply (proj2 (fw_evaluate_skipped f _ _ _ _ _ (or_intror Hv))) in Ha; congruence].
  pose proof (fw_evaluate_cases f direction raw_len packet p c v He Hv) as Hc. cbn zeta in Hc.
  destruct (fw_conntrack_allows _ _ _ _ _ _) as [ct ok] eqn:Ect.
  apply (fw_conntrack_keyed f direction packet c v _ _ Hv) in Ect. cbn [fst snd] in Hc.
  destruct Hc as [(-> & _)|[(_ & Hp & _)|(_ & Hn & _)]]; [|by left|done]. right.
  destruct (fw_key f packet c) as [key|] eqn:Hk; [|by destruct Ect].
  destruct Ect as (r & Hr & Ect).
  apply (conntrack_allows_true (fw_opened f0 trace)) in Ect as (k & t & Hkk & Ho & Hd); [|exact Ht].
  exists key, k, t. split_and!; [done| |done|done]. destruct Hkk as [->| ->]; [by left|done].
Qed.

End Engine.

(** A filter shown by the command line is read back as the same filter,
    when its text has no white space at its ends. *)
Theorem peer_filter_roundtrip (p : PeerFilter) :
  rs_trim <$> peer_filter_display p = peer_filter_display p ->
  parse_peer_filter (peer_filter_display p) = p.
Proof.
  intros Ht. unfold parse_peer_filter. rewrite Ht. by destruct p.
Qed.

(** ** Samples *)
Definition sample_build (r : RejectReply) : option (list N) := None.
Definition no_uuid (s : string) : option Z := None.

Definition udp_packet (src dst sport dport : Z) : Packet :=
  mkPacket 60 (IpV4 src dst 17 0 20 64) NotFragmented (TUdp sport dport 32).

Definition fw_at (t : Z) : FwClock := mkFwClock t t t t.
Definition known_peer : Peer := mkFwPeer (Some "aa") (Some "db") (Some 7).

(** Deny everything inbound, added by the command. *)
Definition deny_inbound : result string FirewallConfig :=
  direct_firewall_add default_firewall "in" "deny" "any" None None.

Definition deny_all_in : FirewallConfig :=
  mkFwConfig true [mkFwRule FwIn FwDeny AnyProtocol [] PfAny] 2.

Lemma deny_inbound_ok : deny_inbound = Ok deny_all_in.
Proof. reflexivity. Qed.

Definition query : FwEvent := FwPacket Outbound 60 (udp_packet 1 2 5000 53) known_peer (fw_at 0).
Definition answer : Packet := udp_packet 2 1 53 5000.

Definition after_deny : FirewallEngine :=
  fw_run string_of_Z no_uuid sample_build (from_config default_firewall 1) [query; FwReload deny_all_in].

(** The answer to a query sent before the rule was added still passes. *)
Lemma firewall_admission_justified_witness :
  ~ rules_allow string_of_Z no_uuid after_deny Inbound answer known_peer (fw_at (secs 1))
  /\ exists key k t, fw_key after_deny answer (fw_at (secs 1)) = Some key /\ (k = key \/ k = reverse_key key)
       /\ fw_opened string_of_Z no_uuid sample_build (from_config default_firewall 1) [query; FwReload deny_all_in] k t.
Proof.
  assert (~ rules_allow string_of_Z no_uuid after_deny Inbound answer known_peer (fw_at (secs 1))) as Hn.
  { intros (v & Hv & Ha). vm_compute in Hv. injection Hv as <-. vm_compute in Ha. discriminate. }
  split; [exact Hn|].
  destruct (firewall_admission_justified string_of_Z no_uuid sample_build default_firewall 1
              [query; FwReload deny_all_in] Inbound 60 answer known_peer (fw_at (secs 1)))
    as [Hd|[Hp|(key & k & t & Hk & Hkk & Ho & _)]].
  - vm_compute. reflexivity.
  - vm_compute in Hd. discriminate.
  - exfalso. exact (Hn Hp).
  - exists key, k, t. exact (conj Hk (conj Hkk Ho)).
Defined.

Lemma peer_filter_roundtrip_witness :
  parse_peer_filter (Some "host:db") = PfHostname "db".
Proof. apply (peer_filter_roundtrip (PfHostname "db")). reflexivity. Defined.
