(* ===== verification/DataPlane.v ===== *)
(** * The packet loops of an agent

    One packet of [run_outbound] and of [serve_tunnel_connection] in
    [crates/tunnet-agent/src/tun_io.rs], with the anti-spoofing check and its
    counters ([crates/tunnet-core/src/direct/antispoof.rs]) and the cache of
    authenticated peers ([direct/auth.rs]).  The packet is what [packet::parse]
    returned; reading and writing devices and connections, queueing, metrics
    and the rewriting of SSH ports are left out. *)
From S2P Require Import Prelude PolicyTypes RustStd NetPolicy Packet Routing Conntrack Acl Firewall.
Local Open Scope Z_scope.

(** ** Authenticated peers *)
Record AuthCache := mkAuth { ac_inner : gmap string (gset Z); ac_version : Z }.

Definition empty_auth : AuthCache := mkAuth ∅ 0.

Definition auth_networks (a : AuthCache) (hex : string) : gset Z := default ∅ (ac_inner a !! hex).

Definition auth_insert (a : AuthCache) (hex : string) (nid : Z) : AuthCache :=
  let set := auth_networks a hex in
  mkAuth (<[hex := {[nid]} ∪ set]> (ac_inner a))
    (if decide (nid ∈ set) then ac_version a else inc_u64 (ac_version a)).

Definition auth_contains (a : AuthCache) (hex : string) : bool :=
  match ac_inner a !! hex with Some s => bool_decide (s <> ∅) | None => false end.

Definition contains_network (a : AuthCache) (hex : string) (nid : Z) : bool :=
  match ac_inner a !! hex with Some s => bool_decide (nid ∈ s) | None => false end.

Definition auth_remove (a : AuthCache) (hex : string) : AuthCache :=
  match ac_inner a !! hex with
  | Some _ => mkAuth (delete hex (ac_inner a)) (inc_u64 (ac_version a))
  | None => a
  end.

Definition auth_remove_network (a : AuthCache) (hex : string) (nid : Z) : AuthCache :=
  match ac_inner a !! hex with
  | None => a
  | Some set =>
      let set' := set ∖ {[nid]} in
      mkAuth (if decide (set' = ∅) then delete hex (ac_inner a) else <[hex := set']> (ac_inner a))
        (if decide (nid ∈ set) then inc_u64 (ac_version a) else ac_version a)
  end.

(** The hook on connections: [bootstrap] tells whether the protocol is one of
    those that must work before authentication. *)
Definition accept_outgoing (a : AuthCache) (bootstrap : bool) (hex : string) : bool :=
  bootstrap || auth_contains a hex.

Definition accept_incoming (a : AuthCache) (server_side bootstrap : bool) (hex : string) : bool :=
  negb server_side || bootstrap || auth_contains a hex.

(** ** Anti-spoofing *)
Definition source_matches_peer (packet_src peer_mesh_ip : Z) : bool := packet_src =? peer_mesh_ip.

Record SpoofTracker := mkSpoof {
  sp_by_peer : list (string * Z);
  sp_total : Z;
  sp_last_log : Z;
  sp_window : Z
}.

(** [Instant::now() - 120s] at creation. *)
Definition new_spoof (now : Z) : SpoofTracker := mkSpoof [] 0 (now - secs 120) (secs 60).

Definition spoof_record (s : SpoofTracker) (hex : string) (now : Z) : SpoofTracker * bool :=
  let n := default 0 (map_get (sp_by_peer s) hex) in
  let by_peer := map_set (sp_by_peer s) hex (inc_u64 n) in
  let warn := sp_window s <=? Z.max 0 (now - sp_last_log s) in
  (mkSpoof by_peer (inc_u64 (sp_total s)) (if warn then now else sp_last_log s) (sp_window s), warn).

Definition drain_window_counts (s : SpoofTracker) : SpoofTracker * list (string * Z) :=
  (mkSpoof (map (fun e => (e.1, 0)) (sp_by_peer s)) (sp_total s) (sp_last_log s) (sp_window s),
   List.filter (fun e => 0 <? e.2) (sp_by_peer s)).

(** ** PeerDNS in the tunnel *)
Definition VIRTUAL_RESOLVER_IP : Z := ip4 192 0 2 53.
Definition VIRTUAL_RESOLVER_PORT : Z := 53.

Definition targets_virtual_resolver (p : Packet) : bool :=
  bool_decide (v4_dst (pk_ip p) = Some VIRTUAL_RESOLVER_IP)
  && bool_decide (transport_dst_port (pk_transport p) = Some VIRTUAL_RESOLVER_PORT)
  && match pk_transport p with TUdp _ _ _ | TTcp _ _ _ _ _ _ _ => true | _ => false end.

Section Plane.
Context {L : IpNetLib} {NL : Ipv4NetLib} {M : PrefixMapLib Ipv4Net PeerInfo}.
Context (is_endpoint : string -> bool).
Context (uuid_text : Z -> string) (parse_uuid : string -> option Z).
Context (build_packet : RejectReply -> option (list N)).

(** The shared state of both loops; the routing table is the engine's. *)
Record Plane := mkPlane {
  pl_acl : AclEngine;
  pl_firewalls : gmap Z FirewallEngine;
  pl_spoofs : gmap Z SpoofTracker
}.

Definition pl_routes (s : Plane) : RoutingTable := ae_routes (pl_acl s).

Inductive Outcome :=
| Dropped (reason : string)
| RejectedWith (reason : string) (reply : list N)
| ToResolver
| SentTo (peer : PeerInfo)
| Delivered.

(** A packet as it arrives, with the clock readings of its evaluation. *)
Record Arrival := mkArrival {
  ar_packet : Packet;
  ar_raw_len : Z;
  ar_acl_clock : Clock;
  ar_fw_clock : FwClock;
  ar_spoof_now : Z
}.

(** The stage of the local firewall of a network, when it has one. *)
Definition through_firewall (s : Plane) (nid : option Z) (direction : Direction) (a : Arrival) (p : Peer)
    (deny_reason reject_reason : string) (pass : Outcome) : Plane * Outcome :=
  match nid ≫= fun n => (n,.) <$> pl_firewalls s !! n with
  | None => (s, pass)
  | Some (n, fw) =>
      let '(fw', r) := fw_evaluate uuid_text parse_uuid build_packet fw direction (ar_raw_len a) (ar_packet a) p (ar_fw_clock a) in
      let s' := mkPlane (pl_acl s) (<[n := fw']> (pl_firewalls s)) (pl_spoofs s) in
      (s', match r with
           | FwResAllow => pass
           | FwResDeny => Dropped deny_reason
           | FwResReject reply => RejectedWith reject_reason reply
           end)
  end.

(** ** Outbound *)
Definition outbound (s : Plane) (in_tun_dns : bool) (a : Arrival) : Plane * Outcome :=
  let pkt := ar_packet a in
  match v4_src (pk_ip pkt), v4_dst (pk_ip pkt) with
  | Some _, Some dst =>
      if in_tun_dns && targets_virtual_resolver pkt then (s, ToResolver)
      else if is_advertised_destination (pl_routes s) dst then (s, Dropped "local_subnet")
      else
        match lookup_ip (pl_routes s) dst with
        | None => (s, Dropped "no_route")
        | Some peer =>
            if pi_ip peer =? si_ip (ae_self_id (pl_acl s)) then (s, Dropped "self")
            else
              let '(acl, ok) := allow_packet (pl_acl s) (pi_endpoint_hex peer) Outbound pkt (ar_acl_clock a) in
              let s1 := mkPlane acl (pl_firewalls s) (pl_spoofs s) in
              if negb ok then (s1, Dropped "policy_deny")
              else
                through_firewall s1 (Some (pi_network_id peer)) Outbound a
                  (mkFwPeer (Some (pi_endpoint_hex peer)) (Some (pi_hostname peer)) (Some (pi_network_id peer)))
                  "fw_deny_out" "fw_reject_out" (SentTo peer)
        end
  | _, _ => (s, Dropped "ipv6_unsupported")
  end.

(** ** Inbound *)

(** The network of a connection, fixed when its reader starts: [auth] is what
    [networks_for] yields, when there is a cache. *)
Definition inbound_network (s : Plane) (auth : option (list Z)) (remote_hex : string) : option Z :=
  match auth ≫= head with
  | Some nid => Some nid
  | None => pi_network_id <$> lookup_endpoint (pl_routes s) remote_hex
  end.

(** The peer a packet is attributed to. *)
Definition attributed (s : Plane) (network : option Z) (remote_hex : string) (src : Z) : option PeerInfo :=
  match network ≫= fun nid => lookup_network_ip (pl_routes s) nid src with
  | Some p => Some p
  | None => lookup_endpoint (pl_routes s) remote_hex
  end.

(** Counting a spoofed packet; the counts are drained when a warning is due. *)
Definition note_spoof (s : Plane) (nid : Z) (remote_hex : string) (now : Z) : Plane :=
  match pl_spoofs s !! nid with
  | None => s
  | Some tracker =>
      let '(t1, warn) := spoof_record tracker remote_hex now in
      let t2 := if warn then (drain_window_counts t1).1 else t1 in
      mkPlane (pl_acl s) (pl_firewalls s) (<[nid := t2]> (pl_spoofs s))
  end.

Definition inbound (s : Plane) (network : option Z) (remote_hex : string) (a : Arrival) : Plane * Outcome :=
  let pkt := ar_packet a in
  match v4_src (pk_ip pkt) with
  | None => (s, Dropped "ipv6_unsupported_in")
  | Some src =>
      let peer_info := attributed s network remote_hex src in
      match match peer_info with
            | Some p => if negb (source_matches_peer src (pi_ip p)) then Some p else None
            | None => None
            end with
      | Some p => (note_spoof s (default (pi_network_id p) network) remote_hex (ar_spoof_now a), Dropped "antispoof")
      | None =>
          let '(acl, ok) := allow_packet (pl_acl s) remote_hex Inbound pkt (ar_acl_clock a) in
          let s1 := mkPlane acl (pl_firewalls s) (pl_spoofs s) in
          if negb ok then (s1, Dropped "policy_deny_in")
          else
            let peer_net := match pi_network_id <$> peer_info with Some n => Some n | None => network end in
            through_firewall s1 peer_net Inbound a
              (mkFwPeer (Some remote_hex) (pi_hostname <$> peer_info) peer_net)
              "fw_deny_in" "fw_reject_in" Delivered
      end
  end.

(** ** Lemmas *)
Definition firewall_passes (s : Plane) (nid : option Z) (direction : Direction) (a : Arrival) (p : Peer) : Prop :=
  forall n fw, nid = Some n -> pl_firewalls s !! n = Some fw ->
    fw_admits uuid_text parse_uuid build_packet fw direction (ar_raw_len a) (ar_packet a) p (ar_fw_clock a).

Lemma through_firewall_passes s nid direction a p dr rr pass :
  (forall r, pass <> Dropped r) -> (forall r b, pass <> RejectedWith r b) ->
  (through_firewall s nid direction a p dr rr pass).2 = pass <-> firewall_passes s nid direction a p.
Proof.
  intros Hd Hr. unfold through_firewall, firewall_passes, fw_admits.
  destruct nid as [n|]; cbn; [|by split].
  destruct (pl_firewalls s !! n) as [fw|] eqn:E; cbn; [|split; [intros _ n' fw' [= <-]; congruence|done]].
  destruct (fw_evaluate _ _ _ _ _ _ _ _ _) as [fw' r] eqn:Ef. cbn. split.
  - intros Hp n' fw'' [= <-]. rewrite E. intros [= <-]. rewrite Ef. cbn.
    destruct r; [done|by destruct (Hd dr)|by destruct (Hr rr reply)].
  - intros H. specialize (H n fw eq_refl E). rewrite Ef in H. cbn in H. by subst r.
Qed.

Lemma allow_packet_spec e hex direction packet c :
  (allow_packet e hex direction packet c).2 = true <-> admits e hex direction packet c.
Proof.
  unfold allow_packet, admits. destruct (evaluate_packet _ _ _ _ _) as [e' v]. cbn. apply bool_decide_eq_true.
Qed.

Lemma allow_packet_fst e hex direction packet c :
  (allow_packet e hex direction packet c).1 = (evaluate_packet e hex direction packet c).1.
Proof. unfold allow_packet. by destruct (evaluate_packet _ _ _ _ _). Qed.

(** A refused packet changes the flow table in nothing but the expiry of its
    own entry. *)
Lemma through_firewall_acl s nid direction a p dr rr pass :
  pl_acl (through_firewall s nid direction a p dr rr pass).1 = pl_acl s.
Proof. unfold through_firewall. case_match; [|done]. case_match. by case_match. Qed.

(** ** Properties *)

(** What the anti-spoofing check accepts as a source: the address of some member
    of the network the connection is bound to, whoever sent the packet; or the
    address of the first listing of the sender, when the sender is listed. *)
Definition source_accepted (s : Plane) (network : option Z) (remote_hex : string) (src : Z) : Prop :=
  (exists nid p, network = Some nid /\ p ∈ members is_endpoint (rt_slices (pl_routes s))
     /\ pi_network_id p = nid /\ pi_ip p = src)
  \/ (forall p, List.find (fun i => bool_decide (pi_endpoint_hex i = remote_hex))
                  (members is_endpoint (rt_slices (pl_routes s))) = Some p -> pi_ip p = src).

Lemma attributed_accepted s network remote_hex src :
  rt_reachable is_endpoint (pl_routes s) ->
  (forall p, attributed s network remote_hex src = Some p -> pi_ip p = src)
  <-> source_accepted s network remote_hex src.
Proof.
  intros (Hn & _ & He)%reachable_lookups. unfold attributed, source_accepted. rewrite He.
  destruct network as [nid|]; cbn [mbind option_bind].
  2: { split; [by right|]. intros [(? & ? & [=] & _)|H]; exact H. }
  rewrite Hn. destruct (find_last _ _) as [q|] eqn:Eq.
  - apply find_last_some in Eq as [Hin Hq%bool_decide_eq_true]. injection Hq as H1 H2.
    split; [|by intros _ p [= <-]]. intros _. left. by exists nid, q.
  - split; [by right|]. intros [(nid' & p & [= <-] & Hin & H1 & H2)|H]; [|exact H].
    edestruct (find_last_is_Some (fun i => bool_decide ((pi_network_id i, pi_ip i) = (nid, src)))) as [y Hy];
      [exact Hin|apply bool_decide_eq_true; congruence|congruence].
Qed.


(** C9: A packet of the device is sent to a peer exactly when it is IPv4 and not
    for the resolver, no subnet of this node contains its destination, the
    routing table leads to that peer and the peer is not this node, and the
    policy engine and the firewall of the peer's network let it through; it is
    then never multicast or broadcast. *)
Theorem outbound_gates s in_tun_dns a peer :
  let r := outbound s in_tun_dns a in
  (r.2 = SentTo peer <->
   exists dst, v4_dst (pk_ip (ar_packet a)) = Some dst /\ v4_src (pk_ip (ar_packet a)) <> None
     /\ in_tun_dns && targets_virtual_resolver (ar_packet a) = false
     /\ is_advertised_destination (pl_routes s) dst = false
     /\ lookup_ip (pl_routes s) dst = Some peer
     /\ pi_ip peer <> si_ip (ae_self_id (pl_acl s))
     /\ admits (pl_acl s) (pi_endpoint_hex peer) Outbound (ar_packet a) (ar_acl_clock a)
     /\ firewall_passes s (Some (pi_network_id peer)) Outbound a
          (mkFwPeer (Some (pi_endpoint_hex peer)) (Some (pi_hostname peer)) (Some (pi_network_id peer))))
  /\ (r.2 = SentTo peer -> forall dst, v4_dst (pk_ip (ar_packet a)) = Some dst ->
        is_multicast dst = false /\ is_broadcast dst = false).
Proof.
  cbn zeta. unfold outbound.
  destruct (v4_src _) as [src|]; [|split; [split; [done|by intros (? & _ & [] & _)]|done]].
  destruct (v4_dst _) as [dst|]; [|split; [split; [done|by intros (? & ? & _)]|done]].
  destruct (in_tun_dns && _); [split; [split; [done|by intros (? & _ & _ & ? & _)]|done]|].
  destruct (is_advertised_destination _ dst) eqn:Ead;
    [split; [split; [done|intros (? & [= <-] & _ & _ & ? & _); congruence]|done]|].
  destruct (lookup_ip _ dst) as [q|] eqn:El;
    [|split; [split; [done|intros (? & [= <-] & _ & _ & _ & ? & _); congruence]|done]].
  assert (is_multicast dst = false /\ is_broadcast dst = false) as Hm.
  { unfold lookup_ip in El. by destruct (is_multicast dst), (is_broadcast dst). }
  split; [|by intros _ dst' [= <-]].
  destruct (Z.eqb_spec (pi_ip q) (si_ip (ae_self_id (pl_acl s)))) as [Hself|Hself].
  { split; [done|]. intros (? & [= <-] & _ & _ & _ & Hl & Hne & _). destruct Hne. congruence. }
  pose proof (allow_packet_spec (pl_acl s) (pi_endpoint_hex q) Outbound (ar_packet a) (ar_acl_clock a)) as Ha.
  destruct (allow_packet _ _ _ _ _) as [acl ok]. cbn [snd] in Ha. destruct ok; cbn [negb].
  - assert (forall r, (through_firewall (mkPlane acl (pl_firewalls s) (pl_spoofs s)) (Some (pi_network_id q))
      Outbound a (mkFwPeer (Some (pi_endpoint_hex q)) (Some (pi_hostname q)) (Some (pi_network_id q)))
      "fw_deny_out" "fw_reject_out" (SentTo q)).2 = SentTo r -> r = q) as Hq
      by (intros r; unfold through_firewall; repeat case_match; cbn; intros; by simplify_eq).
    split.
    + intros Hs. pose proof (Hq _ Hs) as ->. apply through_firewall_passes in Hs; [|done..].
      exists dst. split_and!; [done..|by apply Ha|exact Hs].
    + intros (? & [= <-] & _ & _ & _ & Hl & _ & _ & Hf). assert (peer = q) as -> by congruence.
      by apply through_firewall_passes.
  - split; [done|]. intros (? & [= <-] & _ & _ & _ & Hl & _ & Hadm & _).
    assert (peer = q) as -> by congruence. by apply Ha in Hadm.
Qed.
End Plane.

(** ** Samples *)
#[local] Existing Instances sample_nets sample_v4nets sample_prefix_map.

(** Two members of network 7; only the laptop may use the web port. *)
Definition two_members : RoutingTable :=
  replace sample_endpoint new_routing
    [mkPeerEntry (ip4 100 64 0 2) "gw" "gateway" [] None; mkPeerEntry (ip4 100 64 0 3) "lap" "laptop" [] None]
    [] [] [] default_profile default_dns "corp" 7 "me" 1.

Definition web_from_laptop : PolicyBundle :=
  mkBundle [mkPolicyRule (SCidr (ip4 100 64 0 3, 32)) SAny Allow [mkPortRange 80 80] (Some Tcp) 100 0 Network true None []]
    [] 1 "" Deny IcmpDeny ∅ [] None.

Definition sample_plane : Plane := mkPlane (new_engine sample_self two_members web_from_laptop) ∅ ∅.

Definition arrive (p : Packet) : Arrival := mkArrival p 40 (at_time 0) (fw_at 0) 0.

Definition forged : Packet := tcp_packet (ip4 100 64 0 3) (ip4 100 64 0 1) 4000 80 TcpFlags.SYN.

(** The gateway's connection delivers a packet with the laptop's address, which
    the gateway's own address would not get past the policy: the peer is looked
    up by the source address of the packet and then compared with it. *)
Lemma forged_source_delivered :
  let inb := inbound string_of_Z no_uuid sample_build sample_plane (inbound_network sample_plane None "gw") "gw" in
  (inb (arrive forged)).2 = Delivered
  /\ (inb (arrive (tcp_packet (ip4 100 64 0 2) (ip4 100 64 0 1) 4000 80 TcpFlags.SYN))).2 = Dropped "policy_deny_in".
Proof. split; vm_compute; reflexivity. Qed.

Lemma two_members_reachable : rt_reachable sample_endpoint two_members.
Proof. eapply reach_step; [apply reach_new|apply step_replace]. Defined.


(** One peer in two networks: its packets on the second are dropped as spoofed
    when its connection was attributed to the first. *)
Definition shared_peer : RoutingTable :=
  replace_network sample_endpoint
    (replace_network sample_endpoint new_routing 1 [mkPeerEntry (ip4 100 64 0 2) "bb" "db" [] None]
       default_dns "one" "me" 1)
    2 [mkPeerEntry (ip4 100 65 0 2) "bb" "db" [] None] default_dns "two" "me" 2.

Definition shared_plane : Plane :=
  mkPlane (new_engine sample_self shared_peer (mkBundle [] [] 1 "" Allow IcmpAllow ∅ [] None)) ∅ ∅.

Lemma second_network_dropped :
  let from_second := arrive (tcp_packet (ip4 100 65 0 2) (ip4 100 65 0 1) 4000 80 TcpFlags.SYN) in
  let inb auth := inbound string_of_Z no_uuid sample_build shared_plane
                    (inbound_network shared_plane (Some auth) "bb") "bb" from_second in
  (inb [1; 2]).2 = Dropped "antispoof" /\ (inb [2; 1]).2 = Delivered.
Proof. split; vm_compute; reflexivity. Qed.
