(* ===== verification/RustEngine.v ===== *)
(** * The Rust policy engine ([crates/tunnet-policy-engine])

    The selectors, the simulator and the test runner of the command line, which
    compile a policy document to a bundle and ask the evaluator of the agent,
    and their agreement with the simulator of the management server
    ([Simulate]).  Both read the same document; [ir_of] is the document as the
    Rust types hold it.  The parser of address blocks is a parameter. *)
From S2P Require Import Prelude PolicyTypes Selector Simulate RustStd NetPolicy.
Local Open Scope Z_scope.

(** ** The document ([ir.rs]) *)
Record IrAclRule := mkIrAcl {
  ia_name : string;
  ia_slug : option string;
  ia_action : string;
  ia_src : list string;
  ia_dst : list string;
  ia_ports : list string;
  ia_protocol : option string;
  ia_priority : Z;
  ia_order_index : Z;
  ia_scope : option string;
  ia_posture : list string;
  ia_labels : list (string * string);
  ia_enabled : bool
}.

(** The remaining entities have the fields of their counterparts. *)
Record IrDocument := mkIr {
  ir_tags : list TagDefinition;
  ir_host_aliases : list HostAlias;
  ir_ip_sets : list IpSet;
  ir_acls : list IrAclRule;
  ir_postures : list PostureDefinition;
  ir_tests : list PolicyTest;
  ir_default_action : option string;
  ir_icmp_policy : option string
}.

Definition ia_key (a : IrAclRule) : string := default (ia_name a) (ia_slug a).

(** ** Selectors ([selector.rs]) *)
Section Engine.
Context {L : IpNetLib}.
(** [str::parse::<IpNet>]. *)
Context (parse_net : string -> option IpNet).

Inductive RsSelector :=
| RsAny
| RsEndpoint (id : string)
| RsTag (name : string)
| RsCidr (net : IpNet)
| RsUser (id : string)
| RsHostAlias (name : string)
| RsIpSet (name : string).

Definition is_endpoint_hex (s : string) : bool :=
  (16 <=? rs_len s)%nat && (rs_len s <=? 64)%nat && all_units is_ascii_hexdigit s.

Definition parse_selector (raw : string) : result string RsSelector :=
  let s := rs_trim raw in
  if (s =? "")%string then Err "empty selector"
  else if (s =? "*")%string then Ok RsAny
  else if startsWith s "group:user:" || startsWith s "group:device:" then
    Err ("invalid selector syntax: " +:+ s +:+ " (group selectors are no longer supported; use tag:)")
  else match strip_prefix "tag:" s with Some rest => Ok (RsTag rest) | None =>
       match strip_prefix "user:" s with Some rest => Ok (RsUser rest) | None =>
       match strip_prefix "host:" s with Some rest => Ok (RsHostAlias rest) | None =>
       match strip_prefix "ipset:" s with Some rest => Ok (RsIpSet rest) | None =>
       match parse_net s with Some net => Ok (RsCidr net) | None =>
       if is_endpoint_hex s then Ok (RsEndpoint s)
       else Err ("invalid selector syntax: " +:+ s)
       end end end end end.

Definition to_policy_selector (p : RsSelector) : NetPolicy.Selector :=
  match p with
  | RsAny => SAny
  | RsEndpoint id => SEndpoint id
  | RsTag name => STag name
  | RsCidr net => SCidr net
  | RsUser id => SUser id
  | RsHostAlias name => STag ("host:" +:+ name)
  | RsIpSet name => STag ("ipset:" +:+ name)
  end.

Definition simulation_tags (p : RsSelector) : list string :=
  match p with
  | RsAny | RsEndpoint _ | RsCidr _ => []
  | RsTag name => [name]
  | RsUser id => ["user:" +:+ id; id]
  | RsHostAlias name => ["host:" +:+ name]
  | RsIpSet name => ["ipset:" +:+ name]
  end.

Definition simulation_endpoint (p : RsSelector) : option string :=
  match p with RsEndpoint id => Some id | _ => None end.

(** ** The simulator ([simulate.rs]) *)
Definition parse_port (spec : string) : list PortRange :=
  match parse_u16 spec with
  | Some p => [mkPortRange p p]
  | None =>
      match split_once "-" spec with
      | Some (a, b) =>
          match parse_u16 a, parse_u16 b with
          | Some start, Some last => [mkPortRange start last]
          | _, _ => []
          end
      | None => []
      end
  end.

Definition parse_ports (specs : list string) : list PortRange := concat (map parse_port specs).

Definition parse_protocol (proto : string) : Protocol :=
  let p := to_ascii_lowercase proto in
  if (p =? "tcp")%string then Tcp
  else if (p =? "udp")%string then Udp
  else if (p =? "icmp")%string then Icmp
  else if (p =? "icmpv6")%string then Icmpv6
  else match parse_u8 p with Some n => OtherProtocol n | None => AnyProtocol end.

(** [parse_selector(s).map(to_policy_selector).unwrap_or(Selector::Any)] *)
Definition selector_or_any (s : string) : NetPolicy.Selector :=
  match parse_selector s with Ok p => to_policy_selector p | Err _ => SAny end.

Definition compile_rule (acl : IrAclRule) (src dst : string) : PolicyRule :=
  mkPolicyRule (selector_or_any src) (selector_or_any dst)
    (if (ia_action acl =? "deny")%string then Deny else Allow)
    (parse_ports (ia_ports acl))
    (parse_protocol <$> ia_protocol acl)
    (ia_priority acl) (ia_order_index acl)
    (if bool_decide (ia_scope acl = Some "organization") then Organization else Network)
    (ia_enabled acl) (Some (ia_key acl)) (ia_posture acl).

Definition star_if_empty (l : list string) : list string := match l with [] => ["*"] | _ => l end.

Definition compile_acl (acl : IrAclRule) : list PolicyRule :=
  concat (map (fun src => map (compile_rule acl src) (star_if_empty (ia_dst acl)))
            (star_if_empty (ia_src acl))).

Definition compile_acl_bundle (doc : IrDocument) : PolicyBundle * list string :=
  let enabled := List.filter ia_enabled (ir_acls doc) in
  (mkBundle (concat (map compile_acl enabled)) [] 1 ""
     (if bool_decide (ir_default_action doc = Some "deny") then Deny else Allow)
     (if bool_decide (ir_icmp_policy doc = Some "acl") then IcmpAcl
      else if bool_decide (ir_icmp_policy doc = Some "deny") then IcmpDeny else IcmpAllow)
     (list_to_map (map (fun p => (posture_name p, posture_assertions p)) (rev (ir_postures doc))))
     [] None,
   concat (map (fun acl => map (fun _ => ia_key acl) (compile_acl acl)) enabled)).

Record RsSimulateResult := mkRsResult {
  rs_verdict : action;
  rs_reason : EvalReason;
  rs_matched_rules : list string;
  rs_rule_slug : option string;
  rs_scope : option rule_scope
}.

Definition phase_of_rule (reason : EvalReason) (act : action) : bool :=
  match reason, act with
  | OrgDeny, Deny | NetworkDeny, Deny | NetworkAllow, Allow => true
  | _, _ => false
  end.

Definition matched_names (v : EvalVerdict) (names : list string) (rules : list PolicyRule) : list string :=
  match ev_reason v with
  | DefaultAllow | DefaultDeny => []
  | IcmpPolicyReason => ["builtin:icmp"]
  | _ =>
      match ev_rule_slug v with
      | Some slug => [slug]
      | None =>
          match List.find (fun e => bool_decide (Some (r_scope e.1) = ev_scope v)
                                    && phase_of_rule (ev_reason v) (r_action e.1))
                  (zip rules names) with
          | Some e => [e.2]
          | None => []
          end
      end
  end.

Definition or_any_selector (s : string) : RsSelector :=
  match parse_selector s with Ok p => p | Err _ => RsAny end.

Definition rs_context (src dst : string) (port : option Z) (proto : string) : EvalCtx :=
  let s := or_any_selector src in
  let d := or_any_selector dst in
  mkEvalCtx (default "aaaaaaaaaaaaaaaaaaaaaaaaaaaaaaaa" (simulation_endpoint s)) 167772161
    (simulation_tags s) ""
    (default "bbbbbbbbbbbbbbbbbbbbbbbbbbbbbbbb" (simulation_endpoint d)) (Some 167772162)
    (simulation_tags d) "" port (parse_protocol proto) true.

Definition simulate (doc : IrDocument) (src dst : string) (port : option Z) (proto : string) :
    RsSimulateResult :=
  let '(bundle, names) := compile_acl_bundle doc in
  let v := evaluate_detailed bundle (rs_context src dst port proto) Outbound in
  mkRsResult (ev_action v) (ev_reason v) (matched_names v names (b_rules bundle)) (ev_rule_slug v)
    (ev_scope v).

(** ** The test runner ([test_runner.rs]) *)
Definition split_dst (dst : string) : string * option Z * string :=
  match rsplit_once ":" dst with
  | Some (selector, last) =>
      let parts := split_unit "/" last in
      match parse_u16 (default last (head parts)) with
      | Some port => (selector, Some port, default "tcp" (parts !! 1%nat))
      | None => (dst, None, "tcp")
      end
  | None => (dst, None, "tcp")
  end.

(** Whether the destination gets the expected verdict. *)
Definition dst_ok (doc : IrDocument) (src : string) (expected : action) (dst : string) : bool :=
  let '(sel, port, proto) := split_dst dst in
  bool_decide (rs_verdict (simulate doc src sel port proto) = expected).

Definition run_test (doc : IrDocument) (test : PolicyTest) : bool :=
  forallb (dst_ok doc (test_src test) Allow) (test_accept test)
  && forallb (dst_ok doc (test_src test) Deny) (test_deny test).

(** The results without the messages of the failures. *)
Definition run_tests (doc : IrDocument) : Z * Z * list (string * bool) :=
  let results := map (fun t => (test_name t, run_test doc t)) (ir_tests doc) in
  (Z.of_nat (length (List.filter snd results)), Z.of_nat (length (List.filter (fun r => negb r.2) results)),
   results).

(** ** The document of the management server as the Rust types hold it *)
Definition scope_name (s : rule_scope) : string :=
  match s with Organization => "organization" | Network => "network" end.

Definition ir_acl (a : AclRule) : IrAclRule :=
  mkIrAcl (acl_name a) (acl_slug a) (acl_action a) (acl_src a) (acl_dst a) (acl_ports a)
    (match acl_protocol a with Value p => Some p | _ => None end)
    (acl_priority a) (acl_orderIndex a) (Some (scope_name (acl_scope a))) (acl_posture a)
    (acl_labels a) (acl_enabled a).

Definition ir_of (d : PolicyDocument) : IrDocument :=
  mkIr (tags d) (host_aliases d) (ip_sets d) (map ir_acl (acls d)) (postures d) (tests d)
    (Some (match default_action d with Allow => "allow" | Deny => "deny" end))
    (Some (match icmp_policy d with IcmpAllow => "allow" | IcmpAcl => "acl" | IcmpDeny => "deny" end)).

(** ** The documents both engines read alike *)
Definition low (s : string) : bool := (to_ascii_lowercase s =? s)%string.

Definition A64 : string := "aaaaaaaaaaaaaaaaaaaaaaaaaaaaaaaaaaaaaaaaaaaaaaaaaaaaaaaaaaaaaaaa".
Definition A32 : string := "aaaaaaaaaaaaaaaaaaaaaaaaaaaaaaaa".
Definition B32 : string := "bbbbbbbbbbbbbbbbbbbbbbbbbbbbbbbb".

(** The same selector in both engines: no address block and no network, names
    in lower case, and no endpoint that a simulator uses as a stand-in. *)
Definition corresponds (p : ParsedSelector) (q : RsSelector) : bool :=
  match p, q with
  | SelAny, RsAny => true
  | SelEndpoint a, RsEndpoint b =>
      (a =? b)%string && all_units is_hex a && low a
      && negb (existsb (String.eqb a) [A64; A32; B32])
  | SelTag a, RsTag b | SelUser a, RsUser b | SelHostAlias a, RsHostAlias b | SelIpSet a, RsIpSet b =>
      (a =? b)%string && low a
  | _, _ => false
  end.

Definition shared_selector (s : string) : bool :=
  match parseSelector s, parse_selector s with
  | Ok p, Ok q => corresponds p q
  | _, _ => false
  end.

Definition shared_protocol (p : string) : bool :=
  existsb (String.eqb p) ["tcp"; "udp"; "icmp"; "any"].

(** A single port in decimal notation. *)
Definition shared_port (spec : string) : bool :=
  match parseInt spec with
  | Some n => (0 <=? n) && (n <? 2 ^ 16) && (string_of_Z n =? spec)%string
  | None => false
  end.

Definition shared_acl (a : AclRule) : bool :=
  forallb shared_selector (or_any (acl_src a)) && forallb shared_selector (or_any (acl_dst a))
  && forallb shared_port (acl_ports a)
  && match acl_protocol a with Value p => (p =? "")%string || shared_protocol p | _ => true end.

Definition shared_document (d : PolicyDocument) : bool :=
  forallb shared_acl (List.filter acl_enabled (acls d)).

(** ** Lemmas *)
Lemma existsb_eqb v l : existsb (String.eqb v) l = bool_decide (v ∈ l).
Proof.
  induction l as [|x l IH]; cbn; [done|]. rewrite IH. apply eq_bool_prop_intro.
  rewrite orb_True, !bool_decide_spec, elem_of_cons. rewrite Is_true_true, String.eqb_eq. done.
Qed.

Lemma low_eq_ignore x y : low x = true -> low y = true -> eq_ignore_ascii_case x y = (x =? y)%string.
Proof. unfold low, eq_ignore_ascii_case. by intros ->%String.eqb_eq ->%String.eqb_eq. Qed.

Lemma hex_lower s : all_units is_hex s = true -> toLowerCase s = to_ascii_lowercase s.
Proof.
  induction s as [|c s IH]; cbn; [done|]. intros [Hc Hs]%andb_prop. rewrite IH by done. f_equal.
  clear IH Hs s. destruct c as [[] [] [] [] [] [] [] []]; first [vm_compute; reflexivity|discriminate Hc].
Qed.

Lemma low_app p s : low p = true -> low s = true -> low (p +:+ s) = true.
Proof.
  unfold low. rewrite !String.eqb_eq. intros Hp Hs.
  assert (forall a b, to_ascii_lowercase (a +:+ b) = to_ascii_lowercase a +:+ to_ascii_lowercase b) as Happ.
  { clear. intros a b. induction a as [|c a IH]; [done|]. rewrite !app_String. cbn. by rewrite IH. }
  by rewrite Happ, Hp, Hs.
Qed.

Lemma corresponds_tags p q : corresponds p q = true -> simulationTags p = simulation_tags q.
Proof. destruct p, q; cbn; try done; by intros [->%String.eqb_eq _]%andb_prop. Qed.

Lemma corresponds_tags_low p q t : corresponds p q = true -> t ∈ simulation_tags q -> low t = true.
Proof.
  destruct p, q; cbn; try done; rewrite ?elem_of_nil; try done;
    intros [->%String.eqb_eq Hl]%andb_prop; rewrite ?elem_of_cons, elem_of_nil; intros Ht;
    repeat destruct Ht as [->|Ht]; try done; by apply low_app.
Qed.

Lemma user_tags id tags :
  low id = true -> (forall t, t ∈ tags -> low t = true) ->
  user_tag_matches id tags = includes_tag tags ("user:" +:+ id) || includes_tag tags id.
Proof.
  intros Hid Ht. unfold user_tag_matches, includes_tag. rewrite <- !existsb_eqb.
  induction tags as [|t l IH]; [done|]. cbn [existsb]. rewrite IH by (intros; apply Ht; by right).
  rewrite low_eq_ignore by (first [done | apply Ht; left]).
  rewrite (String.eqb_sym t ("user:" +:+ id)), (String.eqb_sym t id).
  assert (forall a b c d : bool, (a || b) || (c || d) = (a || c) || (b || d)) as H by (by intros [] [] [] []).
  apply H.
Qed.

Lemma corresponds_endpoint a q :
  corresponds (SelEndpoint a) q = true ->
  q = RsEndpoint a /\ toLowerCase a = a /\ low a = true /\ a <> A64 /\ a <> A32 /\ a <> B32.
Proof.
  destruct q as [|b| | | | |]; try done. cbn [corresponds].
  intros [[[->%String.eqb_eq Hh]%andb_prop Hl]%andb_prop Hn%negb_true_iff]%andb_prop.
  rewrite existsb_eqb in Hn. apply bool_decide_eq_false in Hn.
  rewrite !elem_of_cons in Hn. rewrite hex_lower by done.
  pose proof Hl as ->%String.eqb_eq. naive_solver.
Qed.

Lemma selector_agrees rp rq sp sq X ip :
  corresponds rp rq = true -> corresponds sp sq = true -> X = A32 \/ X = B32 ->
  selectorMatches rp (endpointForSelector sp) (tagsForSelector sp)
  = matches_endpoint (to_policy_selector rq) (default X (simulation_endpoint sq)) (simulation_tags sq) "" ip.
Proof.
  intros Hr Hs HX. unfold tagsForSelector. rewrite (corresponds_tags sp sq Hs).
  pose proof (fun t => corresponds_tags_low sp sq t Hs) as Hlow.
  destruct rp as [|a|a| | |a|a|a]; [by destruct rq| | |by destruct rq|by destruct rq| | |].
  - apply corresponds_endpoint in Hr as (-> & Ha & Hla & Hn1 & Hn2 & Hn3). cbn. rewrite Ha.
    destruct (simulation_endpoint sq) as [w|] eqn:Ew.
    + destruct sq as [|w'| | | | |]; try done. injection Ew as <-.
      destruct sp as [|b| | | | | |]; try done. pose proof Hs as Hs'.
      apply corresponds_endpoint in Hs' as ([= <-] & Hw & Hlw & _). cbn. rewrite Hw.
      rewrite low_eq_ignore by done. apply String.eqb_sym.
    + assert (endpointForSelector sp = A64) as -> by (by destruct sp, sq).
      rewrite low_eq_ignore by (first [done | by destruct HX as [->| ->]]). cbn [default].
      change (toLowerCase A64) with A64.
      rewrite (proj2 (String.eqb_neq A64 a)) by congruence. symmetry. apply String.eqb_neq.
      by destruct HX as [->| ->].
  - destruct rq as [| |b| | | |]; try done. cbn in Hr. apply andb_prop in Hr as [->%String.eqb_eq _].
    cbn. by rewrite existsb_eqb.
  - destruct rq as [| | | |b| |]; try done. cbn in Hr. apply andb_prop in Hr as [->%String.eqb_eq Hl].
    cbn. by rewrite user_tags.
  - destruct rq as [| | | | |b|]; try done. cbn in Hr. apply andb_prop in Hr as [->%String.eqb_eq _].
    cbn. by rewrite existsb_eqb.
  - destruct rq as [| | | | | |b]; try done. cbn in Hr. apply andb_prop in Hr as [->%String.eqb_eq _].
    cbn. by rewrite existsb_eqb.
Qed.

(** *** Ports and protocols *)
Definition proto_of (p : protocol) : Protocol :=
  match p with ProtoTcp => Tcp | ProtoUdp => Udp | ProtoIcmp => Icmp | ProtoAny => AnyProtocol end.

Lemma shared_protocol_agrees p :
  shared_protocol p = true -> parse_protocol p = proto_of (parseProtocol p).
Proof.
  unfold shared_protocol. rewrite existsb_eqb, bool_decide_eq_true, !elem_of_cons, elem_of_nil.
  by intros [->|[->|[->|[->|[]]]]].
Qed.

Definition range_of (r : port_range) : PortRange := mkPortRange (range_start r) (range_end r).

Lemma shared_port_agrees spec :
  shared_port spec = true -> parse_port spec = map range_of (parsePort spec).
Proof.
  unfold shared_port, parsePort, parse_port. destruct (parseInt spec) as [n|]; [|done].
  intros [[H0 H1]%andb_prop Hs%String.eqb_eq]%andb_prop. rewrite <- Hs. unfold parse_u16.
  rewrite parse_unsigned_string_of_Z by lia. done.
Qed.

Lemma shared_ports_agree specs :
  forallb shared_port specs = true -> parse_ports specs = map range_of (parsePorts specs).
Proof.
  unfold parse_ports, parsePorts. induction specs as [|s l IH]; cbn; [done|].
  intros [Hs Hl]%andb_prop. by rewrite map_app, shared_port_agrees, IH.
Qed.

Lemma proto_port_agrees (r : PolicyRule) ports proto port (rp : protocol) :
  r_ports r = map range_of ports ->
  r_protocol r = None /\ rp = ProtoAny \/ r_protocol r = Some (proto_of rp) ->
  proto_port_ok r (proto_of proto) port
  = if bool_decide (rp <> ProtoAny) && bool_decide (rp <> proto) then false
    else portMatches ports port proto.
Proof.
  intros Hp Hr. unfold proto_port_ok, portMatches. rewrite Hp.
  assert (matches_rule (proto_of proto) (r_protocol r)
          = negb (bool_decide (rp <> ProtoAny) && bool_decide (rp <> proto))) as ->.
  { destruct Hr as [[-> ->]| ->]; [done|]. by destruct rp, proto. }
  rewrite negb_involutive. destruct (_ && _); [done|].
  assert (existsb (fun pr => port_contains pr (default 0 port)) (map range_of ports)
          = existsb (in_range (default 0 port)) ports) as He.
  { clear. induction ports as [|q l IH]; cbn; [done|]. by rewrite IH. }
  destruct proto; cbn in *; destruct ports as [|q l]; try done; by destruct port.
Qed.

(** *** Rules *)
Lemma shared_selector_inv s :
  shared_selector s = true ->
  exists p q, parseSelector s = Ok p /\ parse_selector s = Ok q /\ corresponds p q = true.
Proof. unfold shared_selector. intros H. repeat case_match; try done. eauto. Qed.

Lemma rule_agrees acl s d src dst port proto r sp sq :
  shared_acl acl = true -> s ∈ or_any (acl_src acl) -> d ∈ or_any (acl_dst acl) ->
  shared_selector src = true -> shared_selector dst = true -> shared_protocol proto = true ->
  parseSelector src = Ok sp -> parseSelector dst = Ok sq ->
  compileRule acl s d = Ok r ->
  ruleMatches r (mkTraffic (endpointForSelector sp) (tagsForSelector sp) (endpointForSelector sq)
                   (tagsForSelector sq) port (parseProtocol proto))
  = rule_matches_v4 (compile_rule (ir_acl acl) s d) (rs_context src dst port proto) Outbound.
Proof.
  intros Ha Hs Hd Hsrc Hdst Hproto Esrc Edst Hc.
  unfold shared_acl in Ha. apply andb_prop in Ha as [[[Has Had]%andb_prop Hports]%andb_prop Hpr].
  rewrite forallb_forall in Has, Had.
  destruct (shared_selector_inv s) as (ps & qs & Eps & Eqs & Cs); [apply Has; by apply list_elem_of_In|].
  destruct (shared_selector_inv d) as (pd & qd & Epd & Eqd & Cd); [apply Had; by apply list_elem_of_In|].
  destruct (shared_selector_inv src Hsrc) as (sp' & q1 & E1 & E1' & C1). ok_eq.
  destruct (shared_selector_inv dst Hdst) as (sq' & q2 & E2 & E2' & C2). ok_eq.
  unfold compileRule in Hc. rewrite Eps, Epd in Hc. cbn in Hc. injection Hc as <-.
  unfold rule_matches_v4, rule_matches_with, ruleMatches, compile_rule, rs_context, selector_or_any, or_any_selector.
  rewrite Eqs, Eqd, E1', E2'. cbn [ec_self_endpoint_hex ec_self_tags ec_self_network ec_self_ip
    ec_peer_endpoint_hex ec_peer_tags ec_peer_network ec_peer_ip r_src r_dst ec_protocol ec_dst_port
    cr_srcSelectors cr_dstSelectors existsb tf_srcEndpoint tf_srcTags tf_dstEndpoint tf_dstTags tf_proto tf_port
    cr_protocol cr_ports].
  rewrite !orb_false_r.
  rewrite (selector_agrees ps qs _ q1 A32 (Some 167772161) Cs C1) by auto.
  rewrite (selector_agrees pd qd _ q2 B32 (Some 167772162) Cd C2) by auto.
  destruct (negb _ || negb _); [done|]. rewrite shared_protocol_agrees by done.
  erewrite proto_port_agrees; [done|cbn; by apply shared_ports_agree|].
  cbn. unfold acl_parsed_protocol. destruct (acl_protocol acl) as [| |p]; [by left..|]. right. cbn. f_equal.
  apply orb_prop in Hpr as [->%String.eqb_eq|Hpr]; [done|].
  rewrite shared_protocol_agrees by done. destruct (p =? "")%string eqn:E; [|done].
  apply String.eqb_eq in E as ->. done.
Qed.

Lemma elem_of_bundle_rules doc r :
  r ∈ b_rules (compile_acl_bundle (ir_of doc)).1
  <-> exists acl s d, acl ∈ acls doc /\ acl_enabled acl = true
        /\ s ∈ or_any (acl_src acl) /\ d ∈ or_any (acl_dst acl) /\ r = compile_rule (ir_acl acl) s d.
Proof.
  cbn [compile_acl_bundle fst b_rules]. rewrite elem_of_concat_map. unfold ir_of. cbn [ir_acls].
  setoid_rewrite elem_of_filter_bool. setoid_rewrite list_elem_of_fmap. split.
  - intros (ia & [(acl & -> & Hin) Hen] & Hr). unfold compile_acl in Hr.
    apply elem_of_concat_map in Hr as (s & Hs & (d & -> & Hd)%list_elem_of_fmap). by exists acl, s, d.
  - intros (acl & s & d & Hin & Hen & Hs & Hd & ->). exists (ir_acl acl). split; [eauto|].
    unfold compile_acl. apply elem_of_concat_map. exists s. split; [done|]. apply list_elem_of_fmap. eauto.
Qed.

Lemma shared_acl_selectors acl s :
  shared_acl acl = true -> s ∈ or_any (acl_src acl) ++ or_any (acl_dst acl) -> shared_selector s = true.
Proof.
  unfold shared_acl. intros [[[Hs Hd]%andb_prop _]%andb_prop _]%andb_prop.
  rewrite forallb_forall in Hs, Hd. rewrite elem_of_app, !list_elem_of_In. naive_solver.
Qed.

Lemma shared_document_acl doc acl :
  shared_document doc = true -> acl ∈ acls doc -> acl_enabled acl = true -> shared_acl acl = true.
Proof.
  unfold shared_document. rewrite forallb_forall. intros H Hin He. apply H, list_elem_of_In.
  by apply elem_of_filter_bool.
Qed.

Lemma shared_document_compiles doc :
  shared_document doc = true -> exists rules, compileRules doc = Ok rules.
Proof.
  intros H. apply compileRules_Ok_iff. intros acl s Hin He Hs.
  destruct (shared_selector_inv s) as (p & _ & Hp & _); [|by exists p].
  eapply shared_acl_selectors; [by eapply shared_document_acl|done].
Qed.

(** The phases of both engines are decided by the same rules. *)
Lemma decided_settles doc rules src dst port proto sp sq scope act :
  shared_document doc = true -> shared_selector src = true -> shared_selector dst = true ->
  shared_protocol proto = true -> parseSelector src = Ok sp -> parseSelector dst = Ok sq ->
  compileRules doc = Ok rules ->
  decided rules (fun r => ruleMatches r (mkTraffic (endpointForSelector sp) (tagsForSelector sp)
     (endpointForSelector sq) (tagsForSelector sq) port (parseProtocol proto))) true scope act
  <-> settles (b_rules (compile_acl_bundle (ir_of doc)).1)
        (fun r => rule_matches_v4 r (rs_context src dst port proto) Outbound) true scope act.
Proof.
  intros Hd Hsrc Hdst Hp Es Ed Hc. unfold decided, settles.
  setoid_rewrite (elem_of_compileRules doc rules _ Hc). setoid_rewrite elem_of_bundle_rules.
  assert (forall acl s d r, compileRule acl s d = Ok r ->
            in_phase scope act r = phase_candidate scope act (compile_rule (ir_acl acl) s d)) as Hph.
  { intros acl s d r Hr. unfold compileRule in Hr. inv_ok. unfold in_phase, phase_candidate, compile_rule. cbn.
    by destruct (acl_scope acl). }
  split.
  - intros (r & (acl & s & d & Hin & He & Hs & Hdd & Hr) & Hip & Hm & _).
    exists (compile_rule (ir_acl acl) s d). split; [by exists acl, s, d|].
    rewrite <- (Hph acl s d r Hr). split; [done|]. split; [|apply orb_true_r].
    erewrite <- rule_agrees; eauto using shared_document_acl.
  - intros (r' & (acl & s & d & Hin & He & Hs & Hdd & ->) & Hip & Hm & _).
    assert (exists r, compileRule acl s d = Ok r) as [r Hr].
    { pose proof (shared_document_acl doc acl Hd Hin He) as Ha. apply compileRule_Ok_iff.
      split; [destruct (shared_selector_inv s) as (p & _ & ? & _)|destruct (shared_selector_inv d) as (p & _ & ? & _)];
        try (by exists p); eapply shared_acl_selectors; eauto; rewrite elem_of_app; auto. }
    exists r. split; [by exists acl, s, d|]. rewrite (Hph acl s d r Hr). split; [done|].
    split; [|apply orb_true_r]. erewrite rule_agrees; eauto using shared_document_acl.
Qed.

(** When the phases of the evaluator deny. *)
Lemma evaluate_phases_action bundle matcher a :
  (a = Allow ->
     ~ settles (b_rules bundle) matcher true Organization Deny
     /\ ~ settles (b_rules bundle) matcher true Network Deny
     /\ (settles (b_rules bundle) matcher true Network Allow \/ b_default_action bundle = Allow)) ->
  (a = Deny ->
     settles (b_rules bundle) matcher true Organization Deny
     \/ settles (b_rules bundle) matcher true Network Deny
     \/ (~ settles (b_rules bundle) matcher true Network Allow /\ b_default_action bundle = Deny)) ->
  ev_action (evaluate_phases bundle matcher true) = a.
Proof.
  pose proof (proj1 (evaluate_phases_spec bundle matcher true)) as HA. intros H1 H2. destruct a.
  - apply HA. auto.
  - destruct (ev_action _); [|done]. exfalso. destruct (proj1 HA eq_refl) as (Ho & Hn & Ha).
    destruct (H2 eq_refl) as [?|[?|[Hna Hd]]]; [done..|]. rewrite Hd in Ha. by destruct Ha.
Qed.

Lemma phases_agree doc rules src dst port proto sp sq :
  shared_document doc = true -> shared_selector src = true -> shared_selector dst = true ->
  shared_protocol proto = true -> parseSelector src = Ok sp -> parseSelector dst = Ok sq ->
  compileRules doc = Ok rules ->
  sr_verdict (evaluatePhases rules (fun rule => ruleMatches rule (mkTraffic (endpointForSelector sp)
      (tagsForSelector sp) (endpointForSelector sq) (tagsForSelector sq) port (parseProtocol proto)))
      (default_action doc) true)
  = ev_action (evaluate_phases (compile_acl_bundle (ir_of doc)).1
      (fun r => rule_matches_v4 r (rs_context src dst port proto) Outbound) true).
Proof.
  intros Hd Hsrc Hdst Hp Es Ed Hc. symmetry.
  pose proof (fun scope act => decided_settles doc rules src dst port proto sp sq scope act
                Hd Hsrc Hdst Hp Es Ed Hc) as Hds.
  set (m := fun rule => ruleMatches rule _) in *.
  pose proof (decided_mentioned rules m true) as Hdm.
  assert (b_default_action (compile_acl_bundle (ir_of doc)).1 = default_action doc) as Hda
    by (cbn; by destruct (default_action doc)).
  pose proof (evaluatePhases_verdict rules m (default_action doc) true) as V.
  apply evaluate_phases_action; rewrite Hda, <- ?Hds; intros E; rewrite E in V; inversion V; naive_solver.
Qed.

(** ** Properties *)

(** C37: The simulator of the management server and the one of the command line,
    which runs the evaluator of the agents, give the same verdict on every
    document and scenario written in what both read alike: selectors other
    than address blocks and networks, in lower case, single decimal ports, and
    the protocols tcp, udp, icmp and any. *)
Theorem engines_agree (doc : PolicyDocument) (src dst : string) (port : option Z) (proto : string) :
  shared_document doc = true -> shared_selector src = true -> shared_selector dst = true ->
  shared_protocol proto = true ->
  exists res, simulateDocument doc (mkScenario src dst port (Some proto) None) = Ok res
    /\ sr_verdict res = rs_verdict (simulate (ir_of doc) src dst port proto).
Proof.
  intros Hd Hsrc Hdst Hp. destruct (shared_document_compiles doc Hd) as [rules Hc].
  destruct (shared_selector_inv src Hsrc) as (sp & _ & Es & _).
  destruct (shared_selector_inv dst Hdst) as (sq & _ & Ed & _).
  unfold simulateDocument. cbn [sc_src sc_dst]. rewrite Hc, Es, Ed. cbn. eexists; split; [done|].
  unfold evaluateRules, simulate. cbn [rs_verdict compile_acl_bundle].
  set (bundle := mkBundle _ _ _ _ _ _ _ _ _). unfold evaluate_detailed, gate_icmp.
  change (ec_protocol _) with (parse_protocol proto). rewrite shared_protocol_agrees by done.
  assert (b_icmp_policy bundle = icmp_policy doc) as -> by (cbn; by destruct (icmp_policy doc)).
  pose proof (phases_agree doc rules src dst port proto sp sq Hd Hsrc Hdst Hp Es Ed Hc) as Hph.
  destruct (parseProtocol proto), (icmp_policy doc); first [exact Hph | reflexivity].
Qed.
End Engine.

(** ** Witness *)
#[local] Existing Instance sample_nets.

Definition no_net (_ : string) : option IpNet := None.

Definition shared_sample : PolicyDocument :=
  mkDocument [] [] []
    [sample_acl "staging" "allow" ["tag:eng"] ["tag:staging"] ["443"] (Value "tcp") Network;
     sample_acl "no-db" "deny" ["tag:eng"] ["tag:db"] [] (Value "tcp") Organization]
    [] [] [] [] [] [] Deny IcmpAllow.

Lemma engines_agree_witness :
  rs_verdict (simulate no_net (ir_of shared_sample) "tag:eng" "tag:staging" (Some 443) "tcp") = Allow
  /\ rs_verdict (simulate no_net (ir_of shared_sample) "tag:eng" "tag:db" (Some 443) "tcp") = Deny.
Proof.
  destruct (engines_agree no_net shared_sample "tag:eng" "tag:staging" (Some 443) "tcp")
    as (res & Hr & Hv); [vm_compute; reflexivity..|].
  destruct (engines_agree no_net shared_sample "tag:eng" "tag:db" (Some 443) "tcp")
    as (res' & Hr' & Hv'); [vm_compute; reflexivity..|].
  rewrite <- Hv, <- Hv'. vm_compute in Hr, Hr'.
  injection Hr as <-. injection Hr' as <-. split; reflexivity.
Defined.
